(** * fluid-sim-2d: the stable-fluids pipeline of [sim.js], [gl.js],
      [shaders.js] and [utils.js]

    The development follows the source files: GLSL built-ins and texture
    lookup, the fragment programs of [shaders.js], the GL context, then
    [utils.js], [gl.js] and [sim.js]; the properties come last.

    - Numbers.  JavaScript numbers and GLSL floats are kept abstract: the
      class [Scalar] lists the operations the program uses and assumes no
      law about them, so a statement proved for an arbitrary [Scalar] holds
      whatever the rounding of these operations is; [Scalar_R] is the
      instance of exact real arithmetic.  One type stands for both kinds of
      number: the conversion of a uniform from a JavaScript number to a GLSL
      float is not modelled.  Numbers that the program only uses as integers
      (texture sizes, iteration and level counts, the downsample divisor)
      are [Z].
    - GPU objects.  Textures live in a store indexed by object names.  A
      draw call evaluates the fragment program once per output texel, at the
      centre of the texel, reading the store as it was before the call; what
      it writes to a 16-bit float attachment goes through [quantize].  The
      canvas keeps the colours as the display program outputs them.
    - Effects.  Functions that talk to the GL context run in the state and
      error monad [M] over the context [Env]; a method of [FluidSimulation]
      takes the object and returns the updated object.  An exception ends
      the run with [Err]. *)

From Stdlib Require Import ZArith QArith Qround Qreals Reals Lra Lia List Bool.
From stdpp Require Import gmap.
Import ListNotations.

Close Scope R_scope.
Close Scope Q_scope.
Open Scope Z_scope.

(** ** Scalars *)

Class Scalar (F : Type) := {
  lit : Q -> F;              (* a numeric literal of the source text *)
  of_Z : Z -> F;             (* an integer used as a number *)
  fadd : F -> F -> F;
  fsub : F -> F -> F;
  fmul : F -> F -> F;
  fdiv : F -> F -> F;
  fneg : F -> F;
  fabs : F -> F;             (* abs, Math.abs *)
  fexp : F -> F;             (* exp *)
  fsqrt : F -> F;            (* sqrt, inside length *)
  fpow : F -> F -> F;        (* pow *)
  fmin : F -> F -> F;        (* min, Math.min *)
  fmax : F -> F -> F;        (* max, Math.max *)
  ffloor : F -> Z;           (* floor, Math.floor *)
  feqb : F -> F -> bool;     (* === on numbers *)
  fltb : F -> F -> bool;     (* < on numbers *)
  quantize : F -> F          (* rounding on a store to a 16-bit float channel *)
}.

Declare Scope float_scope.
Delimit Scope float_scope with fl.
Infix "+" := fadd : float_scope.
Infix "-" := fsub : float_scope.
Infix "*" := fmul : float_scope.
Infix "/" := fdiv : float_scope.
Notation "- x" := (fneg x) : float_scope.
Notation "x === y" := (feqb x y) (at level 70, no associativity) : float_scope.
Notation "x <? y" := (fltb x y) : float_scope.
Notation "x >? y" := (fltb y x) : float_scope.
Arguments lit {F _} q%_Q.

(** ** GLSL vectors *)

Record vec2 (F : Type) := V2 { vx : F; vy : F }.
Record vec3 (F : Type) := V3 { v3r : F; v3g : F; v3b : F }.
Record vec4 (F : Type) := V4 { cx : F; cy : F; cz : F; cw : F }.
Arguments V2 {F} _ _.
Arguments vx {F} _.
Arguments vy {F} _.
Arguments V3 {F} _ _ _.
Arguments v3r {F} _.
Arguments v3g {F} _.
Arguments v3b {F} _.
Arguments V4 {F} _ _ _ _.
Arguments cx {F} _.
Arguments cy {F} _.
Arguments cz {F} _.
Arguments cw {F} _.

(** The GLSL built-ins live in their own name space: [texture] and [clamp]
    are also JavaScript names of the program. *)
Module Glsl.
Section Vectors.
Context {F : Type} `{Scalar F}.
Local Open Scope float_scope.

Definition v2add (a b : vec2 F) : vec2 F := V2 (vx a + vx b) (vy a + vy b).
Definition v2sub (a b : vec2 F) : vec2 F := V2 (vx a - vx b) (vy a - vy b).
Definition v2mul (a b : vec2 F) : vec2 F := V2 (vx a * vx b) (vy a * vy b).
(* scalar * vec2 and vec2 * scalar; the operand order of the product is kept *)
Definition v2scale_l (k : F) (a : vec2 F) : vec2 F := V2 (k * vx a) (k * vy a).
Definition v2scale (a : vec2 F) (k : F) : vec2 F := V2 (vx a * k) (vy a * k).
Definition v2div (a : vec2 F) (k : F) : vec2 F := V2 (vx a / k) (vy a / k).
Definition dot2 (a b : vec2 F) : F := vx a * vx b + vy a * vy b.
Definition length2 (a : vec2 F) : F := fsqrt (dot2 a a).

Definition v3add (a b : vec3 F) : vec3 F :=
  V3 (v3r a + v3r b) (v3g a + v3g b) (v3b a + v3b b).
Definition v3scale (a : vec3 F) (k : F) : vec3 F :=
  V3 (v3r a * k) (v3g a * k) (v3b a * k).
Definition v3map (f : F -> F) (a : vec3 F) : vec3 F :=
  V3 (f (v3r a)) (f (v3g a)) (f (v3b a)).

Definition v4add (a b : vec4 F) : vec4 F :=
  V4 (cx a + cx b) (cy a + cy b) (cz a + cz b) (cw a + cw b).
Definition v4scale (a : vec4 F) (k : F) : vec4 F :=
  V4 (cx a * k) (cy a * k) (cz a * k) (cw a * k).

(* swizzles and constructors *)
Definition xy (a : vec4 F) : vec2 F := V2 (cx a) (cy a).
Definition rgb (a : vec4 F) : vec3 F := V3 (cx a) (cy a) (cz a).
Definition vec4_of3 (a : vec3 F) (w : F) : vec4 F := V4 (v3r a) (v3g a) (v3b a) w.
Definition vec4_of2 (a : vec2 F) (z w : F) : vec4 F := V4 (vx a) (vy a) z w.

(* clamp(x, lo, hi) is min(max(x, lo), hi) *)
Definition clamp (x lo hi : F) : F := fmin (fmax x lo) hi.
Definition clamp2 (a lo hi : vec2 F) : vec2 F :=
  V2 (clamp (vx a) (vx lo) (vx hi)) (clamp (vy a) (vy lo) (vy hi)).
End Vectors.
End Glsl.

(** ** WebGL objects: textures and sampling

    A texture object carries the parameters [createTexture] gives it (size,
    internal format, MIN/MAG filter; both wrap modes are always
    CLAMP_TO_EDGE) and one texel per integer position.  [texture] is the GLSL
    lookup of OpenGL ES 3.0 for these parameters. *)

Definition handle := nat.

Inductive internal_format := R16F | RG16F | RGBA16F.
Inductive tex_filter := NEAREST | LINEAR.

Record texture_object (F : Type) := TextureObject {
  tex_width : Z;
  tex_height : Z;
  tex_format : internal_format;
  tex_filtering : tex_filter;
  tex_data : Z -> Z -> vec4 F
}.
Arguments TextureObject {F} _ _ _ _ _.
Arguments tex_width {F} _.
Arguments tex_height {F} _.
Arguments tex_format {F} _.
Arguments tex_filtering {F} _.
Arguments tex_data {F} _ _ _.

(* what a sampler2D uniform sees: the texture bound to its unit, if any *)
Definition sampler2D (F : Type) := option (texture_object F).

(* CLAMP_TO_EDGE on a texel index *)
Definition clamp_index (n i : Z) : Z := Z.max 0 (Z.min (n - 1) i).

Module GlslTex.
Section Sampling.
Context {F : Type} `{Scalar F}.
Local Open Scope float_scope.
Import Glsl.

(* channels a format does not store read as 0, alpha as 1 *)
Definition expand (fmt : internal_format) (v : vec4 F) : vec4 F :=
  match fmt with
  | R16F => V4 (cx v) (lit 0) (lit 0) (lit 1)
  | RG16F => V4 (cx v) (cy v) (lit 0) (lit 1)
  | RGBA16F => v
  end.

(* a colour written to a 16-bit float attachment *)
Definition store_texel (v : vec4 F) : vec4 F :=
  V4 (quantize (cx v)) (quantize (cy v)) (quantize (cz v)) (quantize (cw v)).

Definition texel (t : texture_object F) (i j : Z) : vec4 F :=
  tex_data t (clamp_index (tex_width t) i) (clamp_index (tex_height t) j).

Definition mix (a b t : F) : F := a * (lit 1 - t) + b * t.
Definition mix4 (a b : vec4 F) (t : F) : vec4 F :=
  V4 (mix (cx a) (cx b) t) (mix (cy a) (cy b) t)
     (mix (cz a) (cz b) t) (mix (cw a) (cw b) t).

Definition texture (s : sampler2D F) (uv : vec2 F) : vec4 F :=
  match s with
  | None => V4 (lit 0) (lit 0) (lit 0) (lit 1)
  | Some t =>
      let u := vx uv * of_Z (tex_width t) in
      let v := vy uv * of_Z (tex_height t) in
      match tex_filtering t with
      | NEAREST => expand (tex_format t) (texel t (ffloor u) (ffloor v))
      | LINEAR =>
          let x := u - lit 0.5 in
          let y := v - lit 0.5 in
          let i0 := ffloor x in
          let j0 := ffloor y in
          let a := x - of_Z i0 in
          let b := y - of_Z j0 in
          expand (tex_format t)
            (mix4 (mix4 (texel t i0 j0) (texel t (i0 + 1) j0) a)
                  (mix4 (texel t i0 (j0 + 1)) (texel t (i0 + 1) (j0 + 1)) a) b)
      end
  end.

(* centre of output texel (i, j) of a w x h viewport: the value of vUv *)
Definition frag_uv (w h i j : Z) : vec2 F :=
  V2 ((of_Z i + lit 0.5) / of_Z w) ((of_Z j + lit 0.5) / of_Z h).
End Sampling.
End GlslTex.

(** ** shaders.js: the fragment programs

    Each definition is the [main] of the shader of the same name, as a
    function of its uniforms and of [vUv]. *)

Section Shaders.
Context {F : Type} `{Scalar F}.
Local Open Scope float_scope.
Import Glsl GlslTex.

Definition copyShader (uTexture : sampler2D F) (vUv : vec2 F) : vec4 F :=
  texture uTexture vUv.

Definition clearShader (uPressure : sampler2D F) (uDecay : F) (vUv : vec2 F) : vec4 F :=
  let pressure := cx (texture uPressure vUv) in
  V4 (pressure * uDecay) (lit 0) (lit 0) (lit 1).

Definition splatShader (uTarget : sampler2D F) (uPoint : vec2 F) (uRadius : F)
    (uValue : vec4 F) (uAspectRatio : F) (vUv : vec2 F) : vec4 F :=
  let diff := v2sub vUv uPoint in
  let diff := V2 (vx diff * uAspectRatio) (vy diff) in
  let dist := dot2 diff diff in
  let falloff := fexp (- dist / uRadius) in
  let base := texture uTarget vUv in
  v4add base (v4scale uValue falloff).

Definition advectionShader (uVelocity uSource : sampler2D F) (uTexelSize : vec2 F)
    (uDissipation uTimeStep : F) (vUv : vec2 F) : vec4 F :=
  let velocity := xy (texture uVelocity vUv) in
  let coord := v2sub vUv (v2mul (v2scale_l uTimeStep velocity) uTexelSize) in
  let coord := clamp2 coord (V2 (lit 0) (lit 0)) (V2 (lit 1) (lit 1)) in
  let result := texture uSource coord in
  v4scale result uDissipation.

Definition curlShader (uVelocity : sampler2D F) (uTexelSize : vec2 F)
    (vUv : vec2 F) : vec4 F :=
  let left := cy (texture uVelocity (v2sub vUv (V2 (vx uTexelSize) (lit 0)))) in
  let right := cy (texture uVelocity (v2add vUv (V2 (vx uTexelSize) (lit 0)))) in
  let bottom := cx (texture uVelocity (v2sub vUv (V2 (lit 0) (vy uTexelSize)))) in
  let top := cx (texture uVelocity (v2add vUv (V2 (lit 0) (vy uTexelSize)))) in
  let curl := right - left - (top - bottom) in
  V4 curl (lit 0) (lit 0) (lit 1).

Definition vorticityShader (uVelocity uCurl : sampler2D F) (uTexelSize : vec2 F)
    (uCurlStrength uDeltaTime : F) (vUv : vec2 F) : vec4 F :=
  let curlL := cx (texture uCurl (v2sub vUv (V2 (vx uTexelSize) (lit 0)))) in
  let curlR := cx (texture uCurl (v2add vUv (V2 (vx uTexelSize) (lit 0)))) in
  let curlB := cx (texture uCurl (v2sub vUv (V2 (lit 0) (vy uTexelSize)))) in
  let curlT := cx (texture uCurl (v2add vUv (V2 (lit 0) (vy uTexelSize)))) in
  let gradient := V2 (fabs curlT - fabs curlB) (fabs curlR - fabs curlL) in
  let gradient := v2div gradient (length2 gradient + lit 1e-5) in
  let curl := cx (texture uCurl vUv) in
  let force := v2scale (v2scale (V2 (vy gradient) (- vx gradient)) curl) uCurlStrength in
  let velocity := xy (texture uVelocity vUv) in
  vec4_of2 (v2add velocity (v2scale force uDeltaTime)) (lit 0) (lit 1).

Definition divergenceShader (uVelocity : sampler2D F) (uTexelSize : vec2 F)
    (vUv : vec2 F) : vec4 F :=
  let left := xy (texture uVelocity (v2sub vUv (V2 (vx uTexelSize) (lit 0)))) in
  let right := xy (texture uVelocity (v2add vUv (V2 (vx uTexelSize) (lit 0)))) in
  let bottom := xy (texture uVelocity (v2sub vUv (V2 (lit 0) (vy uTexelSize)))) in
  let top := xy (texture uVelocity (v2add vUv (V2 (lit 0) (vy uTexelSize)))) in
  let divergence := lit 0.5 * (vx right - vx left + vy top - vy bottom) in
  V4 divergence (lit 0) (lit 0) (lit 1).

Definition pressureShader (uPressure uDivergence : sampler2D F) (uTexelSize : vec2 F)
    (vUv : vec2 F) : vec4 F :=
  let left := cx (texture uPressure (v2sub vUv (V2 (vx uTexelSize) (lit 0)))) in
  let right := cx (texture uPressure (v2add vUv (V2 (vx uTexelSize) (lit 0)))) in
  let bottom := cx (texture uPressure (v2sub vUv (V2 (lit 0) (vy uTexelSize)))) in
  let top := cx (texture uPressure (v2add vUv (V2 (lit 0) (vy uTexelSize)))) in
  let divergence := cx (texture uDivergence vUv) in
  let pressure := (left + right + bottom + top - divergence) * lit 0.25 in
  V4 pressure (lit 0) (lit 0) (lit 1).

Definition gradientSubtractShader (uPressure uVelocity : sampler2D F)
    (uTexelSize : vec2 F) (vUv : vec2 F) : vec4 F :=
  let left := cx (texture uPressure (v2sub vUv (V2 (vx uTexelSize) (lit 0)))) in
  let right := cx (texture uPressure (v2add vUv (V2 (vx uTexelSize) (lit 0)))) in
  let bottom := cx (texture uPressure (v2sub vUv (V2 (lit 0) (vy uTexelSize)))) in
  let top := cx (texture uPressure (v2add vUv (V2 (lit 0) (vy uTexelSize)))) in
  let velocity := xy (texture uVelocity vUv) in
  let gradient := v2scale (V2 (right - left) (top - bottom)) (lit 0.5) in
  vec4_of2 (v2sub velocity gradient) (lit 0) (lit 1).

Definition toneMap (uExposure : F) (color : vec3 F) : vec3 F :=
  v3map (fun c => lit 1 - fexp (- c * uExposure)) color.

Definition displayShader (uTexture uBloom : sampler2D F) (uEnableBloom : bool)
    (uBloomIntensity uGamma uExposure : F) (vUv : vec2 F) : vec4 F :=
  let base := rgb (texture uTexture vUv) in
  let base :=
    if uEnableBloom
    then let bloom := rgb (texture uBloom vUv) in
         v3add base (v3scale bloom uBloomIntensity)
    else base in
  let toneMapped := toneMap uExposure base in
  let gammaCorrected := v3map (fun c => fpow c (lit 1 / uGamma)) toneMapped in
  vec4_of3 gammaCorrected (lit 1).

Definition bloomPrefilterShader (uTexture : sampler2D F) (uThreshold : F)
    (vUv : vec2 F) : vec4 F :=
  let color := rgb (texture uTexture vUv) in
  let brightness := fmax (fmax (v3r color) (v3g color)) (v3b color) in
  let weight := fmax (brightness - uThreshold) (lit 0) in
  vec4_of3 (v3scale color weight) (lit 1).

Definition bloomBlurShader (uTexture : sampler2D F) (uDirection uTexelSize : vec2 F)
    (vUv : vec2 F) : vec4 F :=
  let step := v2mul uDirection uTexelSize in
  let sum := v3scale (rgb (texture uTexture vUv)) (lit 0.2941176) in
  let sum := v3add sum
    (v3scale (rgb (texture uTexture (v2add vUv (v2scale step (lit 1.3333333)))))
             (lit 0.3529411)) in
  let sum := v3add sum
    (v3scale (rgb (texture uTexture (v2sub vUv (v2scale step (lit 1.3333333)))))
             (lit 0.3529411)) in
  vec4_of3 sum (lit 1).

Definition bloomCombineShader (uBase uBloom : sampler2D F) (vUv : vec2 F) : vec4 F :=
  let color := v3add (rgb (texture uBase vUv)) (rgb (texture uBloom vUv)) in
  vec4_of3 color (lit 1).
End Shaders.

(** ** The GL context

    [Env] is everything outside the simulation object that the program reads
    or writes: the GL object store, the drawing buffer of the canvas, the
    module variable [quadVAO] of [gl.js], and the stream of numbers that
    [Math.random] hands out.  [draw_log] is a ghost trace of the draw calls,
    oldest first. *)

(* a program together with the uniforms [setUniforms] binds for it; sampler
   uniforms are texture names *)
Inductive draw_call (F : Type) :=
| DrawCopy (uTexture : handle)
| DrawClear (uPressure : handle) (uDecay : F)
| DrawSplat (uTarget : handle) (uPoint : vec2 F) (uRadius : F) (uValue : vec4 F)
    (uAspectRatio : F)
| DrawAdvection (uVelocity uSource : handle) (uTexelSize : vec2 F)
    (uDissipation uTimeStep : F)
| DrawCurl (uVelocity : handle) (uTexelSize : vec2 F)
| DrawVorticity (uVelocity uCurl : handle) (uTexelSize : vec2 F)
    (uCurlStrength uDeltaTime : F)
| DrawDivergence (uVelocity : handle) (uTexelSize : vec2 F)
| DrawPressure (uPressure uDivergence : handle) (uTexelSize : vec2 F)
| DrawGradient (uPressure uVelocity : handle) (uTexelSize : vec2 F)
| DrawDisplay (uTexture uBloom : handle) (uEnableBloom : bool)
    (uBloomIntensity uGamma uExposure : F)
| DrawBloomPrefilter (uTexture : handle) (uThreshold : F)
| DrawBloomBlur (uTexture : handle) (uDirection uTexelSize : vec2 F)
| DrawBloomCombine (uBase uBloom : handle).
Arguments DrawCopy {F} _.
Arguments DrawClear {F} _ _.
Arguments DrawSplat {F} _ _ _ _ _.
Arguments DrawAdvection {F} _ _ _ _ _.
Arguments DrawCurl {F} _ _.
Arguments DrawVorticity {F} _ _ _ _ _.
Arguments DrawDivergence {F} _ _.
Arguments DrawPressure {F} _ _ _.
Arguments DrawGradient {F} _ _ _.
Arguments DrawDisplay {F} _ _ _ _ _ _.
Arguments DrawBloomPrefilter {F} _ _.
Arguments DrawBloomBlur {F} _ _ _.
Arguments DrawBloomCombine {F} _ _.

Record Env (F : Type) := MkEnv {
  next_name : handle;                       (* next fresh object name *)
  textures : gmap handle (texture_object F);
  fbos : gmap handle handle;                (* framebuffer -> COLOR_ATTACHMENT0 *)
  fbo_complete : internal_format -> Z -> Z -> bool; (* checkFramebufferStatus *)
  canvas_width : Z;                         (* gl.canvas.width, drawingBufferWidth *)
  canvas_height : Z;
  canvas_data : Z -> Z -> vec4 F;
  quadVAO : option handle;
  random_source : nat -> F;                 (* the values of Math.random, in order *)
  random_count : nat;
  draw_log : list (option handle * draw_call F)
}.
Arguments MkEnv {F} _ _ _ _ _ _ _ _ _ _ _.
Arguments next_name {F} _.
Arguments textures {F} _.
Arguments fbos {F} _.
Arguments fbo_complete {F} _ _ _ _.
Arguments canvas_width {F} _.
Arguments canvas_height {F} _.
Arguments canvas_data {F} _ _ _.
Arguments quadVAO {F} _.
Arguments random_source {F} _ _.
Arguments random_count {F} _.
Arguments draw_log {F} _.

Inductive error :=
| QuadNotInitialised        (* "Fullscreen quad not initialised." *)
| FramebufferIncomplete     (* "Framebuffer incomplete: ..." *)
| TypeError.                (* a property of null is read *)

Inductive result (A : Type) :=
| Ok (a : A)
| Err (e : error).
Arguments Ok {A} _.
Arguments Err {A} _.

Definition M (F A : Type) : Type := Env F -> result (A * Env F).

Definition ret {F A} (a : A) : M F A := fun e => Ok (a, e).
Definition bind {F A B} (c : M F A) (k : A -> M F B) : M F B :=
  fun e => match c e with
           | Ok (a, e') => k a e'
           | Err x => Err x
           end.
Definition throw {F A} (x : error) : M F A := fun _ => Err x.
Definition get_env {F} : M F (Env F) := fun e => Ok (e, e).
Definition put_env {F} (e : Env F) : M F unit := fun _ => Ok (tt, e).
(* reading a property of a value that may be null *)
Definition deref {F A} (o : option A) : M F A :=
  match o with Some a => ret a | None => throw TypeError end.

Declare Scope gl_scope.
Delimit Scope gl_scope with gl.
Notation "x <- c ;; k" := (bind c (fun x => k))
  (at level 100, c at next level, right associativity) : gl_scope.
Notation "c ;;; k" := (bind c (fun _ => k))
  (at level 100, right associativity) : gl_scope.

(* a counted loop [for (let i = 0; i < n; i++) body] whose body does not
   break: the body runs once for each integer i with 0 <= i < n *)
Fixpoint repeatM {F S} (n : nat) (body : S -> M F S) (s : S) : M F S :=
  match n with
  | O => ret s
  | S n' => (s' <- body s ;; repeatM n' body s')%gl
  end.

(* [forEach] over an array whose elements the callback may update *)
Fixpoint forEachM {F S A} (body : A -> S -> M F (A * S)) (l : list A) (s : S)
    : M F (list A * S) :=
  match l with
  | [] => ret ([], s)
  | a :: l' =>
      (r <- body a s ;;
       rest <- forEachM body l' (snd r) ;;
       ret (fst r :: fst rest, snd rest))%gl
  end.

Section EnvUpdates.
Context {F : Type}.

Definition with_next_name (e : Env F) (n : handle) : Env F :=
  MkEnv n (textures e) (fbos e) (fbo_complete e) (canvas_width e) (canvas_height e)
    (canvas_data e) (quadVAO e) (random_source e) (random_count e) (draw_log e).
Definition with_textures (e : Env F) (t : gmap handle (texture_object F)) : Env F :=
  MkEnv (next_name e) t (fbos e) (fbo_complete e) (canvas_width e) (canvas_height e)
    (canvas_data e) (quadVAO e) (random_source e) (random_count e) (draw_log e).
Definition with_fbos (e : Env F) (m : gmap handle handle) : Env F :=
  MkEnv (next_name e) (textures e) m (fbo_complete e) (canvas_width e) (canvas_height e)
    (canvas_data e) (quadVAO e) (random_source e) (random_count e) (draw_log e).
Definition with_canvas_data (e : Env F) (d : Z -> Z -> vec4 F) : Env F :=
  MkEnv (next_name e) (textures e) (fbos e) (fbo_complete e) (canvas_width e)
    (canvas_height e) d (quadVAO e) (random_source e) (random_count e) (draw_log e).
Definition with_random_count (e : Env F) (n : nat) : Env F :=
  MkEnv (next_name e) (textures e) (fbos e) (fbo_complete e) (canvas_width e)
    (canvas_height e) (canvas_data e) (quadVAO e) (random_source e) n (draw_log e).
Definition with_draw_log (e : Env F) (l : list (option handle * draw_call F)) : Env F :=
  MkEnv (next_name e) (textures e) (fbos e) (fbo_complete e) (canvas_width e)
    (canvas_height e) (canvas_data e) (quadVAO e) (random_source e) (random_count e) l.

(* gl.createTexture, gl.createFramebuffer: a fresh object name *)
Definition fresh_name : M F handle :=
  fun e => Ok (next_name e, with_next_name e (S (next_name e))).

(* Math.random() *)
Definition Math_random : M F F :=
  fun e => Ok (random_source e (random_count e),
               with_random_count e (S (random_count e))).
End EnvUpdates.

(** ** utils.js *)

Record Color (F : Type) := MkColor { col_r : F; col_g : F; col_b : F }.
Arguments MkColor {F} _ _ _.
Arguments col_r {F} _.
Arguments col_g {F} _.
Arguments col_b {F} _.

(* the object [createPointer] builds; [pid] is its field [id] *)
Record Pointer (F : Type) := MkPointer {
  pid : Z;
  down : bool;
  moved : bool;
  position : vec2 F;
  previous : vec2 F;
  delta : vec2 F;
  color : Color F
}.
Arguments MkPointer {F} _ _ _ _ _ _ _.
Arguments pid {F} _.
Arguments down {F} _.
Arguments moved {F} _.
Arguments position {F} _.
Arguments previous {F} _.
Arguments delta {F} _.
Arguments color {F} _.

Section Utils.
Context {F : Type} `{Scalar F}.
Local Open Scope float_scope.

(* the JavaScript [clamp] of utils.js *)
Definition clamp (value min max : F) : F := fmax min (fmin max value).

Definition lerp (a b t : F) : F := a + (b - a) * clamp t (lit 0.0) (lit 1.0).

Definition hsvToRgb (h s v : F) : F * F * F :=
  let i := ffloor (h * lit 6.0) in
  let f := h * lit 6.0 - of_Z i in
  let p := v * (lit 1.0 - s) in
  let q := v * (lit 1.0 - f * s) in
  let t := v * (lit 1.0 - (lit 1.0 - f) * s) in
  match Z.rem i 6 with
  | 0%Z => (v, t, p)
  | 1%Z => (q, v, p)
  | 2%Z => (p, v, t)
  | 3%Z => (p, q, v)
  | 4%Z => (t, p, v)
  | 5%Z => (v, p, q)
  | _ => (v, t, p)
  end.

Definition randomColor : M F (Color F) :=
  (h <- Math_random ;;
   s0 <- Math_random ;;
   v0 <- Math_random ;;
   let s := lit 0.6 + s0 * lit 0.4 in
   let v := lit 0.5 + v0 * lit 0.5 in
   let c := hsvToRgb h s v in
   ret (MkColor (fst (fst c)) (snd (fst c)) (snd c)))%gl.

Definition createPointer (id : Z) : M F (Pointer F) :=
  (c <- randomColor ;;
   ret (MkPointer id false false (V2 (lit 0) (lit 0)) (V2 (lit 0) (lit 0))
          (V2 (lit 0) (lit 0)) c))%gl.

Definition updatePointerCoordinates (pointer : Pointer F) (x y : F) (mouseDown : bool)
    : Pointer F :=
  let previous' := position pointer in
  let position' := V2 x y in
  let delta' := V2 (vx position' - vx previous') (vy position' - vy previous') in
  MkPointer (pid pointer) (down pointer) (negb mouseDown) position' previous' delta'
    (color pointer).
End Utils.

(** ** gl.js *)

Inductive pixel_format := RED | RG | RGBA.
Inductive pixel_type := HALF_FLOAT.

(* the render target object of [createFBO] *)
Record FBO (F : Type) := MkFBO {
  texture : handle;
  fbo : handle;
  width : Z;
  height : Z;
  internalFormat : internal_format;
  format : pixel_format;
  type : pixel_type;
  texelSize : vec2 F
}.
Arguments MkFBO {F} _ _ _ _ _ _ _ _.
Arguments texture {F} _.
Arguments fbo {F} _.
Arguments width {F} _.
Arguments height {F} _.
Arguments internalFormat {F} _.
Arguments format {F} _.
Arguments type {F} _.
Arguments texelSize {F} _.

(* the object of [createDoubleFBO] *)
Record DoubleFBO (F : Type) := MkDoubleFBO {
  read : FBO F;
  write : FBO F
}.
Arguments MkDoubleFBO {F} _ _.
Arguments read {F} _.
Arguments write {F} _.

Section Gl.
Context {F : Type} `{Scalar F}.
Local Open Scope float_scope.
Local Open Scope gl_scope.

Definition assignTexelSize (target : FBO F) : FBO F :=
  MkFBO (texture target) (fbo target) (width target) (height target)
    (internalFormat target) (format target) (type target)
    (V2 (lit 1.0 / of_Z (width target)) (lit 1.0 / of_Z (height target))).

(* storage allocated by texImage2D with a null source: all zero *)
Definition blank : Z -> Z -> vec4 F :=
  fun _ _ => V4 (lit 0) (lit 0) (lit 0) (lit 0).

Definition createTexture (width height : Z) (internalFormat : internal_format)
    (filtering : tex_filter) : M F handle :=
  texture <- fresh_name ;;
  e <- get_env ;;
  put_env (with_textures e
    (<[texture := TextureObject width height internalFormat filtering blank]>
       (textures e))) ;;;
  ret texture.

Definition createFBO (width height : Z) (internalFormat : internal_format)
    (format : pixel_format) (type : pixel_type) (filtering : tex_filter)
    : M F (FBO F) :=
  texture <- createTexture width height internalFormat filtering ;;
  fbo <- fresh_name ;;
  e <- get_env ;;
  put_env (with_fbos e (<[fbo := texture]> (fbos e))) ;;;
  if fbo_complete e internalFormat width height
  then ret (assignTexelSize
              (MkFBO texture fbo width height internalFormat format type
                 (V2 (lit 0) (lit 0))))
  else throw FramebufferIncomplete.

Definition createDoubleFBO (width height : Z) (internalFormat : internal_format)
    (format : pixel_format) (type : pixel_type) (filtering : tex_filter)
    : M F (DoubleFBO F) :=
  first <- createFBO width height internalFormat format type filtering ;;
  second <- createFBO width height internalFormat format type filtering ;;
  ret (MkDoubleFBO first second).

(* the method [swap] of the object made by [createDoubleFBO] *)
Definition swap (this : DoubleFBO F) : DoubleFBO F :=
  let tmp := read this in
  MkDoubleFBO (write this) tmp.

(* texImage2D on an existing texture: new storage in the given format, the
   sampling parameters are kept *)
Definition reallocate (width height : Z) (internalFormat : internal_format)
    (t : texture_object F) : texture_object F :=
  TextureObject width height internalFormat (tex_filtering t) blank.

Definition resizeFBO (target : FBO F) (width' height' : Z) : M F (FBO F) :=
  if (width target =? width')%Z && (height target =? height')%Z
  then ret target
  else
    e <- get_env ;;
    put_env (with_textures e
      (alter (reallocate width' height' (internalFormat target)) (texture target)
         (textures e))) ;;;
    ret (assignTexelSize
           (MkFBO (texture target) (fbo target) width' height'
              (internalFormat target) (format target) (type target)
              (texelSize target))).

Definition deleteFBO (target : option (FBO F)) : M F unit :=
  match target with
  | None => ret tt
  | Some target =>
      e <- get_env ;;
      put_env (with_fbos (with_textures e (delete (texture target) (textures e)))
                 (delete (fbo target) (fbos e)))
  end.

(* the fragment program of a draw call, with its samplers bound *)
Definition run_program (e : Env F) (d : draw_call F) (vUv : vec2 F) : vec4 F :=
  let tex (name : handle) : sampler2D F := textures e !! name in
  match d with
  | DrawCopy t => copyShader (tex t) vUv
  | DrawClear p decay => clearShader (tex p) decay vUv
  | DrawSplat t pt rad val asp => splatShader (tex t) pt rad val asp vUv
  | DrawAdvection v s ts dis dt => advectionShader (tex v) (tex s) ts dis dt vUv
  | DrawCurl v ts => curlShader (tex v) ts vUv
  | DrawVorticity v c ts str dt => vorticityShader (tex v) (tex c) ts str dt vUv
  | DrawDivergence v ts => divergenceShader (tex v) ts vUv
  | DrawPressure p dv ts => pressureShader (tex p) (tex dv) ts vUv
  | DrawGradient p v ts => gradientSubtractShader (tex p) (tex v) ts vUv
  | DrawDisplay t b en int gam ex => displayShader (tex t) (tex b) en int gam ex vUv
  | DrawBloomPrefilter t th => bloomPrefilterShader (tex t) th vUv
  | DrawBloomBlur t dir ts => bloomBlurShader (tex t) dir ts vUv
  | DrawBloomCombine b bl => bloomCombineShader (tex b) (tex bl) vUv
  end.

(* the texels a full-screen draw produces for a w x h viewport *)
Definition rendered (e : Env F) (d : draw_call F) (w h : Z) : Z -> Z -> vec4 F :=
  fun i j => run_program e d (GlslTex.frag_uv w h i j).

Definition write_texels (data : Z -> Z -> vec4 F) (t : texture_object F)
    : texture_object F :=
  TextureObject (tex_width t) (tex_height t) (tex_format t) (tex_filtering t)
    (fun i j => GlslTex.store_texel (data i j)).

(* what a draw call leaves behind when a target is bound: the colour
   attachment of its framebuffer receives one value per texel; a
   framebuffer or attachment that no longer exists receives nothing *)
Definition draw_to (t : FBO F) (d : draw_call F) (e : Env F) : Env F :=
  let e' :=
    match fbos e !! fbo t with
    | Some name =>
        with_textures e
          (alter (write_texels (rendered e d (width t) (height t)))
             name (textures e))
    | None => e
    end in
  with_draw_log e' (draw_log e ++ [(Some (fbo t), d)]).

(* the same for the default framebuffer, the canvas *)
Definition draw_canvas (d : draw_call F) (e : Env F) : Env F :=
  with_draw_log
    (with_canvas_data e (rendered e d (canvas_width e) (canvas_height e)))
    (draw_log e ++ [(None, d)]).

(* one full-screen pass *)
Definition blit (target : option (FBO F)) (d : draw_call F) : M F unit :=
  fun e =>
    match quadVAO e with
    | None => Err QuadNotInitialised
    | Some _ =>
        match target with
        | Some t => Ok (tt, draw_to t d e)
        | None => Ok (tt, draw_canvas d e)
        end
    end.

(* [blitMaterial] is set together with [quadVAO], which [blit] checks first *)
Definition copyTexture (target : FBO F) (sourceTexture : handle) : M F unit :=
  blit (Some target) (DrawCopy sourceTexture).
End Gl.

(** ** sim.js *)

Record Config (F : Type) := MkConfig {
  velocityDissipation : F;
  densityDissipation : F;
  pressureDecay : F;
  pressureIterations : Z;
  curlStrength : F;
  splatRadius : F;
  splatForce : F;
  texelDownsample : Z;
  paused : bool;
  cycleColors : bool;
  colorCycleSpeed : F;
  gamma : F;
  exposure : F;
  enableBloom : bool;
  bloomIntensity : F;
  bloomThreshold : F;
  bloomLevels : Z
}.
Arguments MkConfig {F} _ _ _ _ _ _ _ _ _ _ _ _ _ _ _ _ _.
Arguments velocityDissipation {F} _.
Arguments densityDissipation {F} _.
Arguments pressureDecay {F} _.
Arguments pressureIterations {F} _.
Arguments curlStrength {F} _.
Arguments splatRadius {F} _.
Arguments splatForce {F} _.
Arguments texelDownsample {F} _.
Arguments paused {F} _.
Arguments cycleColors {F} _.
Arguments colorCycleSpeed {F} _.
Arguments gamma {F} _.
Arguments exposure {F} _.
Arguments enableBloom {F} _.
Arguments bloomIntensity {F} _.
Arguments bloomThreshold {F} _.
Arguments bloomLevels {F} _.

Record BloomLevel (F : Type) := MkBloomLevel {
  buffer : FBO F;
  temp : FBO F
}.
Arguments MkBloomLevel {F} _ _.
Arguments buffer {F} _.
Arguments temp {F} _.

(* [this.framebuffers]; a field is [None] while it is null *)
Record Framebuffers (F : Type) := MkFramebuffers {
  velocity : option (DoubleFBO F);
  density : option (DoubleFBO F);
  pressure : option (DoubleFBO F);
  divergence : option (FBO F);
  curl : option (FBO F);
  bloom : list (BloomLevel F)
}.
Arguments MkFramebuffers {F} _ _ _ _ _ _.
Arguments velocity {F} _.
Arguments density {F} _.
Arguments pressure {F} _.
Arguments divergence {F} _.
Arguments curl {F} _.
Arguments bloom {F} _.

(* [this.simSize] and [this.canvasSize] *)
Record Size := MkSize { size_width : Z; size_height : Z }.

Record FluidSimulation (F : Type) := MkSim {
  config : Config F;
  framebuffers : Framebuffers F;
  simSize : Size;
  canvasSize : Size;
  autoTimer : F;
  colorCycleTimer : F;
  lastPointerColor : Color F
}.
Arguments MkSim {F} _ _ _ _ _ _ _.
Arguments config {F} _.
Arguments framebuffers {F} _.
Arguments simSize {F} _.
Arguments canvasSize {F} _.
Arguments autoTimer {F} _.
Arguments colorCycleTimer {F} _.
Arguments lastPointerColor {F} _.

Section SimUpdates.
Context {F : Type}.

Definition with_config (s : FluidSimulation F) (c : Config F) :=
  MkSim c (framebuffers s) (simSize s) (canvasSize s) (autoTimer s)
    (colorCycleTimer s) (lastPointerColor s).
Definition with_framebuffers (s : FluidSimulation F) (f : Framebuffers F) :=
  MkSim (config s) f (simSize s) (canvasSize s) (autoTimer s)
    (colorCycleTimer s) (lastPointerColor s).
Definition with_simSize (s : FluidSimulation F) (z : Size) :=
  MkSim (config s) (framebuffers s) z (canvasSize s) (autoTimer s)
    (colorCycleTimer s) (lastPointerColor s).
Definition with_canvasSize (s : FluidSimulation F) (z : Size) :=
  MkSim (config s) (framebuffers s) (simSize s) z (autoTimer s)
    (colorCycleTimer s) (lastPointerColor s).
Definition with_autoTimer (s : FluidSimulation F) (t : F) :=
  MkSim (config s) (framebuffers s) (simSize s) (canvasSize s) t
    (colorCycleTimer s) (lastPointerColor s).
Definition with_colorCycleTimer (s : FluidSimulation F) (t : F) :=
  MkSim (config s) (framebuffers s) (simSize s) (canvasSize s) (autoTimer s)
    t (lastPointerColor s).
Definition with_lastPointerColor (s : FluidSimulation F) (c : Color F) :=
  MkSim (config s) (framebuffers s) (simSize s) (canvasSize s) (autoTimer s)
    (colorCycleTimer s) c.

Definition with_velocity (f : Framebuffers F) (v : option (DoubleFBO F)) :=
  MkFramebuffers v (density f) (pressure f) (divergence f) (curl f) (bloom f).
Definition with_density (f : Framebuffers F) (v : option (DoubleFBO F)) :=
  MkFramebuffers (velocity f) v (pressure f) (divergence f) (curl f) (bloom f).
Definition with_pressure (f : Framebuffers F) (v : option (DoubleFBO F)) :=
  MkFramebuffers (velocity f) (density f) v (divergence f) (curl f) (bloom f).
Definition with_divergence (f : Framebuffers F) (v : option (FBO F)) :=
  MkFramebuffers (velocity f) (density f) (pressure f) v (curl f) (bloom f).
Definition with_curl (f : Framebuffers F) (v : option (FBO F)) :=
  MkFramebuffers (velocity f) (density f) (pressure f) (divergence f) v (bloom f).
Definition with_bloom (f : Framebuffers F) (v : list (BloomLevel F)) :=
  MkFramebuffers (velocity f) (density f) (pressure f) (divergence f) (curl f) v.

(* [this.framebuffers.velocity.swap()] and its siblings; the field is not
   null where the program calls them *)
Definition swap_velocity (s : FluidSimulation F) : FluidSimulation F :=
  with_framebuffers s
    (with_velocity (framebuffers s) (option_map swap (velocity (framebuffers s)))).
Definition swap_density (s : FluidSimulation F) : FluidSimulation F :=
  with_framebuffers s
    (with_density (framebuffers s) (option_map swap (density (framebuffers s)))).
Definition swap_pressure (s : FluidSimulation F) : FluidSimulation F :=
  with_framebuffers s
    (with_pressure (framebuffers s) (option_map swap (pressure (framebuffers s)))).
End SimUpdates.

(* [Math.max(2, Math.floor(value))]; the values passed are quotients of
   integers, which Q holds exactly (the divisor is not 0) *)
Definition ensureDimension (value : Q) : Z := Z.max 2 (Qfloor value).

Section Sim.
Context {F : Type} `{Scalar F}.
Local Open Scope float_scope.
Local Open Scope gl_scope.

Definition DEFAULT_CONFIG : Config F :=
  MkConfig (lit 0.995) (lit 0.98) (lit 0.915) 40 (lit 11.0) (lit 0.002)
    (lit 13800.0) 3 false true (lit 0.5) (lit 2.2) (lit 0.18) true (lit 0.2)
    (lit 0.6) 4.

(* [bloom.forEach((level) => { deleteFBO(gl, level.buffer); deleteFBO(gl, level.temp); })] *)
Fixpoint deleteLevels (l : list (BloomLevel F)) : M F unit :=
  match l with
  | [] => ret tt
  | level :: l' =>
      deleteFBO (Some (buffer level)) ;;;
      deleteFBO (Some (temp level)) ;;;
      deleteLevels l'
  end.

Definition deleteDouble (d : option (DoubleFBO F)) : M F unit :=
  match d with
  | Some v => deleteFBO (Some (read v)) ;;; deleteFBO (Some (write v))
  | None => ret tt
  end.

Definition dispose (this : FluidSimulation F) : M F (FluidSimulation F) :=
  let fb := framebuffers this in
  deleteDouble (velocity fb) ;;;
  deleteDouble (density fb) ;;;
  deleteDouble (pressure fb) ;;;
  deleteFBO (divergence fb) ;;;
  deleteFBO (curl fb) ;;;
  deleteLevels (bloom fb) ;;;
  ret (with_framebuffers this (with_bloom fb [])).

(* the loop of [_setupBloomBuffers]; [n] counts the iterations left *)
Fixpoint bloomLevelsLoop (n : nat) (width height : Z) (acc : list (BloomLevel F))
    : M F (list (BloomLevel F)) :=
  match n with
  | O => ret acc
  | S n' =>
      buffer <- createFBO width height RGBA16F RGBA HALF_FLOAT LINEAR ;;
      temp <- createFBO width height RGBA16F RGBA HALF_FLOAT LINEAR ;;
      let acc := acc ++ [MkBloomLevel buffer temp] in
      let width := ensureDimension (inject_Z width / 2) in
      let height := ensureDimension (inject_Z height / 2) in
      if (width =? 2)%Z || (height =? 2)%Z
      then ret acc
      else bloomLevelsLoop n' width height acc
  end.

Definition _setupBloomBuffers (baseWidth baseHeight : Z) (this : FluidSimulation F)
    : M F (FluidSimulation F) :=
  let levels := Z.max 1 (bloomLevels (config this)) in
  deleteLevels (bloom (framebuffers this)) ;;;
  let width := ensureDimension (inject_Z baseWidth / 2) in
  let height := ensureDimension (inject_Z baseHeight / 2) in
  chain <- bloomLevelsLoop (Z.to_nat levels) width height [] ;;
  ret (with_framebuffers this (with_bloom (framebuffers this) chain)).

Definition resizeDouble (d : option (DoubleFBO F)) (w h : Z)
    (internalFormat : internal_format) (format : pixel_format)
    (filtering : tex_filter) : M F (DoubleFBO F) :=
  match d with
  | None => createDoubleFBO w h internalFormat format HALF_FLOAT filtering
  | Some v =>
      r <- resizeFBO (read v) w h ;;
      wr <- resizeFBO (write v) w h ;;
      ret (MkDoubleFBO r wr)
  end.

Definition resizeSingle (t : option (FBO F)) (w h : Z) : M F (FBO F) :=
  match t with
  | None => createFBO w h R16F RED HALF_FLOAT NEAREST
  | Some t => resizeFBO t w h
  end.

Definition resize (width height : Z) (this : FluidSimulation F)
    : M F (FluidSimulation F) :=
  let this := with_canvasSize this (MkSize width height) in
  let simWidth :=
    ensureDimension (inject_Z width / inject_Z (texelDownsample (config this))) in
  let simHeight :=
    ensureDimension (inject_Z height / inject_Z (texelDownsample (config this))) in
  let dyeWidth := simWidth in
  let dyeHeight := simHeight in
  if (size_width (simSize this) =? simWidth)%Z
     && (size_height (simSize this) =? simHeight)%Z
  then ret this
  else
    let this := with_simSize this (MkSize simWidth simHeight) in
    let fb := framebuffers this in
    v <- resizeDouble (velocity fb) simWidth simHeight RG16F RG LINEAR ;;
    let fb := with_velocity fb (Some v) in
    d <- resizeDouble (density fb) dyeWidth dyeHeight RGBA16F RGBA LINEAR ;;
    let fb := with_density fb (Some d) in
    p <- resizeDouble (pressure fb) simWidth simHeight R16F RED NEAREST ;;
    let fb := with_pressure fb (Some p) in
    dv <- resizeSingle (divergence fb) simWidth simHeight ;;
    let fb := with_divergence fb (Some dv) in
    c <- resizeSingle (curl fb) simWidth simHeight ;;
    let fb := with_curl fb (Some c) in
    _setupBloomBuffers width width (with_framebuffers this fb).

(* [Object.assign(this.config, partial)]: some of the keys get new values *)
Definition updateConfig (partial : Config F -> Config F) (this : FluidSimulation F)
    : FluidSimulation F :=
  with_config this (partial (config this)).

Definition splat (x y dx dy : F) (color : Color F) (this : FluidSimulation F)
    : M F (FluidSimulation F) :=
  let config := config this in
  let aspect := of_Z (size_width (simSize this)) / of_Z (size_height (simSize this)) in
  (* Velocity impulse *)
  let velocityImpulse :=
    V4 (dx * splatForce config) (dy * splatForce config) (lit 0.0) (lit 0.0) in
  velocity <- deref (velocity (framebuffers this)) ;;
  blit (Some (write velocity))
    (DrawSplat (texture (read velocity)) (V2 x y) (splatRadius config)
       velocityImpulse aspect) ;;;
  let this := swap_velocity this in
  (* Colour injection *)
  let colorValue := V4 (col_r color) (col_g color) (col_b color) (lit 1.0) in
  density <- deref (density (framebuffers this)) ;;
  blit (Some (write density))
    (DrawSplat (texture (read density)) (V2 x y) (splatRadius config)
       colorValue aspect) ;;;
  let this := swap_density this in
  ret (with_lastPointerColor this color).

(* the pointer object is updated in place; the updated object is returned
   next to the simulation *)
Definition applyPointer (pointer : Pointer F) (randomizeColor : bool)
    (this : FluidSimulation F) : M F (Pointer F * FluidSimulation F) :=
  if negb (moved pointer) || negb (down pointer)
  then ret (pointer, this)
  else
    let dx := vx (delta pointer) in
    let dy := vy (delta pointer) in
    if (dx === lit 0) && (dy === lit 0)
    then ret (pointer, this)
    else
      pointer <-
        (if randomizeColor
         then c <- randomColor ;;
              ret (MkPointer (pid pointer) (down pointer) (moved pointer)
                     (position pointer) (previous pointer) (delta pointer) c)
         else ret pointer) ;;
      this <- splat (vx (position pointer)) (vy (position pointer)) dx dy
                (color pointer) this ;;
      ret (MkPointer (pid pointer) (down pointer) false (position pointer)
             (previous pointer) (delta pointer) (color pointer), this).

Definition _advectVelocity (deltaTime : F) (this : FluidSimulation F)
    : M F (FluidSimulation F) :=
  velocity <- deref (velocity (framebuffers this)) ;;
  blit (Some (write velocity))
    (DrawAdvection (texture (read velocity)) (texture (read velocity))
       (texelSize (read velocity)) (velocityDissipation (config this)) deltaTime) ;;;
  ret (swap_velocity this).

Definition _advectDye (deltaTime : F) (this : FluidSimulation F)
    : M F (FluidSimulation F) :=
  density <- deref (density (framebuffers this)) ;;
  velocity <- deref (velocity (framebuffers this)) ;;
  blit (Some (write density))
    (DrawAdvection (texture (read velocity)) (texture (read density))
       (texelSize (read density)) (densityDissipation (config this)) deltaTime) ;;;
  ret (swap_density this).

Definition _applyVorticity (deltaTime : F) (this : FluidSimulation F)
    : M F (FluidSimulation F) :=
  let curl := curl (framebuffers this) in
  velocity <- deref (velocity (framebuffers this)) ;;
  blit curl (DrawCurl (texture (read velocity)) (texelSize (read velocity))) ;;;
  curl <- deref curl ;;
  blit (Some (write velocity))
    (DrawVorticity (texture (read velocity)) (texture curl)
       (texelSize (read velocity)) (curlStrength (config this)) deltaTime) ;;;
  ret (swap_velocity this).

Definition _computeDivergence (this : FluidSimulation F) : M F (FluidSimulation F) :=
  velocity <- deref (velocity (framebuffers this)) ;;
  blit (divergence (framebuffers this))
    (DrawDivergence (texture (read velocity)) (texelSize (read velocity))) ;;;
  ret this.

(* the body of the loop of [_solvePressure] *)
Definition jacobiIteration (this : FluidSimulation F) : M F (FluidSimulation F) :=
  pressure <- deref (pressure (framebuffers this)) ;;
  divergence <- deref (divergence (framebuffers this)) ;;
  blit (Some (write pressure))
    (DrawPressure (texture (read pressure)) (texture divergence)
       (texelSize (read pressure))) ;;;
  ret (swap_pressure this).

Definition _solvePressure (this : FluidSimulation F) : M F (FluidSimulation F) :=
  pressure <- deref (pressure (framebuffers this)) ;;
  blit (Some (write pressure))
    (DrawClear (texture (read pressure)) (pressureDecay (config this))) ;;;
  let this := swap_pressure this in
  repeatM (Z.to_nat (pressureIterations (config this))) jacobiIteration this.

Definition _subtractPressureGradient (this : FluidSimulation F)
    : M F (FluidSimulation F) :=
  pressure <- deref (pressure (framebuffers this)) ;;
  velocity <- deref (velocity (framebuffers this)) ;;
  blit (Some (write velocity))
    (DrawGradient (texture (read pressure)) (texture (read velocity))
       (texelSize (read velocity))) ;;;
  ret (swap_velocity this).

(* [pointers.forEach((pointer) => this.applyPointer(pointer, ramdomizeColor))];
   the elements of the array are distinct objects *)
Definition applyPointers (pointers : list (Pointer F)) (ramdomizeColor : bool)
    (this : FluidSimulation F) : M F (list (Pointer F) * FluidSimulation F) :=
  forEachM (fun pointer this => applyPointer pointer ramdomizeColor this)
    pointers this.

Definition step (deltaTime : F) (pointers : list (Pointer F))
    (this : FluidSimulation F) : M F (list (Pointer F) * FluidSimulation F) :=
  let config := config this in
  if paused config
  then ret (pointers, this)
  else
    let this := with_autoTimer this (autoTimer this + deltaTime) in
    let this := with_colorCycleTimer this (colorCycleTimer this + deltaTime) in
    let ramdomizeColor :=
      cycleColors config && (colorCycleTimer this >? colorCycleSpeed config) in
    let this :=
      if ramdomizeColor then with_colorCycleTimer this (lit 0) else this in
    r <- applyPointers pointers ramdomizeColor this ;;
    let pointers := fst r in
    let this := snd r in
    let cappedDt := fmin deltaTime (lit 0.016) in
    this <- _advectVelocity cappedDt this ;;
    this <- _applyVorticity cappedDt this ;;
    this <- _computeDivergence this ;;
    this <- _solvePressure this ;;
    this <- _subtractPressureGradient this ;;
    this <- _advectDye cappedDt this ;;
    ret (pointers, this).

(* first loop of [_runBloom]: copy each level into the next one *)
Fixpoint bloomDownsample (previous : FBO F) (rest : list (BloomLevel F)) : M F unit :=
  match rest with
  | [] => ret tt
  | level :: rest' =>
      copyTexture (buffer level) (texture previous) ;;;
      bloomDownsample (buffer level) rest'
  end.

(* second loop: the two blur passes of every level *)
Fixpoint bloomBlur (levels : list (BloomLevel F)) : M F unit :=
  match levels with
  | [] => ret tt
  | level :: rest =>
      blit (Some (temp level))
        (DrawBloomBlur (texture (buffer level)) (V2 (lit 1.0) (lit 0.0))
           (texelSize (buffer level))) ;;;
      blit (Some (buffer level))
        (DrawBloomBlur (texture (temp level)) (V2 (lit 0.0) (lit 1.0))
           (texelSize (buffer level))) ;;;
      bloomBlur rest
  end.

(* third loop, from index length - 2 down to 0; [levels] lists these
   levels in the order the loop visits them *)
Fixpoint bloomCombine (levels : list (BloomLevel F)) (currentTexture : handle)
    : M F handle :=
  match levels with
  | [] => ret currentTexture
  | level :: rest =>
      blit (Some (temp level))
        (DrawBloomCombine (texture (buffer level)) currentTexture) ;;;
      copyTexture (buffer level) (texture (temp level)) ;;;
      bloomCombine rest (texture (buffer level))
  end.

Definition _runBloom (this : FluidSimulation F) : M F handle :=
  let bloom := bloom (framebuffers this) in
  match bloom with
  | [] =>
      density <- deref (density (framebuffers this)) ;;
      ret (texture (read density))
  | first :: rest =>
      density <- deref (density (framebuffers this)) ;;
      blit (Some (buffer first))
        (DrawBloomPrefilter (texture (read density))
           (bloomThreshold (config this))) ;;;
      bloomDownsample (buffer first) rest ;;;
      bloomBlur bloom ;;;
      bloomCombine (rev (removelast bloom))
        (texture (buffer (List.last bloom first))) ;;;
      ret (texture (buffer first))
  end.

Definition render (this : FluidSimulation F) : M F unit :=
  let config := config this in
  bloomTexture <-
    (if enableBloom config && (0 <? Z.of_nat (length (bloom (framebuffers this))))%Z
     then t <- _runBloom this ;; ret (Some t)
     else ret None) ;;
  density <- deref (density (framebuffers this)) ;;
  blit None
    (DrawDisplay (texture (read density))
       (match bloomTexture with
        | Some t => t
        | None => texture (read density)
        end)
       (enableBloom config) (bloomIntensity config) (gamma config)
       (exposure config)).

(* [new FluidSimulation(gl, config)]; [config] is the merged object
   [{ ...DEFAULT_CONFIG, ...config }].  [_createMaterials] builds the twelve
   programs of shaders.js, whose sources are fixed; building them is taken
   to succeed, and a draw call names its program by its constructor *)
Definition constructor (config : Config F) : M F (FluidSimulation F) :=
  lastPointerColor <- randomColor ;;
  e <- get_env ;;
  resize (canvas_width e) (canvas_height e)
    (MkSim config (MkFramebuffers None None None None None [])
       (MkSize 0 0) (MkSize 0 0) (lit 0) (lit 0) lastPointerColor).
End Sim.

(** ** Exact real arithmetic as an instance

    The operations over the real numbers: no rounding, [pow] with the value 0
    where GLSL leaves it undefined or the base is 0. *)

Definition R_eqb (x y : R) : bool := if Req_dec_T x y then true else false.
Definition R_ltb (x y : R) : bool := if Rlt_dec x y then true else false.
Definition R_pow (x y : R) : R := if Rle_dec x 0 then 0%R else Rpower x y.

#[export] Instance Scalar_R : Scalar R := {|
  lit := Q2R;
  of_Z := IZR;
  fadd := Rplus;
  fsub := Rminus;
  fmul := Rmult;
  fdiv := Rdiv;
  fneg := Ropp;
  fabs := Rabs;
  fexp := exp;
  fsqrt := sqrt;
  fpow := R_pow;
  fmin := Rmin;
  fmax := Rmax;
  ffloor := Int_part;
  feqb := R_eqb;
  fltb := R_ltb;
  quantize := fun x => x
|}.


(** ** A small simulation, used to run the definitions

    A 6 x 6 canvas with the default configuration: the simulation grid is
    2 x 2 and the bloom chain has the single level 3 x 3.  [sample_sim] and
    [sample_env] are the object and the context that the constructor
    produces from [sample_env0] (lemma [constructor_sample]). *)

Definition sample_env0 : Env R :=
  MkEnv 2%nat ∅ ∅ (fun _ _ _ => true) 6 6 blank (Some 0%nat) (fun _ => 0%R) 0%nat [].

Definition sample_fbo (name : handle) (w h : Z) (ifmt : internal_format)
    (fmt : pixel_format) : FBO R :=
  assignTexelSize (MkFBO name (S name) w h ifmt fmt HALF_FLOAT (V2 0%R 0%R)).

Definition sample_color : Color R :=
  let c := hsvToRgb 0%R (lit 0.6 + 0 * lit 0.4)%R (lit 0.5 + 0 * lit 0.5)%R in
  MkColor (fst (fst c)) (snd (fst c)) (snd c).

Definition sample_framebuffers : Framebuffers R :=
  MkFramebuffers
    (Some (MkDoubleFBO (sample_fbo 2%nat 2 2 RG16F RG) (sample_fbo 4%nat 2 2 RG16F RG)))
    (Some (MkDoubleFBO (sample_fbo 6%nat 2 2 RGBA16F RGBA) (sample_fbo 8%nat 2 2 RGBA16F RGBA)))
    (Some (MkDoubleFBO (sample_fbo 10%nat 2 2 R16F RED) (sample_fbo 12%nat 2 2 R16F RED)))
    (Some (sample_fbo 14%nat 2 2 R16F RED))
    (Some (sample_fbo 16%nat 2 2 R16F RED))
    [MkBloomLevel (sample_fbo 18%nat 3 3 RGBA16F RGBA) (sample_fbo 20%nat 3 3 RGBA16F RGBA)].

Definition sample_sim : FluidSimulation R :=
  MkSim DEFAULT_CONFIG sample_framebuffers (MkSize 2 2) (MkSize 6 6)
    (lit 0) (lit 0) sample_color.

Definition sample_textures : gmap handle (texture_object R) :=
  list_to_map
    [(2%nat, TextureObject 2 2 RG16F LINEAR blank);
     (4%nat, TextureObject 2 2 RG16F LINEAR blank);
     (6%nat, TextureObject 2 2 RGBA16F LINEAR blank);
     (8%nat, TextureObject 2 2 RGBA16F LINEAR blank);
     (10%nat, TextureObject 2 2 R16F NEAREST blank);
     (12%nat, TextureObject 2 2 R16F NEAREST blank);
     (14%nat, TextureObject 2 2 R16F NEAREST blank);
     (16%nat, TextureObject 2 2 R16F NEAREST blank);
     (18%nat, TextureObject 3 3 RGBA16F LINEAR blank);
     (20%nat, TextureObject 3 3 RGBA16F LINEAR blank)].

Definition sample_fbos : gmap handle handle :=
  list_to_map
    [(3%nat, 2%nat); (5%nat, 4%nat); (7%nat, 6%nat); (9%nat, 8%nat);
     (11%nat, 10%nat); (13%nat, 12%nat); (15%nat, 14%nat); (17%nat, 16%nat);
     (19%nat, 18%nat); (21%nat, 20%nat)].

Definition sample_env : Env R :=
  MkEnv 22%nat sample_textures sample_fbos (fun _ _ _ => true) 6 6 blank
    (Some 0%nat) (fun _ => 0%R) 3%nat [].

(* a pointer that is held down and has moved by (1, 0) *)
Definition sample_pointer : Pointer R :=
  MkPointer 1 true true (V2 (lit 0.5) (lit 0.5)) (V2 (lit 0.5) (lit 0.5))
    (V2 1%R 0%R) (MkColor 1%R 0%R 0%R).

(* a pointer that is held down and has not moved *)
Definition still_pointer : Pointer R :=
  MkPointer 2 true true (V2 (lit 0.5) (lit 0.5)) (V2 (lit 0.5) (lit 0.5))
    (V2 0%R 0%R) (MkColor 1%R 0%R 0%R).



(* the simulation size [resize] computes for one axis *)
Definition simWidthOf {F : Type} (width : Z) (this : FluidSimulation F) : Z :=
  ensureDimension (inject_Z width / inject_Z (texelDownsample (config this))).

(** ** Well-formed double buffers and reachable states *)

Section Invariants.
Context {F : Type} `{Scalar F}.

(* the two halves are different GL objects with the same size and format *)
Definition double_ok (d : DoubleFBO F) : Prop :=
  texture (read d) <> texture (write d) /\
  fbo (read d) <> fbo (write d) /\
  width (read d) = width (write d) /\
  height (read d) = height (write d) /\
  internalFormat (read d) = internalFormat (write d) /\
  format (read d) = format (write d) /\
  type (read d) = type (write d).

Definition field_ok (o : option (DoubleFBO F)) : Prop :=
  match o with
  | Some d => double_ok d
  | None => True
  end.

Definition fields_ok (this : FluidSimulation F) : Prop :=
  field_ok (velocity (framebuffers this)) /\
  field_ok (density (framebuffers this)) /\
  field_ok (pressure (framebuffers this)).

(* the states a simulation object goes through: built by the constructor,
   then driven through its public methods in any order *)
Inductive reachable : FluidSimulation F -> Env F -> Prop :=
| reach_constructor (config : Config F) (e0 : Env F) this e :
    constructor config e0 = Ok (this, e) -> reachable this e
| reach_resize (width height : Z) this e this' e' :
    reachable this e ->
    resize width height this e = Ok (this', e') -> reachable this' e'
| reach_step (deltaTime : F) (pointers pointers' : list (Pointer F)) this e this' e' :
    reachable this e ->
    step deltaTime pointers this e = Ok ((pointers', this'), e') ->
    reachable this' e'
| reach_render this e e' :
    reachable this e -> render this e = Ok (tt, e') -> reachable this e'
| reach_updateConfig (partial : Config F -> Config F) this e :
    reachable this e -> reachable (updateConfig partial this) e
| reach_dispose this e this' e' :
    reachable this e -> dispose this e = Ok (this', e') -> reachable this' e'.
End Invariants.

(** ** Reading the store, and the pressure solve as a sequence of passes *)

Section Passes.
Context {F : Type} `{Scalar F}.

(* the render target still has its framebuffer, attachment and texture *)
Definition attached (e : Env F) (t : FBO F) : Prop :=
  fbos e !! fbo t = Some (texture t) /\ is_Some (textures e !! texture t).

(* texel (i, j) of the texture called [name] *)
Definition texel_of (e : Env F) (name : handle) (i j : Z) : option (vec4 F) :=
  option_map (fun t => tex_data t i j) (textures e !! name).

(* the decay pass of the pressure solve *)
Definition decay_pass (p : DoubleFBO F) (decay : F) (e : Env F) : Env F :=
  draw_to (write p) (DrawClear (texture (read p)) decay) e.

(* one Jacobi pass from [read p] and the divergence into [write p] *)
Definition jacobi_pass (p : DoubleFBO F) (dv : FBO F) (e : Env F) : Env F :=
  draw_to (write p)
    (DrawPressure (texture (read p)) (texture dv) (texelSize (read p))) e.

(* n Jacobi passes, the double buffer swapped after each *)
Fixpoint jacobi_run (n : nat) (p : DoubleFBO F) (dv : FBO F) (e : Env F) : Env F :=
  match n with
  | O => e
  | S n' => jacobi_run n' (swap p) dv (jacobi_pass p dv e)
  end.

(* the simulation object with another pressure double buffer *)
Definition set_pressure (this : FluidSimulation F) (p : DoubleFBO F)
    : FluidSimulation F :=
  with_framebuffers this (with_pressure (framebuffers this) (Some p)).

(* the draw calls of these n passes *)
Fixpoint jacobi_log (n : nat) (p : DoubleFBO F) (dv : FBO F)
    : list (option handle * draw_call F) :=
  match n with
  | O => []
  | S n' =>
      (Some (fbo (write p)),
       DrawPressure (texture (read p)) (texture dv) (texelSize (read p)))
      :: jacobi_log n' (swap p) dv
  end.
End Passes.

(** ** The sizes of the bloom chain *)

(* the sizes the loop of [_setupBloomBuffers] gives to the levels it
   allocates, for [n] requested levels starting at width x height *)
Fixpoint bloom_sizes (n : nat) (width height : Z) : list (Z * Z) :=
  match n with
  | O => []
  | S n' =>
      (width, height)
      :: (let width' := ensureDimension (inject_Z width / 2) in
          let height' := ensureDimension (inject_Z height / 2) in
          if (width' =? 2) || (height' =? 2)
          then []
          else bloom_sizes n' width' height')
  end.

Definition level_size {F : Type} (level : BloomLevel F) : Z * Z :=
  (width (buffer level), height (buffer level)).

Definition temp_size {F : Type} (level : BloomLevel F) : Z * Z :=
  (width (temp level), height (temp level)).

(* the driver accepts every framebuffer the program asks for *)
Definition accepts_all {F : Type} (e : Env F) : Prop :=
  forall ifmt w h, fbo_complete e ifmt w h = true.

(* the texture [_runBloom] returns: the buffer of level 0 *)
Definition glow_texture {F : Type} (this : FluidSimulation F) (d : DoubleFBO F)
    : handle :=
  match bloom (framebuffers this) with
  | [] => texture (read d)
  | first :: _ => texture (buffer first)
  end.

(** ** Running a tick: when it cannot fail, and what it does to a pointer *)

Section Ticks.
Context {F : Type} `{Scalar F}.

(* the five fields have been allocated *)
Definition allocated (this : FluidSimulation F) : Prop :=
  is_Some (velocity (framebuffers this)) /\
  is_Some (density (framebuffers this)) /\
  is_Some (pressure (framebuffers this)) /\
  is_Some (divergence (framebuffers this)) /\
  is_Some (curl (framebuffers this)).

(* the test of [applyPointer]: the pointer is splatted *)
Definition splatted (pointer : Pointer F) : bool :=
  moved pointer && down pointer
  && negb ((vx (delta pointer) === lit 0)%fl && (vy (delta pointer) === lit 0)%fl).

(* a pointer object before and after [applyPointer] *)
Definition pointer_after (randomizeColor : bool) (p p' : Pointer F) : Prop :=
  pid p' = pid p /\
  down p' = down p /\
  position p' = position p /\
  previous p' = previous p /\
  delta p' = delta p /\
  (if splatted p
   then moved p' = false /\ (randomizeColor = false -> color p' = color p)
   else p' = p).
End Ticks.

(** ** Vorticity confinement as the specification words it

    The force of the specification: the gradient of |curl| from the four
    neighbours, divided by its length plus 1e-5, turned by 90 degrees
    (counter-clockwise or clockwise), scaled by the local curl and by
    [curlStrength]. *)

Section Confinement.
Context {F : Type} `{Scalar F}.
Local Open Scope float_scope.

Definition abs_curl_gradient (curlL curlR curlB curlT : F) : vec2 F :=
  V2 (fabs curlR - fabs curlL) (fabs curlT - fabs curlB).

Definition rotate90 (counterclockwise : bool) (a : vec2 F) : vec2 F :=
  if counterclockwise then V2 (- vy a) (vx a) else V2 (vy a) (- vx a).

Definition confinement_force (counterclockwise : bool)
    (curlL curlR curlB curlT curl uCurlStrength : F) : vec2 F :=
  let gradient := abs_curl_gradient curlL curlR curlB curlT in
  let normal := Glsl.v2div gradient (Glsl.length2 gradient + lit 1e-5) in
  Glsl.v2scale (Glsl.v2scale (rotate90 counterclockwise normal) curl) uCurlStrength.
End Confinement.

(* a 3 x 3 curl field: 1 at the centre texel and at its right neighbour,
   0 elsewhere *)
Definition ridge_curl : texture_object R :=
  TextureObject 3 3 R16F NEAREST
    (fun i j =>
       if (j =? 1) && ((i =? 1) || (i =? 2))
       then V4 1%R 0%R 0%R 1%R
       else V4 0%R 0%R 0%R 1%R).

(* the centre texel of a 3 x 3 target and the texel size of such a target *)
Definition centre : vec2 R := GlslTex.frag_uv 3 3 1 1.
Definition third : vec2 R := V2 (lit 1.0 / of_Z 3)%fl (lit 1.0 / of_Z 3)%fl.

(* a 2 x 2 pressure grid with the values 1 2 / 3 4 (row j = 0 first) and a
   divergence grid that is 0 everywhere *)
Definition pressure_1234 : texture_object R :=
  TextureObject 2 2 R16F NEAREST
    (fun i j => V4 (IZR (1 + i + 2 * j)) 0%R 0%R 1%R).

Definition divergence_zero : texture_object R :=
  TextureObject 2 2 R16F NEAREST (fun _ _ => V4 0%R 0%R 0%R 1%R).

(* the sample context with that pressure grid as [pressure.read] and that
   divergence grid *)
Definition sample_env_1234 : Env R :=
  with_textures sample_env
    (<[10%nat := pressure_1234]> (<[14%nat := divergence_zero]> sample_textures)).
(** ** Further states used to run the definitions *)

(* the context of [sample_env] before [createGLContext] has set [quadVAO] *)
Definition sample_env_noquad : Env R :=
  MkEnv 22%nat sample_textures sample_fbos (fun _ _ _ => true) 6 6 blank
    None (fun _ => 0%R) 3%nat [].

(* a context whose driver completes no framebuffer *)
Definition rejecting_env : Env R :=
  MkEnv 2%nat ∅ ∅ (fun _ _ _ => false) 6 6 blank (Some 0%nat) (fun _ => 0%R) 0%nat [].

(** ** What allocation leaves alone *)

(* two contexts that differ at most in their GL objects and in the next
   fresh name: same driver, canvas, quad, random stream and draw log *)
Definition same_outside_objects {F : Type} (e e' : Env F) : Prop :=
  fbo_complete e' = fbo_complete e /\
  canvas_width e' = canvas_width e /\
  canvas_height e' = canvas_height e /\
  canvas_data e' = canvas_data e /\
  quadVAO e' = quadVAO e /\
  random_source e' = random_source e /\
  random_count e' = random_count e /\
  draw_log e' = draw_log e.

(** ** The passes of a tick *)

Section TickPasses.
Context {F : Type} `{Scalar F}.

(* the impulses of a tick that [applyPointer] splats *)
Definition splat_count (pointers : list (Pointer F)) : nat :=
  length (List.filter splatted pointers).

(* the draw calls of a tick after its impulses, for the fields [v], [d],
   [p], [dv], [c] as they are when [_advectVelocity] starts *)
Definition tick_log (dt : F) (cfg : Config F) (v d p : DoubleFBO F) (dv c : FBO F)
    : list (option handle * draw_call F) :=
  let n := Z.to_nat (pressureIterations cfg) in
  [ (Some (fbo (write v)),
     DrawAdvection (texture (read v)) (texture (read v)) (texelSize (read v))
       (velocityDissipation cfg) dt);
    (Some (fbo c), DrawCurl (texture (write v)) (texelSize (write v)));
    (Some (fbo (read v)),
     DrawVorticity (texture (write v)) (texture c) (texelSize (write v))
       (curlStrength cfg) dt);
    (Some (fbo dv), DrawDivergence (texture (read v)) (texelSize (read v)));
    (Some (fbo (write p)), DrawClear (texture (read p)) (pressureDecay cfg)) ]
  ++ jacobi_log n (swap p) dv
  ++ [ (Some (fbo (write v)),
        DrawGradient (texture (read (Nat.iter (S n) swap p))) (texture (read v))
          (texelSize (read v)));
       (Some (fbo (write d)),
        DrawAdvection (texture (write v)) (texture (read d)) (texelSize (read d))
          (densityDissipation cfg) dt) ].
End TickPasses.


(** ** Where a run of passes draws *)

Section Targets.
Context {F : Type}.

(* the framebuffers of the bloom chain *)
Definition bloom_fbos (levels : list (BloomLevel F)) : list handle :=
  flat_map (fun level => [fbo (buffer level); fbo (temp level)]) levels.

(* from [e] to [e'], [n] passes were drawn, each into one of the
   framebuffers [targets]: only the attachments of these framebuffers
   changed, and the canvas did not *)
Definition draws_into (targets : list handle) (n : nat) (e e' : Env F) : Prop :=
  fbos e' = fbos e /\
  canvas_data e' = canvas_data e /\
  (forall name, (forall f, In f targets -> fbos e !! f <> Some name) ->
                textures e' !! name = textures e !! name) /\
  exists new,
    draw_log e' = draw_log e ++ new /\ length new = n /\
    Forall (fun pass => exists f, fst pass = Some f /\ In f targets) new.
End Targets.

(** ** Fields that agree with the simulation size *)

Section Coherence.
Context {F : Type} `{Scalar F}.

(* a render target of the simulation size and the given format whose
   [texelSize] is the one [assignTexelSize] computes from its size *)
Definition fbo_sized (s : Size) (ifmt : internal_format) (t : FBO F) : Prop :=
  width t = size_width s /\ height t = size_height s /\
  internalFormat t = ifmt /\
  texelSize t = V2 (lit 1.0 / of_Z (width t))%fl (lit 1.0 / of_Z (height t))%fl.

Definition single_sized (s : Size) (ifmt : internal_format) (o : option (FBO F))
    : Prop :=
  match o with
  | Some t => fbo_sized s ifmt t
  | None => True
  end.

Definition double_sized (s : Size) (ifmt : internal_format)
    (o : option (DoubleFBO F)) : Prop :=
  match o with
  | Some d => fbo_sized s ifmt (read d) /\ fbo_sized s ifmt (write d)
  | None => True
  end.

Definition fields_sized (this : FluidSimulation F) : Prop :=
  let fb := framebuffers this in
  let s := simSize this in
  double_sized s RG16F (velocity fb) /\
  double_sized s RGBA16F (density fb) /\
  double_sized s R16F (pressure fb) /\
  single_sized s R16F (divergence fb) /\
  single_sized s R16F (curl fb).
End Coherence.

(** ** The render targets a simulation holds, and the store

    [targets] lists the render targets of the object: the five fields and
    the bloom chain.  [owns] relates them to the GL context: the object
    names are pairwise distinct, every target is in the store with the size
    and format its object records, and the store holds nothing else that
    was not there in the context [e0] the constructor started from. *)

Section Ownership.
Context {F : Type} `{Scalar F}.

Definition double_targets (o : option (DoubleFBO F)) : list (FBO F) :=
  match o with
  | Some d => [read d; write d]
  | None => []
  end.

Definition single_targets (o : option (FBO F)) : list (FBO F) :=
  match o with
  | Some t => [t]
  | None => []
  end.

Definition level_targets (level : BloomLevel F) : list (FBO F) :=
  [buffer level; temp level].

Definition targets (this : FluidSimulation F) : list (FBO F) :=
  let fb := framebuffers this in
  double_targets (velocity fb) ++ double_targets (density fb)
  ++ double_targets (pressure fb) ++ single_targets (divergence fb)
  ++ single_targets (curl fb) ++ flat_map level_targets (bloom fb).

(* the textures bound to the sampler uniforms of a draw call *)
Definition inputs (d : draw_call F) : list handle :=
  match d with
  | DrawCopy t => [t]
  | DrawClear p _ => [p]
  | DrawSplat t _ _ _ _ => [t]
  | DrawAdvection v s _ _ _ => [v; s]
  | DrawCurl v _ => [v]
  | DrawVorticity v c _ _ _ => [v; c]
  | DrawDivergence v _ => [v]
  | DrawPressure p dv _ => [p; dv]
  | DrawGradient p v _ => [p; v]
  | DrawDisplay t b _ _ _ _ => [t; b]
  | DrawBloomPrefilter t _ => [t]
  | DrawBloomBlur t _ _ => [t]
  | DrawBloomCombine b bl => [b; bl]
  end.

(* from [e] to [e'] the context changed by draw calls and calls of
   [Math.random] only; every draw call with a target drew into one of [T]
   and sampled no texture that is the attachment of its own target *)
Inductive drawn (T : list (FBO F)) : Env F -> Env F -> Prop :=
| drawn_done e : drawn T e e
| drawn_target t d e e' :
    In t T -> ~ In (texture t) (inputs d) ->
    drawn T (draw_to t d e) e' -> drawn T e e'
| drawn_canvas d e e' : drawn T (draw_canvas d e) e' -> drawn T e e'
| drawn_random n e e' : drawn T (with_random_count e n) e' -> drawn T e e'.

(* the render target is in the store as its object describes it *)
Definition backed (e : Env F) (t : FBO F) : Prop :=
  fbos e !! fbo t = Some (texture t) /\
  exists o, textures e !! texture t = Some o /\
            tex_width o = width t /\ tex_height o = height t /\
            tex_format o = internalFormat t.

(* no object of [e0] has a name that is still to be handed out *)
Definition fresh_above (e0 : Env F) : Prop :=
  forall n, (next_name e0 <= n)%nat ->
            textures e0 !! n = None /\ fbos e0 !! n = None.

Definition owns (e0 : Env F) (T : list (FBO F)) (e : Env F) : Prop :=
  NoDup (map texture T) /\
  NoDup (map fbo T) /\
  Forall (backed e) T /\
  Forall (fun t => (next_name e0 <= texture t < next_name e)%nat /\
                   (next_name e0 <= fbo t < next_name e)%nat) T /\
  (next_name e0 <= next_name e)%nat /\
  (forall n, ~ In n (map texture T) -> textures e !! n = textures e0 !! n) /\
  (forall n, ~ In n (map fbo T) -> fbos e !! n = fbos e0 !! n).

(* the states of a simulation that is in use: built by the constructor
   from the context [e0], then resized, stepped, rendered and reconfigured
   in any order, and not disposed of *)
Inductive in_use (e0 : Env F) : FluidSimulation F -> Env F -> Prop :=
| use_constructor (config : Config F) this e :
    constructor config e0 = Ok (this, e) -> in_use e0 this e
| use_resize (width height : Z) this e this' e' :
    in_use e0 this e ->
    resize width height this e = Ok (this', e') -> in_use e0 this' e'
| use_step (deltaTime : F) (pointers pointers' : list (Pointer F)) this e this' e' :
    in_use e0 this e ->
    step deltaTime pointers this e = Ok ((pointers', this'), e') ->
    in_use e0 this' e'
| use_render this e e' :
    in_use e0 this e -> render this e = Ok (tt, e') -> in_use e0 this e'
| use_updateConfig (partial : Config F -> Config F) this e :
    in_use e0 this e -> in_use e0 (updateConfig partial this) e.

(* all five fields are there and no two render targets share a texture *)
Definition well_kept (this : FluidSimulation F) : Prop :=
  allocated this /\ NoDup (map texture (targets this)).

(* a run from [(this, e)] to [(this', e')] that keeps the set of render
   targets and changes the context by draw calls into them *)
Definition tracked (this : FluidSimulation F) (e : Env F)
    (this' : FluidSimulation F) (e' : Env F) : Prop :=
  well_kept this' /\ Permutation (targets this') (targets this) /\
  drawn (targets this) e e'.
End Ownership.

(** ** ui.js and main.js: pointer events and the frame

    The handlers of [_bindPointerEvents] as functions of the event and of
    the bounding rectangle of the canvas (the value of
    [canvas.getBoundingClientRect()] when the event arrives).  [this.pointers]
    is a JavaScript [Map] from pointer ids to pointer objects, kept in
    insertion order, which is the order [getPointers] lists the objects in.
    Pointer capture and [preventDefault] act on the page only; the GUI, the
    resize listener and the frame-rate display of [update] are left out. *)

Section Ui.
Context {F : Type} `{Scalar F}.
Local Open Scope float_scope.

(* the properties of a PointerEvent the handlers read; [button] is [None]
   when the property is undefined *)
Record PointerEvent := MkPointerEvent {
  button : option Z;
  pointerId : Z;
  clientX : F;
  clientY : F
}.

(* the properties left, top, width and height of a DOMRect *)
Record DOMRect := MkDOMRect {
  rect_left : F;
  rect_top : F;
  rect_width : F;
  rect_height : F
}.

(* utils.js *)
Definition getNormalizedPointer (event : PointerEvent) (rect : DOMRect) : vec2 F :=
  let x := clamp ((clientX event - rect_left rect) / rect_width rect)
             (lit 0.0) (lit 1.0) in
  let y := clamp (lit 1.0 - (clientY event - rect_top rect) / rect_height rect)
             (lit 0.0) (lit 1.0) in
  V2 x y.

(* Map.prototype.get, set and delete on the entries in insertion order: set
   on a key that is present replaces the value where it is *)
Fixpoint Map_get (key : Z) (m : list (Z * Pointer F)) : option (Pointer F) :=
  match m with
  | [] => None
  | (k, v) :: m' => if (k =? key)%Z then Some v else Map_get key m'
  end.

Fixpoint Map_set (key : Z) (value : Pointer F) (m : list (Z * Pointer F))
    : list (Z * Pointer F) :=
  match m with
  | [] => [(key, value)]
  | (k, v) :: m' =>
      if (k =? key)%Z then (key, value) :: m' else (k, v) :: Map_set key value m'
  end.

Fixpoint Map_delete (key : Z) (m : list (Z * Pointer F)) : list (Z * Pointer F) :=
  match m with
  | [] => []
  | (k, v) :: m' => if (k =? key)%Z then m' else (k, v) :: Map_delete key m'
  end.

Definition onPointerDown (event : PointerEvent) (rect : DOMRect)
    (pointers : list (Z * Pointer F)) : M F (list (Z * Pointer F)) :=
  let primary :=
    match button event with
    | Some b => (b =? 0)%Z
    | None => true
    end in
  if negb primary
  then ret pointers
  else
    (pointer <- createPointer (pointerId event) ;;
     let xy := getNormalizedPointer event rect in
     let pointer := updatePointerCoordinates pointer (vx xy) (vy xy) true in
     let pointer :=
       MkPointer (pid pointer) true (moved pointer) (position pointer)
         (previous pointer) (delta pointer) (color pointer) in
     ret (Map_set (pointerId event) pointer pointers))%gl.

(* the pointer object is updated in place: it keeps its place in the Map *)
Definition onPointerMove (event : PointerEvent) (rect : DOMRect)
    (pointers : list (Z * Pointer F)) : list (Z * Pointer F) :=
  match Map_get (pointerId event) pointers with
  | None => pointers
  | Some pointer =>
      let xy := getNormalizedPointer event rect in
      Map_set (pointerId event)
        (updatePointerCoordinates pointer (vx xy) (vy xy) false) pointers
  end.

(* also the handler of pointercancel; the object it clears is dropped *)
Definition onPointerUp (event : PointerEvent) (pointers : list (Z * Pointer F))
    : list (Z * Pointer F) :=
  match Map_get (pointerId event) pointers with
  | None => pointers
  | Some _ => Map_delete (pointerId event) pointers
  end.

Definition getPointers (pointers : list (Z * Pointer F)) : list (Pointer F) :=
  map snd pointers.

(* main.js: what [frame] keeps between calls *)
Record App := MkApp {
  simulation : FluidSimulation F;
  ui_pointers : list (Z * Pointer F);
  lastTime : F
}.

(* [frame(now)]: the array handed to [step] holds the objects of the Map,
   so what [step] does to them shows in the Map afterwards *)
Definition frame (now : F) (app : App) : M F App :=
  let delta := fmax ((now - lastTime app) * lit 0.001) (lit 0.00001) in
  (r <- step delta (getPointers (ui_pointers app)) (simulation app) ;;
   render (snd r) ;;;
   ret (MkApp (snd r) (combine (map fst (ui_pointers app)) (fst r)) now))%gl.

(* every pointer object of the Map is filed under its own id and is down *)
Definition pointers_ok (pointers : list (Z * Pointer F)) : Prop :=
  NoDup (map fst pointers) /\
  Forall (fun entry => pid (snd entry) = fst entry /\ down (snd entry) = true)
    pointers.
End Ui.
Arguments PointerEvent F : clear implicits.
Arguments DOMRect F : clear implicits.
Arguments App F : clear implicits.
Arguments MkPointerEvent {F} _ _ _ _.
Arguments MkDOMRect {F} _ _ _ _.
Arguments MkApp {F} _ _ _.

(** ** Events used to run the handlers *)

(* a 6 x 6 canvas at the origin of the page; a press at its centre with
   the primary button, and a move of the same pointer to the right *)
Definition sample_rect : DOMRect R := MkDOMRect 0%R 0%R 6%R 6%R.
Definition sample_press : PointerEvent R := MkPointerEvent (Some 0) 7 3%R 3%R.
Definition sample_move : PointerEvent R := MkPointerEvent (Some 0) 7 4.5%R 3%R.
Definition sample_pointers : list (Z * Pointer R) := [(1, sample_pointer)].

(** ** Ranges of colours, over the real numbers *)

Definition channels_within (lo hi : R) (v : vec4 R) : Prop :=
  (lo <= cx v <= hi)%R /\ (lo <= cy v <= hi)%R /\
  (lo <= cz v <= hi)%R /\ (lo <= cw v <= hi)%R.

(** ** The context after the passes of a tick *)

Section TickEnv.
Context {F : Type} `{Scalar F}.

(* the six passes and the pressure iterations that come before the dye
   is advected *)
Definition tick_before_dye (dt : F) (cfg : Config F) (v p : DoubleFBO F)
    (dv c : FBO F) (e : Env F) : Env F :=
  let n := Z.to_nat (pressureIterations cfg) in
  let e1 :=
    draw_to (write v)
      (DrawAdvection (texture (read v)) (texture (read v)) (texelSize (read v))
         (velocityDissipation cfg) dt) e in
  let e2 := draw_to c (DrawCurl (texture (write v)) (texelSize (write v))) e1 in
  let e3 :=
    draw_to (read v)
      (DrawVorticity (texture (write v)) (texture c) (texelSize (write v))
         (curlStrength cfg) dt) e2 in
  let e4 := draw_to dv (DrawDivergence (texture (read v)) (texelSize (read v))) e3 in
  let e5 := jacobi_run n (swap p) dv (decay_pass p (pressureDecay cfg) e4) in
  draw_to (write v)
    (DrawGradient (texture (read (Nat.iter (S n) swap p))) (texture (read v))
       (texelSize (read v))) e5.

Definition tick_env (dt : F) (cfg : Config F) (v d p : DoubleFBO F)
    (dv c : FBO F) (e : Env F) : Env F :=
  draw_to (write d)
    (DrawAdvection (texture (write v)) (texture (read d)) (texelSize (read d))
       (densityDissipation cfg) dt)
    (tick_before_dye dt cfg v p dv c e).
End TickEnv.

(** ** A fluid at rest, over the real numbers *)

(* the first two channels of every texel of the texture are 0: a velocity
   field at rest, or a pressure, a divergence or a curl that is 0 *)
Definition still (e : Env R) (name : handle) : Prop :=
  exists o, textures e !! name = Some o /\
            forall i j, cx (tex_data o i j) = 0%R /\ cy (tex_data o i j) = 0%R.

(* a draw call that outputs 0 in the first two channels everywhere *)
Definition quiet (e : Env R) (d : draw_call R) : Prop :=
  forall uv, cx (run_program e d uv) = 0%R /\ cy (run_program e d uv) = 0%R.

(** ** Cleared render targets *)

(* the texture of the render target is all zero, at the size and in the
   format the object records *)
Definition blank_at {F : Type} `{Scalar F} (e : Env F) (t : FBO F) : Prop :=
  exists filtering,
    textures e !! texture t =
    Some (TextureObject (width t) (height t) (internalFormat t) filtering blank).
(** * Properties *)

(** ** The monad and the draw primitive *)

Section MonadFacts.
Context {F : Type}.

Lemma bind_ok {A B} (c : M F A) (k : A -> M F B) (e : Env F) (r : B * Env F) :
  bind c k e = Ok r -> exists a e', c e = Ok (a, e') /\ k a e' = Ok r.
Proof.
  unfold bind. destruct (c e) as [[a e']|x]; [|discriminate].
  intros Hk. exists a, e'. split; [reflexivity|exact Hk].
Qed.

Lemma bind_run {A B} (c : M F A) (k : A -> M F B) (e e' : Env F) (a : A) :
  c e = Ok (a, e') -> bind c k e = k a e'.
Proof. unfold bind. intros ->. reflexivity. Qed.

Lemma deref_ok {A} (o : option A) (e : Env F) (r : A * Env F) :
  deref o e = Ok r -> o = Some (fst r) /\ snd r = e.
Proof.
  destruct o as [a|]; simpl; [|discriminate].
  unfold ret. intros [= <-]. split; reflexivity.
Qed.
End MonadFacts.

(* split a successful run of [x <- c ;; k] into the runs of [c] and of [k] *)
Ltac bind_inv H :=
  let a := fresh "a" in
  let e := fresh "e" in
  let Hc := fresh "Hc" in
  apply bind_ok in H; destruct H as (a & e & Hc & H).

Tactic Notation "bind_inv_as" hyp(H) ident(a) ident(e) ident(Hc) :=
  apply bind_ok in H; destruct H as (a & e & Hc & H).

Ltac env_inv H :=
  unfold get_env, put_env in H; revert H; intros [= <- <-].

Ltac deref_inv H :=
  apply deref_ok in H; simpl in H; destruct H as [H ?]; subst.

Section BlitFacts.
Context {F : Type} `{Scalar F}.

Lemma blit_ok (target : option (FBO F)) (d : draw_call F) (e : Env F)
    (r : unit * Env F) :
  blit target d e = Ok r ->
  quadVAO e <> None /\
  snd r = match target with
          | Some t => draw_to t d e
          | None => draw_canvas d e
          end.
Proof.
  unfold blit. destruct (quadVAO e); [|discriminate].
  destruct target; intros [= <-]; (split; [discriminate|reflexivity]).
Qed.

Lemma blit_run (target : option (FBO F)) (d : draw_call F) (e : Env F) (q : handle) :
  quadVAO e = Some q ->
  blit target d e =
  Ok (tt, match target with
          | Some t => draw_to t d e
          | None => draw_canvas d e
          end).
Proof. unfold blit. intros ->. destruct target; reflexivity. Qed.

Lemma quadVAO_draw_to (t : FBO F) (d : draw_call F) (e : Env F) :
  quadVAO (draw_to t d e) = quadVAO e.
Proof. unfold draw_to. destruct (fbos e !! fbo t); reflexivity. Qed.

Lemma quadVAO_draw_canvas (d : draw_call F) (e : Env F) :
  quadVAO (draw_canvas d e) = quadVAO e.
Proof. reflexivity. Qed.

Lemma draw_log_draw_to (t : FBO F) (d : draw_call F) (e : Env F) :
  draw_log (draw_to t d e) = draw_log e ++ [(Some (fbo t), d)].
Proof. reflexivity. Qed.

Lemma fbos_draw_to (t : FBO F) (d : draw_call F) (e : Env F) :
  fbos (draw_to t d e) = fbos e.
Proof. unfold draw_to. destruct (fbos e !! fbo t); reflexivity. Qed.

(* the texels of the attachment after a draw: the fragment program at the
   centre of each texel, evaluated on the store before the draw *)
Lemma textures_draw_to (t : FBO F) (d : draw_call F) (e : Env F)
    (name : handle) (old : texture_object F) :
  fbos e !! fbo t = Some name ->
  textures e !! name = Some old ->
  textures (draw_to t d e) !! name =
  Some (TextureObject (tex_width old) (tex_height old) (tex_format old)
          (tex_filtering old)
          (fun i j => GlslTex.store_texel
             (run_program e d (GlslTex.frag_uv (width t) (height t) i j)))).
Proof.
  intros Hf Ht. unfold draw_to. rewrite Hf. simpl.
  rewrite lookup_alter_eq, Ht. reflexivity.
Qed.

(* every other texture is left as it was *)
Lemma textures_draw_to_other (t : FBO F) (d : draw_call F) (e : Env F)
    (name other : handle) :
  fbos e !! fbo t = Some name ->
  other <> name ->
  textures (draw_to t d e) !! other = textures e !! other.
Proof.
  intros Hf Hne. unfold draw_to. rewrite Hf. simpl.
  apply lookup_alter_ne. congruence.
Qed.
End BlitFacts.

(** ** The sample simulation is the one the constructor builds *)

Lemma constructor_sample :
  constructor DEFAULT_CONFIG sample_env0 = Ok (sample_sim, sample_env).
Proof. vm_compute. reflexivity. Qed.

(** ** Facts about the real-number instance *)

Lemma R_eqb_true (x y : R) : x = y -> R_eqb x y = true.
Proof. intros ->. unfold R_eqb. destruct (Req_dec_T y y); congruence. Qed.

Lemma R_eqb_false (x y : R) : x <> y -> R_eqb x y = false.
Proof. intros Hne. unfold R_eqb. destruct (Req_dec_T x y); congruence. Qed.

Lemma lit_R_0 : lit (F := R) 0 = 0%R.
Proof. simpl. unfold Q2R. simpl. lra. Qed.

Lemma lit_R_1 : lit (F := R) 1 = 1%R.
Proof. simpl. unfold Q2R. simpl. lra. Qed.

(** ** Impulses *)

(** C5: an impulse whose delta is 0 on both axes (as [===] sees it) is
    skipped by [applyPointer], with or without colour cycling: the
    simulation object and the GL context are unchanged, so neither velocity
    nor dye is touched and the draw log gains no splat pass. *)
Theorem applyPointer_zero_delta {F : Type} `{Scalar F}
    (pointer : Pointer F) (randomizeColor : bool) (this : FluidSimulation F)
    (e : Env F) :
  (vx (delta pointer) === lit 0)%fl = true ->
  (vy (delta pointer) === lit 0)%fl = true ->
  applyPointer pointer randomizeColor this e = Ok ((pointer, this), e).
Proof.
  intros Hx Hy. unfold applyPointer. rewrite Hx, Hy. simpl.
  destruct (negb (moved pointer) || negb (down pointer)); reflexivity.
Qed.

Lemma applyPointer_zero_delta_witness :
  applyPointer still_pointer true sample_sim sample_env
  = Ok ((still_pointer, sample_sim), sample_env).
Proof.
  apply (applyPointer_zero_delta still_pointer true sample_sim sample_env);
    simpl; apply R_eqb_true; symmetry; apply lit_R_0.
Defined.

(** ** resize *)

(* on integers, [Math.floor(a / b)] is the floor division of Z *)
Lemma Qfloor_div (a b : Z) : b <> 0 -> Qfloor (inject_Z a / inject_Z b) = a / b.
Proof.
  intros Hb. destruct b as [|p|p]; [congruence| |].
  - unfold Qdiv, Qinv, Qmult, inject_Z, Qfloor. simpl.
    rewrite Z.mul_1_r. reflexivity.
  - unfold Qdiv, Qinv, Qmult, inject_Z, Qfloor. simpl.
    rewrite <- (Z.div_opp_opp a (Z.neg p)) by discriminate.
    simpl. f_equal. lia.
Qed.

Lemma ensureDimension_div (a b : Z) :
  b <> 0 -> ensureDimension (inject_Z a / inject_Z b) = Z.max 2 (a / b).
Proof. intros Hb. unfold ensureDimension. rewrite Qfloor_div by exact Hb. reflexivity. Qed.

Lemma ensureDimension_ge_2 (q : Q) : 2 <= ensureDimension q.
Proof. unfold ensureDimension. lia. Qed.

Section ResizeFacts.
Context {F : Type} `{Scalar F}.

(* the early return of [resize] *)
Lemma resize_same_size (width height : Z) (this : FluidSimulation F) (e : Env F) :
  simSize this = MkSize (simWidthOf width this) (simWidthOf height this) ->
  resize width height this e = Ok (with_canvasSize this (MkSize width height), e).
Proof.
  intros Hs. unfold resize. simpl. unfold simWidthOf in Hs. rewrite Hs. simpl.
  rewrite !Z.eqb_refl. reflexivity.
Qed.

Lemma _setupBloomBuffers_shape (bw bh : Z) (this this' : FluidSimulation F)
    (e e' : Env F) :
  _setupBloomBuffers bw bh this e = Ok (this', e') ->
  exists chain, this' = with_framebuffers this (with_bloom (framebuffers this) chain).
Proof.
  unfold _setupBloomBuffers. intros Hr.
  bind_inv Hr. bind_inv Hr. unfold ret in Hr. revert Hr. intros [= <- <-].
  eexists. reflexivity.
Qed.

(* what a successful [resize] leaves in the scalar fields of the object *)
Lemma resize_shape (width height : Z) (this this' : FluidSimulation F) (e e' : Env F) :
  resize width height this e = Ok (this', e') ->
  config this' = config this /\
  canvasSize this' = MkSize width height /\
  simSize this' = MkSize (simWidthOf width this) (simWidthOf height this).
Proof.
  unfold resize, simWidthOf. cbn [config with_canvasSize simSize].
  destruct (andb _ _) eqn:Htest.
  - unfold ret. intros [= <- <-]. simpl. repeat split.
    apply andb_true_iff in Htest as [Hw Hh].
    apply Z.eqb_eq in Hw, Hh. destruct (simSize this); simpl in *. congruence.
  - intros Hr. do 5 bind_inv Hr.
    apply _setupBloomBuffers_shape in Hr as [chain ->]. simpl. auto.
Qed.
End ResizeFacts.

(** C7: [resize] computes the simulation size as
    max(2, floor(dim / texelDownsample)) on each axis; when that size is the
    current one it returns after recording the canvas size, leaving the
    field objects and the GL context (so every texture and framebuffer name)
    as they were; and a second [resize] with the same arguments after a
    successful one changes nothing at all. *)
Theorem resize_idempotent {F : Type} `{Scalar F}
    (width height : Z) (this : FluidSimulation F) (e : Env F) :
  texelDownsample (config this) <> 0 ->
  let simWidth := Z.max 2 (width / texelDownsample (config this)) in
  let simHeight := Z.max 2 (height / texelDownsample (config this)) in
  (simSize this = MkSize simWidth simHeight ->
   resize width height this e = Ok (with_canvasSize this (MkSize width height), e)) /\
  (forall this1 e1,
     resize width height this e = Ok (this1, e1) ->
     simSize this1 = MkSize simWidth simHeight /\
     resize width height this1 e1 = Ok (this1, e1)).
Proof.
  intros Hd simWidth simHeight.
  assert (Hw : simWidthOf width this = simWidth)
    by (apply ensureDimension_div; exact Hd).
  assert (Hh : simWidthOf height this = simHeight)
    by (apply ensureDimension_div; exact Hd).
  split.
  - intros Hs. apply resize_same_size. rewrite Hw, Hh. exact Hs.
  - intros this1 e1 Hr.
    destruct (resize_shape _ _ _ _ _ _ Hr) as (Hc & Hcs & Hss).
    split; [rewrite Hss, Hw, Hh; reflexivity|].
    rewrite resize_same_size.
    + destruct this1; simpl in *. subst. reflexivity.
    + unfold simWidthOf in *. rewrite Hc. exact Hss.
Qed.

Lemma resize_idempotent_witness :
  resize 6 6 sample_sim sample_env = Ok (sample_sim, sample_env) /\
  simSize sample_sim = MkSize 2 2.
Proof.
  assert (Hd : texelDownsample (config sample_sim) <> 0) by (simpl; lia).
  destruct (resize_idempotent 6 6 sample_sim sample_env Hd) as [Hsame _].
  split; [|reflexivity].
  apply Hsame. reflexivity.
Defined.

(** ** What the passes of a tick keep

    Every method of the tick only swaps double buffers and updates the
    timers and the last colour; a property of the object that these updates
    keep is kept by the tick. *)

Ltac ret_inv H :=
  unfold ret in H; revert H; intros [= <- <-].

(* peel the leading dereferences and draw calls off a run *)
Ltac pass_inv H :=
  repeat
    (let a := fresh "a" in
     let e := fresh "e" in
     let Hc := fresh "Hc" in
     apply bind_ok in H; destruct H as (a & e & Hc & H);
     first
       [ apply deref_ok in Hc; simpl in Hc; destruct Hc as [Hc ?]; subst
       | apply blit_ok in Hc; simpl in Hc; destruct Hc as [? ?]; subst
       | idtac ]).

Section Frame.
Context {F : Type} `{Scalar F}.
Variable P : FluidSimulation F -> Prop.
Hypothesis P_swap_velocity : forall s, P s -> P (swap_velocity s).
Hypothesis P_swap_density : forall s, P s -> P (swap_density s).
Hypothesis P_swap_pressure : forall s, P s -> P (swap_pressure s).
Hypothesis P_lastPointerColor : forall s c, P s -> P (with_lastPointerColor s c).
Hypothesis P_autoTimer : forall s t, P s -> P (with_autoTimer s t).
Hypothesis P_colorCycleTimer : forall s t, P s -> P (with_colorCycleTimer s t).

Lemma splat_keeps x y dx dy c this e this' e' :
  P this -> splat x y dx dy c this e = Ok (this', e') -> P this'.
Proof.
  intros HP Hr. unfold splat in Hr. pass_inv Hr. ret_inv Hr. auto.
Qed.

Lemma applyPointer_keeps pointer rc this e pointer' this' e' :
  P this -> applyPointer pointer rc this e = Ok ((pointer', this'), e') -> P this'.
Proof.
  intros HP Hr. unfold applyPointer in Hr.
  destruct (negb (moved pointer) || negb (down pointer)).
  { ret_inv Hr. exact HP. }
  destruct (andb _ _).
  { ret_inv Hr. exact HP. }
  bind_inv Hr. bind_inv Hr. ret_inv Hr.
  eapply splat_keeps; eauto.
Qed.

Lemma applyPointers_keeps pointers rc this e pointers' this' e' :
  P this -> applyPointers pointers rc this e = Ok ((pointers', this'), e') -> P this'.
Proof.
  unfold applyPointers. revert this e pointers' this' e'.
  induction pointers as [|p ps IH]; intros this e pointers' this' e' HP Hr; simpl in Hr.
  - ret_inv Hr. exact HP.
  - bind_inv Hr. bind_inv Hr. ret_inv Hr.
    destruct a as [p1 s1]. destruct a0 as [ps1 s2]. simpl in *.
    eapply IH; [|eassumption]. eapply applyPointer_keeps; eauto.
Qed.

Lemma _advectVelocity_keeps dt this e this' e' :
  P this -> _advectVelocity dt this e = Ok (this', e') -> P this'.
Proof. intros HP Hr. unfold _advectVelocity in Hr. pass_inv Hr. ret_inv Hr. auto. Qed.

Lemma _advectDye_keeps dt this e this' e' :
  P this -> _advectDye dt this e = Ok (this', e') -> P this'.
Proof. intros HP Hr. unfold _advectDye in Hr. pass_inv Hr. ret_inv Hr. auto. Qed.

Lemma _applyVorticity_keeps dt this e this' e' :
  P this -> _applyVorticity dt this e = Ok (this', e') -> P this'.
Proof. intros HP Hr. unfold _applyVorticity in Hr. pass_inv Hr. ret_inv Hr. auto. Qed.

Lemma _computeDivergence_keeps this e this' e' :
  P this -> _computeDivergence this e = Ok (this', e') -> P this'.
Proof. intros HP Hr. unfold _computeDivergence in Hr. pass_inv Hr. ret_inv Hr. auto. Qed.

Lemma jacobiIteration_keeps this e this' e' :
  P this -> jacobiIteration this e = Ok (this', e') -> P this'.
Proof. intros HP Hr. unfold jacobiIteration in Hr. pass_inv Hr. ret_inv Hr. auto. Qed.

Lemma repeatM_keeps (body : FluidSimulation F -> M F (FluidSimulation F)) :
  (forall s e s' e', P s -> body s e = Ok (s', e') -> P s') ->
  forall n s e s' e', P s -> repeatM n body s e = Ok (s', e') -> P s'.
Proof.
  intros Hbody. induction n as [|n IH]; intros s e s' e' HP Hr; simpl in Hr.
  - ret_inv Hr. exact HP.
  - bind_inv Hr. eapply IH; [|eassumption]. eapply Hbody; eauto.
Qed.

Lemma _solvePressure_keeps this e this' e' :
  P this -> _solvePressure this e = Ok (this', e') -> P this'.
Proof.
  intros HP Hr. unfold _solvePressure in Hr.
  bind_inv Hr. bind_inv Hr.
  eapply (repeatM_keeps _ jacobiIteration_keeps); [|eassumption]. auto.
Qed.

Lemma _subtractPressureGradient_keeps this e this' e' :
  P this -> _subtractPressureGradient this e = Ok (this', e') -> P this'.
Proof.
  intros HP Hr. unfold _subtractPressureGradient in Hr. pass_inv Hr. ret_inv Hr. auto.
Qed.

Lemma step_keeps dt pointers this e pointers' this' e' :
  P this -> step dt pointers this e = Ok ((pointers', this'), e') -> P this'.
Proof.
  intros HP Hr. unfold step in Hr.
  destruct (paused (config this)).
  { ret_inv Hr. exact HP. }
  bind_inv Hr. destruct a as [ps1 s1].
  do 6 bind_inv Hr. ret_inv Hr. simpl in *.
  eapply _advectDye_keeps; [|eassumption].
  eapply _subtractPressureGradient_keeps; [|eassumption].
  eapply _solvePressure_keeps; [|eassumption].
  eapply _computeDivergence_keeps; [|eassumption].
  eapply _applyVorticity_keeps; [|eassumption].
  eapply _advectVelocity_keeps; [|eassumption].
  eapply applyPointers_keeps; [|eassumption].
  destruct (andb _ _); auto.
Qed.
End Frame.

(** ** Double buffers *)

Section DoubleBuffers.
Context {F : Type} `{Scalar F}.

Lemma swap_involutive (d : DoubleFBO F) : swap (swap d) = d.
Proof. destruct d. reflexivity. Qed.

Lemma double_ok_swap (d : DoubleFBO F) : double_ok d -> double_ok (swap d).
Proof.
  unfold double_ok. destruct d as [r w]. simpl.
  intros (Ht & Hf & Hw & Hh & Hi & Hfm & Hty). repeat split; congruence.
Qed.

Lemma field_ok_swap (o : option (DoubleFBO F)) :
  field_ok o -> field_ok (option_map swap o).
Proof. destruct o; simpl; [apply double_ok_swap|auto]. Qed.

Lemma fresh_name_ok (e : Env F) (r : handle * Env F) :
  fresh_name e = Ok r -> fst r = next_name e /\ next_name (snd r) = S (next_name e).
Proof. unfold fresh_name. intros [= <-]. split; reflexivity. Qed.

Lemma createTexture_ok w h ifmt fl (e : Env F) name e' :
  createTexture w h ifmt fl e = Ok (name, e') ->
  name = next_name e /\ next_name e' = S (next_name e).
Proof.
  unfold createTexture. intros Hr.
  bind_inv_as Hr n1 e1 Hn. apply fresh_name_ok in Hn as [Ha He]. simpl in *.
  bind_inv_as Hr x2 e2 Hg. env_inv Hg.
  bind_inv_as Hr x3 e3 Hp. env_inv Hp.
  ret_inv Hr. simpl. split; congruence.
Qed.

(* the object [createFBO] returns: two fresh names and the requested size
   and formats *)
Lemma createFBO_ok w h ifmt fmt ty fl (e : Env F) t e' :
  createFBO w h ifmt fmt ty fl e = Ok (t, e') ->
  texture t = next_name e /\ fbo t = S (next_name e) /\
  width t = w /\ height t = h /\
  internalFormat t = ifmt /\ format t = fmt /\ type t = ty /\
  next_name e' = S (S (next_name e)).
Proof.
  unfold createFBO. intros Hr.
  bind_inv_as Hr n1 e1 Hn. apply createTexture_ok in Hn as [Ha He].
  bind_inv_as Hr n2 e2 Hn. apply fresh_name_ok in Hn as [Ha0 He0]. simpl in *.
  bind_inv_as Hr x3 e3 Hg. env_inv Hg.
  bind_inv_as Hr x4 e4 Hp. env_inv Hp.
  destruct (fbo_complete _ ifmt w h); [|discriminate].
  ret_inv Hr. simpl. repeat split; congruence.
Qed.

Lemma createDoubleFBO_ok w h ifmt fmt ty fl (e : Env F) d e' :
  createDoubleFBO w h ifmt fmt ty fl e = Ok (d, e') -> double_ok d.
Proof.
  unfold createDoubleFBO. intros Hr.
  bind_inv Hr. apply createFBO_ok in Hc as (? & ? & ? & ? & ? & ? & ? & ?).
  bind_inv Hr. apply createFBO_ok in Hc as (? & ? & ? & ? & ? & ? & ? & ?).
  ret_inv Hr. unfold double_ok. simpl. repeat split; try congruence; lia.
Qed.

(* [resizeFBO] keeps the names and the formats and sets the size *)
Lemma resizeFBO_ok (t : FBO F) w h (e : Env F) t' e' :
  resizeFBO t w h e = Ok (t', e') ->
  texture t' = texture t /\ fbo t' = fbo t /\
  width t' = w /\ height t' = h /\
  internalFormat t' = internalFormat t /\ format t' = format t /\
  type t' = type t.
Proof.
  unfold resizeFBO. destruct (andb _ _) eqn:Htest.
  - apply andb_true_iff in Htest as [Hw Hh]. apply Z.eqb_eq in Hw, Hh.
    unfold ret. intros [= <- <-]. repeat split; assumption.
  - intros Hr. bind_inv Hr. bind_inv Hr. ret_inv Hr. simpl. repeat split.
Qed.

Lemma resizeDouble_ok (o : option (DoubleFBO F)) w h ifmt fmt fl (e : Env F) d e' :
  field_ok o -> resizeDouble o w h ifmt fmt fl e = Ok (d, e') -> double_ok d.
Proof.
  destruct o as [v|]; simpl; intros Hok Hr.
  - bind_inv Hr. apply resizeFBO_ok in Hc as (? & ? & ? & ? & ? & ? & ?).
    bind_inv Hr. apply resizeFBO_ok in Hc as (? & ? & ? & ? & ? & ? & ?).
    ret_inv Hr. unfold double_ok in *. simpl.
    destruct Hok as (? & ? & ? & ? & ? & ? & ?). repeat split; congruence.
  - eapply createDoubleFBO_ok; eauto.
Qed.

Lemma resize_fields_ok width height (this : FluidSimulation F) e this' e' :
  fields_ok this -> resize width height this e = Ok (this', e') -> fields_ok this'.
Proof.
  intros (Hv & Hd & Hp). unfold resize.
  cbn [config with_canvasSize simSize framebuffers with_simSize].
  destruct (andb _ _).
  - unfold ret. intros [= <- <-]. repeat split; assumption.
  - intros Hr. do 5 bind_inv Hr.
    apply _setupBloomBuffers_shape in Hr as [chain ->].
    unfold fields_ok. simpl in *.
    split; [|split].
    + eapply resizeDouble_ok; [exact Hv|eassumption].
    + eapply resizeDouble_ok; [exact Hd|eassumption].
    + eapply resizeDouble_ok; [exact Hp|eassumption].
Qed.

Lemma dispose_shape (this : FluidSimulation F) e this' e' :
  dispose this e = Ok (this', e') ->
  this' = with_framebuffers this (with_bloom (framebuffers this) []).
Proof.
  unfold dispose. intros Hr. do 6 bind_inv Hr. ret_inv Hr. reflexivity.
Qed.

Lemma fields_ok_step dt pointers (this : FluidSimulation F) e pointers' this' e' :
  fields_ok this ->
  step dt pointers this e = Ok ((pointers', this'), e') -> fields_ok this'.
Proof.
  apply (step_keeps fields_ok); unfold fields_ok; simpl; intros;
    repeat match goal with Hx : _ /\ _ |- _ => destruct Hx end;
    repeat split; try assumption; apply field_ok_swap; assumption.
Qed.

Lemma reachable_fields_ok (this : FluidSimulation F) (e : Env F) :
  reachable this e -> fields_ok this.
Proof.
  induction 1 as [config e0 this e Hc| w h this e this' e' _ IH Hr
                 | dt ps ps' this e this' e' _ IH Hr| this e e' _ IH _
                 | partial this e _ IH| this e this' e' _ IH Hr].
  - unfold constructor in Hc. bind_inv Hc. bind_inv Hc.
    eapply resize_fields_ok; [|eassumption].
    unfold fields_ok. simpl. auto.
  - eapply resize_fields_ok; eauto.
  - eapply fields_ok_step; eauto.
  - exact IH.
  - exact IH.
  - apply dispose_shape in Hr. subst. exact IH.
Qed.
End DoubleBuffers.

(** C10: [swap] only exchanges the two references of a double buffer: the
    new [read] is the old [write] object and conversely, and [swap] takes no
    GL context, so in any context the texture each reference names holds
    what it held; swapping twice gives the object back; and in every state
    reached through the constructor and the public methods the [read] and
    [write] of velocity, density and pressure are different textures and
    framebuffers of equal width, height and formats. *)
Theorem swap_exchanges_references {F : Type} `{Scalar F} :
  (forall (d : DoubleFBO F) (e : Env F),
     read (swap d) = write d /\ write (swap d) = read d /\
     textures e !! texture (read (swap d)) = textures e !! texture (write d) /\
     textures e !! texture (write (swap d)) = textures e !! texture (read d)) /\
  (forall d : DoubleFBO F, swap (swap d) = d) /\
  (forall (this : FluidSimulation F) (e : Env F),
     reachable this e ->
     forall d,
       velocity (framebuffers this) = Some d \/
       density (framebuffers this) = Some d \/
       pressure (framebuffers this) = Some d ->
       double_ok d /\ double_ok (swap d)).
Proof.
  split; [|split].
  - intros d e. repeat split.
  - apply swap_involutive.
  - intros this e Hreach d Hd.
    destruct (reachable_fields_ok this e Hreach) as (Hv & Hde & Hp).
    assert (Hok : double_ok d).
    { destruct Hd as [Hd|[Hd|Hd]]; rewrite Hd in *; assumption. }
    split; [exact Hok|apply double_ok_swap; exact Hok].
Qed.

Lemma sample_reachable : reachable sample_sim sample_env.
Proof. exact (reach_constructor _ _ _ _ constructor_sample). Qed.

(** ** The pressure solve *)

Section Pressure.
Context {F : Type} `{Scalar F}.
Local Open Scope float_scope.

Lemma texel_of_draw_to (t : FBO F) (d : draw_call F) (e : Env F) (i j : Z) :
  attached e t ->
  texel_of (draw_to t d e) (texture t) i j =
  Some (GlslTex.store_texel
          (run_program e d (GlslTex.frag_uv (width t) (height t) i j))).
Proof.
  intros [Hf [old Ht]]. unfold texel_of.
  rewrite (textures_draw_to t d e _ old Hf Ht). reflexivity.
Qed.

Lemma attached_draw_to (t u : FBO F) (d : draw_call F) (e : Env F) :
  attached e u -> attached (draw_to t d e) u.
Proof.
  intros [Hf [old Ht]]. split; [rewrite fbos_draw_to; exact Hf|].
  unfold draw_to. destruct (fbos e !! fbo t) as [name|]; simpl.
  - destruct (decide (name = texture u)) as [->|Hne].
    + rewrite lookup_alter_eq, Ht. simpl. eauto.
    + rewrite lookup_alter_ne by exact Hne. rewrite Ht. eauto.
  - rewrite Ht. eauto.
Qed.

Lemma quadVAO_jacobi_run n (p : DoubleFBO F) dv e :
  quadVAO (jacobi_run n p dv e) = quadVAO e.
Proof.
  revert p e. induction n as [|n IH]; intros p e; simpl; [reflexivity|].
  rewrite IH. apply quadVAO_draw_to.
Qed.

Lemma draw_log_jacobi_run n (p : DoubleFBO F) dv e :
  draw_log (jacobi_run n p dv e) = draw_log e ++ jacobi_log n p dv.
Proof.
  revert p e. induction n as [|n IH]; intros p e; simpl.
  - rewrite app_nil_r. reflexivity.
  - rewrite IH. unfold jacobi_pass. rewrite draw_log_draw_to.
    rewrite <- app_assoc. reflexivity.
Qed.

Lemma swap_pressure_set (this : FluidSimulation F) (p : DoubleFBO F) :
  swap_pressure (set_pressure this p) = set_pressure this (swap p).
Proof. reflexivity. Qed.

Lemma set_pressure_id (this : FluidSimulation F) (p : DoubleFBO F) :
  pressure (framebuffers this) = Some p -> set_pressure this p = this.
Proof.
  intros Hp. destruct this as [c fb ss cs at_ ct lc]. destruct fb. simpl in *.
  subst. reflexivity.
Qed.

Lemma jacobiIteration_run (this : FluidSimulation F) p dv e q :
  pressure (framebuffers this) = Some p ->
  divergence (framebuffers this) = Some dv ->
  quadVAO e = Some q ->
  jacobiIteration this e = Ok (swap_pressure this, jacobi_pass p dv e).
Proof.
  intros Hp Hdv Hq. unfold jacobiIteration. rewrite Hp, Hdv. simpl.
  unfold bind, ret. simpl. rewrite (blit_run _ _ _ q Hq). reflexivity.
Qed.

(* the loop of [_solvePressure]: n passes, n swaps *)
Lemma jacobi_loop n (this : FluidSimulation F) (p : DoubleFBO F) dv e q :
  divergence (framebuffers this) = Some dv ->
  quadVAO e = Some q ->
  repeatM n jacobiIteration (set_pressure this p) e =
  Ok (set_pressure this (Nat.iter n swap p), jacobi_run n p dv e).
Proof.
  intros Hdv. revert p e. induction n as [|n IH]; intros p e Hq.
  - reflexivity.
  - cbn [repeatM].
    rewrite (bind_run _ _ _ _ _
               (jacobiIteration_run (set_pressure this p) p dv e q
                  eq_refl Hdv Hq)).
    rewrite swap_pressure_set.
    rewrite IH by (unfold jacobi_pass; rewrite quadVAO_draw_to; exact Hq).
    rewrite Nat.iter_succ_r. reflexivity.
Qed.

Lemma _solvePressure_run (this : FluidSimulation F) p dv e q :
  pressure (framebuffers this) = Some p ->
  divergence (framebuffers this) = Some dv ->
  quadVAO e = Some q ->
  let n := Z.to_nat (pressureIterations (config this)) in
  _solvePressure this e =
  Ok (set_pressure this (Nat.iter (S n) swap p),
      jacobi_run n (swap p) dv (decay_pass p (pressureDecay (config this)) e)).
Proof.
  intros Hp Hdv Hq n. unfold _solvePressure. rewrite Hp. simpl.
  unfold bind at 1. simpl. unfold bind at 1.
  rewrite (blit_run _ _ _ q Hq).
  fold (decay_pass p (pressureDecay (config this)) e).
  replace (swap_pressure this) with (set_pressure this (swap p)).
  2:{ rewrite <- (set_pressure_id this p Hp) at 2. reflexivity. }
  change (config (set_pressure this (swap p))) with (config this).
  rewrite (jacobi_loop _ this (swap p) dv _ q Hdv)
    by (unfold decay_pass; rewrite quadVAO_draw_to; exact Hq).
  rewrite <- Nat.iter_succ_r. reflexivity.
Qed.
End Pressure.

Lemma sample_attached :
  attached sample_env (sample_fbo 12%nat 2 2 R16F RED) /\
  attached sample_env (sample_fbo 4%nat 2 2 RG16F RG).
Proof. split; (split; [reflexivity|eexists; reflexivity]). Qed.

(** ** Velocity self-advection *)

Section Advection.
Context {F : Type} `{Scalar F}.

Lemma _advectVelocity_run (deltaTime : F) (this : FluidSimulation F) v e q :
  velocity (framebuffers this) = Some v ->
  quadVAO e = Some q ->
  _advectVelocity deltaTime this e =
  Ok (swap_velocity this,
      draw_to (write v)
        (DrawAdvection (texture (read v)) (texture (read v)) (texelSize (read v))
           (velocityDissipation (config this)) deltaTime) e).
Proof.
  intros Hv Hq. unfold _advectVelocity. rewrite Hv. simpl.
  unfold bind, ret. simpl. rewrite (blit_run _ _ _ q Hq). reflexivity.
Qed.
End Advection.

(* over the reals the clamped coordinate lies in [0, 1] *)
Lemma clamp_R_range (x : R) :
  (0 <= Glsl.clamp x (lit 0) (lit 1) <= 1)%R.
Proof.
  unfold Glsl.clamp. rewrite lit_R_0, lit_R_1. simpl.
  unfold Rmin, Rmax.
  destruct (Rle_dec x 0); destruct (Rle_dec _ 1); lra.
Qed.

(** C2: [_advectVelocity] draws into [velocity.write], for every texel, the
    velocity field sampled at [uv - dt * velocity(uv) * texelSize] with both
    coordinates clamped to [0, 1] by min(max(., 0), 1), times
    [velocityDissipation]; source and advecting field are both
    [velocity.read]; afterwards the buffers are swapped, so the texels
    drawn are those of the new [velocity.read]. *)
Theorem advectVelocity_backtrace {F : Type} `{Scalar F}
    (deltaTime : F) (this : FluidSimulation F) (v : DoubleFBO F) (e : Env F)
    (q : handle) :
  velocity (framebuffers this) = Some v ->
  quadVAO e = Some q ->
  exists this' e',
    _advectVelocity deltaTime this e = Ok (this', e') /\
    this' = swap_velocity this /\
    velocity (framebuffers this') = Some (swap v) /\
    (attached e (write v) ->
     forall i j,
       let uv := GlslTex.frag_uv (width (write v)) (height (write v)) i j in
       let source := textures e !! texture (read v) in
       let velocity := Glsl.xy (GlslTex.texture source uv) in
       let texelSize := texelSize (read v) in
       let coord :=
         V2 (vx uv - deltaTime * vx velocity * vx texelSize)%fl
            (vy uv - deltaTime * vy velocity * vy texelSize)%fl in
       let clamped :=
         V2 (fmin (fmax (vx coord) (lit 0)) (lit 1))
            (fmin (fmax (vy coord) (lit 0)) (lit 1)) in
       texel_of e' (texture (read (swap v))) i j =
       Some (GlslTex.store_texel
               (Glsl.v4scale (GlslTex.texture source clamped)
                  (velocityDissipation (config this))))).
Proof.
  intros Hv Hq.
  eexists _, _. split; [exact (_advectVelocity_run deltaTime this v e q Hv Hq)|].
  split; [reflexivity|]. split.
  { unfold swap_velocity. simpl. rewrite Hv. reflexivity. }
  intros Hatt i j. simpl.
  rewrite texel_of_draw_to by exact Hatt. reflexivity.
Qed.

Lemma advectVelocity_backtrace_witness :
  exists this' e',
    _advectVelocity (lit 0.016) sample_sim sample_env = Ok (this', e') /\
    velocity (framebuffers this') =
    Some (MkDoubleFBO (sample_fbo 4%nat 2 2 RG16F RG) (sample_fbo 2%nat 2 2 RG16F RG)) /\
    is_Some (texel_of e' 4%nat 0 0).
Proof.
  destruct (advectVelocity_backtrace (lit 0.016) sample_sim
              (MkDoubleFBO (sample_fbo 2%nat 2 2 RG16F RG)
                 (sample_fbo 4%nat 2 2 RG16F RG))
              sample_env 0%nat eq_refl eq_refl)
    as (this' & e' & Hrun & _ & Hv & Htexel).
  exists this', e'. split; [exact Hrun|]. split; [exact Hv|].
  specialize (Htexel (proj2 sample_attached) 0 0). simpl in Htexel.
  change (texture (sample_fbo 4%nat 2 2 RG16F RG)) with 4%nat in Htexel.
  rewrite Htexel. eexists. reflexivity.
Defined.

(** ** The bloom chain *)

Lemma ensureDimension_half (a : Z) : ensureDimension (inject_Z a / 2) = Z.max 2 (a / 2).
Proof. change 2%Q with (inject_Z 2). apply ensureDimension_div. discriminate. Qed.

Lemma bloom_sizes_length_le (n : nat) (w h : Z) : (length (bloom_sizes n w h) <= n)%nat.
Proof.
  revert w h. induction n as [|n IH]; intros w h; simpl; [lia|].
  destruct (_ || _); simpl; [lia|]. specialize (IH (ensureDimension (inject_Z w / 2))
    (ensureDimension (inject_Z h / 2))). lia.
Qed.

Lemma bloom_sizes_length_pos (n : nat) (w h : Z) :
  n <> O -> (1 <= length (bloom_sizes n w h))%nat.
Proof. destruct n; [congruence|]. simpl. lia. Qed.

(* a level after which a dimension would fall below 2 is the last one *)
Lemma bloom_sizes_truncated (n : nat) (w h : Z) (k : nat) (wk hk : Z) :
  bloom_sizes n w h !! k = Some (wk, hk) ->
  wk / 2 < 2 \/ hk / 2 < 2 ->
  length (bloom_sizes n w h) = S k.
Proof.
  revert w h k. induction n as [|n IH]; intros w h k Hk Hsmall; simpl in *.
  - discriminate.
  - destruct k as [|k]; simpl in Hk.
    + injection Hk as -> ->.
      rewrite !ensureDimension_half.
      replace ((Z.max 2 (wk / 2) =? 2) || (Z.max 2 (hk / 2) =? 2)) with true.
      * reflexivity.
      * symmetry. apply orb_true_iff.
        destruct Hsmall; [left|right]; apply Z.eqb_eq; lia.
    + destruct (_ || _); simpl in *; [discriminate|].
      f_equal. eapply IH; eassumption.
Qed.

(* every level after the first is at least 3 x 3 *)
Lemma bloom_sizes_later_ge_3 (n : nat) (w h : Z) (k : nat) (wk hk : Z) :
  bloom_sizes n w h !! S k = Some (wk, hk) -> 3 <= wk /\ 3 <= hk.
Proof.
  revert w h k. induction n as [|n IH]; intros w h k Hk; simpl in *.
  - discriminate.
  - destruct (_ || _) eqn:Htest; simpl in *; [discriminate|].
    apply orb_false_iff in Htest as [Hw Hh].
    apply Z.eqb_neq in Hw, Hh.
    destruct n as [|n]; simpl in Hk; [discriminate|].
    destruct k as [|k]; simpl in Hk.
    + injection Hk as <- <-.
      pose proof (ensureDimension_ge_2 (inject_Z w / 2)).
      pose proof (ensureDimension_ge_2 (inject_Z h / 2)). lia.
    + eapply (IH _ _ k). simpl. exact Hk.
Qed.

Section BloomChain.
Context {F : Type} `{Scalar F}.

Lemma createFBO_run w h ifmt fmt ty fl (e : Env F) :
  accepts_all e ->
  exists t e',
    createFBO w h ifmt fmt ty fl e = Ok (t, e') /\
    width t = w /\ height t = h /\ accepts_all e'.
Proof.
  intros Hacc. unfold createFBO, createTexture, fresh_name, get_env, put_env, bind.
  simpl. rewrite Hacc. unfold ret. eexists _, _. split; [reflexivity|].
  repeat split. exact Hacc.
Qed.

Lemma deleteFBO_run (t : option (FBO F)) (e : Env F) :
  accepts_all e -> exists e', deleteFBO t e = Ok (tt, e') /\ accepts_all e'.
Proof.
  intros Hacc. destruct t as [t|]; simpl.
  - unfold bind, get_env, put_env. eexists. split; [reflexivity|exact Hacc].
  - unfold ret. eexists. split; [reflexivity|exact Hacc].
Qed.

Lemma deleteLevels_run (l : list (BloomLevel F)) (e : Env F) :
  accepts_all e -> exists e', deleteLevels l e = Ok (tt, e') /\ accepts_all e'.
Proof.
  revert e. induction l as [|level l IH]; intros e Hacc; simpl.
  - unfold ret. eexists. split; [reflexivity|exact Hacc].
  - destruct (deleteFBO_run (Some (buffer level)) e Hacc) as (e1 & H1 & Hacc1).
    destruct (deleteFBO_run (Some (temp level)) e1 Hacc1) as (e2 & H2 & Hacc2).
    destruct (IH e2 Hacc2) as (e3 & H3 & Hacc3).
    exists e3. split; [|exact Hacc3].
    rewrite (bind_run _ _ _ _ _ H1), (bind_run _ _ _ _ _ H2). exact H3.
Qed.

(* the loop allocates levels of the sizes [bloom_sizes] lists, and fails
   nowhere *)
Lemma bloomLevelsLoop_run (n : nat) (w h : Z) (acc : list (BloomLevel F)) (e : Env F) :
  accepts_all e ->
  exists chain e',
    bloomLevelsLoop n w h acc e = Ok (acc ++ chain, e') /\
    map level_size chain = bloom_sizes n w h /\
    map temp_size chain = bloom_sizes n w h /\
    accepts_all e'.
Proof.
  revert w h acc e. induction n as [|n IH]; intros w h acc e Hacc.
  - exists [], e. simpl. rewrite app_nil_r. unfold ret. auto.
  - cbn [bloomLevelsLoop bloom_sizes].
    destruct (createFBO_run w h RGBA16F RGBA HALF_FLOAT LINEAR e Hacc)
      as (b & e1 & Hb & Hbw & Hbh & Hacc1).
    destruct (createFBO_run w h RGBA16F RGBA HALF_FLOAT LINEAR e1 Hacc1)
      as (t & e2 & Ht & Htw & Hth & Hacc2).
    rewrite (bind_run _ _ _ _ _ Hb), (bind_run _ _ _ _ _ Ht).
    destruct (_ || _).
    + exists [MkBloomLevel b t], e2. unfold ret, level_size, temp_size. simpl.
      rewrite Hbw, Hbh, Htw, Hth. auto.
    + destruct (IH (ensureDimension (inject_Z w / 2))
                  (ensureDimension (inject_Z h / 2))
                  (acc ++ [MkBloomLevel b t]) e2 Hacc2)
        as (chain & e3 & Hrun & Hsz & Htsz & Hacc3).
      exists (MkBloomLevel b t :: chain), e3.
      rewrite Hrun, <- app_assoc. cbn [map].
      rewrite Hsz, Htsz. unfold level_size, temp_size. cbn [buffer temp].
      rewrite Hbw, Hbh, Htw, Hth. auto.
Qed.

Lemma _setupBloomBuffers_run (bw bh : Z) (this : FluidSimulation F) (e : Env F) :
  accepts_all e ->
  exists chain e',
    _setupBloomBuffers bw bh this e =
      Ok (with_framebuffers this (with_bloom (framebuffers this) chain), e') /\
    map level_size chain =
      bloom_sizes (Z.to_nat (Z.max 1 (bloomLevels (config this))))
        (ensureDimension (inject_Z bw / 2)) (ensureDimension (inject_Z bh / 2)) /\
    map temp_size chain = map level_size chain.
Proof.
  intros Hacc. unfold _setupBloomBuffers.
  destruct (deleteLevels_run (bloom (framebuffers this)) e Hacc) as (e1 & Hd & Hacc1).
  rewrite (bind_run _ _ _ _ _ Hd).
  destruct (bloomLevelsLoop_run
              (Z.to_nat (Z.max 1 (bloomLevels (config this))))
              (ensureDimension (inject_Z bw / 2))
              (ensureDimension (inject_Z bh / 2)) [] e1 Hacc1)
    as (chain & e2 & Hrun & Hsz & Htsz & _).
  exists chain, e2. rewrite (bind_run _ _ _ _ _ Hrun). unfold ret.
  split; [reflexivity|]. split; [exact Hsz|congruence].
Qed.

(* with one level only the prefilter and the two blur passes are drawn *)
Lemma _runBloom_single (this : FluidSimulation F) (level : BloomLevel F)
    (d : DoubleFBO F) (e : Env F) (q : handle) :
  bloom (framebuffers this) = [level] ->
  density (framebuffers this) = Some d ->
  quadVAO e = Some q ->
  _runBloom this e =
  Ok (texture (buffer level),
      draw_to (buffer level)
        (DrawBloomBlur (texture (temp level)) (V2 (lit 0.0) (lit 1.0))
           (texelSize (buffer level)))
        (draw_to (temp level)
           (DrawBloomBlur (texture (buffer level)) (V2 (lit 1.0) (lit 0.0))
              (texelSize (buffer level)))
           (draw_to (buffer level)
              (DrawBloomPrefilter (texture (read d)) (bloomThreshold (config this)))
              e))).
Proof.
  intros Hb Hd Hq. unfold _runBloom. rewrite Hb, Hd. simpl.
  unfold bind, ret. simpl.
  rewrite (blit_run _ _ _ q Hq). simpl.
  rewrite (blit_run _ _ _ q) by (rewrite quadVAO_draw_to; exact Hq). simpl.
  rewrite (blit_run _ _ _ q) by (rewrite !quadVAO_draw_to; exact Hq). simpl.
  reflexivity.
Qed.
End BloomChain.

Lemma lookup_map {A B : Type} (f : A -> B) (l : list A) (k : nat) :
  map f l !! k = option_map f (l !! k).
Proof.
  revert k. induction l as [|a l IH]; intros [|k]; simpl; try reflexivity. apply IH.
Qed.

Example bloom_sizes_50 : bloom_sizes 4 50 50 = [(50, 50); (25, 25); (12, 12); (6, 6)].
Proof. vm_compute. reflexivity. Qed.

Example bloom_sizes_10 : bloom_sizes 4 10 10 = [(10, 10); (5, 5)].
Proof. vm_compute. reflexivity. Qed.

Example bloom_sizes_3 : bloom_sizes 6 3 3 = [(3, 3)].
Proof. vm_compute. reflexivity. Qed.

(** C8: when the chain has one level, [_runBloom] draws the prefilter into
    the buffer of that level and the horizontal and vertical blur, and
    nothing else: no copy into a further level and no combine pass; it
    returns the texture of that buffer.  And [_setupBloomBuffers] never
    fails when the driver accepts the framebuffers: it allocates between 1
    and the requested number of levels, and a level after which a dimension
    would fall below 2 is the last level of the chain, however many were
    requested. *)
Theorem bloom_single_level_and_truncation {F : Type} `{Scalar F} :
  (forall (this : FluidSimulation F) (level : BloomLevel F) (d : DoubleFBO F)
          (e : Env F) (q : handle),
     bloom (framebuffers this) = [level] ->
     density (framebuffers this) = Some d ->
     quadVAO e = Some q ->
     let prefilter :=
       DrawBloomPrefilter (texture (read d)) (bloomThreshold (config this)) in
     let blur_h :=
       DrawBloomBlur (texture (buffer level)) (V2 (lit 1.0) (lit 0.0))
         (texelSize (buffer level)) in
     let blur_v :=
       DrawBloomBlur (texture (temp level)) (V2 (lit 0.0) (lit 1.0))
         (texelSize (buffer level)) in
     exists e',
       _runBloom this e = Ok (texture (buffer level), e') /\
       e' = draw_to (buffer level) blur_v
              (draw_to (temp level) blur_h (draw_to (buffer level) prefilter e)) /\
       draw_log e' =
         draw_log e ++ [(Some (fbo (buffer level)), prefilter);
                        (Some (fbo (temp level)), blur_h);
                        (Some (fbo (buffer level)), blur_v)]) /\
  (forall (this : FluidSimulation F) (baseWidth baseHeight : Z) (e : Env F),
     accepts_all e ->
     exists this' e',
       _setupBloomBuffers baseWidth baseHeight this e = Ok (this', e') /\
       let chain := bloom (framebuffers this') in
       let requested := Z.to_nat (Z.max 1 (bloomLevels (config this))) in
       (1 <= length chain <= requested)%nat /\
       forall (k : nat) (level : BloomLevel F),
         chain !! k = Some level ->
         temp_size level = level_size level /\
         (width (buffer level) / 2 < 2 \/ height (buffer level) / 2 < 2 ->
          length chain = S k)).
Proof.
  split.
  - intros this level d e q Hb Hd Hq prefilter blur_h blur_v.
    eexists. split; [exact (_runBloom_single this level d e q Hb Hd Hq)|].
    split; [reflexivity|].
    rewrite !draw_log_draw_to, <- !app_assoc. reflexivity.
  - intros this bw bh e Hacc.
    destruct (_setupBloomBuffers_run bw bh this e Hacc) as (chain & e' & Hrun & Hsz & Htsz).
    eexists _, _. split; [exact Hrun|]. simpl.
    assert (Hlen : length chain =
                   length (bloom_sizes (Z.to_nat (Z.max 1 (bloomLevels (config this))))
                             (ensureDimension (inject_Z bw / 2))
                             (ensureDimension (inject_Z bh / 2)))).
    { rewrite <- Hsz. symmetry. apply length_map. }
    split.
    + rewrite Hlen. split.
      * apply bloom_sizes_length_pos. lia.
      * apply bloom_sizes_length_le.
    + intros k level Hk. split.
      * assert (Ht : map temp_size chain !! k = Some (temp_size level))
          by (rewrite lookup_map, Hk; reflexivity).
        rewrite Htsz, lookup_map, Hk in Ht. simpl in Ht. congruence.
      * intros Hsmall. rewrite Hlen.
        eapply bloom_sizes_truncated; [|exact Hsmall].
        rewrite <- Hsz, lookup_map, Hk. reflexivity.
Qed.

(** ** The presentation pass *)

Section Render.
Context {F : Type} `{Scalar F}.

Lemma bloomDownsample_run (previous : FBO F) (rest : list (BloomLevel F)) e q :
  quadVAO e = Some q ->
  exists e', bloomDownsample previous rest e = Ok (tt, e') /\ quadVAO e' = Some q.
Proof.
  revert previous e. induction rest as [|level rest IH]; intros previous e Hq; simpl.
  - exists e. split; [reflexivity|exact Hq].
  - unfold copyTexture.
    rewrite (bind_run _ _ _ _ _ (blit_run _ _ _ q Hq)).
    apply IH. rewrite quadVAO_draw_to. exact Hq.
Qed.

Lemma bloomBlur_run (levels : list (BloomLevel F)) e q :
  quadVAO e = Some q ->
  exists e', bloomBlur levels e = Ok (tt, e') /\ quadVAO e' = Some q.
Proof.
  revert e. induction levels as [|level rest IH]; intros e Hq; simpl.
  - exists e. split; [reflexivity|exact Hq].
  - rewrite (bind_run _ _ _ _ _ (blit_run _ _ _ q Hq)).
    assert (Hq1 : quadVAO (draw_to (temp level)
                    (DrawBloomBlur (texture (buffer level)) (V2 (lit 1.0) (lit 0.0))
                       (texelSize (buffer level))) e) = Some q)
      by (rewrite quadVAO_draw_to; exact Hq).
    rewrite (bind_run _ _ _ _ _ (blit_run _ _ _ q Hq1)).
    apply IH. rewrite quadVAO_draw_to. exact Hq1.
Qed.

Lemma bloomCombine_run (levels : list (BloomLevel F)) (current : handle) e q :
  quadVAO e = Some q ->
  exists t e', bloomCombine levels current e = Ok (t, e') /\ quadVAO e' = Some q.
Proof.
  revert current e. induction levels as [|level rest IH]; intros current e Hq; simpl.
  - exists current, e. split; [reflexivity|exact Hq].
  - rewrite (bind_run _ _ _ _ _ (blit_run _ _ _ q Hq)).
    assert (Hq1 : quadVAO (draw_to (temp level)
                    (DrawBloomCombine (texture (buffer level)) current) e) = Some q)
      by (rewrite quadVAO_draw_to; exact Hq).
    unfold copyTexture.
    rewrite (bind_run _ _ _ _ _ (blit_run _ _ _ q Hq1)).
    apply IH. rewrite quadVAO_draw_to. exact Hq1.
Qed.

Lemma _runBloom_run (this : FluidSimulation F) (d : DoubleFBO F) e q :
  density (framebuffers this) = Some d ->
  quadVAO e = Some q ->
  exists e', _runBloom this e = Ok (glow_texture this d, e') /\ quadVAO e' = Some q.
Proof.
  intros Hd Hq. unfold _runBloom, glow_texture. rewrite Hd.
  destruct (bloom (framebuffers this)) as [|first rest] eqn:Hb.
  - exists e. split; [reflexivity|exact Hq].
  - cbn [deref]. rewrite (bind_run _ _ e e d eq_refl).
    rewrite (bind_run _ _ _ _ _ (blit_run _ _ _ q Hq)).
    set (e1 := draw_to (buffer first) _ e).
    assert (Hq1 : quadVAO e1 = Some q) by (unfold e1; rewrite quadVAO_draw_to; exact Hq).
    destruct (bloomDownsample_run (buffer first) rest e1 q Hq1) as (e2 & H2 & Hq2).
    rewrite (bind_run _ _ _ _ _ H2).
    destruct (bloomBlur_run (first :: rest) e2 q Hq2) as (e3 & H3 & Hq3).
    rewrite (bind_run _ _ _ _ _ H3).
    destruct (bloomCombine_run (rev (removelast (first :: rest)))
                (texture (buffer (List.last (first :: rest) first))) e3 q Hq3)
      as (t & e4 & H4 & Hq4).
    rewrite (bind_run _ _ _ _ _ H4).
    exists e4. split; [reflexivity|exact Hq4].
Qed.
End Render.

(** C9: [render] writes, for every pixel of the canvas,
    pow(1 - exp(-(dye + b) * exposure), 1 / gamma) on each of the three
    colour channels and alpha 1, where dye is the sample of [density.read]
    and b is [bloomIntensity] times the sample of the bloom texture when
    bloom is enabled and nothing is added otherwise.  The bloom texture is
    the one [_runBloom] returns, run just before the pass. *)
Theorem render_tone_mapping {F : Type} `{Scalar F}
    (this : FluidSimulation F) (d : DoubleFBO F) (e : Env F) (q : handle) :
  density (framebuffers this) = Some d ->
  quadVAO e = Some q ->
  let cfg := config this in
  let useBloom :=
    enableBloom cfg && (0 <? Z.of_nat (length (bloom (framebuffers this)))) in
  exists e_b e',
    render this e = Ok (tt, e') /\
    (if useBloom
     then _runBloom this e = Ok (glow_texture this d, e_b)
     else e_b = e) /\
    forall i j,
      let uv := GlslTex.frag_uv (canvas_width e_b) (canvas_height e_b) i j in
      let dye := Glsl.rgb (GlslTex.texture (textures e_b !! texture (read d)) uv) in
      let bloomTexture := if useBloom then glow_texture this d else texture (read d) in
      let bloomSample := Glsl.rgb (GlslTex.texture (textures e_b !! bloomTexture) uv) in
      let color :=
        if enableBloom cfg
        then Glsl.v3add dye (Glsl.v3scale bloomSample (bloomIntensity cfg))
        else dye in
      let tone c :=
        fpow (lit 1 - fexp (- c * exposure cfg))%fl (lit 1 / gamma cfg)%fl in
      canvas_data e' i j =
      V4 (tone (v3r color)) (tone (v3g color)) (tone (v3b color)) (lit 1).
Proof.
  intros Hd Hq cfg useBloom. unfold render. fold cfg. fold useBloom.
  destruct useBloom eqn:Hu.
  - destruct (_runBloom_run this d e q Hd Hq) as (e_b & Hrun & Hqb).
    exists e_b. eexists. split; [|split; [exact Hrun|]].
    + rewrite (bind_run _ _ e e_b (Some (glow_texture this d))).
      2:{ rewrite (bind_run _ _ _ _ _ Hrun). reflexivity. }
      rewrite Hd. cbn [deref]. rewrite (bind_run _ _ e_b e_b d eq_refl).
      rewrite (blit_run _ _ _ q Hqb). reflexivity.
    + intros i j. simpl. unfold rendered. simpl. unfold displayShader.
      destruct (enableBloom cfg); reflexivity.
  - exists e. eexists. split; [|split; [reflexivity|]].
    + rewrite (bind_run _ _ e e None eq_refl).
      rewrite Hd. cbn [deref]. rewrite (bind_run _ _ e e d eq_refl).
      rewrite (blit_run _ _ _ q Hq). reflexivity.
    + intros i j. simpl. unfold rendered. simpl. unfold displayShader.
      destruct (enableBloom cfg); reflexivity.
Qed.

Lemma render_tone_mapping_witness :
  exists e', render sample_sim sample_env = Ok (tt, e').
Proof.
  destruct (render_tone_mapping sample_sim
              (MkDoubleFBO (sample_fbo 6%nat 2 2 RGBA16F RGBA)
                 (sample_fbo 8%nat 2 2 RGBA16F RGBA))
              sample_env 0%nat eq_refl eq_refl)
    as (e_b & e' & Hrun & _).
  exists e'. exact Hrun.
Defined.

(** ** A tick on an allocated simulation does not fail *)

Section Totality.
Context {F : Type} `{Scalar F}.

Lemma randomColor_run (e : Env F) :
  exists c e', randomColor e = Ok (c, e') /\ quadVAO e' = quadVAO e.
Proof.
  unfold randomColor, Math_random, bind, ret. simpl.
  eexists _, _. split; reflexivity.
Qed.

Lemma allocated_keeps_swaps :
  (forall s : FluidSimulation F, allocated s -> allocated (swap_velocity s)) /\
  (forall s : FluidSimulation F, allocated s -> allocated (swap_density s)) /\
  (forall s : FluidSimulation F, allocated s -> allocated (swap_pressure s)).
Proof.
  unfold allocated. repeat split; simpl;
    repeat match goal with Hx : _ /\ _ |- _ => destruct Hx end;
    try assumption;
    match goal with
    | Hx : is_Some ?o |- is_Some (option_map _ ?o) =>
        destruct Hx as [x ->]; simpl; eauto
    end.
Qed.

Lemma splat_run x y dx dy c (this : FluidSimulation F) e q :
  allocated this -> quadVAO e = Some q ->
  exists this' e',
    splat x y dx dy c this e = Ok (this', e') /\
    allocated this' /\ quadVAO e' = Some q.
Proof.
  intros Hall Hq.
  assert (Hall' := Hall). destruct Hall' as ([v Hv] & [d Hd] & _).
  unfold splat. rewrite Hv. cbn [deref].
  rewrite (bind_run _ _ e e v eq_refl).
  rewrite (bind_run _ _ _ _ _ (blit_run _ _ _ q Hq)).
  cbn [swap_velocity with_framebuffers framebuffers with_velocity density].
  rewrite Hd. cbn [deref].
  erewrite (bind_run _ _ _ _ d) by reflexivity.
  erewrite bind_run
    by (apply (blit_run _ _ _ q); rewrite quadVAO_draw_to; exact Hq).
  unfold ret. eexists _, _. split; [reflexivity|]. split.
  - destruct Hall as (_ & _ & Hp & Hdv & Hc).
    unfold allocated. simpl. rewrite ?Hv, ?Hd. simpl. repeat split; eauto.
  - rewrite !quadVAO_draw_to. exact Hq.
Qed.
End Totality.

Section PointerUpdates.
Context {F : Type} `{Scalar F}.

Lemma applyPointer_pointer (pointer : Pointer F) rc this e pointer' this' e' :
  applyPointer pointer rc this e = Ok ((pointer', this'), e') ->
  pointer_after rc pointer pointer'.
Proof.
  unfold applyPointer, pointer_after, splatted.
  destruct (moved pointer) eqn:Hm; simpl;
    [|unfold ret; intros [= <- <- <-]; repeat split; auto].
  destruct (down pointer) eqn:Hdn; simpl;
    [|unfold ret; intros [= <- <- <-]; repeat split; auto].
  destruct (andb _ _) eqn:Hz; simpl;
    [unfold ret; intros [= <- <- <-]; repeat split; auto|].
  intros Hr. bind_inv_as Hr p1 e1 Hcol. bind_inv_as Hr s2 e2 Hsp.
  unfold ret in Hr. revert Hr. intros [= <- <- <-]. simpl.
  destruct rc.
  - bind_inv_as Hcol c e0 Hrc. unfold ret in Hcol. revert Hcol. intros [= <- <-].
    simpl. repeat split; auto. discriminate.
  - unfold ret in Hcol. revert Hcol. intros [= <- <-].
    repeat split; auto.
Qed.

Lemma applyPointers_pointers (pointers : list (Pointer F)) rc this e pointers' this' e' :
  applyPointers pointers rc this e = Ok ((pointers', this'), e') ->
  Forall2 (pointer_after rc) pointers pointers'.
Proof.
  unfold applyPointers. revert this e pointers' this' e'.
  induction pointers as [|p ps IH]; intros this e pointers' this' e' Hr; simpl in Hr.
  - unfold ret in Hr. revert Hr. intros [= <- <- <-]. constructor.
  - bind_inv_as Hr r1 e1 H1. bind_inv_as Hr r2 e2 H2.
    unfold ret in Hr. revert Hr. intros [= <- <- <-].
    destruct r1 as [p1 s1]. destruct r2 as [ps2 s2]. simpl in *.
    constructor.
    + eapply applyPointer_pointer; eassumption.
    + eapply IH; eassumption.
Qed.

Lemma applyPointer_run (pointer : Pointer F) rc this e q :
  allocated this -> quadVAO e = Some q ->
  exists pointer' this' e',
    applyPointer pointer rc this e = Ok ((pointer', this'), e') /\
    allocated this' /\ quadVAO e' = Some q.
Proof.
  intros Hall Hq. unfold applyPointer.
  destruct (negb (moved pointer) || negb (down pointer)).
  { eexists _, _, _. split; [reflexivity|]. split; assumption. }
  destruct (andb _ _).
  { eexists _, _, _. split; [reflexivity|]. split; assumption. }
  destruct rc.
  - destruct (randomColor_run e) as (c & e1 & Hc & Hq1).
    rewrite Hq in Hq1.
    set (p1 := MkPointer (pid pointer) (down pointer) (moved pointer)
                 (position pointer) (previous pointer) (delta pointer) c).
    destruct (splat_run (vx (position p1)) (vy (position p1)) (vx (delta pointer))
                (vy (delta pointer)) (color p1) this e1 q Hall Hq1)
      as (this' & e' & Hs & Hall' & Hq').
    eexists _, this', e'. split; [|split; assumption].
    rewrite (bind_run _ _ e e1 p1).
    2:{ rewrite (bind_run _ _ _ _ _ Hc). reflexivity. }
    rewrite (bind_run _ _ _ _ _ Hs). reflexivity.
  - destruct (splat_run (vx (position pointer)) (vy (position pointer))
                (vx (delta pointer)) (vy (delta pointer)) (color pointer)
                this e q Hall Hq)
      as (this' & e' & Hs & Hall' & Hq').
    eexists _, this', e'. split; [|split; assumption].
    rewrite (bind_run _ _ e e pointer eq_refl).
    rewrite (bind_run _ _ _ _ _ Hs). reflexivity.
Qed.

Lemma applyPointers_run (pointers : list (Pointer F)) rc this e q :
  allocated this -> quadVAO e = Some q ->
  exists pointers' this' e',
    applyPointers pointers rc this e = Ok ((pointers', this'), e') /\
    allocated this' /\ quadVAO e' = Some q.
Proof.
  unfold applyPointers. revert this e.
  induction pointers as [|p ps IH]; intros this e Hall Hq; simpl.
  - eexists _, _, _. split; [reflexivity|]. split; assumption.
  - destruct (applyPointer_run p rc this e q Hall Hq) as (p1 & s1 & e1 & H1 & Hall1 & Hq1).
    destruct (IH s1 e1 Hall1 Hq1) as (ps2 & s2 & e2 & H2 & Hall2 & Hq2).
    eexists _, s2, e2. split; [|split; assumption].
    rewrite (bind_run _ _ _ _ _ H1). simpl.
    rewrite (bind_run _ _ _ _ _ H2). reflexivity.
Qed.
End PointerUpdates.

Section TickTotality.
Context {F : Type} `{Scalar F}.

Lemma allocated_with_lastPointerColor (s : FluidSimulation F) c :
  allocated s -> allocated (with_lastPointerColor s c).
Proof. auto. Qed.

Lemma allocated_with_autoTimer (s : FluidSimulation F) t :
  allocated s -> allocated (with_autoTimer s t).
Proof. auto. Qed.

Lemma allocated_with_colorCycleTimer (s : FluidSimulation F) t :
  allocated s -> allocated (with_colorCycleTimer s t).
Proof. auto. Qed.

Ltac run_pass q Hq :=
  unfold bind, ret, deref; simpl;
  repeat (rewrite (blit_run _ _ _ q) by (rewrite ?quadVAO_draw_to; exact Hq); simpl).

Lemma _advectVelocity_total dt (this : FluidSimulation F) e q :
  allocated this -> quadVAO e = Some q ->
  exists this' e', _advectVelocity dt this e = Ok (this', e') /\
                   allocated this' /\ quadVAO e' = Some q.
Proof.
  intros Hall Hq. assert (Hall' := Hall). destruct Hall' as ([v Hv] & _).
  eexists _, _. split; [exact (_advectVelocity_run dt this v e q Hv Hq)|].
  split; [apply allocated_keeps_swaps; exact Hall|].
  rewrite quadVAO_draw_to. exact Hq.
Qed.

Lemma _applyVorticity_total dt (this : FluidSimulation F) e q :
  allocated this -> quadVAO e = Some q ->
  exists this' e', _applyVorticity dt this e = Ok (this', e') /\
                   allocated this' /\ quadVAO e' = Some q.
Proof.
  intros Hall Hq. assert (Hall' := Hall).
  destruct Hall' as ([v Hv] & _ & _ & _ & [c Hc]).
  unfold _applyVorticity. rewrite Hv, Hc. run_pass q Hq.
  eexists _, _. split; [reflexivity|].
  split; [apply allocated_keeps_swaps; exact Hall|].
  rewrite !quadVAO_draw_to. exact Hq.
Qed.

Lemma _computeDivergence_total (this : FluidSimulation F) e q :
  allocated this -> quadVAO e = Some q ->
  exists this' e', _computeDivergence this e = Ok (this', e') /\
                   allocated this' /\ quadVAO e' = Some q.
Proof.
  intros Hall Hq. assert (Hall' := Hall).
  destruct Hall' as ([v Hv] & _ & _ & [dv Hdv] & _).
  unfold _computeDivergence. rewrite Hv, Hdv. run_pass q Hq.
  eexists _, _. split; [reflexivity|]. split; [exact Hall|].
  rewrite !quadVAO_draw_to. exact Hq.
Qed.

Lemma _solvePressure_total (this : FluidSimulation F) e q :
  allocated this -> quadVAO e = Some q ->
  exists this' e', _solvePressure this e = Ok (this', e') /\
                   allocated this' /\ quadVAO e' = Some q.
Proof.
  intros Hall Hq. assert (Hall' := Hall).
  destruct Hall' as (_ & _ & [p Hp] & [dv Hdv] & _).
  pose proof (_solvePressure_run this p dv e q Hp Hdv Hq) as Hrun. simpl in Hrun.
  eexists _, _. split; [exact Hrun|]. split.
  - eapply (_solvePressure_keeps allocated);
      [apply allocated_keeps_swaps|exact Hall|exact Hrun].
  - rewrite quadVAO_jacobi_run. unfold decay_pass. rewrite quadVAO_draw_to. exact Hq.
Qed.

Lemma _subtractPressureGradient_total (this : FluidSimulation F) e q :
  allocated this -> quadVAO e = Some q ->
  exists this' e', _subtractPressureGradient this e = Ok (this', e') /\
                   allocated this' /\ quadVAO e' = Some q.
Proof.
  intros Hall Hq. assert (Hall' := Hall).
  destruct Hall' as ([v Hv] & _ & [p Hp] & _).
  unfold _subtractPressureGradient. rewrite Hv, Hp. run_pass q Hq.
  eexists _, _. split; [reflexivity|].
  split; [apply allocated_keeps_swaps; exact Hall|].
  rewrite !quadVAO_draw_to. exact Hq.
Qed.

Lemma _advectDye_total dt (this : FluidSimulation F) e q :
  allocated this -> quadVAO e = Some q ->
  exists this' e', _advectDye dt this e = Ok (this', e') /\
                   allocated this' /\ quadVAO e' = Some q.
Proof.
  intros Hall Hq. assert (Hall' := Hall).
  destruct Hall' as ([v Hv] & [d Hd] & _).
  unfold _advectDye. rewrite Hv, Hd. run_pass q Hq.
  eexists _, _. split; [reflexivity|].
  split; [apply allocated_keeps_swaps; exact Hall|].
  rewrite !quadVAO_draw_to. exact Hq.
Qed.

(* a tick on an allocated simulation with an initialised quad succeeds *)
Lemma step_total dt (pointers : list (Pointer F)) (this : FluidSimulation F) e q :
  allocated this -> quadVAO e = Some q ->
  exists pointers' this' e',
    step dt pointers this e = Ok ((pointers', this'), e') /\
    allocated this' /\ quadVAO e' = Some q.
Proof.
  intros Hall Hq. unfold step.
  destruct (paused (config this)).
  { eexists _, _, _. split; [reflexivity|]. split; assumption. }
  set (rc := cycleColors (config this) && _).
  set (s0 := if rc then _ else _).
  assert (Hall0 : allocated s0) by (unfold s0; destruct rc; exact Hall).
  destruct (applyPointers_run pointers rc s0 e q Hall0 Hq)
    as (ps1 & s1 & e1 & H1 & Hall1 & Hq1).
  destruct (_advectVelocity_total (fmin dt (lit 0.016)) s1 e1 q Hall1 Hq1)
    as (s2 & e2 & H2 & Hall2 & Hq2).
  destruct (_applyVorticity_total (fmin dt (lit 0.016)) s2 e2 q Hall2 Hq2)
    as (s3 & e3 & H3 & Hall3 & Hq3).
  destruct (_computeDivergence_total s3 e3 q Hall3 Hq3)
    as (s4 & e4 & H4 & Hall4 & Hq4).
  destruct (_solvePressure_total s4 e4 q Hall4 Hq4)
    as (s5 & e5 & H5 & Hall5 & Hq5).
  destruct (_subtractPressureGradient_total s5 e5 q Hall5 Hq5)
    as (s6 & e6 & H6 & Hall6 & Hq6).
  destruct (_advectDye_total (fmin dt (lit 0.016)) s6 e6 q Hall6 Hq6)
    as (s7 & e7 & H7 & Hall7 & Hq7).
  exists ps1, s7, e7. split; [|split; assumption].
  rewrite (bind_run _ _ _ _ _ H1). simpl.
  rewrite (bind_run _ _ _ _ _ H2), (bind_run _ _ _ _ _ H3),
    (bind_run _ _ _ _ _ H4), (bind_run _ _ _ _ _ H5),
    (bind_run _ _ _ _ _ H6), (bind_run _ _ _ _ _ H7).
  reflexivity.
Qed.
End TickTotality.

(** ** What a tick does to the pointer objects *)

Section StepPointers.
Context {F : Type} `{Scalar F}.

(* the pointer objects a tick returns are those its [forEach] loop returns *)
Lemma step_applyPointers dt (pointers : list (Pointer F)) this e pointers' this' e' :
  paused (config this) = false ->
  step dt pointers this e = Ok ((pointers', this'), e') ->
  exists randomizeColor this0 this1 e1,
    (cycleColors (config this) = false -> randomizeColor = false) /\
    applyPointers pointers randomizeColor this0 e = Ok ((pointers', this1), e1).
Proof.
  intros Hp. unfold step. rewrite Hp.
  set (rc := cycleColors (config this) && _).
  intros Hr. bind_inv_as Hr r1 e1 H1. destruct r1 as [ps1 s1].
  do 6 bind_inv Hr. unfold ret in Hr. revert Hr. intros [= <- <- <-].
  eexists rc, _, s1, e1. split; [|exact H1].
  intros Hcyc. unfold rc. rewrite Hcyc. reflexivity.
Qed.

(* the same with the flag the tick computes: colour cycling fires *)
Lemma step_applyPointers_fires dt (pointers : list (Pointer F)) this e pointers' this' e' :
  paused (config this) = false ->
  step dt pointers this e = Ok ((pointers', this'), e') ->
  exists this0 this1 e1,
    applyPointers pointers
      (cycleColors (config this)
       && (colorCycleTimer this + dt >? colorCycleSpeed (config this))%fl)
      this0 e = Ok ((pointers', this1), e1).
Proof.
  intros Hp. unfold step. rewrite Hp.
  intros Hr. bind_inv_as Hr r1 e1 H1. destruct r1 as [ps1 s1].
  do 6 bind_inv Hr. unfold ret in Hr. revert Hr. intros [= <- <- <-].
  eexists _, s1, e1. exact H1.
Qed.
End StepPointers.

Lemma sample_allocated : allocated sample_sim.
Proof. unfold allocated. simpl. repeat split; eexists; reflexivity. Qed.

Lemma sample_pointer_splatted : splatted sample_pointer = true.
Proof.
  unfold splatted. simpl. rewrite (R_eqb_false 1 (Q2R 0)); [reflexivity|].
  change (Q2R 0) with (lit (F := R) 0). rewrite lit_R_0. lra.
Qed.

(** C4, as stated, fails: the tick clears the [moved] flag of a pointer
    that it splats. *)
Lemma step_clears_moved :
  exists pointer' this' e',
    step (lit 0.016) [sample_pointer] sample_sim sample_env
    = Ok (([pointer'], this'), e') /\
    moved sample_pointer = true /\
    moved pointer' = false.
Proof.
  destruct (step_total (lit 0.016) [sample_pointer] sample_sim sample_env 0%nat
              sample_allocated eq_refl)
    as (ps' & this' & e' & Hrun & _ & _).
  destruct (step_applyPointers (lit 0.016) [sample_pointer] sample_sim sample_env
              ps' this' e' eq_refl Hrun)
    as (rc & s0 & s1 & e1 & _ & Happ).
  pose proof (applyPointers_pointers _ _ _ _ _ _ _ Happ) as Hall.
  inversion Hall as [|p p' l l' Hafter Hrest]; subst.
  inversion Hrest; subst.
  exists p', this', e'. split; [exact Hrun|]. split; [reflexivity|].
  destruct Hafter as (_ & _ & _ & _ & _ & Hs).
  rewrite sample_pointer_splatted in Hs. apply Hs.
Qed.

(** C4, amended: a tick never changes the id, position, previous position,
    delta or [down] flag of a pointer object.  A pointer that is down and
    moved with a delta that is not 0 on both axes is splatted: its [moved]
    flag is cleared, and its colour is kept unless colour cycling fires on
    this tick, that is unless [cycleColors] is set and [colorCycleTimer]
    plus the time step exceeds [colorCycleSpeed]; every other pointer
    object is left as it was, and so is every pointer object while the
    simulation is paused. *)
Theorem step_pointer_updates {F : Type} `{Scalar F}
    (deltaTime : F) (pointers pointers' : list (Pointer F))
    (this this' : FluidSimulation F) (e e' : Env F) :
  step deltaTime pointers this e = Ok ((pointers', this'), e') ->
  let fires :=
    cycleColors (config this)
    && (colorCycleTimer this + deltaTime >? colorCycleSpeed (config this))%fl in
  if paused (config this)
  then pointers' = pointers
  else
    Forall2
      (fun p p' =>
         pid p' = pid p /\ down p' = down p /\ position p' = position p /\
         previous p' = previous p /\ delta p' = delta p /\
         (if moved p && down p
             && negb ((vx (delta p) === lit 0)%fl && (vy (delta p) === lit 0)%fl)
          then moved p' = false /\ (fires = false -> color p' = color p)
          else p' = p))
      pointers pointers'.
Proof.
  intros Hrun fires. destruct (paused (config this)) eqn:Hp.
  - unfold step in Hrun. rewrite Hp in Hrun.
    unfold ret in Hrun. revert Hrun. intros [= <- <- <-]. reflexivity.
  - destruct (step_applyPointers_fires _ _ _ _ _ _ _ Hp Hrun)
      as (this0 & this1 & e1 & Happ).
    exact (applyPointers_pointers _ _ _ _ _ _ _ Happ).
Qed.

Lemma step_pointer_updates_witness :
  exists pointer1 pointer2 this' e',
    step (lit 0.016) [sample_pointer; still_pointer] sample_sim sample_env
    = Ok (([pointer1; pointer2], this'), e') /\
    moved pointer1 = false /\
    pointer1 = MkPointer 1 true false (V2 (lit 0.5) (lit 0.5)) (V2 (lit 0.5) (lit 0.5))
                 (V2 1%R 0%R) (MkColor 1%R 0%R 0%R) /\
    pointer2 = still_pointer.
Proof.
  destruct (step_total (lit 0.016) [sample_pointer; still_pointer] sample_sim
              sample_env 0%nat sample_allocated eq_refl)
    as (ps' & this' & e' & Hrun & _ & _).
  pose proof (step_pointer_updates (lit 0.016) [sample_pointer; still_pointer] ps'
                sample_sim this' sample_env e' Hrun) as Hall.
  cbv zeta in Hall. change (paused (config sample_sim)) with false in Hall.
  cbv iota in Hall.
  inversion Hall as [|p1 p1' l1 l1' H1 Hrest1]; subst.
  inversion Hrest1 as [|p2 p2' l2 l2' H2 Hrest2]; subst.
  inversion Hrest2; subst.
  exists p1', p2', this', e'. split; [exact Hrun|].
  fold (splatted sample_pointer) in H1. fold (splatted still_pointer) in H2.
  rewrite sample_pointer_splatted in H1.
  replace (splatted still_pointer) with false in H2.
  2:{ unfold splatted. simpl. rewrite (R_eqb_true 0 (Q2R 0)); [reflexivity|].
      change (Q2R 0) with (lit (F := R) 0). rewrite lit_R_0. reflexivity. }
  destruct H1 as (Hid & Hdn & Hpos & Hprev & Hdl & Hm & Hcol).
  split; [exact Hm|]. split; [|exact (proj2 (proj2 (proj2 (proj2 (proj2 H2)))))].
  assert (Hfires : cycleColors (config sample_sim)
                   && (colorCycleTimer sample_sim + lit 0.016
                       >? colorCycleSpeed (config sample_sim))%fl = false).
  { simpl. unfold R_ltb.
    destruct (Rlt_dec _ _) as [Hlt|]; [|reflexivity].
    exfalso. revert Hlt. unfold Q2R. simpl. lra. }
  specialize (Hcol Hfires).
  destruct p1' as [i dn mv ps pv dl cl]. simpl in *. subst. reflexivity.
Defined.

(** ** Vorticity confinement *)

(* NEAREST lookup over the reals: the texel whose cell contains the
   coordinate, with the index clamped to the edge *)
Lemma texture_nearest_R (t : texture_object R) (uv : vec2 R) (i j : Z) :
  tex_filtering t = NEAREST ->
  (IZR i <= vx uv * IZR (tex_width t) < IZR i + 1)%R ->
  (IZR j <= vy uv * IZR (tex_height t) < IZR j + 1)%R ->
  GlslTex.texture (Some t) uv = GlslTex.expand (tex_format t) (GlslTex.texel t i j).
Proof.
  intros Hf Hi Hj. unfold GlslTex.texture. rewrite Hf. simpl.
  rewrite <- (Int_part_spec (vx uv * IZR (tex_width t)) i) by lra.
  rewrite <- (Int_part_spec (vy uv * IZR (tex_height t)) j) by lra.
  reflexivity.
Qed.

Lemma lit_R_half : lit (F := R) 0.5 = (1 / 2)%R.
Proof. simpl. unfold Q2R. simpl. lra. Qed.

Lemma lit_R_eps : lit (F := R) 1e-5 = (1 / 100000)%R.
Proof.
  simpl. unfold Q2R.
  replace (Qnum 1e-5) with 1%Z by reflexivity.
  replace (QDen 1e-5) with 100000%Z by reflexivity.
  lra.
Qed.

Lemma lit_R_one : lit (F := R) 1.0 = 1%R.
Proof. simpl. unfold Q2R. simpl. lra. Qed.

Ltac nearest_R i j :=
  rewrite (texture_nearest_R ridge_curl _ i j eq_refl);
  [ reflexivity
  | unfold centre, third, GlslTex.frag_uv; simpl; unfold Q2R; simpl; lra
  | unfold centre, third, GlslTex.frag_uv; simpl; unfold Q2R; simpl; lra ].

(* the five samples the vorticity pass takes at the centre of [ridge_curl] *)
Lemma ridge_curl_samples :
  GlslTex.texture (Some ridge_curl) (Glsl.v2sub centre (V2 (vx third) (lit 0)))
    = V4 0%R (lit 0) (lit 0) (lit 1) /\
  GlslTex.texture (Some ridge_curl) (Glsl.v2add centre (V2 (vx third) (lit 0)))
    = V4 1%R (lit 0) (lit 0) (lit 1) /\
  GlslTex.texture (Some ridge_curl) (Glsl.v2sub centre (V2 (lit 0) (vy third)))
    = V4 0%R (lit 0) (lit 0) (lit 1) /\
  GlslTex.texture (Some ridge_curl) (Glsl.v2add centre (V2 (lit 0) (vy third)))
    = V4 0%R (lit 0) (lit 0) (lit 1) /\
  GlslTex.texture (Some ridge_curl) centre = V4 1%R (lit 0) (lit 0) (lit 1).
Proof.
  repeat split.
  - nearest_R 0 1.
  - nearest_R 2 1.
  - nearest_R 1 0.
  - nearest_R 1 2.
  - nearest_R 1 1.
Qed.

(* the pass for any numbers, in terms of its five curl samples: the x
   component of the force comes from the difference between right and left,
   the y component from the difference between top and bottom *)
Lemma vorticityShader_force {F : Type} `{Scalar F}
    (uVelocity uCurl : sampler2D F) (uTexelSize : vec2 F)
    (uCurlStrength uDeltaTime : F) (vUv : vec2 F) :
  let sample p := cx (GlslTex.texture uCurl p) in
  let curlL := sample (Glsl.v2sub vUv (V2 (vx uTexelSize) (lit 0))) in
  let curlR := sample (Glsl.v2add vUv (V2 (vx uTexelSize) (lit 0))) in
  let curlB := sample (Glsl.v2sub vUv (V2 (lit 0) (vy uTexelSize))) in
  let curlT := sample (Glsl.v2add vUv (V2 (lit 0) (vy uTexelSize))) in
  let curl := sample vUv in
  let dx := (fabs curlR - fabs curlL)%fl in
  let dy := (fabs curlT - fabs curlB)%fl in
  let len := (fsqrt (dy * dy + dx * dx) + lit 1e-5)%fl in
  let velocity := Glsl.xy (GlslTex.texture uVelocity vUv) in
  vorticityShader uVelocity uCurl uTexelSize uCurlStrength uDeltaTime vUv
  = V4 (vx velocity + dx / len * curl * uCurlStrength * uDeltaTime)%fl
       (vy velocity + - (dy / len) * curl * uCurlStrength * uDeltaTime)%fl
       (lit 0) (lit 1).
Proof. reflexivity. Qed.

(** C6 on the code.  At the centre of [ridge_curl] the gradient of |curl|
    points along +x (the right neighbour differs from the left one, top and
    bottom agree; the local curl is 1).  A force turned by 90 degrees from
    it has no x component, in either sense of rotation.  The pass changes
    the x component of the velocity by curlStrength * dt / (1 + 1e-5) and
    leaves the y component alone: the force it applies is along the
    gradient, not across it. *)
Theorem vorticity_force_along_gradient
    (uVelocity : sampler2D R) (uCurlStrength uDeltaTime : R) :
  let out :=
    vorticityShader uVelocity (Some ridge_curl) third uCurlStrength uDeltaTime centre in
  let velocity := GlslTex.texture uVelocity centre in
  abs_curl_gradient 0%R 1%R 0%R 0%R = V2 1%R 0%R /\
  (forall ccw, vx (confinement_force ccw 0%R 1%R 0%R 0%R 1%R uCurlStrength) = 0%R) /\
  cx out = (cx velocity + uCurlStrength / (1 + 1 / 100000) * uDeltaTime)%R /\
  cy out = cy velocity.
Proof.
  intros out velocity.
  assert (Habs : abs_curl_gradient 0%R 1%R 0%R 0%R = V2 1%R 0%R).
  { unfold abs_curl_gradient. simpl. rewrite Rabs_R0, Rabs_R1. f_equal; lra. }
  split; [exact Habs|]. split.
  { intros ccw. unfold confinement_force. rewrite Habs.
    destruct ccw; simpl; unfold Rdiv; lra. }
  destruct ridge_curl_samples as (HL & HR & HB & HT & HC).
  unfold out, velocity, vorticityShader. rewrite HL, HR, HB, HT, HC.
  rewrite lit_R_eps, lit_R_0, lit_R_1. simpl.
  rewrite Rabs_R0, Rabs_R1.
  replace (sqrt ((0 - 0) * (0 - 0) + (1 - 0) * (1 - 0))) with 1%R
    by (replace ((0 - 0) * (0 - 0) + (1 - 0) * (1 - 0))%R with 1%R by lra;
        symmetry; apply sqrt_1).
  split; field.
Qed.

Lemma bloom_single_level_and_truncation_witness :
  (exists e',
     _runBloom sample_sim sample_env = Ok (18%nat, e') /\
     length (draw_log e') = 3%nat) /\
  (exists this' e',
     _setupBloomBuffers 6 6 sample_sim sample_env = Ok (this', e') /\
     (1 <= length (bloom (framebuffers this')) <= 4)%nat).
Proof.
  destruct (@bloom_single_level_and_truncation R Scalar_R) as [Hone Hchain].
  split.
  - destruct (Hone sample_sim
                (MkBloomLevel (sample_fbo 18%nat 3 3 RGBA16F RGBA)
                   (sample_fbo 20%nat 3 3 RGBA16F RGBA))
                (MkDoubleFBO (sample_fbo 6%nat 2 2 RGBA16F RGBA)
                   (sample_fbo 8%nat 2 2 RGBA16F RGBA))
                sample_env 0%nat eq_refl eq_refl eq_refl)
      as (e' & Hrun & _ & Hlog).
    exists e'. split; [exact Hrun|]. rewrite Hlog. reflexivity.
  - destruct (Hchain sample_sim 6 6 sample_env (fun _ _ _ => eq_refl))
      as (this' & e' & Hrun & Hlen & _).
    exists this', e'. split; [exact Hrun|exact Hlen].
Defined.

Lemma swap_exchanges_references_witness :
  double_ok (MkDoubleFBO (sample_fbo 2%nat 2 2 RG16F RG) (sample_fbo 4%nat 2 2 RG16F RG)).
Proof.
  destruct (@swap_exchanges_references R Scalar_R) as (_ & _ & Hinv).
  apply (Hinv sample_sim sample_env sample_reachable).
  left. reflexivity.
Defined.

(** ** The Jacobi pass over the reals: a five-point stencil

    On a NEAREST texture whose size is the size of the target, the four
    offset lookups of the pressure shader read the four neighbouring texels,
    with the index clamped at the edge of the grid. *)

Lemma frag_uv_offset_R (w i di : Z) :
  0 < w ->
  (IZR (i + di) <= ((IZR i + lit 0.5) / IZR w + IZR di * (lit 1.0 / IZR w)) * IZR w
   < IZR (i + di) + 1)%R.
Proof.
  intros Hw. rewrite lit_R_half, lit_R_one, plus_IZR.
  assert (Hw' : (0 < IZR w)%R) by (apply (IZR_lt 0); exact Hw).
  replace (((IZR i + 1 / 2) / IZR w + IZR di * (1 / IZR w)) * IZR w)%R
    with (IZR i + IZR di + 1 / 2)%R by (field; lra).
  lra.
Qed.

Section StencilR.
Variables (P D : texture_object R) (w h : Z).
Hypothesis P_nearest : tex_filtering P = NEAREST.
Hypothesis D_nearest : tex_filtering D = NEAREST.
Hypothesis P_width : tex_width P = w.
Hypothesis P_height : tex_height P = h.
Hypothesis D_width : tex_width D = w.
Hypothesis D_height : tex_height D = h.
Hypothesis w_pos : 0 < w.
Hypothesis h_pos : 0 < h.

Lemma lookup_offset_R (t : texture_object R) (i j di dj : Z) (uv : vec2 R) :
  tex_filtering t = NEAREST -> tex_width t = w -> tex_height t = h ->
  vx uv = ((IZR i + lit 0.5) / IZR w + IZR di * (lit 1.0 / IZR w))%R ->
  vy uv = ((IZR j + lit 0.5) / IZR h + IZR dj * (lit 1.0 / IZR h))%R ->
  GlslTex.texture (Some t) uv
  = GlslTex.expand (tex_format t) (GlslTex.texel t (i + di) (j + dj)).
Proof.
  intros Hf Htw Hth Hx Hy.
  apply texture_nearest_R; [exact Hf| |].
  - rewrite Hx, Htw. apply frag_uv_offset_R. exact w_pos.
  - rewrite Hy, Hth. apply frag_uv_offset_R. exact h_pos.
Qed.

Lemma cx_expand (fmt : internal_format) (v : vec4 R) :
  cx (GlslTex.expand fmt v) = cx v.
Proof. destruct fmt; reflexivity. Qed.

Lemma pressureShader_stencil_R (i j : Z) :
  let p a b := cx (GlslTex.texel P a b) in
  pressureShader (Some P) (Some D)
    (V2 (lit 1.0 / of_Z w)%fl (lit 1.0 / of_Z h)%fl) (GlslTex.frag_uv w h i j)
  = V4 ((p (i - 1)%Z j + p (i + 1)%Z j + p i (j - 1)%Z + p i (j + 1)%Z
         - cx (GlslTex.texel D i j)) * lit 0.25)%R
       (lit 0) (lit 0) (lit 1).
Proof.
  intros p. unfold pressureShader.
  rewrite (lookup_offset_R P i j (-1) 0), (lookup_offset_R P i j 1 0),
    (lookup_offset_R P i j 0 (-1)), (lookup_offset_R P i j 0 1),
    (lookup_offset_R D i j 0 0);
    try assumption;
    try (unfold GlslTex.frag_uv; simpl;
         rewrite ?lit_R_0, ?lit_R_half, ?lit_R_one;
         change (Q2R 0.5) with (lit (F := R) 0.5);
         change (Q2R 1.0) with (lit (F := R) 1.0);
         change (Q2R 0) with (lit (F := R) 0);
         rewrite ?lit_R_0, ?lit_R_half, ?lit_R_one; lra).
  rewrite !cx_expand, !Z.add_0_r. unfold p. reflexivity.
Qed.
End StencilR.

(* at the corner (0, 0) the left and the bottom neighbour are the corner
   itself: (1 + 2 + 1 + 3 - 0) * 0.25 *)
Example jacobi_corner :
  cx (pressureShader (Some pressure_1234) (Some divergence_zero)
        (V2 (lit 1.0 / of_Z 2)%fl (lit 1.0 / of_Z 2)%fl) (GlslTex.frag_uv 2 2 0 0))
  = (7 / 4)%R.
Proof.
  rewrite (pressureShader_stencil_R pressure_1234 divergence_zero 2 2)
    by (reflexivity || lia).
  cbv -[IZR Rplus Rmult Rminus Rdiv Rinv Ropp]. lra.
Qed.

(* and at (1, 1) the right and the top neighbour are the texel itself:
   (3 + 4 + 2 + 4 - 0) * 0.25 *)
Example jacobi_far_corner :
  cx (pressureShader (Some pressure_1234) (Some divergence_zero)
        (V2 (lit 1.0 / of_Z 2)%fl (lit 1.0 / of_Z 2)%fl) (GlslTex.frag_uv 2 2 1 1))
  = (13 / 4)%R.
Proof.
  rewrite (pressureShader_stencil_R pressure_1234 divergence_zero 2 2)
    by (reflexivity || lia).
  cbv -[IZR Rplus Rmult Rminus Rdiv Rinv Ropp]. lra.
Qed.

(* a tick whose impulses all have a zero delta splats nothing *)
Lemma applyPointers_zero_delta {F : Type} `{Scalar F}
    (pointers : list (Pointer F)) (randomizeColor : bool)
    (this : FluidSimulation F) (e : Env F) :
  Forall (fun p => (vx (delta p) === lit 0)%fl = true /\
                   (vy (delta p) === lit 0)%fl = true) pointers ->
  applyPointers pointers randomizeColor this e = Ok ((pointers, this), e).
Proof.
  unfold applyPointers. induction 1 as [|p ps [Hx Hy] _ IH]; simpl.
  - reflexivity.
  - assert (Hp : applyPointer p randomizeColor this e = Ok ((p, this), e)).
    { unfold applyPointer. rewrite Hx, Hy. simpl.
      destruct (negb (moved p) || negb (down p)); reflexivity. }
    rewrite (bind_run _ _ _ _ _ Hp). simpl.
    rewrite (bind_run _ _ _ _ _ IH). reflexivity.
Qed.

(** ** The pressure solve, pass by pass *)

(* the index of a neighbour that CLAMP_TO_EDGE reads inside a grid of [n]
   texels: a step down stops at 0, a step up stops at n - 1 *)
Lemma clamp_index_neighbours (n i : Z) :
  0 <= i < n ->
  clamp_index n (i - 1) = Z.max 0 (i - 1) /\
  clamp_index n (i + 1) = Z.min (n - 1) (i + 1) /\
  clamp_index n i = i.
Proof. unfold clamp_index. lia. Qed.

(* the decay pass over the reals: texel (i, j) of the target is texel
   (i, j) of the NEAREST source times the decay *)
Lemma decay_pass_texel_R (p : DoubleFBO R) (decay : R) (e : Env R)
    (P : texture_object R) (i j : Z) :
  attached e (write p) ->
  textures e !! texture (read p) = Some P ->
  tex_filtering P = NEAREST ->
  tex_width P = width (write p) -> tex_height P = height (write p) ->
  0 <= i < width (write p) -> 0 <= j < height (write p) ->
  texel_of (decay_pass p decay e) (texture (write p)) i j =
  Some (V4 (cx (tex_data P i j) * decay)%R (lit 0) (lit 0) (lit 1)).
Proof.
  intros Hatt HP Hf Hw Hh Hi Hj. unfold decay_pass.
  rewrite texel_of_draw_to by exact Hatt.
  unfold run_program, clearShader. rewrite HP.
  rewrite (lookup_offset_R (width (write p)) (height (write p))
             ltac:(lia) ltac:(lia) P i j 0 0 _ Hf Hw Hh).
  2,3: unfold GlslTex.frag_uv; simpl; rewrite ?lit_R_half, ?lit_R_one;
    change (Q2R 0.5) with (lit (F := R) 0.5);
    change (Q2R 1.0) with (lit (F := R) 1.0);
    rewrite ?lit_R_half, ?lit_R_one; lra.
  rewrite cx_expand, !Z.add_0_r. unfold GlslTex.texel.
  rewrite Hw, Hh.
  rewrite (proj2 (proj2 (clamp_index_neighbours _ i Hi))),
    (proj2 (proj2 (clamp_index_neighbours _ j Hj))).
  reflexivity.
Qed.

(* one Jacobi pass over the reals: the five-point stencil with the
   neighbours clamped to the edge of the grid *)
Lemma jacobi_pass_texel_R (p : DoubleFBO R) (dv : FBO R) (e : Env R)
    (P D : texture_object R) (w h i j : Z) :
  attached e (write p) ->
  width (write p) = w -> height (write p) = h ->
  textures e !! texture (read p) = Some P ->
  textures e !! texture dv = Some D ->
  tex_filtering P = NEAREST -> tex_width P = w -> tex_height P = h ->
  tex_filtering D = NEAREST -> tex_width D = w -> tex_height D = h ->
  texelSize (read p) = V2 (lit 1.0 / of_Z w)%fl (lit 1.0 / of_Z h)%fl ->
  0 <= i < w -> 0 <= j < h ->
  texel_of (jacobi_pass p dv e) (texture (write p)) i j =
  Some (V4 ((cx (tex_data P (Z.max 0 (i - 1)) j)
             + cx (tex_data P (Z.min (w - 1) (i + 1)) j)
             + cx (tex_data P i (Z.max 0 (j - 1)))
             + cx (tex_data P i (Z.min (h - 1) (j + 1)))
             - cx (tex_data D i j)) * lit 0.25)%R
          (lit 0) (lit 0) (lit 1)).
Proof.
  intros Hatt Hw Hh HP HD HPf HPw HPh HDf HDw HDh Hts Hi Hj. unfold jacobi_pass.
  rewrite texel_of_draw_to by exact Hatt.
  unfold run_program. rewrite HP, HD, Hts, Hw, Hh.
  rewrite (pressureShader_stencil_R P D w h HPf HDf HPw HPh HDw HDh
             ltac:(lia) ltac:(lia) i j).
  unfold GlslTex.texel. rewrite HPw, HPh, HDw, HDh.
  destruct (clamp_index_neighbours w i Hi) as (Hl & Hr & Hc).
  destruct (clamp_index_neighbours h j Hj) as (Hb & Ht & Hm).
  rewrite Hl, Hr, Hc, Hb, Ht, Hm. reflexivity.
Qed.

Lemma sample_attached_1234 :
  attached sample_env_1234 (sample_fbo 12%nat 2 2 R16F RED).
Proof. split; [reflexivity|eexists; reflexivity]. Qed.

(** C1: [_solvePressure] first draws [pressure.read] scaled by
    [pressureDecay] into [pressure.write] and swaps, then runs
    [pressureIterations] Jacobi passes, each drawing
    (left + right + bottom + top - divergence) * 0.25 from the samples of
    [pressure.read] into [pressure.write] and swapping; the draw log gains
    exactly these passes; and with no iteration the result is the decayed
    pressure, which is then [pressure.read].  Over the real numbers, on
    NEAREST textures of the size of the target and with the texel size
    [assignTexelSize] records, the sample of the decay pass for texel
    (i, j) is texel (i, j), and the four samples of a Jacobi pass are the
    texels (i - 1, j), (i + 1, j), (i, j - 1) and (i, j + 1) with the index
    clamped to the edge: max(0, i - 1), min(width - 1, i + 1), max(0, j - 1)
    and min(height - 1, j + 1). *)
Theorem solvePressure_decay_then_jacobi :
  (forall (F : Type) (HF : Scalar F)
      (this : FluidSimulation F) (p : DoubleFBO F) (dv : FBO F) (e : Env F)
      (q : handle),
    pressure (framebuffers this) = Some p ->
    divergence (framebuffers this) = Some dv ->
    quadVAO e = Some q ->
    let n := Z.to_nat (pressureIterations (config this)) in
    let decay := pressureDecay (config this) in
    let e0 := decay_pass p decay e in
    exists this' e',
      _solvePressure this e = Ok (this', e') /\
      this' = set_pressure this (Nat.iter (S n) swap p) /\
      e' = jacobi_run n (swap p) dv e0 /\
      draw_log e' =
        draw_log e
        ++ (Some (fbo (write p)), DrawClear (texture (read p)) decay)
           :: jacobi_log n (swap p) dv /\
      (attached e (write p) ->
       forall i j,
         let uv := GlslTex.frag_uv (width (write p)) (height (write p)) i j in
         let prior := cx (GlslTex.texture (textures e !! texture (read p)) uv) in
         texel_of e0 (texture (read (swap p))) i j =
         Some (GlslTex.store_texel
                 (V4 (prior * decay)%fl (lit 0) (lit 0) (lit 1)))) /\
      (forall (p' : DoubleFBO F) (e1 : Env F),
         attached e1 (write p') ->
         forall i j,
           let uv := GlslTex.frag_uv (width (write p')) (height (write p')) i j in
           let P := textures e1 !! texture (read p') in
           let ts := texelSize (read p') in
           let left := cx (GlslTex.texture P (Glsl.v2sub uv (V2 (vx ts) (lit 0)))) in
           let right := cx (GlslTex.texture P (Glsl.v2add uv (V2 (vx ts) (lit 0)))) in
           let bottom := cx (GlslTex.texture P (Glsl.v2sub uv (V2 (lit 0) (vy ts)))) in
           let top := cx (GlslTex.texture P (Glsl.v2add uv (V2 (lit 0) (vy ts)))) in
           let divergence := cx (GlslTex.texture (textures e1 !! texture dv) uv) in
           texel_of (jacobi_pass p' dv e1) (texture (read (swap p'))) i j =
           Some (GlslTex.store_texel
                   (V4 ((left + right + bottom + top - divergence) * lit 0.25)%fl
                      (lit 0) (lit 0) (lit 1)))) /\
      (n = O -> e' = e0 /\ pressure (framebuffers this') = Some (swap p))) /\
  (forall (p : DoubleFBO R) (decay : R) (e : Env R) (P : texture_object R)
      (i j : Z),
    attached e (write p) ->
    textures e !! texture (read p) = Some P ->
    tex_filtering P = NEAREST ->
    tex_width P = width (write p) -> tex_height P = height (write p) ->
    0 <= i < width (write p) -> 0 <= j < height (write p) ->
    texel_of (decay_pass p decay e) (texture (read (swap p))) i j =
    Some (V4 (cx (tex_data P i j) * decay)%R (lit 0) (lit 0) (lit 1))) /\
  (forall (p : DoubleFBO R) (dv : FBO R) (e : Env R) (P D : texture_object R)
      (w h i j : Z),
    attached e (write p) ->
    width (write p) = w -> height (write p) = h ->
    textures e !! texture (read p) = Some P ->
    textures e !! texture dv = Some D ->
    tex_filtering P = NEAREST -> tex_width P = w -> tex_height P = h ->
    tex_filtering D = NEAREST -> tex_width D = w -> tex_height D = h ->
    texelSize (read p) = V2 (lit 1.0 / of_Z w)%fl (lit 1.0 / of_Z h)%fl ->
    0 <= i < w -> 0 <= j < h ->
    let pressure_at a b := cx (tex_data P a b) in
    let left := pressure_at (Z.max 0 (i - 1)) j in
    let right := pressure_at (Z.min (w - 1) (i + 1)) j in
    let bottom := pressure_at i (Z.max 0 (j - 1)) in
    let top := pressure_at i (Z.min (h - 1) (j + 1)) in
    let divergence := cx (tex_data D i j) in
    texel_of (jacobi_pass p dv e) (texture (read (swap p))) i j =
    Some (V4 ((left + right + bottom + top - divergence) * lit 0.25)%R
            (lit 0) (lit 0) (lit 1))).
Proof.
  split; [|split].
  - intros F HF this p dv e q Hp Hdv Hq n decay e0.
    exists (set_pressure this (Nat.iter (S n) swap p)),
      (jacobi_run n (swap p) dv e0).
    split; [exact (_solvePressure_run this p dv e q Hp Hdv Hq)|].
    split; [reflexivity|]. split; [reflexivity|].
    split.
    { rewrite draw_log_jacobi_run. unfold e0, decay_pass.
      rewrite draw_log_draw_to, <- app_assoc. reflexivity. }
    split.
    { intros Hatt i j. simpl. unfold e0, decay_pass.
      rewrite texel_of_draw_to by exact Hatt. reflexivity. }
    split.
    { intros p' e1 Hatt i j. simpl. unfold jacobi_pass.
      rewrite texel_of_draw_to by exact Hatt. reflexivity. }
    intros Hn. rewrite Hn. split; reflexivity.
  - intros p decay e P i j Hatt HP Hf Hw Hh Hi Hj.
    exact (decay_pass_texel_R p decay e P i j Hatt HP Hf Hw Hh Hi Hj).
  - intros p dv e P D w h i j Hatt Hw Hh HP HD HPf HPw HPh HDf HDw HDh Hts Hi Hj.
    exact (jacobi_pass_texel_R p dv e P D w h i j Hatt Hw Hh HP HD HPf HPw HPh
             HDf HDw HDh Hts Hi Hj).
Qed.

Lemma solvePressure_decay_then_jacobi_witness :
  (exists this' e',
     _solvePressure sample_sim sample_env = Ok (this', e') /\
     length (draw_log e') = 41%nat) /\
  texel_of
    (decay_pass (MkDoubleFBO (sample_fbo 10%nat 2 2 R16F RED)
                   (sample_fbo 12%nat 2 2 R16F RED))
       (lit 0.915) sample_env_1234) 12%nat 1 0
  = Some (V4 (2 * lit 0.915)%R (lit 0) (lit 0) (lit 1)) /\
  texel_of
    (jacobi_pass (MkDoubleFBO (sample_fbo 10%nat 2 2 R16F RED)
                    (sample_fbo 12%nat 2 2 R16F RED))
       (sample_fbo 14%nat 2 2 R16F RED) sample_env_1234) 12%nat 0 0
  = Some (V4 ((1 + 2 + 1 + 3 - 0) * lit 0.25)%R (lit 0) (lit 0) (lit 1)) /\
  texel_of
    (jacobi_pass (MkDoubleFBO (sample_fbo 10%nat 2 2 R16F RED)
                    (sample_fbo 12%nat 2 2 R16F RED))
       (sample_fbo 14%nat 2 2 R16F RED) sample_env_1234) 12%nat 1 1
  = Some (V4 ((3 + 4 + 2 + 4 - 0) * lit 0.25)%R (lit 0) (lit 0) (lit 1)).
Proof.
  split; [|split; [|split]].
  - destruct (proj1 solvePressure_decay_then_jacobi R Scalar_R sample_sim
                (MkDoubleFBO (sample_fbo 10%nat 2 2 R16F RED)
                   (sample_fbo 12%nat 2 2 R16F RED))
                (sample_fbo 14%nat 2 2 R16F RED) sample_env 0%nat
                eq_refl eq_refl eq_refl)
      as (this' & e' & Hrun & _ & _ & Hlog & _).
    exists this', e'. split; [exact Hrun|].
    rewrite Hlog. reflexivity.
  - apply (proj1 (proj2 solvePressure_decay_then_jacobi)
             (MkDoubleFBO (sample_fbo 10%nat 2 2 R16F RED)
                (sample_fbo 12%nat 2 2 R16F RED))
             (lit 0.915) sample_env_1234 pressure_1234 1 0);
      first [reflexivity | exact sample_attached_1234 | simpl; lia].
  - apply (proj2 (proj2 solvePressure_decay_then_jacobi)
             (MkDoubleFBO (sample_fbo 10%nat 2 2 R16F RED)
                (sample_fbo 12%nat 2 2 R16F RED))
             (sample_fbo 14%nat 2 2 R16F RED) sample_env_1234
             pressure_1234 divergence_zero 2 2 0 0);
      first [reflexivity | exact sample_attached_1234 | lia].
  - apply (proj2 (proj2 solvePressure_decay_then_jacobi)
             (MkDoubleFBO (sample_fbo 10%nat 2 2 R16F RED)
                (sample_fbo 12%nat 2 2 R16F RED))
             (sample_fbo 14%nat 2 2 R16F RED) sample_env_1234
             pressure_1234 divergence_zero 2 2 1 1);
      first [reflexivity | exact sample_attached_1234 | lia].
Defined.

(** * Further properties of the code *)

(** ** Errors of a tick *)

Section TickErrors.
Context {F : Type} `{Scalar F}.

Lemma bind_err {A B} (c : M F A) (k : A -> M F B) (e : Env F) (x : error) :
  c e = Err x -> bind c k e = Err x.
Proof. unfold bind. intros ->. reflexivity. Qed.

Lemma blit_no_quad (target : option (FBO F)) (d : draw_call F) (e : Env F) :
  quadVAO e = None -> blit target d e = Err QuadNotInitialised.
Proof. unfold blit. intros ->. reflexivity. Qed.

(* without the quad the pointer loop either splats nothing or throws *)
Lemma applyPointers_no_quad (pointers : list (Pointer F)) rc this e :
  allocated this -> quadVAO e = None ->
  applyPointers pointers rc this e = Ok ((pointers, this), e) \/
  applyPointers pointers rc this e = Err QuadNotInitialised.
Proof.
  intros Hall Hq. unfold applyPointers.
  induction pointers as [|p ps IH]; simpl; [left; reflexivity|].
  assert (Hp : applyPointer p rc this e = Ok ((p, this), e) \/
               applyPointer p rc this e = Err QuadNotInitialised).
  { unfold applyPointer.
    destruct (negb (moved p) || negb (down p)); [left; reflexivity|].
    destruct (andb _ _); [left; reflexivity|]. right.
    destruct Hall as ([v Hv] & _).
    assert (Hs : forall x y dx dy c e1, quadVAO e1 = None ->
                   splat x y dx dy c this e1 = Err QuadNotInitialised).
    { intros x y dx dy c e1 Hq1. unfold splat. rewrite Hv. cbn [deref].
      rewrite (bind_run _ _ e1 e1 v eq_refl).
      apply bind_err. apply blit_no_quad. exact Hq1. }
    destruct rc.
    - destruct (randomColor_run e) as (c & e1 & Hc & Hq1). rewrite Hq in Hq1.
      erewrite bind_run by (rewrite (bind_run _ _ _ _ _ Hc); reflexivity).
      apply bind_err. apply Hs. exact Hq1.
    - rewrite (bind_run _ _ e e p eq_refl). apply bind_err. apply Hs. exact Hq. }
  destruct Hp as [Hp|Hp].
  - rewrite (bind_run _ _ _ _ _ Hp). simpl.
    destruct IH as [IH|IH].
    + left. rewrite (bind_run _ _ _ _ _ IH). reflexivity.
    + right. apply bind_err. exact IH.
  - right. apply bind_err. exact Hp.
Qed.

End TickErrors.

(** X1: while [quadVAO] is not set, a tick that is not paused throws
    "Fullscreen quad not initialised." on an allocated simulation, whatever
    the pointers are; no other error can come first. *)
Theorem step_without_quad_throws {F : Type} `{Scalar F}
    (deltaTime : F) (pointers : list (Pointer F)) (this : FluidSimulation F)
    (e : Env F) :
  allocated this ->
  quadVAO e = None ->
  paused (config this) = false ->
  step deltaTime pointers this e = Err QuadNotInitialised.
Proof.
  intros Hall Hq Hp. unfold step. rewrite Hp.
  set (rc := cycleColors (config this) && _).
  set (s0 := if rc then _ else _).
  assert (Hall0 : allocated s0) by (unfold s0; destruct rc; exact Hall).
  destruct (applyPointers_no_quad pointers rc s0 e Hall0 Hq) as [Hr|Hr].
  - rewrite (bind_run _ _ _ _ _ Hr). simpl.
    apply bind_err. destruct Hall0 as ([v Hv] & _).
    unfold _advectVelocity. rewrite Hv. cbn [deref].
    rewrite (bind_run _ _ e e v eq_refl).
    apply bind_err. apply blit_no_quad. exact Hq.
  - apply bind_err. exact Hr.
Qed.

Lemma step_without_quad_throws_witness :
  step (lit 0.016) [sample_pointer; still_pointer] sample_sim sample_env_noquad
  = Err QuadNotInitialised.
Proof.
  apply (step_without_quad_throws (lit 0.016) [sample_pointer; still_pointer]
           sample_sim sample_env_noquad sample_allocated eq_refl eq_refl).
Defined.

(** ** Allocation: the constructor and resize *)

Section Allocation.
Context {F : Type} `{Scalar F}.

Lemma same_outside_refl (e : Env F) : same_outside_objects e e.
Proof. unfold same_outside_objects. repeat split. Qed.

Lemma same_outside_trans (e1 e2 e3 : Env F) :
  same_outside_objects e1 e2 -> same_outside_objects e2 e3 ->
  same_outside_objects e1 e3.
Proof.
  unfold same_outside_objects.
  intros (? & ? & ? & ? & ? & ? & ? & ?) (? & ? & ? & ? & ? & ? & ? & ?).
  repeat split; congruence.
Qed.

Lemma createFBO_outside w h ifmt fmt ty fl (e : Env F) t e' :
  createFBO w h ifmt fmt ty fl e = Ok (t, e') -> same_outside_objects e e'.
Proof.
  unfold createFBO, createTexture, fresh_name, get_env, put_env, bind. simpl.
  destruct (fbo_complete e ifmt w h); [|discriminate].
  unfold ret. intros [= <- <-]. unfold same_outside_objects. simpl. repeat split.
Qed.

Lemma resizeFBO_outside (t : FBO F) w h (e : Env F) t' e' :
  resizeFBO t w h e = Ok (t', e') -> same_outside_objects e e'.
Proof.
  unfold resizeFBO. destruct (andb _ _).
  - unfold ret. intros [= <- <-]. apply same_outside_refl.
  - unfold bind, get_env, put_env, ret. simpl. intros [= <- <-].
    unfold same_outside_objects. simpl. repeat split.
Qed.

Lemma deleteFBO_outside (t : option (FBO F)) (e : Env F) u e' :
  deleteFBO t e = Ok (u, e') -> same_outside_objects e e'.
Proof.
  destruct t as [t|]; simpl.
  - unfold bind, get_env, put_env. simpl. intros [= <- <-].
    unfold same_outside_objects. simpl. repeat split.
  - unfold ret. intros [= <- <-]. apply same_outside_refl.
Qed.

Lemma deleteLevels_outside (l : list (BloomLevel F)) (e : Env F) u e' :
  deleteLevels l e = Ok (u, e') -> same_outside_objects e e'.
Proof.
  revert e. induction l as [|level l IH]; intros e Hr; cbn [deleteLevels] in Hr.
  - unfold ret in Hr. revert Hr. intros [= <- <-]. apply same_outside_refl.
  - bind_inv_as Hr u1 e1 H1. bind_inv_as Hr u2 e2 H2.
    apply deleteFBO_outside in H1, H2. apply IH in Hr.
    eapply same_outside_trans; [exact H1|].
    eapply same_outside_trans; [exact H2|exact Hr].
Qed.

Lemma bloomLevelsLoop_outside (n : nat) w h (acc : list (BloomLevel F)) (e : Env F)
    chain e' :
  bloomLevelsLoop n w h acc e = Ok (chain, e') -> same_outside_objects e e'.
Proof.
  revert w h acc e. induction n as [|n IH]; intros w h acc e Hr;
    cbn [bloomLevelsLoop] in Hr.
  - unfold ret in Hr. revert Hr. intros [= <- <-]. apply same_outside_refl.
  - bind_inv_as Hr b e1 H1. bind_inv_as Hr t e2 H2.
    apply createFBO_outside in H1, H2.
    assert (H12 := same_outside_trans _ _ _ H1 H2).
    destruct (_ || _).
    + unfold ret in Hr. revert Hr. intros [= <- <-]. exact H12.
    + apply IH in Hr. eapply same_outside_trans; eassumption.
Qed.

Lemma _setupBloomBuffers_outside bw bh (this : FluidSimulation F) (e : Env F) this' e' :
  _setupBloomBuffers bw bh this e = Ok (this', e') -> same_outside_objects e e'.
Proof.
  unfold _setupBloomBuffers. intros Hr.
  bind_inv_as Hr u1 e1 H1. bind_inv_as Hr chain e2 H2.
  unfold ret in Hr. revert Hr. intros [= <- <-].
  apply deleteLevels_outside in H1. apply bloomLevelsLoop_outside in H2.
  eapply same_outside_trans; eassumption.
Qed.

Lemma resizeDouble_outside (o : option (DoubleFBO F)) w h ifmt fmt fl (e : Env F) d e' :
  resizeDouble o w h ifmt fmt fl e = Ok (d, e') -> same_outside_objects e e'.
Proof.
  destruct o as [v|]; simpl; intros Hr.
  - bind_inv_as Hr r e1 H1. bind_inv_as Hr wr e2 H2.
    unfold ret in Hr. revert Hr. intros [= <- <-].
    apply resizeFBO_outside in H1, H2. eapply same_outside_trans; eassumption.
  - unfold createDoubleFBO in Hr.
    bind_inv_as Hr r e1 H1. bind_inv_as Hr wr e2 H2.
    unfold ret in Hr. revert Hr. intros [= <- <-].
    apply createFBO_outside in H1, H2. eapply same_outside_trans; eassumption.
Qed.

Lemma resizeSingle_outside (o : option (FBO F)) w h (e : Env F) t e' :
  resizeSingle o w h e = Ok (t, e') -> same_outside_objects e e'.
Proof.
  destruct o as [v|]; simpl; [apply resizeFBO_outside|apply createFBO_outside].
Qed.

Lemma resize_outside w h (this : FluidSimulation F) (e : Env F) this' e' :
  resize w h this e = Ok (this', e') -> same_outside_objects e e'.
Proof.
  unfold resize. cbn [config with_canvasSize simSize framebuffers with_simSize].
  destruct (andb _ _).
  - unfold ret. intros [= <- <-]. apply same_outside_refl.
  - intros Hr.
    bind_inv_as Hr v e1 H1. bind_inv_as Hr d e2 H2. bind_inv_as Hr p e3 H3.
    bind_inv_as Hr dv e4 H4. bind_inv_as Hr c e5 H5.
    apply resizeDouble_outside in H1, H2, H3.
    apply resizeSingle_outside in H4, H5.
    apply _setupBloomBuffers_outside in Hr.
    eapply same_outside_trans; [exact H1|].
    eapply same_outside_trans; [exact H2|].
    eapply same_outside_trans; [exact H3|].
    eapply same_outside_trans; [exact H4|].
    eapply same_outside_trans; [exact H5|exact Hr].
Qed.

Lemma accepts_all_outside (e e' : Env F) :
  same_outside_objects e e' -> accepts_all e -> accepts_all e'.
Proof. intros (Hc & _) Hacc ifmt w h. rewrite Hc. apply Hacc. Qed.

Lemma resizeFBO_run (t : FBO F) w h (e : Env F) :
  exists t' e', resizeFBO t w h e = Ok (t', e').
Proof.
  unfold resizeFBO. destruct (andb _ _); unfold bind, get_env, put_env, ret;
    simpl; eexists _, _; reflexivity.
Qed.

Lemma resizeDouble_run (o : option (DoubleFBO F)) w h ifmt fmt fl (e : Env F) :
  accepts_all e ->
  exists d e', resizeDouble o w h ifmt fmt fl e = Ok (d, e') /\ accepts_all e'.
Proof.
  intros Hacc.
  assert (Hex : exists d e', resizeDouble o w h ifmt fmt fl e = Ok (d, e')).
  { destruct o as [v|]; simpl.
    - destruct (resizeFBO_run (read v) w h e) as (r & e1 & H1).
      destruct (resizeFBO_run (write v) w h e1) as (wr & e2 & H2).
      rewrite (bind_run _ _ _ _ _ H1), (bind_run _ _ _ _ _ H2).
      eexists _, _. reflexivity.
    - unfold createDoubleFBO.
      destruct (createFBO_run w h ifmt fmt HALF_FLOAT fl e Hacc)
        as (r & e1 & H1 & _ & _ & Hacc1).
      destruct (createFBO_run w h ifmt fmt HALF_FLOAT fl e1 Hacc1)
        as (wr & e2 & H2 & _).
      rewrite (bind_run _ _ _ _ _ H1), (bind_run _ _ _ _ _ H2).
      eexists _, _. reflexivity. }
  destruct Hex as (d & e' & Hr). exists d, e'. split; [exact Hr|].
  eapply accepts_all_outside; [|exact Hacc]. eapply resizeDouble_outside. exact Hr.
Qed.

Lemma resizeSingle_run (o : option (FBO F)) w h (e : Env F) :
  accepts_all e ->
  exists t e', resizeSingle o w h e = Ok (t, e') /\ accepts_all e'.
Proof.
  intros Hacc.
  assert (Hex : exists t e', resizeSingle o w h e = Ok (t, e')).
  { destruct o as [v|]; simpl.
    - apply resizeFBO_run.
    - destruct (createFBO_run w h R16F RED HALF_FLOAT NEAREST e Hacc)
        as (t & e1 & H1 & _).
      eexists _, _. exact H1. }
  destruct Hex as (t & e' & Hr). exists t, e'. split; [exact Hr|].
  eapply accepts_all_outside; [|exact Hacc]. eapply resizeSingle_outside. exact Hr.
Qed.

(* with a driver that completes every framebuffer, [resize] returns; when
   the size changes every field is allocated afterwards *)
Lemma resize_run w h (this : FluidSimulation F) (e : Env F) :
  accepts_all e ->
  exists this' e',
    resize w h this e = Ok (this', e') /\
    (simSize this <> MkSize (simWidthOf w this) (simWidthOf h this) ->
     allocated this' /\ bloom (framebuffers this') <> []).
Proof.
  intros Hacc. unfold resize, simWidthOf.
  cbn [config with_canvasSize simSize framebuffers with_simSize].
  destruct (andb _ _) eqn:Htest.
  - eexists _, _. split; [reflexivity|]. intros Hne. exfalso. apply Hne.
    apply andb_true_iff in Htest as [Hw Hh]. apply Z.eqb_eq in Hw, Hh.
    destruct (simSize this); simpl in *. congruence.
  - set (sw := ensureDimension _). set (sh := ensureDimension _).
    destruct (resizeDouble_run (velocity (framebuffers this)) sw sh RG16F RG LINEAR e Hacc)
      as (v & e1 & H1 & Hacc1).
    destruct (resizeDouble_run (density (framebuffers this)) sw sh RGBA16F RGBA LINEAR
                e1 Hacc1) as (d & e2 & H2 & Hacc2).
    destruct (resizeDouble_run (pressure (framebuffers this)) sw sh R16F RED NEAREST
                e2 Hacc2) as (p & e3 & H3 & Hacc3).
    destruct (resizeSingle_run (divergence (framebuffers this)) sw sh e3 Hacc3)
      as (dv & e4 & H4 & Hacc4).
    destruct (resizeSingle_run (curl (framebuffers this)) sw sh e4 Hacc4)
      as (c & e5 & H5 & Hacc5).
    rewrite (bind_run _ _ _ _ _ H1). cbn [with_velocity density].
    rewrite (bind_run _ _ _ _ _ H2). cbn [with_density pressure].
    rewrite (bind_run _ _ _ _ _ H3). cbn [with_pressure divergence].
    rewrite (bind_run _ _ _ _ _ H4). cbn [with_divergence curl].
    rewrite (bind_run _ _ _ _ _ H5).
    match goal with
    | |- context [_setupBloomBuffers ?a ?b ?s ?e] =>
        destruct (_setupBloomBuffers_run a b s e Hacc5) as (chain & e6 & H6 & Hsz & _)
    end.
    eexists _, _. split; [exact H6|]. intros _. split.
    + unfold allocated. simpl. repeat split; eauto.
    + simpl. intros ->. simpl in Hsz.
      pose proof (bloom_sizes_length_pos
                    (Z.to_nat (Z.max 1 (bloomLevels (config this))))
                    (ensureDimension (inject_Z w / 2)) (ensureDimension (inject_Z w / 2))
                    ltac:(lia)) as Hpos.
      simpl in Hpos. rewrite <- Hsz in Hpos. simpl in Hpos. lia.
Qed.
End Allocation.

Lemma ensureDimension_not_0 (q : Q) : (0 =? ensureDimension q) = false.
Proof. apply Z.eqb_neq. pose proof (ensureDimension_ge_2 q). lia. Qed.

(** X3: with a driver that completes every framebuffer the constructor
    returns: it keeps the configuration it is given, allocates velocity,
    density, pressure, divergence and curl and at least one bloom level,
    sets the simulation size from the canvas size, takes three numbers from
    [Math.random] for the first colour, and draws nothing. *)
Theorem constructor_allocates {F : Type} `{Scalar F}
    (config0 : Config F) (e0 : Env F) :
  accepts_all e0 ->
  exists this e,
    constructor config0 e0 = Ok (this, e) /\
    config this = config0 /\
    allocated this /\
    bloom (framebuffers this) <> [] /\
    simSize this = MkSize (simWidthOf (canvas_width e0) this)
                     (simWidthOf (canvas_height e0) this) /\
    canvasSize this = MkSize (canvas_width e0) (canvas_height e0) /\
    random_count e = (3 + random_count e0)%nat /\
    draw_log e = draw_log e0 /\
    quadVAO e = quadVAO e0.
Proof.
  intros Hacc. unfold constructor, randomColor, Math_random.
  unfold bind at 1. unfold bind at 1. unfold bind at 1. unfold bind at 1.
  cbn [ret]. unfold bind at 1. unfold get_env at 1.
  set (e1 := with_random_count _ _).
  set (s0 := MkSim config0 _ _ _ _ _ _).
  assert (Hacc1 : accepts_all e1) by exact Hacc.
  destruct (resize_run (canvas_width e1) (canvas_height e1) s0 e1 Hacc1)
    as (this & e & Hrun & Hall).
  exists this, e.
  destruct (resize_shape _ _ _ _ _ _ Hrun) as (Hc & Hcs & Hss).
  destruct (resize_outside _ _ _ _ _ _ Hrun) as (_ & _ & _ & _ & Hq & _ & Hrc & Hlog).
  assert (Hne : simSize s0 <> MkSize (simWidthOf (canvas_width e1) s0)
                               (simWidthOf (canvas_height e1) s0)).
  { unfold s0, simWidthOf. simpl. intros [= Hw _].
    pose proof (ensureDimension_ge_2
                  (inject_Z (canvas_width e0) / inject_Z (texelDownsample config0))).
    lia. }
  destruct (Hall Hne) as [Halloc Hbloom].
  split; [exact Hrun|]. split; [exact Hc|]. split; [exact Halloc|].
  split; [exact Hbloom|]. split.
  { rewrite Hss. unfold simWidthOf. rewrite Hc. reflexivity. }
  split; [exact Hcs|]. split; [rewrite Hrc; reflexivity|].
  split; [rewrite Hlog; reflexivity|rewrite Hq; reflexivity].
Qed.

Lemma constructor_allocates_witness :
  exists this e,
    constructor (F := R) DEFAULT_CONFIG sample_env0 = Ok (this, e) /\
    allocated this /\ random_count e = 3%nat.
Proof.
  destruct (constructor_allocates (F := R) DEFAULT_CONFIG sample_env0
              (fun _ _ _ => eq_refl))
    as (this & e & Hrun & _ & Hall & _ & _ & _ & Hrc & _).
  exists this, e. split; [exact Hrun|]. split; [exact Hall|exact Hrc].
Defined.

(** X4: when the driver reports the first framebuffer, the RG16F target of
    velocity, as incomplete, the constructor throws "Framebuffer
    incomplete"; no simulation object comes into being. *)
Theorem constructor_incomplete_framebuffer {F : Type} `{Scalar F}
    (config0 : Config F) (e0 : Env F) :
  (forall w h, fbo_complete e0 RG16F w h = false) ->
  constructor config0 e0 = Err FramebufferIncomplete.
Proof.
  intros Hrej. unfold constructor, randomColor, Math_random.
  unfold bind at 1. unfold bind at 1. unfold bind at 1. unfold bind at 1.
  cbn [ret]. unfold bind at 1. unfold get_env at 1.
  unfold resize. cbn [config with_canvasSize simSize size_width size_height].
  rewrite ensureDimension_not_0. cbn [andb].
  cbn [framebuffers with_simSize velocity resizeDouble].
  apply bind_err. unfold createDoubleFBO. apply bind_err.
  unfold createFBO, createTexture, fresh_name, get_env, put_env, bind. simpl.
  rewrite Hrej. reflexivity.
Qed.

Lemma constructor_incomplete_framebuffer_witness :
  constructor (F := R) DEFAULT_CONFIG rejecting_env = Err FramebufferIncomplete.
Proof.
  apply (constructor_incomplete_framebuffer (F := R) DEFAULT_CONFIG rejecting_env).
  reflexivity.
Defined.

(** ** The passes of a tick *)

Section TickLog.
Context {F : Type} `{Scalar F}.

Lemma length_jacobi_log n (p : DoubleFBO F) dv : length (jacobi_log n p dv) = n.
Proof. revert p. induction n as [|n IH]; intros p; simpl; [reflexivity|]. rewrite IH. reflexivity. Qed.

(* a splat is two passes *)
Lemma splat_log x y dx dy c (this : FluidSimulation F) e this' e' :
  splat x y dx dy c this e = Ok (this', e') ->
  length (draw_log e') = (length (draw_log e) + 2)%nat.
Proof.
  intros Hr. unfold splat in Hr. pass_inv Hr. ret_inv Hr.
  rewrite !draw_log_draw_to, !length_app. simpl. lia.
Qed.

Lemma randomColor_log (e : Env F) c e' :
  randomColor e = Ok (c, e') -> draw_log e' = draw_log e.
Proof.
  unfold randomColor, Math_random, bind, ret. simpl. intros [= _ <-]. reflexivity.
Qed.

Lemma applyPointer_log (pointer : Pointer F) rc this e pointer' this' e' :
  applyPointer pointer rc this e = Ok ((pointer', this'), e') ->
  length (draw_log e') =
  (length (draw_log e) + if splatted pointer then 2 else 0)%nat.
Proof.
  unfold applyPointer, splatted.
  destruct (moved pointer); simpl;
    [|unfold ret; intros [= <- <- <-]; lia].
  destruct (down pointer); simpl;
    [|unfold ret; intros [= <- <- <-]; lia].
  destruct (andb _ _); simpl;
    [unfold ret; intros [= <- <- <-]; lia|].
  intros Hr. bind_inv_as Hr p1 e1 Hcol. bind_inv_as Hr s2 e2 Hsp.
  unfold ret in Hr. revert Hr. intros [= <- <- <-].
  apply splat_log in Hsp. rewrite Hsp.
  destruct rc.
  - bind_inv_as Hcol c e0 Hrc. unfold ret in Hcol. revert Hcol. intros [= <- <-].
    apply randomColor_log in Hrc. rewrite Hrc. reflexivity.
  - unfold ret in Hcol. revert Hcol. intros [= <- <-]. reflexivity.
Qed.

Lemma applyPointers_log (pointers : list (Pointer F)) rc this e pointers' this' e' :
  applyPointers pointers rc this e = Ok ((pointers', this'), e') ->
  length (draw_log e') = (length (draw_log e) + 2 * splat_count pointers)%nat.
Proof.
  unfold applyPointers, splat_count. revert this e pointers' this' e'.
  induction pointers as [|p ps IH]; intros this e pointers' this' e' Hr; simpl in Hr.
  - unfold ret in Hr. revert Hr. intros [= <- <- <-]. simpl. lia.
  - bind_inv_as Hr r1 e1 H1. bind_inv_as Hr r2 e2 H2.
    unfold ret in Hr. revert Hr. intros [= <- <- <-].
    destruct r1 as [p1 s1]. destruct r2 as [ps2 s2]. simpl in *.
    apply applyPointer_log in H1. apply IH in H2. rewrite H2, H1.
    destruct (splatted p); simpl; lia.
Qed.

Lemma _applyVorticity_run dt (this : FluidSimulation F) v c e q :
  velocity (framebuffers this) = Some v ->
  curl (framebuffers this) = Some c ->
  quadVAO e = Some q ->
  _applyVorticity dt this e =
  Ok (swap_velocity this,
      draw_to (write v)
        (DrawVorticity (texture (read v)) (texture c) (texelSize (read v))
           (curlStrength (config this)) dt)
        (draw_to c (DrawCurl (texture (read v)) (texelSize (read v))) e)).
Proof.
  intros Hv Hc Hq. unfold _applyVorticity. rewrite Hv, Hc.
  unfold bind, ret, deref. simpl.
  rewrite (blit_run _ _ _ q Hq). simpl.
  rewrite (blit_run _ _ _ q) by (rewrite quadVAO_draw_to; exact Hq). reflexivity.
Qed.

Lemma _computeDivergence_run (this : FluidSimulation F) v dv e q :
  velocity (framebuffers this) = Some v ->
  divergence (framebuffers this) = Some dv ->
  quadVAO e = Some q ->
  _computeDivergence this e =
  Ok (this, draw_to dv (DrawDivergence (texture (read v)) (texelSize (read v))) e).
Proof.
  intros Hv Hdv Hq. unfold _computeDivergence. rewrite Hv, Hdv.
  unfold bind, ret, deref. simpl. rewrite (blit_run _ _ _ q Hq). reflexivity.
Qed.

Lemma _subtractPressureGradient_run (this : FluidSimulation F) v p e q :
  velocity (framebuffers this) = Some v ->
  pressure (framebuffers this) = Some p ->
  quadVAO e = Some q ->
  _subtractPressureGradient this e =
  Ok (swap_velocity this,
      draw_to (write v)
        (DrawGradient (texture (read p)) (texture (read v)) (texelSize (read v))) e).
Proof.
  intros Hv Hp Hq. unfold _subtractPressureGradient. rewrite Hv, Hp.
  unfold bind, ret, deref. simpl. rewrite (blit_run _ _ _ q Hq). reflexivity.
Qed.

Lemma _advectDye_run dt (this : FluidSimulation F) v d e q :
  velocity (framebuffers this) = Some v ->
  density (framebuffers this) = Some d ->
  quadVAO e = Some q ->
  _advectDye dt this e =
  Ok (swap_density this,
      draw_to (write d)
        (DrawAdvection (texture (read v)) (texture (read d)) (texelSize (read d))
           (densityDissipation (config this)) dt) e).
Proof.
  intros Hv Hd Hq. unfold _advectDye. rewrite Hv, Hd.
  unfold bind, ret, deref. simpl. rewrite (blit_run _ _ _ q Hq). reflexivity.
Qed.

Ltac quad_tac Hq :=
  repeat first [ rewrite quadVAO_jacobi_run | rewrite quadVAO_draw_to
               | progress unfold decay_pass ];
  exact Hq.

(* the six methods of a tick after the impulses, run one after the other *)
Lemma tick_chain (dt : F) (pointers : list (Pointer F)) (s : FluidSimulation F)
    v d p dv c e q :
  velocity (framebuffers s) = Some v ->
  density (framebuffers s) = Some d ->
  pressure (framebuffers s) = Some p ->
  divergence (framebuffers s) = Some dv ->
  curl (framebuffers s) = Some c ->
  quadVAO e = Some q ->
  exists s' e',
    (this <- _advectVelocity dt s ;;
     this <- _applyVorticity dt this ;;
     this <- _computeDivergence this ;;
     this <- _solvePressure this ;;
     this <- _subtractPressureGradient this ;;
     this <- _advectDye dt this ;;
     ret (pointers, this))%gl e = Ok ((pointers, s'), e') /\
    draw_log e' = draw_log e ++ tick_log dt (config s) v d p dv c /\
    s' = with_framebuffers s
           (MkFramebuffers (Some (swap v)) (Some (swap d))
              (Some (Nat.iter (S (Z.to_nat (pressureIterations (config s)))) swap p))
              (Some dv) (Some c) (bloom (framebuffers s))) /\
    quadVAO e' = Some q.
Proof.
  intros Hv Hd Hp Hdv Hc Hq.
  destruct s as [cfg [vo do po dvo co bl] ss cs at_ ct lc]. simpl in *. subst.
  erewrite bind_run by (eapply _advectVelocity_run; [reflexivity|exact Hq]).
  erewrite bind_run
    by (eapply _applyVorticity_run; [reflexivity|reflexivity|quad_tac Hq]).
  erewrite bind_run
    by (eapply _computeDivergence_run; [reflexivity|reflexivity|quad_tac Hq]).
  erewrite bind_run
    by (eapply _solvePressure_run; [reflexivity|reflexivity|quad_tac Hq]).
  erewrite bind_run
    by (eapply _subtractPressureGradient_run; [reflexivity|reflexivity|quad_tac Hq]).
  erewrite bind_run
    by (eapply _advectDye_run; [reflexivity|reflexivity|quad_tac Hq]).
  unfold ret. eexists _, _. split; [reflexivity|]. split; [|split].
  - rewrite !draw_log_draw_to, draw_log_jacobi_run. unfold decay_pass.
    rewrite !draw_log_draw_to. unfold tick_log. cbn [config].
    destruct v, d, p. simpl. rewrite <- !app_assoc. reflexivity.
  - destruct v, d. reflexivity.
  - quad_tac Hq.
Qed.
End TickLog.

Section TickTheorems.
Context {F : Type} `{Scalar F}.

Lemma applyPointer_idle (p : Pointer F) rc this e :
  splatted p = false -> applyPointer p rc this e = Ok ((p, this), e).
Proof.
  unfold splatted, applyPointer. intros Hs.
  destruct (moved p); simpl in *; [|reflexivity].
  destruct (down p); simpl in *; [|reflexivity].
  destruct (andb _ _); simpl in *; [reflexivity|discriminate].
Qed.

Lemma applyPointers_idle (pointers : list (Pointer F)) rc this e :
  Forall (fun p => splatted p = false) pointers ->
  applyPointers pointers rc this e = Ok ((pointers, this), e).
Proof.
  unfold applyPointers. induction 1 as [|p ps Hp _ IH]; simpl; [reflexivity|].
  rewrite (bind_run _ _ _ _ _ (applyPointer_idle p rc this e Hp)). simpl.
  rewrite (bind_run _ _ _ _ _ IH). reflexivity.
Qed.

Lemma applyPointers_config (pointers : list (Pointer F)) rc this e pointers' this' e' :
  applyPointers pointers rc this e = Ok ((pointers', this'), e') ->
  config this' = config this.
Proof.
  intros Hr.
  apply (applyPointers_keeps (fun s => config s = config this)
           ltac:(auto) ltac:(auto) ltac:(auto)
           pointers rc this e pointers' this' e' eq_refl Hr).
Qed.
Lemma pointer_after_idle rc (p p' : Pointer F) :
  pointer_after rc p p' -> splatted p' = false.
Proof.
  intros (_ & Hdn & _ & _ & Hdl & Hs).
  destruct (splatted p) eqn:Hsp.
  - destruct Hs as [Hm _]. unfold splatted. rewrite Hm. reflexivity.
  - subst p'. exact Hsp.
Qed.

Lemma applyPointers_consumes (pointers : list (Pointer F)) rc this e pointers' this' e' :
  applyPointers pointers rc this e = Ok ((pointers', this'), e') ->
  Forall (fun p => splatted p = false) pointers'.
Proof.
  intros Hr. pose proof (applyPointers_pointers _ _ _ _ _ _ _ Hr) as Hall.
  clear Hr. induction Hall as [|p p' l l' Hp _ IH]; constructor.
  - exact (pointer_after_idle rc p p' Hp).
  - exact IH.
Qed.

(* a tick with no impulse to splat *)
Lemma step_idle (deltaTime : F) (pointers : list (Pointer F)) (this : FluidSimulation F)
    v d p dv c e q :
  velocity (framebuffers this) = Some v ->
  density (framebuffers this) = Some d ->
  pressure (framebuffers this) = Some p ->
  divergence (framebuffers this) = Some dv ->
  curl (framebuffers this) = Some c ->
  quadVAO e = Some q ->
  paused (config this) = false ->
  Forall (fun p => splatted p = false) pointers ->
  exists this' e',
    step deltaTime pointers this e = Ok ((pointers, this'), e') /\
    draw_log e' =
      draw_log e ++ tick_log (fmin deltaTime (lit 0.016)) (config this) v d p dv c /\
    framebuffers this' =
      MkFramebuffers (Some (swap v)) (Some (swap d))
        (Some (Nat.iter (S (Z.to_nat (pressureIterations (config this)))) swap p))
        (Some dv) (Some c) (bloom (framebuffers this)) /\
    autoTimer this' = (autoTimer this + deltaTime)%fl /\
    config this' = config this /\
    quadVAO e' = Some q.
Proof.
  intros Hv Hd Hpr Hdv Hcu Hq Hp Hidle. unfold step. rewrite Hp.
  set (rc := cycleColors (config this) && _).
  set (s0 := if rc then _ else _).
  rewrite (bind_run _ _ _ _ _ (applyPointers_idle pointers rc s0 e Hidle)).
  cbn [fst snd].
  assert (Hs0 : framebuffers s0 = framebuffers this /\ config s0 = config this /\
                autoTimer s0 = (autoTimer this + deltaTime)%fl)
    by (unfold s0; destruct rc; repeat split).
  destruct Hs0 as (Hfb & Hc0 & Hat).
  destruct (tick_chain (fmin deltaTime (lit 0.016)) pointers s0 v d p dv c e q)
    as (s' & e' & Hrun & Hlog & Hs' & Hq');
    try (rewrite Hfb; assumption); try assumption.
  exists s', e'. split; [exact Hrun|]. rewrite Hc0 in Hlog, Hs'.
  split; [exact Hlog|]. subst s'. simpl. rewrite Hfb. repeat split; assumption.
Qed.
(* a tick that is not paused returns, and draws two passes for every
   impulse it splats, seven fixed passes and the pressure iterations *)
Lemma step_pass_count (deltaTime : F) (pointers : list (Pointer F))
    (this : FluidSimulation F) (e : Env F) (q : handle) :
  allocated this ->
  quadVAO e = Some q ->
  paused (config this) = false ->
  exists pointers' this' e',
    step deltaTime pointers this e = Ok ((pointers', this'), e') /\
    length (draw_log e') =
    (length (draw_log e) + 2 * splat_count pointers + 7
     + Z.to_nat (pressureIterations (config this)))%nat.
Proof.
  intros Hall Hq Hp. unfold step. rewrite Hp.
  set (rc := cycleColors (config this) && _).
  set (s0 := if rc then _ else _).
  assert (Hall0 : allocated s0) by (unfold s0; destruct rc; exact Hall).
  assert (Hc0 : config s0 = config this) by (unfold s0; destruct rc; reflexivity).
  destruct (applyPointers_run pointers rc s0 e q Hall0 Hq)
    as (ps1 & s1 & e1 & H1 & Hall1 & Hq1).
  pose proof (applyPointers_log _ _ _ _ _ _ _ H1) as Hlog1.
  pose proof (applyPointers_config _ _ _ _ _ _ _ H1) as Hc1.
  destruct Hall1 as ([v Hv] & [d Hd] & [p Hpr] & [dv Hdv] & [c Hcu]).
  destruct (tick_chain (fmin deltaTime (lit 0.016)) ps1 s1 v d p dv c e1 q
              Hv Hd Hpr Hdv Hcu Hq1) as (s' & e' & Hrun & Hlog & _ & _).
  exists ps1, s', e'. split.
  - rewrite (bind_run _ _ _ _ _ H1). exact Hrun.
  - rewrite Hlog, length_app, Hlog1. unfold tick_log.
    rewrite !length_app, length_jacobi_log, Hc1, Hc0. simpl. lia.
Qed.
End TickTheorems.

(** X5: a tick that is not paused, on an allocated simulation with the quad
    set, returns, and it draws two passes for every impulse it splats,
    seven passes for advection, curl, vorticity, divergence, pressure
    decay, projection and dye advection, and one pass for each pressure
    iteration: 2 k + 7 + pressureIterations draw calls in all. *)
Theorem tick_pass_count {F : Type} `{Scalar F}
    (deltaTime : F) (pointers : list (Pointer F)) (this : FluidSimulation F)
    (e : Env F) (q : handle) :
  allocated this ->
  quadVAO e = Some q ->
  paused (config this) = false ->
  exists pointers' this' e',
    step deltaTime pointers this e = Ok ((pointers', this'), e') /\
    length (draw_log e') =
    (length (draw_log e) + 2 * splat_count pointers + 7
     + Z.to_nat (pressureIterations (config this)))%nat.
Proof. exact (step_pass_count deltaTime pointers this e q). Qed.

Lemma tick_pass_count_witness :
  exists pointers' this' e',
    step (lit 0.016) [sample_pointer; still_pointer] sample_sim sample_env
    = Ok ((pointers', this'), e') /\
    length (draw_log e') = 49%nat.
Proof.
  destruct (tick_pass_count (lit 0.016) [sample_pointer; still_pointer] sample_sim
              sample_env 0%nat sample_allocated eq_refl eq_refl)
    as (ps' & this' & e' & Hrun & Hlen).
  exists ps', this', e'. split; [exact Hrun|].
  rewrite Hlen. unfold splat_count. simpl.
  rewrite sample_pointer_splatted.
  replace (splatted still_pointer) with false; [reflexivity|].
  unfold splatted. simpl. rewrite (R_eqb_true 0 (Q2R 0)); [reflexivity|].
  change (Q2R 0) with (lit (F := R) 0). rewrite lit_R_0. reflexivity.
Defined.

(** ** A paused tick, and the tick after it *)




(** X6: the order of a tick.  With no impulse to splat, a tick draws, in
    this order: velocity advection into [velocity.write]; curl of the
    advected velocity; vorticity back into the buffer the tick started
    with as [velocity.read]; divergence; the pressure decay and the Jacobi
    passes; the projection into the other velocity buffer; dye advection
    along that projected velocity.  The time step of the three passes that
    take one is min(deltaTime, 0.016).  Afterwards velocity and density are
    swapped once, pressure is swapped pressureIterations + 1 times, and
    [autoTimer] has grown by deltaTime. *)
Theorem quiet_tick_passes {F : Type} `{Scalar F}
    (deltaTime : F) (pointers : list (Pointer F)) (this : FluidSimulation F)
    (v d p : DoubleFBO F) (dv c : FBO F) (e : Env F) (q : handle) :
  velocity (framebuffers this) = Some v ->
  density (framebuffers this) = Some d ->
  pressure (framebuffers this) = Some p ->
  divergence (framebuffers this) = Some dv ->
  curl (framebuffers this) = Some c ->
  quadVAO e = Some q ->
  paused (config this) = false ->
  Forall (fun p => splatted p = false) pointers ->
  exists this' e',
    step deltaTime pointers this e = Ok ((pointers, this'), e') /\
    draw_log e' =
      draw_log e ++ tick_log (fmin deltaTime (lit 0.016)) (config this) v d p dv c /\
    velocity (framebuffers this') = Some (swap v) /\
    density (framebuffers this') = Some (swap d) /\
    pressure (framebuffers this') =
      Some (Nat.iter (S (Z.to_nat (pressureIterations (config this)))) swap p) /\
    autoTimer this' = (autoTimer this + deltaTime)%fl /\
    config this' = config this.
Proof.
  intros Hv Hd Hpr Hdv Hcu Hq Hp Hidle.
  destruct (step_idle deltaTime pointers this v d p dv c e q
              Hv Hd Hpr Hdv Hcu Hq Hp Hidle)
    as (this' & e' & Hrun & Hlog & Hfb & Hat & Hc & _).
  exists this', e'. rewrite Hfb. simpl. repeat split; assumption.
Qed.

Lemma quiet_tick_passes_witness :
  exists this' e',
    step (lit 0.016) [still_pointer] sample_sim sample_env
    = Ok (([still_pointer], this'), e') /\
    length (draw_log e') = 47%nat /\
    velocity (framebuffers this') =
    Some (MkDoubleFBO (sample_fbo 4%nat 2 2 RG16F RG) (sample_fbo 2%nat 2 2 RG16F RG)).
Proof.
  assert (Hidle : Forall (fun p : Pointer R => splatted p = false) [still_pointer]).
  { constructor; [|constructor]. unfold splatted. simpl.
    rewrite (R_eqb_true 0 (Q2R 0)); [reflexivity|].
    change (Q2R 0) with (lit (F := R) 0). rewrite lit_R_0. reflexivity. }
  destruct (quiet_tick_passes (lit 0.016) [still_pointer] sample_sim
              (MkDoubleFBO (sample_fbo 2%nat 2 2 RG16F RG) (sample_fbo 4%nat 2 2 RG16F RG))
              (MkDoubleFBO (sample_fbo 6%nat 2 2 RGBA16F RGBA)
                 (sample_fbo 8%nat 2 2 RGBA16F RGBA))
              (MkDoubleFBO (sample_fbo 10%nat 2 2 R16F RED)
                 (sample_fbo 12%nat 2 2 R16F RED))
              (sample_fbo 14%nat 2 2 R16F RED) (sample_fbo 16%nat 2 2 R16F RED)
              sample_env 0%nat eq_refl eq_refl eq_refl eq_refl eq_refl eq_refl
              eq_refl Hidle)
    as (this' & e' & Hrun & Hlog & Hv & _).
  exists this', e'. split; [exact Hrun|]. split; [|exact Hv].
  rewrite Hlog. reflexivity.
Defined.

(** ** The bloom chain draws into its own targets only *)

Section BloomTargets.
Context {F : Type} `{Scalar F}.

Lemma draws_into_refl (targets : list handle) (e : Env F) : draws_into targets 0 e e.
Proof.
  repeat split. exists []. rewrite app_nil_r. repeat split. constructor.
Qed.

Lemma draws_into_trans (targets : list handle) n m (e1 e2 e3 : Env F) :
  draws_into targets n e1 e2 -> draws_into targets m e2 e3 ->
  draws_into targets (n + m) e1 e3.
Proof.
  intros (Hf1 & Hc1 & Ht1 & l1 & Hl1 & Hn1 & Ha1) (Hf2 & Hc2 & Ht2 & l2 & Hl2 & Hn2 & Ha2).
  split; [congruence|]. split; [congruence|]. split.
  - intros name Hname. rewrite Ht2, Ht1; auto.
    intros f Hin. rewrite Hf1. auto.
  - exists (l1 ++ l2). rewrite Hl2, Hl1, <- app_assoc, length_app.
    repeat split; [congruence|]. apply Forall_app; auto.
Qed.

Lemma draws_into_draw_to (targets : list handle) (t : FBO F) (d : draw_call F) (e : Env F) :
  In (fbo t) targets -> draws_into targets 1 e (draw_to t d e).
Proof.
  intros Hin. split; [apply fbos_draw_to|]. split.
  { unfold draw_to. destruct (fbos e !! fbo t); reflexivity. }
  split.
  - intros name Hname. destruct (fbos e !! fbo t) as [a|] eqn:Hf.
    + apply (textures_draw_to_other t d e a name Hf).
      intros ->. exact (Hname _ Hin Hf).
    + unfold draw_to. rewrite Hf. reflexivity.
  - exists [(Some (fbo t), d)]. repeat split.
    constructor; [|constructor]. exists (fbo t). split; [reflexivity|exact Hin].
Qed.

Lemma draws_into_count (targets : list handle) n m (e e' : Env F) :
  n = m -> draws_into targets n e e' -> draws_into targets m e e'.
Proof. intros ->. auto. Qed.

Lemma bloomDownsample_targets (targets : list handle) (previous : FBO F)
    (rest : list (BloomLevel F)) e q :
  quadVAO e = Some q ->
  (forall level, In level rest -> In (fbo (buffer level)) targets) ->
  exists e', bloomDownsample previous rest e = Ok (tt, e') /\ quadVAO e' = Some q /\
             draws_into targets (length rest) e e'.
Proof.
  revert previous e. induction rest as [|level rest IH]; intros previous e Hq Hin; simpl.
  - exists e. repeat split; [exact Hq|]. apply draws_into_refl.
  - unfold copyTexture.
    rewrite (bind_run _ _ _ _ _ (blit_run _ _ _ q Hq)).
    destruct (IH (buffer level) (draw_to (buffer level) (DrawCopy (texture previous)) e))
      as (e' & Hrun & Hq' & Hd).
    + rewrite quadVAO_draw_to. exact Hq.
    + intros l Hl. apply Hin. right. exact Hl.
    + exists e'. split; [exact Hrun|]. split; [exact Hq'|].
      apply (draws_into_trans targets 1 (length rest) _ _ _
               (draws_into_draw_to targets _ _ e (Hin level (or_introl eq_refl))) Hd).
Qed.

Lemma bloomBlur_targets (targets : list handle) (levels : list (BloomLevel F)) e q :
  quadVAO e = Some q ->
  (forall level, In level levels ->
     In (fbo (buffer level)) targets /\ In (fbo (temp level)) targets) ->
  exists e', bloomBlur levels e = Ok (tt, e') /\ quadVAO e' = Some q /\
             draws_into targets (2 * length levels) e e'.
Proof.
  revert e. induction levels as [|level rest IH]; intros e Hq Hin; simpl.
  - exists e. repeat split; [exact Hq|]. apply draws_into_refl.
  - rewrite (bind_run _ _ _ _ _ (blit_run _ _ _ q Hq)).
    set (e1 := draw_to (temp level) _ e).
    assert (Hq1 : quadVAO e1 = Some q) by (unfold e1; rewrite quadVAO_draw_to; exact Hq).
    rewrite (bind_run _ _ _ _ _ (blit_run _ _ _ q Hq1)).
    set (e2 := draw_to (buffer level) _ e1).
    assert (Hq2 : quadVAO e2 = Some q) by (unfold e2; rewrite quadVAO_draw_to; exact Hq1).
    destruct (IH e2 Hq2) as (e' & Hrun & Hq' & Hd).
    { intros l Hl. apply Hin. right. exact Hl. }
    exists e'. split; [exact Hrun|]. split; [exact Hq'|].
    destruct (Hin level (or_introl eq_refl)) as [Hb Ht].
    apply (draws_into_count targets (1 + (1 + 2 * length rest))); [simpl; lia|].
    eapply draws_into_trans; [apply draws_into_draw_to; exact Ht|].
    eapply draws_into_trans; [apply draws_into_draw_to; exact Hb|].
    exact Hd.
Qed.

Lemma bloomCombine_targets (targets : list handle) (levels : list (BloomLevel F))
    (current : handle) e q :
  quadVAO e = Some q ->
  (forall level, In level levels ->
     In (fbo (buffer level)) targets /\ In (fbo (temp level)) targets) ->
  exists t e', bloomCombine levels current e = Ok (t, e') /\ quadVAO e' = Some q /\
               draws_into targets (2 * length levels) e e'.
Proof.
  revert current e. induction levels as [|level rest IH]; intros current e Hq Hin; simpl.
  - exists current, e. repeat split; [exact Hq|]. apply draws_into_refl.
  - rewrite (bind_run _ _ _ _ _ (blit_run _ _ _ q Hq)).
    set (e1 := draw_to (temp level) _ e).
    assert (Hq1 : quadVAO e1 = Some q) by (unfold e1; rewrite quadVAO_draw_to; exact Hq).
    unfold copyTexture.
    rewrite (bind_run _ _ _ _ _ (blit_run _ _ _ q Hq1)).
    set (e2 := draw_to (buffer level) _ e1).
    assert (Hq2 : quadVAO e2 = Some q) by (unfold e2; rewrite quadVAO_draw_to; exact Hq1).
    destruct (IH (texture (buffer level)) e2 Hq2) as (t & e' & Hrun & Hq' & Hd).
    { intros l Hl. apply Hin. right. exact Hl. }
    exists t, e'. split; [exact Hrun|]. split; [exact Hq'|].
    destruct (Hin level (or_introl eq_refl)) as [Hb Ht].
    apply (draws_into_count targets (1 + (1 + 2 * length rest))); [simpl; lia|].
    eapply draws_into_trans; [apply draws_into_draw_to; exact Ht|].
    eapply draws_into_trans; [apply draws_into_draw_to; exact Hb|].
    exact Hd.
Qed.

Lemma bloom_fbos_in (levels : list (BloomLevel F)) (level : BloomLevel F) :
  In level levels ->
  In (fbo (buffer level)) (bloom_fbos levels) /\ In (fbo (temp level)) (bloom_fbos levels).
Proof.
  intros Hin. unfold bloom_fbos. split; apply in_flat_map; exists level; simpl; auto.
Qed.

Lemma In_removelast {A} (l : list A) (x : A) : In x (removelast l) -> In x l.
Proof.
  induction l as [|a l IH]; simpl; [auto|].
  destruct l as [|b l]; [intros []|].
  intros [->|Hin]; [left; reflexivity|right; auto].
Qed.

Lemma length_removelast {A} (l : list A) : length (removelast l) = (length l - 1)%nat.
Proof.
  induction l as [|a l IH]; [reflexivity|].
  destruct l as [|b l]; [reflexivity|].
  change (removelast (a :: b :: l)) with (a :: removelast (b :: l)).
  simpl length in *. rewrite IH. lia.
Qed.

Lemma _runBloom_targets (this : FluidSimulation F) (d : DoubleFBO F)
    (first : BloomLevel F) (rest : list (BloomLevel F)) e q :
  density (framebuffers this) = Some d ->
  bloom (framebuffers this) = first :: rest ->
  quadVAO e = Some q ->
  exists e', _runBloom this e = Ok (texture (buffer first), e') /\
             quadVAO e' = Some q /\
             draws_into (bloom_fbos (first :: rest)) (5 * length (first :: rest) - 2) e e'.
Proof.
  intros Hd Hb Hq. unfold _runBloom. rewrite Hd, Hb.
  cbn [deref]. rewrite (bind_run _ _ e e d eq_refl).
  rewrite (bind_run _ _ _ _ _ (blit_run _ _ _ q Hq)).
  set (T := bloom_fbos (first :: rest)).
  assert (Hin : forall level, In level (first :: rest) ->
                  In (fbo (buffer level)) T /\ In (fbo (temp level)) T)
    by (intros level; apply bloom_fbos_in).
  set (e1 := draw_to (buffer first) _ e).
  assert (Hq1 : quadVAO e1 = Some q) by (unfold e1; rewrite quadVAO_draw_to; exact Hq).
  destruct (bloomDownsample_targets T (buffer first) rest e1 q Hq1)
    as (e2 & H2 & Hq2 & Hd2).
  { intros l Hl. apply Hin. right. exact Hl. }
  rewrite (bind_run _ _ _ _ _ H2).
  destruct (bloomBlur_targets T (first :: rest) e2 q Hq2 Hin) as (e3 & H3 & Hq3 & Hd3).
  rewrite (bind_run _ _ _ _ _ H3).
  destruct (bloomCombine_targets T (rev (removelast (first :: rest)))
              (texture (buffer (List.last (first :: rest) first))) e3 q Hq3)
    as (t & e4 & H4 & Hq4 & Hd4).
  { intros l Hl. apply Hin. apply In_removelast. apply in_rev. exact Hl. }
  rewrite (bind_run _ _ _ _ _ H4).
  exists e4. split; [reflexivity|]. split; [exact Hq4|].
  rewrite length_rev, length_removelast in Hd4.
  apply (draws_into_count T (1 + (length rest + (2 * length (first :: rest)
               + 2 * (length (first :: rest) - 1))))); [simpl; lia|].
  eapply draws_into_trans;
    [apply (draws_into_draw_to T (buffer first));
     exact (proj1 (Hin first (or_introl eq_refl)))|].
  eapply draws_into_trans; [exact Hd2|].
  eapply draws_into_trans; [exact Hd3|exact Hd4].
Qed.
End BloomTargets.

Lemma bloom_fbos_inv {F : Type} (levels : list (BloomLevel F)) (f : handle) :
  In f (bloom_fbos levels) ->
  exists level, In level levels /\ (f = fbo (buffer level) \/ f = fbo (temp level)).
Proof.
  unfold bloom_fbos. rewrite in_flat_map. intros (level & Hin & Hf).
  exists level. split; [exact Hin|]. simpl in Hf. intuition auto.
Qed.

(** X7: with L >= 1 bloom levels [_runBloom] returns the texture of level
    0's buffer after 5 L - 2 passes (one prefilter, L - 1 copies down the
    chain, 2 L blurs, 2 (L - 1) passes back up).  Every one of them is
    bound to the buffer or the temp framebuffer of a level: the canvas is
    not drawn, and a texture that is attached to no level, such as the dye,
    keeps its contents. *)
Theorem runBloom_passes {F : Type} `{Scalar F}
    (this : FluidSimulation F) (d : DoubleFBO F) (first : BloomLevel F)
    (rest : list (BloomLevel F)) (e : Env F) (q : handle) :
  density (framebuffers this) = Some d ->
  bloom (framebuffers this) = first :: rest ->
  quadVAO e = Some q ->
  exists e' new,
    _runBloom this e = Ok (texture (buffer first), e') /\
    draw_log e' = draw_log e ++ new /\
    length new = (5 * length (first :: rest) - 2)%nat /\
    Forall (fun pass => exists level, In level (first :: rest) /\
              (fst pass = Some (fbo (buffer level)) \/
               fst pass = Some (fbo (temp level)))) new /\
    canvas_data e' = canvas_data e /\
    forall name,
      (forall level, In level (first :: rest) ->
         fbos e !! fbo (buffer level) <> Some name /\
         fbos e !! fbo (temp level) <> Some name) ->
      textures e' !! name = textures e !! name.
Proof.
  intros Hd Hb Hq.
  destruct (_runBloom_targets this d first rest e q Hd Hb Hq)
    as (e' & Hrun & _ & _ & Hc & Ht & new & Hlog & Hlen & Hall).
  exists e', new. repeat split; try assumption.
  - eapply Forall_impl; [exact Hall|]. intros pass (f & Hf & Hin).
    destruct (bloom_fbos_inv _ _ Hin) as (level & Hl & [->| ->]);
      exists level; auto.
  - intros name Hname. apply Ht. intros f Hin.
    destruct (bloom_fbos_inv _ _ Hin) as (level & Hl & [->| ->]);
      apply (Hname level Hl).
Qed.

Lemma runBloom_passes_witness :
  exists e' new,
    _runBloom sample_sim sample_env = Ok (18%nat, e') /\
    draw_log e' = new /\ length new = 3%nat /\
    textures e' !! 6%nat = textures sample_env !! 6%nat.
Proof.
  destruct (runBloom_passes sample_sim
              (MkDoubleFBO (sample_fbo 6%nat 2 2 RGBA16F RGBA)
                 (sample_fbo 8%nat 2 2 RGBA16F RGBA))
              (MkBloomLevel (sample_fbo 18%nat 3 3 RGBA16F RGBA)
                 (sample_fbo 20%nat 3 3 RGBA16F RGBA)) []
              sample_env 0%nat eq_refl eq_refl eq_refl)
    as (e' & new & Hrun & Hlog & Hlen & _ & _ & Ht).
  exists e', new. split; [exact Hrun|]. split; [exact Hlog|]. split; [exact Hlen|].
  apply Ht. intros level [<-|[]]. split; vm_compute; discriminate.
Defined.

(** X8: [render] draws the canvas exactly once, as its last pass.  The
    passes before it are those of the bloom chain, bound to framebuffers of
    the bloom levels, so no texture outside the bloom chain changes: the
    five simulation fields are only read.  When bloom is off in the
    configuration, or there is no level, the display pass is the only one
    and no texture changes at all. *)
Theorem render_reads_fields {F : Type} `{Scalar F}
    (this : FluidSimulation F) (d : DoubleFBO F) (e : Env F) (q : handle) :
  density (framebuffers this) = Some d ->
  quadVAO e = Some q ->
  exists e' new shown,
    render this e = Ok (tt, e') /\
    draw_log e' = draw_log e ++ new ++ [(None, shown)] /\
    Forall (fun pass => exists f, fst pass = Some f /\
                          In f (bloom_fbos (bloom (framebuffers this)))) new /\
    fbos e' = fbos e /\
    (forall name,
       (forall f, In f (bloom_fbos (bloom (framebuffers this))) ->
                  fbos e !! f <> Some name) ->
       textures e' !! name = textures e !! name) /\
    (enableBloom (config this) = false \/ bloom (framebuffers this) = [] ->
     new = [] /\ textures e' = textures e).
Proof.
  intros Hd Hq. unfold render.
  destruct (enableBloom (config this)) eqn:Hen;
    [destruct (bloom (framebuffers this)) as [|first rest] eqn:Hb|]; cbn [andb].
  - simpl. rewrite (bind_run _ _ e e None eq_refl).
    rewrite Hd. cbn [deref]. rewrite (bind_run _ _ e e d eq_refl).
    rewrite (blit_run _ _ _ q Hq).
    eexists; exists []; eexists. split; [reflexivity|].
    repeat split; auto.
  - destruct (_runBloom_targets this d first rest e q Hd Hb Hq)
      as (e1 & Hrun & Hq1 & Hf & Hc & Ht & new & Hlog & Hlen & Hall).
    rewrite (bind_run _ _ e e1 (Some (texture (buffer first)))).
    2:{ simpl. rewrite (bind_run _ _ _ _ _ Hrun). reflexivity. }
    rewrite Hd. cbn [deref]. rewrite (bind_run _ _ e1 e1 d eq_refl).
    rewrite (blit_run _ _ _ q Hq1).
    eexists; exists new; eexists. split; [reflexivity|].
    split; [simpl; rewrite Hlog, <- app_assoc; reflexivity|].
    split; [exact Hall|]. split; [exact Hf|]. split; [exact Ht|].
    intros [Hfalse|Hnil]; discriminate.
  - rewrite (bind_run _ _ e e None eq_refl).
    rewrite Hd. cbn [deref]. rewrite (bind_run _ _ e e d eq_refl).
    rewrite (blit_run _ _ _ q Hq).
    eexists; exists []; eexists. split; [reflexivity|].
    repeat split; auto.
Qed.

Lemma render_reads_fields_witness :
  exists e' new shown,
    render sample_sim sample_env = Ok (tt, e') /\
    draw_log e' = new ++ [(None, shown)] /\
    textures e' !! 6%nat = textures sample_env !! 6%nat.
Proof.
  destruct (render_reads_fields sample_sim
              (MkDoubleFBO (sample_fbo 6%nat 2 2 RGBA16F RGBA)
                 (sample_fbo 8%nat 2 2 RGBA16F RGBA))
              sample_env 0%nat eq_refl eq_refl)
    as (e' & new & shown & Hrun & Hlog & _ & _ & Ht & _).
  exists e', new, shown. split; [exact Hrun|]. split; [exact Hlog|].
  apply Ht. intros f Hin. simpl in Hin.
  destruct Hin as [<-|[<-|[]]]; vm_compute; discriminate.
Defined.

(** X9: a tick consumes every move.  None of the pointer objects a tick
    returns is splatted again: handed back unchanged to the next tick, they
    are returned as they are, and that tick draws only its seven fixed
    passes and the pressure iterations, whatever its time step. *)
Theorem step_consumes_moves {F : Type} `{Scalar F}
    (deltaTime : F) (pointers pointers' : list (Pointer F))
    (this this' : FluidSimulation F) (e e' : Env F) (q : handle) :
  allocated this ->
  quadVAO e = Some q ->
  paused (config this) = false ->
  step deltaTime pointers this e = Ok ((pointers', this'), e') ->
  Forall (fun p => splatted p = false) pointers' /\
  forall deltaTime2,
  exists this'' e'',
    step deltaTime2 pointers' this' e' = Ok ((pointers', this''), e'') /\
    length (draw_log e'') =
    (length (draw_log e') + 7 + Z.to_nat (pressureIterations (config this)))%nat.
Proof.
  intros Hall Hq Hp Hrun.
  destruct (step_total deltaTime pointers this e q Hall Hq)
    as (ps1 & s1 & e1 & Hrun1 & Hall' & Hq').
  rewrite Hrun in Hrun1. revert Hrun1. intros [= <- <- <-].
  destruct (step_applyPointers _ _ _ _ _ _ _ Hp Hrun)
    as (rc & s0 & s1 & e1 & _ & Happ).
  pose proof (applyPointers_consumes _ _ _ _ _ _ _ Happ) as Hidle.
  split; [exact Hidle|]. intros deltaTime2.
  assert (Hc : config this' = config this).
  { apply (step_keeps (fun s => config s = config this)
             ltac:(auto) ltac:(auto) ltac:(auto) ltac:(auto) ltac:(auto) ltac:(auto)
             deltaTime pointers this e pointers' this' e' eq_refl Hrun). }
  destruct Hall' as ([v Hv] & [d Hd] & [p Hpr] & [dv Hdv] & [c Hcu]).
  destruct (step_idle deltaTime2 pointers' this' v d p dv c e' q
              Hv Hd Hpr Hdv Hcu Hq') as (s'' & e'' & Hrun2 & Hlog & _);
    [rewrite Hc; exact Hp|exact Hidle|].
  exists s'', e''. split; [exact Hrun2|].
  rewrite Hlog, length_app. unfold tick_log.
  rewrite !length_app, length_jacobi_log, Hc. simpl. lia.
Qed.

Lemma step_consumes_moves_witness :
  exists pointers' this' e',
    step (lit 0.016) [sample_pointer; still_pointer] sample_sim sample_env
    = Ok ((pointers', this'), e') /\
    Forall (fun p => splatted p = false) pointers'.
Proof.
  destruct (step_total (lit 0.016) [sample_pointer; still_pointer] sample_sim
              sample_env 0%nat sample_allocated eq_refl)
    as (ps' & this' & e' & Hrun & _ & _).
  exists ps', this', e'. split; [exact Hrun|].
  exact (proj1 (step_consumes_moves (lit 0.016) [sample_pointer; still_pointer] ps'
                  sample_sim this' sample_env e' 0%nat sample_allocated eq_refl
                  eq_refl Hrun)).
Defined.

(** ** The fields follow the simulation size *)

Section CoherenceFacts.
Context {F : Type} `{Scalar F}.

Lemma createFBO_sized w h ifmt fmt ty fl (e : Env F) t e' :
  createFBO w h ifmt fmt ty fl e = Ok (t, e') -> fbo_sized (MkSize w h) ifmt t.
Proof.
  unfold createFBO. intros Hr.
  bind_inv Hr. bind_inv Hr. bind_inv Hr. bind_inv Hr.
  destruct (fbo_complete _ ifmt w h); [|discriminate].
  ret_inv Hr. repeat split.
Qed.

Lemma resizeFBO_sized (s : Size) ifmt (t : FBO F) w h (e : Env F) t' e' :
  fbo_sized s ifmt t ->
  resizeFBO t w h e = Ok (t', e') -> fbo_sized (MkSize w h) ifmt t'.
Proof.
  intros (Hw & Hh & Hf & Hts). unfold resizeFBO. destruct (andb _ _) eqn:Htest.
  - apply andb_true_iff in Htest as [Hw' Hh']. apply Z.eqb_eq in Hw', Hh'.
    unfold ret. intros [= <- <-]. repeat split; assumption.
  - intros Hr. bind_inv Hr. bind_inv Hr. ret_inv Hr. repeat split. exact Hf.
Qed.

Lemma resizeDouble_sized (s : Size) ifmt (o : option (DoubleFBO F)) w h fmt fl
    (e : Env F) d e' :
  double_sized s ifmt o ->
  resizeDouble o w h ifmt fmt fl e = Ok (d, e') ->
  double_sized (MkSize w h) ifmt (Some d).
Proof.
  destruct o as [v|]; simpl; intros Hs Hr.
  - destruct Hs as [Hrd Hwr].
    bind_inv_as Hr r e1 H1. bind_inv_as Hr wr e2 H2. ret_inv Hr. simpl. split.
    + eapply resizeFBO_sized; [exact Hrd|exact H1].
    + eapply resizeFBO_sized; [exact Hwr|exact H2].
  - unfold createDoubleFBO in Hr.
    bind_inv_as Hr r e1 H1. bind_inv_as Hr wr e2 H2. ret_inv Hr. simpl. split.
    + eapply createFBO_sized; exact H1.
    + eapply createFBO_sized; exact H2.
Qed.

Lemma resizeSingle_sized (s : Size) (o : option (FBO F)) w h (e : Env F) t e' :
  single_sized s R16F o ->
  resizeSingle o w h e = Ok (t, e') -> fbo_sized (MkSize w h) R16F t.
Proof.
  destruct o as [v|]; simpl; intros Hs Hr.
  - eapply resizeFBO_sized; [exact Hs|exact Hr].
  - eapply createFBO_sized; exact Hr.
Qed.

Lemma fbo_sized_same (s s' : Size) ifmt (t : FBO F) :
  size_width s' = size_width s -> size_height s' = size_height s ->
  fbo_sized s ifmt t -> fbo_sized s' ifmt t.
Proof. unfold fbo_sized. intros -> ->. auto. Qed.

(* [resize] on an object whose fields follow its size: they still do, and
   when the size changes all five fields are there afterwards *)
Lemma resize_sized width height (this : FluidSimulation F) e this' e' :
  fields_sized this ->
  resize width height this e = Ok (this', e') ->
  fields_sized this' /\
  (allocated this \/
   simSize this <> MkSize (simWidthOf width this) (simWidthOf height this) ->
   allocated this').
Proof.
  intros (Hv & Hd & Hp & Hdv & Hc). unfold resize, simWidthOf.
  cbn [config with_canvasSize simSize framebuffers with_simSize].
  destruct (andb _ _) eqn:Htest.
  - unfold ret. intros [= <- <-]. split.
    + repeat split; assumption.
    + intros [Hall|Hne]; [exact Hall|]. exfalso. apply Hne.
      apply andb_true_iff in Htest as [Hw Hh]. apply Z.eqb_eq in Hw, Hh.
      destruct (simSize this); simpl in *. congruence.
  - intros Hr.
    bind_inv_as Hr v e1 H1. bind_inv_as Hr d e2 H2. bind_inv_as Hr p e3 H3.
    bind_inv_as Hr dv e4 H4. bind_inv_as Hr c e5 H5.
    apply _setupBloomBuffers_shape in Hr as [chain ->].
    cbn in H1, H2, H3, H4, H5.
    split.
    + unfold fields_sized. cbn.
      split; [exact (resizeDouble_sized _ _ _ _ _ _ _ _ _ _ Hv H1)|].
      split; [exact (resizeDouble_sized _ _ _ _ _ _ _ _ _ _ Hd H2)|].
      split; [exact (resizeDouble_sized _ _ _ _ _ _ _ _ _ _ Hp H3)|].
      split; [exact (resizeSingle_sized _ _ _ _ _ _ _ Hdv H4)|].
      exact (resizeSingle_sized _ _ _ _ _ _ _ Hc H5).
    + intros _. unfold allocated. cbn. repeat split; eexists; reflexivity.
Qed.

Lemma fields_sized_step dt pointers (this : FluidSimulation F) e pointers' this' e' :
  fields_sized this ->
  step dt pointers this e = Ok ((pointers', this'), e') -> fields_sized this'.
Proof.
  apply (step_keeps fields_sized); unfold fields_sized; cbn; intros;
    repeat match goal with Hx : _ /\ _ |- _ => destruct Hx end;
    repeat split; try assumption;
    match goal with
    | |- double_sized _ _ (option_map swap ?o) =>
        destruct o; cbn in *; [|exact I];
        repeat match goal with Hx : _ /\ _ |- _ => destruct Hx end;
        split; assumption
    end.
Qed.

Lemma allocated_step dt pointers (this : FluidSimulation F) e pointers' this' e' :
  allocated this ->
  step dt pointers this e = Ok ((pointers', this'), e') -> allocated this'.
Proof.
  apply (step_keeps allocated); unfold allocated; cbn; intros;
    repeat match goal with Hx : _ /\ _ |- _ => destruct Hx end;
    repeat split; try assumption;
    match goal with
    | Hx : is_Some ?o |- is_Some (option_map swap ?o) =>
        destruct Hx as [x ->]; eexists; reflexivity
    end.
Qed.

Lemma reachable_sized (this : FluidSimulation F) (e : Env F) :
  reachable this e -> allocated this /\ fields_sized this.
Proof.
  induction 1 as [config e0 this e Hc| w h this e this' e' _ IH Hr
                 | dt ps ps' this e this' e' _ IH Hr| this e e' _ IH _
                 | partial this e _ IH| this e this' e' _ IH Hr].
  - unfold constructor in Hc. bind_inv Hc. bind_inv Hc.
    match type of Hc with resize _ _ ?s _ = _ =>
      destruct (resize_sized _ _ s _ _ _ ltac:(repeat split) Hc) as [Hs Ha]
    end.
    split; [|exact Hs]. apply Ha. right. cbn. intros [= Hw _].
    pose proof (ensureDimension_ge_2
                  (inject_Z (canvas_width a0) / inject_Z (texelDownsample config))).
    unfold simWidthOf in Hw. cbn in Hw. lia.
  - destruct IH as [Ha Hs]. destruct (resize_sized _ _ _ _ _ _ Hs Hr) as [Hs' Ha'].
    split; [apply Ha'; left; exact Ha|exact Hs'].
  - destruct IH as [Ha Hs]. split.
    + eapply allocated_step; eauto.
    + eapply fields_sized_step; eauto.
  - exact IH.
  - exact IH.
  - apply dispose_shape in Hr. subst. exact IH.
Qed.
End CoherenceFacts.

(** X10: in every state reached through the constructor, [resize],
    [step], [render], [updateConfig] and [dispose], the five fields are
    not null, each of their render targets has the width and the height
    recorded in [simSize] and the internal format it was created with
    (RG16F for velocity, RGBA16F for the dye, R16F for pressure, divergence
    and curl), and its [texelSize] is (1 / width, 1 / height) of that very
    size: the texel size handed to the shaders is never stale. *)
Theorem reachable_fields_follow_size {F : Type} `{Scalar F}
    (this : FluidSimulation F) (e : Env F) :
  reachable this e ->
  exists v d p dv c,
    framebuffers this =
      MkFramebuffers (Some v) (Some d) (Some p) (Some dv) (Some c)
        (bloom (framebuffers this)) /\
    Forall (fbo_sized (simSize this) RG16F) [read v; write v] /\
    Forall (fbo_sized (simSize this) RGBA16F) [read d; write d] /\
    Forall (fbo_sized (simSize this) R16F) [read p; write p; dv; c].
Proof.
  intros Hr. destruct (reachable_sized this e Hr) as [Ha Hs].
  destruct Ha as ([v Hv] & [d Hd] & [p Hp] & [dv Hdv] & [c Hc]).
  destruct Hs as (Hsv & Hsd & Hsp & Hsdv & Hsc).
  rewrite Hv in Hsv. rewrite Hd in Hsd. rewrite Hp in Hsp.
  rewrite Hdv in Hsdv. rewrite Hc in Hsc. cbn in Hsv, Hsd, Hsp, Hsdv, Hsc.
  exists v, d, p, dv, c. split.
  - destruct (framebuffers this); cbn in *. congruence.
  - destruct Hsv, Hsd, Hsp.
    repeat split; repeat (first [apply Forall_nil_2|apply Forall_cons_2; [assumption|]]).
Qed.

Lemma reachable_fields_follow_size_witness :
  exists v d p dv c,
    framebuffers sample_sim =
      MkFramebuffers (Some v) (Some d) (Some p) (Some dv) (Some c)
        (bloom (framebuffers sample_sim)) /\
    Forall (fbo_sized (simSize sample_sim) RG16F) [read v; write v] /\
    Forall (fbo_sized (simSize sample_sim) RGBA16F) [read d; write d] /\
    Forall (fbo_sized (simSize sample_sim) R16F) [read p; write p; dv; c].
Proof.
  exact (reachable_fields_follow_size sample_sim sample_env sample_reachable).
Defined.

(** ** The store and the render targets of the object *)

Section OwnsFacts.
Context {F : Type} `{Scalar F}.

Lemma createFBO_inv w h ifmt fmt ty fl (e : Env F) t e' :
  createFBO w h ifmt fmt ty fl e = Ok (t, e') ->
  t = assignTexelSize
        (MkFBO (next_name e) (S (next_name e)) w h ifmt fmt ty (V2 (lit 0) (lit 0))) /\
  next_name e' = S (S (next_name e)) /\
  textures e' = <[next_name e := TextureObject w h ifmt fl blank]> (textures e) /\
  fbos e' = <[S (next_name e) := next_name e]> (fbos e).
Proof.
  unfold createFBO, createTexture, fresh_name, get_env, put_env, bind. simpl.
  destruct (fbo_complete e ifmt w h); [|discriminate].
  unfold ret. intros [= <- <-]. repeat split.
Qed.

Lemma resizeFBO_inv (t : FBO F) w h (e : Env F) t' e' :
  resizeFBO t w h e = Ok (t', e') ->
  next_name e' = next_name e /\ fbos e' = fbos e /\
  texture t' = texture t /\ fbo t' = fbo t /\
  ((width t = w /\ height t = h /\ t' = t /\ e' = e) \/
   (width t' = w /\ height t' = h /\ internalFormat t' = internalFormat t /\
    textures e' = alter (reallocate w h (internalFormat t)) (texture t) (textures e))).
Proof.
  unfold resizeFBO. destruct (andb _ _) eqn:Htest.
  - apply andb_true_iff in Htest as [Hw Hh]. apply Z.eqb_eq in Hw, Hh.
    unfold ret. intros [= <- <-]. repeat split. left. repeat split; assumption.
  - unfold bind, get_env, put_env, ret. intros [= <- <-]. repeat split.
    right. repeat split.
Qed.

Lemma deleteFBO_inv (t : FBO F) (e : Env F) e' :
  deleteFBO (Some t) e = Ok (tt, e') ->
  next_name e' = next_name e /\
  textures e' = delete (texture t) (textures e) /\
  fbos e' = delete (fbo t) (fbos e).
Proof.
  unfold deleteFBO, bind, get_env, put_env. intros [= <-]. repeat split.
Qed.

Lemma owns_perm (e0 : Env F) (T T' : list (FBO F)) (e : Env F) :
  Permutation T T' -> owns e0 T e -> owns e0 T' e.
Proof.
  intros Hp (Ht & Hf & Hb & Hn & Hle & Hot & Hof).
  split; [exact (proj1 (NoDup_Permutation_proper _ _ (Permutation_map texture Hp)) Ht)|].
  split; [exact (proj1 (NoDup_Permutation_proper _ _ (Permutation_map fbo Hp)) Hf)|].
  split; [eapply Permutation_Forall; eassumption|].
  split; [eapply Permutation_Forall; eassumption|].
  split; [exact Hle|]. split.
  - intros n Hn'. apply Hot. intros Hin. apply Hn'.
    eapply Permutation_in; [apply Permutation_map; exact Hp|exact Hin].
  - intros n Hn'. apply Hof. intros Hin. apply Hn'.
    eapply Permutation_in; [apply Permutation_map; exact Hp|exact Hin].
Qed.

Lemma owns_nil (e0 : Env F) : owns e0 [] e0.
Proof.
  repeat split; try constructor; auto.
Qed.

Lemma owns_createFBO (e0 : Env F) (T : list (FBO F)) w h ifmt fmt ty fl
    (e : Env F) t e' :
  owns e0 T e ->
  createFBO w h ifmt fmt ty fl e = Ok (t, e') ->
  owns e0 (t :: T) e'.
Proof.
  intros (Ht & Hf & Hb & Hn & Hle & Hot & Hof) Hr.
  apply createFBO_inv in Hr as (-> & Hnx & Htx & Hfb).
  assert (Hlt : forall u, In u T -> (texture u < next_name e)%nat /\
                                     (fbo u < next_name e)%nat).
  { intros u Hu. rewrite List.Forall_forall in Hn. specialize (Hn u Hu). lia. }
  unfold owns. cbn [map assignTexelSize texture fbo].
  split.
  { constructor; [|exact Ht]. rewrite list_elem_of_In, in_map_iff.
    intros (u & Hu & Hin). apply Hlt in Hin. lia. }
  split.
  { constructor; [|exact Hf]. rewrite list_elem_of_In, in_map_iff.
    intros (u & Hu & Hin). apply Hlt in Hin. lia. }
  split.
  { constructor.
    - unfold backed. cbn. rewrite Hfb, Htx, !lookup_insert_eq.
      split; [reflexivity|]. eexists. split; [reflexivity|]. repeat split.
    - rewrite List.Forall_forall in Hb |- *. intros u Hu.
      destruct (Hb u Hu) as (Hbf & o & Hbt & Hbo). pose proof (Hlt u Hu) as [? ?].
      unfold backed. rewrite Hfb, Htx.
      rewrite !lookup_insert_ne by lia. split; [exact Hbf|]. exists o. auto. }
  split.
  { constructor.
    - cbn. lia.
    - eapply Forall_impl; [exact Hn|]. cbn. intros u Hu. lia. }
  split; [lia|]. split.
  - intros n Hn'. rewrite Htx. rewrite lookup_insert_ne by (intros <-; apply Hn'; left; reflexivity).
    apply Hot. intros Hin. apply Hn'. right. exact Hin.
  - intros n Hn'. rewrite Hfb. rewrite lookup_insert_ne by (intros <-; apply Hn'; left; reflexivity).
    apply Hof. intros Hin. apply Hn'. right. exact Hin.
Qed.

Lemma owns_resizeFBO (e0 : Env F) (T : list (FBO F)) (t : FBO F) w h
    (e : Env F) t' e' :
  owns e0 (t :: T) e ->
  resizeFBO t w h e = Ok (t', e') ->
  owns e0 (t' :: T) e'.
Proof.
  intros Ho Hr.
  apply resizeFBO_inv in Hr as (Hnx & Hfb & Htn & Hfn & [(_ & _ & -> & ->)|Hch]);
    [exact Ho|].
  destruct Hch as (Hw & Hh & Hfmt & Htx).
  destruct Ho as (Ht & Hf & Hb & Hn & Hle & Hot & Hof).
  unfold owns. cbn [map] in *. rewrite Htn, Hfn, Hnx.
  split; [exact Ht|]. split; [exact Hf|].
  apply NoDup_cons in Ht as [Hnt _]. rewrite list_elem_of_In in Hnt.
  apply Forall_cons in Hb as [Hbt Hb]. apply Forall_cons in Hn as [Hnt' Hn].
  split.
  { constructor.
    - destruct Hbt as (Hbf & o & Hbo & _). unfold backed.
      rewrite Hfn, Htn, Hfb, Htx, lookup_alter_eq, Hbo.
      split; [exact Hbf|]. eexists. split; [reflexivity|]. cbn. auto.
    - rewrite List.Forall_forall in Hb |- *. intros u Hu.
      destruct (Hb u Hu) as (Hbf & o & Hbt' & Hbo).
      unfold backed. rewrite Hfb, Htx.
      rewrite lookup_alter_ne.
      + split; [exact Hbf|]. exists o. auto.
      + intros Heq. apply Hnt. rewrite Heq. apply in_map. exact Hu. }
  split; [constructor; [rewrite Htn, Hfn; exact Hnt'|exact Hn]|].
  split; [exact Hle|]. split.
  - intros n Hn'. rewrite Htx. rewrite lookup_alter_ne.
    + apply Hot. exact Hn'.
    + intros <-. apply Hn'. left. reflexivity.
  - intros n Hn'. rewrite Hfb. apply Hof. exact Hn'.
Qed.

Lemma owns_deleteFBO (e0 : Env F) (T : list (FBO F)) (t : FBO F) (e : Env F) e' :
  fresh_above e0 ->
  owns e0 (t :: T) e ->
  deleteFBO (Some t) e = Ok (tt, e') ->
  owns e0 T e'.
Proof.
  intros Hfresh (Ht & Hf & Hb & Hn & Hle & Hot & Hof) Hr.
  apply deleteFBO_inv in Hr as (Hnx & Htx & Hfb).
  cbn [map] in *.
  apply NoDup_cons in Ht as [Hnt Ht]. apply NoDup_cons in Hf as [Hnf Hf].
  rewrite list_elem_of_In in Hnt, Hnf.
  apply Forall_cons in Hb as [Hbt Hb]. apply Forall_cons in Hn as [Hnt' Hn].
  unfold owns. rewrite Hnx.
  split; [exact Ht|]. split; [exact Hf|]. split.
  { rewrite List.Forall_forall in Hb |- *. intros u Hu.
    destruct (Hb u Hu) as (Hbf & o & Hbt' & Hbo).
    unfold backed. rewrite Hfb, Htx.
    rewrite !lookup_delete_ne.
    - split; [exact Hbf|]. exists o. auto.
    - intros Heq. apply Hnt. rewrite Heq. apply in_map. exact Hu.
    - intros Heq. apply Hnf. rewrite Heq. apply in_map. exact Hu. }
  split; [exact Hn|]. split; [exact Hle|]. split.
  - intros n Hn'. rewrite Htx. destruct (decide (n = texture t)) as [->|Hne].
    + rewrite lookup_delete_eq. symmetry. apply Hfresh. lia.
    + rewrite lookup_delete_ne by congruence. apply Hot.
      intros [Heq|Hin]; [congruence|contradiction].
  - intros n Hn'. rewrite Hfb. destruct (decide (n = fbo t)) as [->|Hne].
    + rewrite lookup_delete_eq. symmetry. apply Hfresh. lia.
    + rewrite lookup_delete_ne by congruence. apply Hof.
      intros [Heq|Hin]; [congruence|contradiction].
Qed.
End OwnsFacts.

Section OwnsResize.
Context {F : Type} `{Scalar F}.
Variable e0 : Env F.

Lemma owns_start (e : Env F) :
  next_name e = next_name e0 -> textures e = textures e0 -> fbos e = fbos e0 ->
  owns e0 [] e.
Proof.
  intros Hn Ht Hf. unfold owns. rewrite Hn, Ht, Hf.
  repeat split; try constructor; auto.
Qed.

Lemma owns_resizeDouble (o : option (DoubleFBO F)) (R : list (FBO F)) w h ifmt fmt fl
    (e : Env F) d e' :
  owns e0 (double_targets o ++ R) e ->
  resizeDouble o w h ifmt fmt fl e = Ok (d, e') ->
  owns e0 (double_targets (Some d) ++ R) e'.
Proof.
  destruct o as [v|]; cbn [double_targets resizeDouble]; intros Ho Hr.
  - bind_inv_as Hr r e1 H1. bind_inv_as Hr wr e2 H2. ret_inv Hr. cbn.
    cbn in Ho. pose proof (owns_resizeFBO e0 _ _ _ _ _ _ _ Ho H1) as Ho1.
    apply (owns_perm _ _ _ _ (perm_swap _ _ _)) in Ho1.
    pose proof (owns_resizeFBO e0 _ _ _ _ _ _ _ Ho1 H2) as Ho2.
    apply (owns_perm _ _ _ _ (perm_swap _ _ _)) in Ho2. exact Ho2.
  - unfold createDoubleFBO in Hr.
    bind_inv_as Hr r e1 H1. bind_inv_as Hr wr e2 H2. ret_inv Hr. cbn.
    cbn in Ho. pose proof (owns_createFBO e0 _ _ _ _ _ _ _ _ _ _ Ho H1) as Ho1.
    pose proof (owns_createFBO e0 _ _ _ _ _ _ _ _ _ _ Ho1 H2) as Ho2.
    apply (owns_perm _ _ _ _ (perm_swap _ _ _)) in Ho2. exact Ho2.
Qed.

Lemma owns_resizeSingle (o : option (FBO F)) (R : list (FBO F)) w h
    (e : Env F) t e' :
  owns e0 (single_targets o ++ R) e ->
  resizeSingle o w h e = Ok (t, e') ->
  owns e0 (single_targets (Some t) ++ R) e'.
Proof.
  destruct o as [v|]; cbn [single_targets resizeSingle]; intros Ho Hr; cbn in *.
  - exact (owns_resizeFBO e0 _ _ _ _ _ _ _ Ho Hr).
  - exact (owns_createFBO e0 _ _ _ _ _ _ _ _ _ _ Ho Hr).
Qed.

Lemma owns_deleteLevels (L : list (BloomLevel F)) (R : list (FBO F)) (e : Env F) e' :
  fresh_above e0 ->
  owns e0 (flat_map level_targets L ++ R) e ->
  deleteLevels L e = Ok (tt, e') ->
  owns e0 R e'.
Proof.
  intros Hfresh. revert e. induction L as [|level L IH]; intros e Ho Hr.
  - cbn in Hr. unfold ret in Hr. revert Hr. intros [= <-]. exact Ho.
  - cbn [deleteLevels] in Hr. cbn in Ho.
    bind_inv_as Hr u1 e1 H1. bind_inv_as Hr u2 e2 H2.
    destruct u1, u2.
    pose proof (owns_deleteFBO e0 _ _ _ _ Hfresh Ho H1) as Ho1.
    pose proof (owns_deleteFBO e0 _ _ _ _ Hfresh Ho1 H2) as Ho2.
    exact (IH e2 Ho2 Hr).
Qed.

Lemma owns_bloomLevelsLoop (n : nat) w h (acc : list (BloomLevel F))
    (R : list (FBO F)) (e : Env F) chain e' :
  owns e0 (flat_map level_targets acc ++ R) e ->
  bloomLevelsLoop n w h acc e = Ok (chain, e') ->
  owns e0 (flat_map level_targets chain ++ R) e'.
Proof.
  revert w h acc e. induction n as [|n IH]; intros w h acc e Ho Hr.
  - cbn in Hr. ret_inv Hr. exact Ho.
  - cbn [bloomLevelsLoop] in Hr.
    bind_inv_as Hr b e1 H1. bind_inv_as Hr t e2 H2.
    pose proof (owns_createFBO e0 _ _ _ _ _ _ _ _ _ _ Ho H1) as Ho1.
    pose proof (owns_createFBO e0 _ _ _ _ _ _ _ _ _ _ Ho1 H2) as Ho2.
    assert (Ho3 : owns e0 (flat_map level_targets (acc ++ [MkBloomLevel b t]) ++ R) e2).
    { eapply owns_perm; [|exact Ho2].
      rewrite flat_map_app. cbn. rewrite <- app_assoc. cbn.
      etransitivity; [apply perm_swap|].
      apply (Permutation_app_swap_app [b; t]). }
    destruct (_ || _).
    + ret_inv Hr. exact Ho3.
    + exact (IH _ _ _ _ Ho3 Hr).
Qed.

Lemma owns_resize width height (this : FluidSimulation F) e this' e' :
  fresh_above e0 ->
  owns e0 (targets this) e ->
  resize width height this e = Ok (this', e') ->
  owns e0 (targets this') e'.
Proof.
  intros Hfresh Ho. unfold resize.
  cbn [config with_canvasSize simSize framebuffers with_simSize].
  destruct (andb _ _).
  - unfold ret. intros [= <- <-]. exact Ho.
  - intros Hr.
    bind_inv_as Hr v e1 H1. bind_inv_as Hr d e2 H2. bind_inv_as Hr p e3 H3.
    bind_inv_as Hr dv e4 H4. bind_inv_as Hr c e5 H5.
    cbn in H1, H2, H3, H4, H5.
    unfold _setupBloomBuffers in Hr. cbn in Hr.
    bind_inv_as Hr u e6 H6. destruct u. bind_inv_as Hr chain e7 H7. ret_inv Hr.
    unfold targets in *. cbn.
    cbn [framebuffers velocity density pressure divergence curl bloom].
    pose proof (owns_resizeDouble _ _ _ _ _ _ _ _ _ _ Ho H1) as Ho1.
    apply (owns_perm _ _ _ _ (Permutation_app_comm _ _)) in Ho1.
    rewrite <- !app_assoc in Ho1.
    pose proof (owns_resizeDouble _ _ _ _ _ _ _ _ _ _ Ho1 H2) as Ho2.
    apply (owns_perm _ _ _ _ (Permutation_app_comm _ _)) in Ho2.
    rewrite <- !app_assoc in Ho2.
    pose proof (owns_resizeDouble _ _ _ _ _ _ _ _ _ _ Ho2 H3) as Ho3.
    apply (owns_perm _ _ _ _ (Permutation_app_comm _ _)) in Ho3.
    rewrite <- !app_assoc in Ho3.
    pose proof (owns_resizeSingle _ _ _ _ _ _ _ Ho3 H4) as Ho4.
    apply (owns_perm _ _ _ _ (Permutation_app_comm _ _)) in Ho4.
    rewrite <- !app_assoc in Ho4.
    pose proof (owns_resizeSingle _ _ _ _ _ _ _ Ho4 H5) as Ho5.
    apply (owns_perm _ _ _ _ (Permutation_app_comm _ _)) in Ho5.
    rewrite <- !app_assoc in Ho5.
    pose proof (owns_deleteLevels _ _ _ _ Hfresh Ho5 H6) as Ho6.
    pose proof (owns_bloomLevelsLoop _ _ _ [] _ _ _ _ Ho6 H7) as Ho7.
    apply (owns_perm _ _ _ _ (Permutation_app_comm _ _)) in Ho7.
    rewrite <- !app_assoc in Ho7. exact Ho7.
Qed.

Lemma owns_constructor (config : Config F) this e :
  fresh_above e0 ->
  constructor config e0 = Ok (this, e) -> owns e0 (targets this) e.
Proof.
  intros Hfresh Hc. unfold constructor in Hc.
  bind_inv_as Hc col e1 H1. bind_inv_as Hc e2 e3 H2. env_inv H2.
  eapply owns_resize; [exact Hfresh| |exact Hc].
  unfold targets. cbn. apply owns_start;
    unfold randomColor, Math_random, bind, ret in H1; cbn in H1;
    revert H1; intros [= _ <-]; reflexivity.
Qed.
End OwnsResize.

(** ** Draw calls into the render targets *)

Section DrawnFacts.
Context {F : Type} `{Scalar F}.

Lemma drawn_trans (T : list (FBO F)) (e1 e2 e3 : Env F) :
  drawn T e1 e2 -> drawn T e2 e3 -> drawn T e1 e3.
Proof.
  induction 1 as [e|t d e e' Hin Hno _ IH|d e e' _ IH|n e e' _ IH]; intros H3.
  - exact H3.
  - eapply drawn_target; eauto.
  - eapply drawn_canvas; eauto.
  - eapply drawn_random; eauto.
Qed.

Lemma drawn_incl (T T' : list (FBO F)) (e e' : Env F) :
  (forall t, In t T -> In t T') -> drawn T e e' -> drawn T' e e'.
Proof.
  intros Hsub. induction 1 as [e|t d e e' Hin Hno _ IH|d e e' _ IH|n e e' _ IH].
  - apply drawn_done.
  - eapply drawn_target; eauto.
  - eapply drawn_canvas; eauto.
  - eapply drawn_random; eauto.
Qed.

Lemma drawn_pass (T : list (FBO F)) (t : FBO F) (d : draw_call F) (e : Env F) :
  In t T -> ~ In (texture t) (inputs d) -> drawn T e (draw_to t d e).
Proof. intros Hin Hno. eapply drawn_target; [exact Hin|exact Hno|apply drawn_done]. Qed.

(* the fragment program of a draw call reads no texture but its [inputs] *)
Lemma run_program_inputs (e e' : Env F) (d : draw_call F) (uv : vec2 F) :
  (forall n, In n (inputs d) -> textures e' !! n = textures e !! n) ->
  run_program e' d uv = run_program e d uv.
Proof.
  intros Hsame. destruct d; cbn in *;
    rewrite ?(Hsame uTexture), ?(Hsame uPressure), ?(Hsame uTarget),
      ?(Hsame uVelocity), ?(Hsame uSource), ?(Hsame uCurl),
      ?(Hsame uDivergence), ?(Hsame uBloom), ?(Hsame uBase) by auto;
    reflexivity.
Qed.

Lemma backed_draw_to (t u : FBO F) (d : draw_call F) (e : Env F) :
  backed e u -> backed (draw_to t d e) u.
Proof.
  intros (Hf & o & Ht & Hw & Hh & Hfmt). split; [rewrite fbos_draw_to; exact Hf|].
  unfold draw_to. destruct (fbos e !! fbo t) as [name|]; cbn.
  - destruct (decide (name = texture u)) as [->|Hne].
    + rewrite lookup_alter_eq, Ht. cbn. eexists. split; [reflexivity|]. auto.
    + rewrite lookup_alter_ne by exact Hne. exists o. auto.
  - exists o. auto.
Qed.

Lemma owns_drawn (e0 : Env F) (T : list (FBO F)) (e e' : Env F) :
  owns e0 T e -> drawn T e e' -> owns e0 T e'.
Proof.
  intros Ho Hd. induction Hd as [e|t d e e' Hin Hno _ IH|d e e' _ IH|n e e' _ IH].
  - exact Ho.
  - apply IH. destruct Ho as (Ht & Hf & Hb & Hn & Hle & Hot & Hof).
    assert (Hbt : backed e t) by (rewrite List.Forall_forall in Hb; auto).
    unfold owns. rewrite fbos_draw_to.
    split; [exact Ht|]. split; [exact Hf|]. split.
    { eapply Forall_impl; [exact Hb|]. intros u Hu. apply backed_draw_to. exact Hu. }
    split; [unfold draw_to; destruct (fbos e !! fbo t); exact Hn|].
    split; [unfold draw_to; destruct (fbos e !! fbo t); exact Hle|].
    split; [|exact Hof].
    intros n Hn'. rewrite <- (Hot n Hn'). destruct Hbt as (Hbf & _).
    unfold draw_to. rewrite Hbf. cbn. apply lookup_alter_ne.
    intros <-. apply Hn'. apply in_map. exact Hin.
  - apply IH. exact Ho.
  - apply IH. exact Ho.
Qed.

(* what the passes of a run leave in the log *)
Lemma drawn_log (T : list (FBO F)) (e e' : Env F) :
  drawn T e e' ->
  fbos e' = fbos e /\
  exists new,
    draw_log e' = draw_log e ++ new /\
    Forall (fun pass =>
              match fst pass with
              | Some f => exists t, In t T /\ f = fbo t /\
                                    ~ In (texture t) (inputs (snd pass))
              | None => True
              end) new.
Proof.
  induction 1 as [e|t d e e' Hin Hno _ IH|d e e' _ IH|n e e' _ IH].
  - split; [reflexivity|]. exists []. rewrite app_nil_r. split; [reflexivity|constructor].
  - destruct IH as (Hf & new & Hlog & Hall). rewrite fbos_draw_to in Hf.
    split; [exact Hf|]. exists ((Some (fbo t), d) :: new). split.
    + rewrite Hlog, draw_log_draw_to, <- app_assoc. reflexivity.
    + constructor; [|exact Hall]. cbn. exists t. auto.
  - destruct IH as (Hf & new & Hlog & Hall).
    split; [exact Hf|]. exists ((None, d) :: new). split.
    + rewrite Hlog. cbn. rewrite <- app_assoc. reflexivity.
    + constructor; [exact I|exact Hall].
  - destruct IH as (Hf & new & Hlog & Hall).
    split; [exact Hf|]. exists new. split; [exact Hlog|exact Hall].
Qed.

Lemma tracked_intro (s s' : FluidSimulation F) (e e' : Env F) :
  well_kept s -> allocated s' -> Permutation (targets s') (targets s) ->
  drawn (targets s) e e' -> tracked s e s' e'.
Proof.
  intros [Ha Hnd] Ha' Hp Hd. split; [split; [exact Ha'|]|split; assumption].
  exact (proj2 (NoDup_Permutation_proper _ _ (Permutation_map texture Hp)) Hnd).
Qed.

Lemma tracked_refl (s : FluidSimulation F) (e : Env F) :
  well_kept s -> tracked s e s e.
Proof. intros Hk. split; [exact Hk|]. split; [reflexivity|apply drawn_done]. Qed.

Lemma tracked_trans (s1 s2 s3 : FluidSimulation F) (e1 e2 e3 : Env F) :
  tracked s1 e1 s2 e2 -> tracked s2 e2 s3 e3 -> tracked s1 e1 s3 e3.
Proof.
  intros (_ & Hp1 & Hd1) (Hk & Hp2 & Hd2). split; [exact Hk|]. split.
  - etransitivity; eassumption.
  - eapply drawn_trans; [exact Hd1|].
    eapply drawn_incl; [|exact Hd2]. intros t. apply Permutation_in. exact Hp1.
Qed.

Lemma NoDup_at {A} (l : list A) (i j : nat) (x y : A) :
  NoDup l -> l !! i = Some x -> l !! j = Some y -> i <> j -> x <> y.
Proof.
  intros Hnd Hi Hj Hne ->. apply Hne. eapply NoDup_lookup; eassumption.
Qed.
End DrawnFacts.

(* the fields of a well kept object, opened up *)
Ltac open_sim s Hk :=
  let Ha := fresh "Ha" in
  let Hnd := fresh "Hnd" in
  let Hk' := fresh "Hk" in
  assert (Hk' := Hk); destruct Hk' as [Ha Hnd];
  let cfg := fresh "cfg" in
  let ov := fresh "ov" in let od := fresh "od" in let op := fresh "op" in
  let odv := fresh "odv" in let oc := fresh "oc" in let B := fresh "B" in
  destruct s as [cfg [ov od op odv oc B] ? ? ? ? ?];
  let v := fresh "v" in let d := fresh "d" in let p := fresh "p" in
  let dv := fresh "dv" in let c := fresh "c" in
  destruct Ha as ([v ?] & [d ?] & [p ?] & [dv ?] & [c ?]);
  cbn in *; subst ov od op odv oc;
  unfold targets in Hnd; cbn in Hnd.

Ltac deref_step Hr := erewrite (bind_run (ret _)) in Hr by reflexivity.

Ltac blit_step Hr :=
  let u := fresh "u" in
  let e1 := fresh "e" in
  let Hb := fresh "Hb" in
  apply bind_ok in Hr; destruct Hr as (u & e1 & Hb & Hr);
  apply blit_ok in Hb; destruct Hb as [_ Hb]; cbn [snd] in Hb; subst e1.

Ltac pass_steps Hr := repeat first [deref_step Hr | blit_step Hr].

Ltac in_targets := unfold targets; cbn; repeat first [left; reflexivity | right].

(* a run of passes, first to last; leaves the side conditions of each *)
Ltac drawn_passes :=
  first [ apply drawn_done
        | apply drawn_pass
        | eapply drawn_trans; [|apply drawn_pass]; [drawn_passes|..] ].

Ltac perm_targets :=
  unfold targets; cbn;
  repeat first [ reflexivity
               | apply perm_skip
               | etransitivity; [apply perm_swap|] ].

(* the texture at position [j] of the targets is not the input at [i] *)
Ltac apart Hnd i j :=
  apply (NoDup_at _ i j _ _ Hnd); [reflexivity|reflexivity|lia].

Ltac is_allocated := unfold allocated; cbn; repeat split; eexists; reflexivity.

Section TrackedPasses.
Context {F : Type} `{Scalar F}.

Lemma splat_tracked x y dx dy col (s : FluidSimulation F) e s' e' :
  well_kept s -> splat x y dx dy col s e = Ok (s', e') -> tracked s e s' e'.
Proof.
  intros Hk Hr. open_sim s Hk. unfold splat in Hr. cbn in Hr.
  pass_steps Hr. ret_inv Hr.
  apply tracked_intro; [exact Hk|is_allocated|perm_targets|].
  drawn_passes; try solve [in_targets].
  - intros [Heq|[]]. revert Heq. apart Hnd 0%nat 1%nat.
  - intros [Heq|[]]. revert Heq. apart Hnd 2%nat 3%nat.
Qed.

Lemma _advectVelocity_tracked dt (s : FluidSimulation F) e s' e' :
  well_kept s -> _advectVelocity dt s e = Ok (s', e') -> tracked s e s' e'.
Proof.
  intros Hk Hr. open_sim s Hk. unfold _advectVelocity in Hr. cbn in Hr.
  pass_steps Hr. ret_inv Hr.
  apply tracked_intro; [exact Hk|is_allocated|perm_targets|].
  drawn_passes; try solve [in_targets].
  intros [Heq|[Heq|[]]]; revert Heq; apart Hnd 0%nat 1%nat.
Qed.

Lemma _applyVorticity_tracked dt (s : FluidSimulation F) e s' e' :
  well_kept s -> _applyVorticity dt s e = Ok (s', e') -> tracked s e s' e'.
Proof.
  intros Hk Hr. open_sim s Hk. unfold _applyVorticity in Hr. cbn in Hr.
  pass_steps Hr. ret_inv Hr.
  apply tracked_intro; [exact Hk|is_allocated|perm_targets|].
  drawn_passes; try solve [in_targets].
  - intros [Heq|[]]. revert Heq. apart Hnd 0%nat 7%nat.
  - intros [Heq|[Heq|[]]]; revert Heq; [apart Hnd 0%nat 1%nat|apart Hnd 7%nat 1%nat].
Qed.

Lemma _computeDivergence_tracked (s : FluidSimulation F) e s' e' :
  well_kept s -> _computeDivergence s e = Ok (s', e') -> tracked s e s' e'.
Proof.
  intros Hk Hr. open_sim s Hk. unfold _computeDivergence in Hr. cbn in Hr.
  pass_steps Hr. ret_inv Hr.
  apply tracked_intro; [exact Hk|is_allocated|perm_targets|].
  drawn_passes; try solve [in_targets].
  intros [Heq|[]]. revert Heq. apart Hnd 0%nat 6%nat.
Qed.

Lemma jacobiIteration_tracked (s : FluidSimulation F) e s' e' :
  well_kept s -> jacobiIteration s e = Ok (s', e') -> tracked s e s' e'.
Proof.
  intros Hk Hr. open_sim s Hk. unfold jacobiIteration in Hr. cbn in Hr.
  pass_steps Hr. ret_inv Hr.
  apply tracked_intro; [exact Hk|is_allocated|perm_targets|].
  drawn_passes; try solve [in_targets].
  intros [Heq|[Heq|[]]]; revert Heq; [apart Hnd 4%nat 5%nat|apart Hnd 6%nat 5%nat].
Qed.

Lemma repeatM_tracked (body : FluidSimulation F -> M F (FluidSimulation F)) :
  (forall s e s' e', well_kept s -> body s e = Ok (s', e') -> tracked s e s' e') ->
  forall n s e s' e',
    well_kept s -> repeatM n body s e = Ok (s', e') -> tracked s e s' e'.
Proof.
  intros Hbody. induction n as [|n IH]; intros s e s' e' Hk Hr; cbn in Hr.
  - ret_inv Hr. apply tracked_refl. exact Hk.
  - bind_inv_as Hr s1 e1 H1. pose proof (Hbody _ _ _ _ Hk H1) as Ht1.
    eapply tracked_trans; [exact Ht1|]. apply IH; [apply Ht1|exact Hr].
Qed.

Lemma _solvePressure_tracked (s : FluidSimulation F) e s' e' :
  well_kept s -> _solvePressure s e = Ok (s', e') -> tracked s e s' e'.
Proof.
  intros Hk Hr. unfold _solvePressure in Hr.
  assert (Hdecay : exists e1, tracked s e (swap_pressure s) e1 /\
            repeatM (Z.to_nat (pressureIterations (config (swap_pressure s))))
              jacobiIteration (swap_pressure s) e1 = Ok (s', e')).
  { open_sim s Hk. cbn [framebuffers pressure deref] in Hr.
    pass_steps Hr. eexists. split; [|exact Hr].
    apply tracked_intro; [exact Hk|is_allocated|perm_targets|].
    drawn_passes; try solve [in_targets].
    intros [Heq|[]]. revert Heq. apart Hnd 4%nat 5%nat. }
  destruct Hdecay as (e1 & Ht1 & Hloop).
  eapply tracked_trans; [exact Ht1|].
  eapply (repeatM_tracked _ jacobiIteration_tracked); [apply Ht1|exact Hloop].
Qed.

Lemma _subtractPressureGradient_tracked (s : FluidSimulation F) e s' e' :
  well_kept s -> _subtractPressureGradient s e = Ok (s', e') -> tracked s e s' e'.
Proof.
  intros Hk Hr. open_sim s Hk. unfold _subtractPressureGradient in Hr. cbn in Hr.
  pass_steps Hr. ret_inv Hr.
  apply tracked_intro; [exact Hk|is_allocated|perm_targets|].
  drawn_passes; try solve [in_targets].
  intros [Heq|[Heq|[]]]; revert Heq; [apart Hnd 4%nat 1%nat|apart Hnd 0%nat 1%nat].
Qed.

Lemma _advectDye_tracked dt (s : FluidSimulation F) e s' e' :
  well_kept s -> _advectDye dt s e = Ok (s', e') -> tracked s e s' e'.
Proof.
  intros Hk Hr. open_sim s Hk. unfold _advectDye in Hr. cbn in Hr.
  pass_steps Hr. ret_inv Hr.
  apply tracked_intro; [exact Hk|is_allocated|perm_targets|].
  drawn_passes; try solve [in_targets].
  intros [Heq|[Heq|[]]]; revert Heq; [apart Hnd 0%nat 3%nat|apart Hnd 2%nat 3%nat].
Qed.
End TrackedPasses.

Section TrackedTick.
Context {F : Type} `{Scalar F}.

Lemma randomColor_drawn (T : list (FBO F)) (e : Env F) c e' :
  randomColor e = Ok (c, e') -> drawn T e e'.
Proof.
  unfold randomColor, Math_random, bind, ret. cbn. intros [= _ <-].
  do 3 (eapply drawn_random). apply drawn_done.
Qed.

Ltac ret3_inv H := unfold ret in H; revert H; intros [= <- <- <-].

Lemma tracked_random (s s' : FluidSimulation F) (e e1 e' : Env F) :
  drawn (targets s) e e1 -> tracked s e1 s' e' -> tracked s e s' e'.
Proof.
  intros Hd (Hk & Hp & Hd'). split; [exact Hk|]. split; [exact Hp|].
  eapply drawn_trans; eassumption.
Qed.

Lemma applyPointer_tracked pointer rc (s : FluidSimulation F) e pointer' s' e' :
  well_kept s ->
  applyPointer pointer rc s e = Ok ((pointer', s'), e') -> tracked s e s' e'.
Proof.
  intros Hk Hr. unfold applyPointer in Hr.
  destruct (negb (moved pointer) || negb (down pointer)).
  { ret3_inv Hr. apply tracked_refl. exact Hk. }
  destruct (andb _ _).
  { ret3_inv Hr. apply tracked_refl. exact Hk. }
  bind_inv_as Hr p1 e1 H1. bind_inv_as Hr s2 e2 H2. ret3_inv Hr.
  apply (tracked_random s s2 e e1 e2); [|eapply splat_tracked; eassumption].
  destruct rc.
  - bind_inv_as H1 c e0 Hc. ret_inv H1. eapply randomColor_drawn. exact Hc.
  - ret_inv H1. apply drawn_done.
Qed.

Lemma applyPointers_tracked pointers rc (s : FluidSimulation F) e pointers' s' e' :
  well_kept s ->
  applyPointers pointers rc s e = Ok ((pointers', s'), e') -> tracked s e s' e'.
Proof.
  unfold applyPointers. revert s e pointers' s' e'.
  induction pointers as [|p ps IH]; intros s e pointers' s' e' Hk Hr; cbn in Hr.
  - ret3_inv Hr. apply tracked_refl. exact Hk.
  - bind_inv_as Hr r1 e1 H1. bind_inv_as Hr r2 e2 H2. ret3_inv Hr.
    destruct r1 as [p1 s1]. destruct r2 as [ps2 s2]. cbn in *.
    pose proof (applyPointer_tracked _ _ _ _ _ _ _ Hk H1) as Ht1.
    eapply tracked_trans; [exact Ht1|]. eapply IH; [apply Ht1|exact H2].
Qed.

Lemma step_tracked dt pointers (s : FluidSimulation F) e pointers' s' e' :
  well_kept s ->
  step dt pointers s e = Ok ((pointers', s'), e') -> tracked s e s' e'.
Proof.
  intros Hk Hr. unfold step in Hr.
  destruct (paused (config s)).
  { ret3_inv Hr. apply tracked_refl. exact Hk. }
  set (rc := cycleColors (config s) && _) in Hr.
  set (s0 := if rc then _ else _) in Hr.
  assert (Hk0 : well_kept s0) by (unfold s0; destruct rc; exact Hk).
  assert (Ht0 : forall s'' e'', tracked s0 e s'' e'' -> tracked s e s'' e'')
    by (unfold s0; destruct rc; auto).
  apply Ht0. clearbody s0.
  bind_inv_as Hr r1 e1 H1. destruct r1 as [ps1 s1]. cbn [fst snd] in Hr.
  bind_inv_as Hr s2 e2 H2. bind_inv_as Hr s3 e3 H3. bind_inv_as Hr s4 e4 H4.
  bind_inv_as Hr s5 e5 H5. bind_inv_as Hr s6 e6 H6. bind_inv_as Hr s7 e7 H7.
  ret3_inv Hr.
  pose proof (applyPointers_tracked _ _ _ _ _ _ _ Hk0 H1) as T1.
  pose proof (_advectVelocity_tracked _ _ _ _ _ (proj1 T1) H2) as T2.
  pose proof (_applyVorticity_tracked _ _ _ _ _ (proj1 T2) H3) as T3.
  pose proof (_computeDivergence_tracked _ _ _ _ (proj1 T3) H4) as T4.
  pose proof (_solvePressure_tracked _ _ _ _ (proj1 T4) H5) as T5.
  pose proof (_subtractPressureGradient_tracked _ _ _ _ (proj1 T5) H6) as T6.
  pose proof (_advectDye_tracked _ _ _ _ _ (proj1 T6) H7) as T7.
  eapply tracked_trans; [exact T1|]. eapply tracked_trans; [exact T2|].
  eapply tracked_trans; [exact T3|]. eapply tracked_trans; [exact T4|].
  eapply tracked_trans; [exact T5|]. eapply tracked_trans; [exact T6|exact T7].
Qed.
End TrackedTick.

Section TrackedRender.
Context {F : Type} `{Scalar F}.

Lemma level_textures_in (L : list (BloomLevel F)) (a : BloomLevel F) :
  In a L ->
  In (texture (buffer a)) (map texture (flat_map level_targets L)) /\
  In (texture (temp a)) (map texture (flat_map level_targets L)).
Proof.
  intros Hin. split; apply in_map; apply in_flat_map; exists a; cbn; auto.
Qed.

Lemma temp_buffer_apart (L : list (BloomLevel F)) (a b : BloomLevel F) :
  NoDup (map texture (flat_map level_targets L)) ->
  In a L -> In b L -> texture (temp a) <> texture (buffer b).
Proof.
  induction L as [|l L IH]; cbn; intros Hnd Ha Hb; [contradiction|].
  apply NoDup_cons in Hnd as [Hb1 Hnd]. apply NoDup_cons in Hnd as [Ht1 Hnd].
  rewrite list_elem_of_In in Hb1, Ht1. cbn in Hb1.
  destruct Ha as [->|Ha], Hb as [->|Hb].
  - intros Heq. apply Hb1. left. exact Heq.
  - intros Heq. apply Ht1. rewrite Heq. apply (level_textures_in L b Hb).
  - intros Heq. apply Hb1. right. rewrite <- Heq. apply (level_textures_in L a Ha).
  - apply IH; assumption.
Qed.

Lemma buffers_NoDup (L : list (BloomLevel F)) :
  NoDup (map texture (flat_map level_targets L)) ->
  NoDup (map (fun l => texture (buffer l)) L).
Proof.
  induction L as [|l L IH]; cbn; intros Hnd; [constructor|].
  apply NoDup_cons in Hnd as [Hb1 Hnd]. apply NoDup_cons in Hnd as [_ Hnd].
  rewrite list_elem_of_In in Hb1. cbn in Hb1.
  constructor; [|apply IH; exact Hnd].
  rewrite list_elem_of_In, in_map_iff. intros (b & Heq & Hb).
  apply Hb1. right. rewrite <- Heq. apply (level_textures_in L b Hb).
Qed.

Lemma bloomDownsample_drawn (T : list (FBO F)) (previous : FBO F)
    (rest : list (BloomLevel F)) e e' :
  (forall level, In level rest -> In (buffer level) T) ->
  NoDup (texture previous :: map (fun l => texture (buffer l)) rest) ->
  bloomDownsample previous rest e = Ok (tt, e') -> drawn T e e'.
Proof.
  revert previous e. induction rest as [|level rest IH]; intros previous e Hin Hnd Hr.
  - cbn in Hr. unfold ret in Hr. revert Hr. intros [= <-]. apply drawn_done.
  - cbn [bloomDownsample] in Hr. unfold copyTexture in Hr. blit_step Hr.
    cbn [map] in Hnd. apply NoDup_cons in Hnd as [Hp Hnd].
    rewrite list_elem_of_In in Hp.
    assert (Hrest : drawn T (draw_to (buffer level) (DrawCopy (texture previous)) e) e').
    { eapply IH; [|exact Hnd|exact Hr]. intros l Hl. apply Hin. right. exact Hl. }
    eapply drawn_target; [| |exact Hrest].
    + apply Hin. left. reflexivity.
    + intros [Heq|[]]. apply Hp. left. symmetry. exact Heq.
Qed.

Lemma bloomBlur_drawn (T : list (FBO F)) (levels : list (BloomLevel F)) e e' :
  (forall level, In level levels ->
     In (buffer level) T /\ In (temp level) T /\
     texture (temp level) <> texture (buffer level)) ->
  bloomBlur levels e = Ok (tt, e') -> drawn T e e'.
Proof.
  revert e. induction levels as [|level rest IH]; intros e Hin Hr.
  - cbn in Hr. unfold ret in Hr. revert Hr. intros [= <-]. apply drawn_done.
  - cbn [bloomBlur] in Hr. blit_step Hr. blit_step Hr.
    destruct (Hin level (or_introl eq_refl)) as (Hb & Ht & Hne).
    eapply IH in Hr; [|intros l Hl; apply Hin; right; exact Hl].
    eapply drawn_target; [| |eapply drawn_target; [| |exact Hr]].
    + exact Ht.
    + intros [Heq|[]]. apply Hne. symmetry. exact Heq.
    + exact Hb.
    + intros [Heq|[]]. apply Hne. exact Heq.
Qed.

Lemma bloomCombine_drawn (T : list (FBO F)) (levels : list (BloomLevel F))
    (current : handle) e t e' :
  (forall a, In a levels ->
     In (buffer a) T /\ In (temp a) T /\ texture (temp a) <> current /\
     forall b, In b levels -> texture (temp a) <> texture (buffer b)) ->
  bloomCombine levels current e = Ok (t, e') -> drawn T e e'.
Proof.
  revert current e. induction levels as [|level rest IH]; intros current e Hin Hr.
  - cbn in Hr. ret_inv Hr. apply drawn_done.
  - cbn [bloomCombine] in Hr. unfold copyTexture in Hr. blit_step Hr. blit_step Hr.
    destruct (Hin level (or_introl eq_refl)) as (Hb & Ht & Hcur & Hne).
    pose proof (Hne level (or_introl eq_refl)) as Hself.
    eapply IH in Hr.
    2:{ intros a Ha.
        destruct (Hin a (or_intror Ha)) as (Hba & Hta & _ & Hnea).
        split; [exact Hba|]. split; [exact Hta|]. split.
        - apply Hnea. left. reflexivity.
        - intros b Hb'. apply Hnea. right. exact Hb'. }
    eapply drawn_target; [| |eapply drawn_target; [| |exact Hr]].
    + exact Ht.
    + intros [Heq|[Heq|[]]]; [apply Hself|apply Hcur]; symmetry; exact Heq.
    + exact Hb.
    + intros [Heq|[]]. apply Hself. exact Heq.
Qed.

Lemma In_last {A} (l : list A) (x : A) : l <> [] -> In (List.last l x) l.
Proof.
  induction l as [|a l IH]; [congruence|]. intros _.
  destruct l as [|b l]; [left; reflexivity|].
  right. apply IH. discriminate.
Qed.

Lemma _runBloom_drawn (s : FluidSimulation F) e t e' :
  well_kept s -> _runBloom s e = Ok (t, e') -> drawn (targets s) e e'.
Proof.
  intros Hk Hr. open_sim s Hk. unfold _runBloom in Hr. cbn in Hr.
  destruct B as [|first rest].
  { pass_steps Hr. ret_inv Hr. apply drawn_done. }
  pass_steps Hr.
  bind_inv_as Hr u1 e1 H1. destruct u1.
  bind_inv_as Hr u2 e2 H2. destruct u2.
  bind_inv_as Hr t3 e3 H3. ret_inv Hr.
  set (L := first :: rest) in *.
  set (T := targets _).
  assert (HndL : NoDup (map texture (flat_map level_targets L))).
  { do 8 (apply NoDup_cons in Hnd as [_ Hnd]). exact Hnd. }
  assert (HinT : forall level, In level L ->
                   In (buffer level) T /\ In (temp level) T).
  { intros level Hl. unfold T, targets. cbn [framebuffers velocity density pressure
      divergence curl bloom double_targets single_targets].
    split; do 5 (apply in_or_app; right); apply in_flat_map; exists level;
      (split; [exact Hl|cbn; auto]). }
  eapply drawn_trans.
  2:{ eapply drawn_trans.
      { eapply bloomDownsample_drawn; [| |exact H1].
        - intros level Hl. apply HinT. right. exact Hl.
        - apply (buffers_NoDup L HndL). }
      eapply drawn_trans.
      { eapply bloomBlur_drawn; [|exact H2]. intros level Hl.
        destruct (HinT level Hl) as [Hb Ht]. split; [exact Hb|]. split; [exact Ht|].
        apply (temp_buffer_apart L); assumption. }
      eapply bloomCombine_drawn; [|exact H3]. intros a Ha.
      apply in_rev in Ha. apply In_removelast in Ha.
      destruct (HinT a Ha) as [Hb Ht]. split; [exact Hb|]. split; [exact Ht|]. split.
      - apply (temp_buffer_apart L); [exact HndL|exact Ha|].
        apply In_last. discriminate.
      - intros b Hb'. apply in_rev in Hb'. apply In_removelast in Hb'.
        apply (temp_buffer_apart L); assumption. }
  apply drawn_pass; [apply (HinT first); left; reflexivity|].
  intros [Heq|[]]. revert Heq. apart Hnd 2%nat 8%nat.
Qed.

Lemma render_drawn (s : FluidSimulation F) e e' :
  well_kept s -> render s e = Ok (tt, e') -> drawn (targets s) e e'.
Proof.
  intros Hk Hr. unfold render in Hr.
  bind_inv_as Hr bt e1 H1.
  assert (Hd1 : drawn (targets s) e e1).
  { destruct (andb _ _).
    - bind_inv_as H1 t e2 H2. ret_inv H1. eapply _runBloom_drawn; eassumption.
    - ret_inv H1. apply drawn_done. }
  eapply drawn_trans; [exact Hd1|].
  destruct Hk as [([v Hv] & [d Hd] & _) _]. rewrite Hd in Hr. cbn [deref] in Hr.
  deref_step Hr. apply blit_ok in Hr. destruct Hr as [_ Hr]. cbn [snd] in Hr. subst e'.
  eapply drawn_canvas. apply drawn_done.
Qed.
End TrackedRender.

Section InUse.
Context {F : Type} `{Scalar F}.

Lemma in_use_reachable (e0 : Env F) (s : FluidSimulation F) (e : Env F) :
  in_use e0 s e -> reachable s e.
Proof.
  induction 1.
  - eapply reach_constructor; eassumption.
  - eapply reach_resize; eassumption.
  - eapply reach_step; eassumption.
  - eapply reach_render; eassumption.
  - apply reach_updateConfig; assumption.
Qed.

Lemma owns_well_kept (e0 : Env F) (s : FluidSimulation F) (e : Env F) :
  allocated s -> owns e0 (targets s) e -> well_kept s.
Proof. intros Ha Ho. split; [exact Ha|apply Ho]. Qed.

Lemma in_use_kept (e0 : Env F) (s : FluidSimulation F) (e : Env F) :
  fresh_above e0 -> in_use e0 s e -> allocated s /\ owns e0 (targets s) e.
Proof.
  intros Hfresh Hu.
  split; [exact (proj1 (reachable_sized s e (in_use_reachable e0 s e Hu)))|].
  induction Hu as [config this e Hc| w h this e this' e' Hu IH Hr
                  | dt ps ps' this e this' e' Hu IH Hr| this e e' Hu IH Hr
                  | partial this e Hu IH].
  - eapply owns_constructor; eassumption.
  - eapply owns_resize; eassumption.
  - pose proof (proj1 (reachable_sized _ _ (in_use_reachable _ _ _ Hu))) as Ha.
    destruct (step_tracked _ _ _ _ _ _ _ (owns_well_kept _ _ _ Ha IH) Hr)
      as (_ & Hp & Hd).
    eapply owns_perm; [symmetry; exact Hp|].
    eapply owns_drawn; eassumption.
  - pose proof (proj1 (reachable_sized _ _ (in_use_reachable _ _ _ Hu))) as Ha.
    eapply owns_drawn; [exact IH|].
    eapply render_drawn; [|exact Hr]. eapply owns_well_kept; eassumption.
  - exact IH.
Qed.

Lemma deleteLevels_total (L : list (BloomLevel F)) (e : Env F) :
  exists e', deleteLevels L e = Ok (tt, e').
Proof.
  revert e. induction L as [|level L IH]; intros e; cbn [deleteLevels].
  - eexists. reflexivity.
  - unfold deleteFBO at 1 2. unfold bind at 1 2 3 4, get_env, put_env. cbn.
    apply IH.
Qed.

Lemma dispose_total (s : FluidSimulation F) (e : Env F) :
  exists e', dispose s e =
             Ok (with_framebuffers s (with_bloom (framebuffers s) []), e').
Proof.
  unfold dispose.
  assert (Hdd : forall (o : option (DoubleFBO F)) (e1 : Env F),
            exists e2, deleteDouble o e1 = Ok (tt, e2)).
  { intros [v|] e1; cbn; eexists; reflexivity. }
  assert (Hds : forall (o : option (FBO F)) (e1 : Env F),
            exists e2, deleteFBO o e1 = Ok (tt, e2)).
  { intros [v|] e1; cbn; eexists; reflexivity. }
  destruct (Hdd (velocity (framebuffers s)) e) as (e1 & H1).
  destruct (Hdd (density (framebuffers s)) e1) as (e2 & H2).
  destruct (Hdd (pressure (framebuffers s)) e2) as (e3 & H3).
  destruct (Hds (divergence (framebuffers s)) e3) as (e4 & H4).
  destruct (Hds (curl (framebuffers s)) e4) as (e5 & H5).
  destruct (deleteLevels_total (bloom (framebuffers s)) e5) as (e6 & H6).
  exists e6.
  rewrite (bind_run _ _ _ _ _ H1), (bind_run _ _ _ _ _ H2), (bind_run _ _ _ _ _ H3),
    (bind_run _ _ _ _ _ H4), (bind_run _ _ _ _ _ H5), (bind_run _ _ _ _ _ H6).
  reflexivity.
Qed.

Lemma owns_deleteDouble (e0 : Env F) (v : DoubleFBO F) (R : list (FBO F)) e e' :
  fresh_above e0 ->
  owns e0 (double_targets (Some v) ++ R) e ->
  deleteDouble (Some v) e = Ok (tt, e') -> owns e0 R e'.
Proof.
  intros Hfresh Ho Hr. cbn [deleteDouble] in Hr. cbn in Ho.
  bind_inv_as Hr u e1 H1. destruct u.
  pose proof (owns_deleteFBO e0 _ _ _ _ Hfresh Ho H1) as Ho1.
  exact (owns_deleteFBO e0 _ _ _ _ Hfresh Ho1 Hr).
Qed.

Lemma owns_dispose (e0 : Env F) (s : FluidSimulation F) e s' e' :
  fresh_above e0 -> allocated s -> owns e0 (targets s) e ->
  dispose s e = Ok (s', e') -> owns e0 [] e'.
Proof.
  intros Hfresh Ha Ho Hr. unfold dispose in Hr.
  destruct Ha as ([v Hv] & [d Hd] & [p Hp] & [dv Hdv] & [c Hc]).
  unfold targets in Ho. rewrite Hv, Hd, Hp, Hdv, Hc in Ho, Hr.
  bind_inv_as Hr u1 e1 H1. bind_inv_as Hr u2 e2 H2. bind_inv_as Hr u3 e3 H3.
  bind_inv_as Hr u4 e4 H4. bind_inv_as Hr u5 e5 H5. bind_inv_as Hr u6 e6 H6.
  ret_inv Hr. destruct u1, u2, u3, u4, u5, u6.
  pose proof (owns_deleteDouble e0 _ _ _ _ Hfresh Ho H1) as Ho1.
  pose proof (owns_deleteDouble e0 _ _ _ _ Hfresh Ho1 H2) as Ho2.
  pose proof (owns_deleteDouble e0 _ _ _ _ Hfresh Ho2 H3) as Ho3.
  cbn [single_targets app] in Ho3.
  pose proof (owns_deleteFBO e0 _ _ _ _ Hfresh Ho3 H4) as Ho4.
  pose proof (owns_deleteFBO e0 _ _ _ _ Hfresh Ho4 H5) as Ho5.
  eapply (owns_deleteLevels e0 _ [] _ _ Hfresh); [|exact H6].
  rewrite app_nil_r. exact Ho5.
Qed.

(* the passes a run logs: each draws into a render target of the object
   that is attached as the object says, and samples no texture that is
   the attachment of its own target *)
Lemma owns_drawn_log (e0 : Env F) (T : list (FBO F)) (e e' : Env F) :
  owns e0 T e -> drawn T e e' ->
  exists new,
    draw_log e' = draw_log e ++ new /\
    Forall (fun pass =>
              match fst pass with
              | Some f => exists t, In t T /\ f = fbo t /\
                                    fbos e !! f = Some (texture t) /\
                                    ~ In (texture t) (inputs (snd pass))
              | None => True
              end) new.
Proof.
  intros Ho Hd. destruct (drawn_log T e e' Hd) as (_ & new & Hlog & Hall).
  exists new. split; [exact Hlog|].
  eapply Forall_impl; [exact Hall|]. intros [[f|] d]; cbn; [|auto].
  intros (t & Hin & -> & Hno). exists t. repeat split; try assumption.
  destruct Ho as (_ & _ & Hb & _). rewrite List.Forall_forall in Hb.
  apply (Hb t Hin).
Qed.
End InUse.

Lemma sample_env0_fresh : fresh_above sample_env0.
Proof. intros n _. split; reflexivity. Qed.

Lemma sample_in_use : in_use sample_env0 sample_sim sample_env.
Proof. exact (use_constructor _ _ _ _ constructor_sample). Qed.

(** X11: while a simulation is in use (constructed, then resized,
    stepped, rendered and reconfigured in any order) its render targets
    and the store agree: no two render targets share a texture or a
    framebuffer name; every render target is in the store, its
    framebuffer attached to its texture, and the texture has the width,
    height and format that the object records; and the store holds no
    other object that was not there before the constructor ran, so the
    bloom levels a resize replaces are not left behind. *)
Theorem in_use_owns_targets {F : Type} `{Scalar F}
    (e0 : Env F) (this : FluidSimulation F) (e : Env F) :
  fresh_above e0 ->
  in_use e0 this e ->
  owns e0 (targets this) e.
Proof.
  intros Hfresh Hu. exact (proj2 (in_use_kept e0 this e Hfresh Hu)).
Qed.

Lemma in_use_owns_targets_witness : owns sample_env0 (targets sample_sim) sample_env.
Proof.
  exact (in_use_owns_targets sample_env0 sample_sim sample_env
           sample_env0_fresh sample_in_use).
Defined.

(** X12: [dispose] never throws, and on a simulation in use it gives
    back what the simulation allocated: afterwards the textures and the
    framebuffers of the store are exactly those from before the
    constructor ran.  The bloom list is emptied; the five fields keep
    their (now deleted) render targets. *)
Theorem dispose_releases {F : Type} `{Scalar F}
    (e0 : Env F) (this : FluidSimulation F) (e : Env F) :
  fresh_above e0 ->
  in_use e0 this e ->
  exists e',
    dispose this e =
      Ok (with_framebuffers this (with_bloom (framebuffers this) []), e') /\
    textures e' = textures e0 /\
    fbos e' = fbos e0.
Proof.
  intros Hfresh Hu. destruct (in_use_kept e0 this e Hfresh Hu) as [Ha Ho].
  destruct (dispose_total this e) as (e' & Hr). exists e'. split; [exact Hr|].
  destruct (owns_dispose e0 this e _ e' Hfresh Ha Ho Hr)
    as (_ & _ & _ & _ & _ & Ht & Hf).
  split; apply map_eq; intros n; [apply Ht|apply Hf]; intros [].
Qed.

Lemma dispose_releases_witness :
  exists e',
    dispose sample_sim sample_env =
      Ok (with_framebuffers sample_sim (with_bloom (framebuffers sample_sim) []), e') /\
    textures e' = ∅ /\ fbos e' = ∅.
Proof.
  exact (dispose_releases sample_env0 sample_sim sample_env
           sample_env0_fresh sample_in_use).
Defined.

(** X13: no pass of a tick reads what it writes.  On a simulation in use,
    every draw call a tick logs is bound to the framebuffer of one of the
    render targets of the object, that framebuffer has the target's own
    texture attached, and this texture is none of the textures bound to
    the sampler uniforms of the call. *)
Theorem step_no_feedback {F : Type} `{Scalar F}
    (e0 : Env F) (deltaTime : F) (pointers pointers' : list (Pointer F))
    (this this' : FluidSimulation F) (e e' : Env F) :
  fresh_above e0 ->
  in_use e0 this e ->
  step deltaTime pointers this e = Ok ((pointers', this'), e') ->
  exists new,
    draw_log e' = draw_log e ++ new /\
    Forall (fun pass =>
              match fst pass with
              | Some f => exists t, In t (targets this) /\ f = fbo t /\
                                    fbos e !! f = Some (texture t) /\
                                    ~ In (texture t) (inputs (snd pass))
              | None => True
              end) new.
Proof.
  intros Hfresh Hu Hr. destruct (in_use_kept e0 this e Hfresh Hu) as [Ha Ho].
  destruct (step_tracked _ _ _ _ _ _ _ (owns_well_kept _ _ _ Ha Ho) Hr)
    as (_ & _ & Hd).
  exact (owns_drawn_log e0 _ e e' Ho Hd).
Qed.

(** X14: the same for [render]: the passes of the bloom chain are bound
    to render targets of the object and none samples the texture it draws
    into; the only other pass is the one onto the canvas. *)
Theorem render_no_feedback {F : Type} `{Scalar F}
    (e0 : Env F) (this : FluidSimulation F) (e e' : Env F) :
  fresh_above e0 ->
  in_use e0 this e ->
  render this e = Ok (tt, e') ->
  exists new,
    draw_log e' = draw_log e ++ new /\
    Forall (fun pass =>
              match fst pass with
              | Some f => exists t, In t (targets this) /\ f = fbo t /\
                                    fbos e !! f = Some (texture t) /\
                                    ~ In (texture t) (inputs (snd pass))
              | None => True
              end) new.
Proof.
  intros Hfresh Hu Hr. destruct (in_use_kept e0 this e Hfresh Hu) as [Ha Ho].
  pose proof (render_drawn _ _ _ (owns_well_kept _ _ _ Ha Ho) Hr) as Hd.
  exact (owns_drawn_log e0 _ e e' Ho Hd).
Qed.

Lemma render_total {F : Type} `{Scalar F}
    (this : FluidSimulation F) (d : DoubleFBO F) (e : Env F) (q : handle) :
  density (framebuffers this) = Some d ->
  quadVAO e = Some q ->
  exists e', render this e = Ok (tt, e').
Proof.
  intros Hd Hq. unfold render.
  destruct (andb _ _).
  - destruct (_runBloom_run this d e q Hd Hq) as (e1 & Hrun & Hq1).
    erewrite bind_run by (rewrite (bind_run _ _ _ _ _ Hrun); reflexivity).
    rewrite Hd. cbn [deref]. rewrite (bind_run _ _ e1 e1 d eq_refl).
    rewrite (blit_run _ _ _ q Hq1). eexists. reflexivity.
  - rewrite (bind_run _ _ e e None eq_refl).
    rewrite Hd. cbn [deref]. rewrite (bind_run _ _ e e d eq_refl).
    rewrite (blit_run _ _ _ q Hq). eexists. reflexivity.
Qed.

Lemma step_no_feedback_witness :
  exists pointers' this' e' new,
    step (lit 0.016) [sample_pointer; still_pointer] sample_sim sample_env
    = Ok ((pointers', this'), e') /\
    draw_log e' = draw_log sample_env ++ new /\
    Forall (fun pass =>
              match fst pass with
              | Some f => exists t, In t (targets sample_sim) /\ f = fbo t /\
                                    fbos sample_env !! f = Some (texture t) /\
                                    ~ In (texture t) (inputs (snd pass))
              | None => True
              end) new.
Proof.
  destruct (step_total (lit 0.016) [sample_pointer; still_pointer] sample_sim
              sample_env 0%nat sample_allocated eq_refl)
    as (ps' & this' & e' & Hrun & _ & _).
  destruct (step_no_feedback sample_env0 (lit 0.016) [sample_pointer; still_pointer]
              ps' sample_sim this' sample_env e' sample_env0_fresh sample_in_use Hrun)
    as (new & Hlog & Hall).
  exists ps', this', e', new. split; [exact Hrun|]. split; [exact Hlog|exact Hall].
Defined.

Lemma render_no_feedback_witness :
  exists e' new,
    render sample_sim sample_env = Ok (tt, e') /\
    draw_log e' = draw_log sample_env ++ new /\
    Forall (fun pass =>
              match fst pass with
              | Some f => exists t, In t (targets sample_sim) /\ f = fbo t /\
                                    fbos sample_env !! f = Some (texture t) /\
                                    ~ In (texture t) (inputs (snd pass))
              | None => True
              end) new.
Proof.
  destruct (render_total sample_sim
              (MkDoubleFBO (sample_fbo 6%nat 2 2 RGBA16F RGBA)
                 (sample_fbo 8%nat 2 2 RGBA16F RGBA))
              sample_env 0%nat eq_refl eq_refl) as (e' & Hrun).
  destruct (render_no_feedback sample_env0 sample_sim sample_env e'
              sample_env0_fresh sample_in_use Hrun) as (new & Hlog & Hall).
  exists e', new. split; [exact Hrun|]. split; [exact Hlog|exact Hall].
Defined.

(** ** Pointer events *)

Section UiFacts.
Context {F : Type} `{Scalar F}.

Lemma Map_get_set (key : Z) (value : Pointer F) (m : list (Z * Pointer F)) :
  Map_get key (Map_set key value m) = Some value.
Proof.
  induction m as [|[k v] m IH]; cbn.
  - rewrite Z.eqb_refl. reflexivity.
  - destruct (k =? key)%Z eqn:Hk; cbn; [rewrite Z.eqb_refl|rewrite Hk]; auto.
Qed.

Lemma Map_set_set (key : Z) (v1 v2 : Pointer F) (m : list (Z * Pointer F)) :
  Map_set key v2 (Map_set key v1 m) = Map_set key v2 m.
Proof.
  induction m as [|[k v] m IH]; cbn.
  - rewrite Z.eqb_refl. reflexivity.
  - destruct (k =? key)%Z eqn:Hk; cbn; [rewrite Z.eqb_refl|rewrite Hk, IH]; auto.
Qed.

Lemma Map_get_None (key : Z) (m : list (Z * Pointer F)) :
  Map_get key m = None <-> ~ In key (map fst m).
Proof.
  induction m as [|[k v] m IH]; cbn; [tauto|].
  destruct (k =? key)%Z eqn:Hk.
  - apply Z.eqb_eq in Hk. split; [discriminate|]. intros Hn. exfalso. auto.
  - apply Z.eqb_neq in Hk. rewrite IH. tauto.
Qed.

Lemma Map_set_keys (key : Z) (value : Pointer F) (m : list (Z * Pointer F)) :
  map fst (Map_set key value m) =
  match Map_get key m with
  | Some _ => map fst m
  | None => map fst m ++ [key]
  end.
Proof.
  induction m as [|[k v] m IH]; cbn; [reflexivity|].
  destruct (k =? key)%Z eqn:Hk; cbn.
  - apply Z.eqb_eq in Hk. subst. reflexivity.
  - rewrite IH. destruct (Map_get key m); reflexivity.
Qed.

Lemma Map_set_Forall (P : Z * Pointer F -> Prop) key value (m : list (Z * Pointer F)) :
  P (key, value) -> Forall P m -> Forall P (Map_set key value m).
Proof.
  intros Hp. induction 1 as [|[k v] m Hx Hm IH]; cbn.
  - constructor; [exact Hp|constructor].
  - destruct (k =? key)%Z; constructor; assumption.
Qed.

Lemma Map_get_Forall (P : Z * Pointer F -> Prop) key value (m : list (Z * Pointer F)) :
  Forall P m -> Map_get key m = Some value -> P (key, value).
Proof.
  induction 1 as [|[k v] m Hx _ IH]; cbn; [discriminate|].
  destruct (k =? key)%Z eqn:Hk.
  - apply Z.eqb_eq in Hk. intros [= <-]. subst. exact Hx.
  - exact IH.
Qed.

Lemma pointers_ok_set key value (m : list (Z * Pointer F)) :
  pid value = key -> down value = true ->
  pointers_ok m -> pointers_ok (Map_set key value m).
Proof.
  intros Hid Hdn [Hnd Hall]. split.
  - rewrite Map_set_keys. destruct (Map_get key m) eqn:Hg; [exact Hnd|].
    apply Map_get_None in Hg.
    apply NoDup_app. split; [exact Hnd|]. split.
    + intros x Hx [->|[]]%list_elem_of_In. apply Hg. apply list_elem_of_In. exact Hx.
    + apply NoDup_singleton.
  - apply Map_set_Forall; [split; assumption|exact Hall].
Qed.

Lemma pointers_ok_delete key (m : list (Z * Pointer F)) :
  pointers_ok m ->
  pointers_ok (Map_delete key m) /\ Map_get key (Map_delete key m) = None.
Proof.
  intros [Hnd Hall]. induction m as [|[k v] m IH]; cbn.
  - split; [split; constructor|reflexivity].
  - cbn in Hnd. apply NoDup_cons in Hnd as [Hk Hnd].
    apply Forall_cons in Hall as [Hv Hall].
    destruct (IH Hnd Hall) as [[Hnd' Hall'] Hget].
    destruct (k =? key)%Z eqn:Hkey.
    + apply Z.eqb_eq in Hkey. subst. split; [split; assumption|].
      apply Map_get_None. rewrite <- list_elem_of_In. exact Hk.
    + cbn. rewrite Hkey. split; [|exact Hget]. split.
      * cbn. apply NoDup_cons. split; [|exact Hnd'].
        rewrite list_elem_of_In in Hk |- *. intros Hin. apply Hk.
        clear -Hin. induction m as [|[k' v'] m IH]; cbn in *; [contradiction|].
        destruct (k' =? key)%Z; cbn in *; [right; exact Hin|].
        destruct Hin as [->|Hin]; [left; reflexivity|right; auto].
      * constructor; assumption.
Qed.

Lemma createPointer_run (id : Z) (e : Env F) :
  exists c e',
    randomColor e = Ok (c, e') /\
    createPointer id e =
    Ok (MkPointer id false false (V2 (lit 0) (lit 0)) (V2 (lit 0) (lit 0))
          (V2 (lit 0) (lit 0)) c, e').
Proof.
  destruct (randomColor_run e) as (c & e' & Hc & _). exists c, e'.
  split; [exact Hc|]. unfold createPointer.
  rewrite (bind_run _ _ _ _ _ Hc). reflexivity.
Qed.

Lemma onPointerDown_run (event : PointerEvent F) (rect : DOMRect F)
    (m : list (Z * Pointer F)) (e : Env F) :
  button event = None \/ button event = Some 0 ->
  exists c e',
    randomColor e = Ok (c, e') /\
    onPointerDown event rect m e =
    Ok (Map_set (pointerId event)
          (MkPointer (pointerId event) true false
             (getNormalizedPointer event rect) (V2 (lit 0) (lit 0))
             (V2 (vx (getNormalizedPointer event rect) - lit 0)%fl
                 (vy (getNormalizedPointer event rect) - lit 0)%fl) c) m, e').
Proof.
  intros Hb. destruct (createPointer_run (pointerId event) e) as (c & e' & Hc & Hp).
  exists c, e'. split; [exact Hc|]. unfold onPointerDown.
  replace (negb _) with false by (destruct Hb as [-> | ->]; reflexivity).
  rewrite (bind_run _ _ _ _ _ Hp). reflexivity.
Qed.

Lemma step_pointers_after dt (pointers : list (Pointer F)) s e pointers' s' e' :
  step dt pointers s e = Ok ((pointers', s'), e') ->
  Forall2 (fun p p' => pid p' = pid p /\ down p' = down p) pointers pointers'.
Proof.
  intros Hr. destruct (paused (config s)) eqn:Hp.
  - unfold step in Hr. rewrite Hp in Hr. unfold ret in Hr.
    revert Hr. intros [= <- <- <-].
    induction pointers; constructor; auto.
  - destruct (step_applyPointers _ _ _ _ _ _ _ Hp Hr) as (rc & s0 & s1 & e1 & _ & Ha).
    pose proof (applyPointers_pointers _ _ _ _ _ _ _ Ha) as Hall.
    eapply Forall2_impl; [exact Hall|]. intros p p' (Hid & Hdn & _). auto.
Qed.

Lemma pointers_ok_combine (m : list (Z * Pointer F)) (ps : list (Pointer F)) :
  Forall2 (fun p p' => pid p' = pid p /\ down p' = down p) (map snd m) ps ->
  pointers_ok m -> pointers_ok (combine (map fst m) ps).
Proof.
  revert ps. induction m as [|[k v] m IH]; intros ps Hall [Hnd Hok]; cbn in *.
  - split; constructor.
  - inversion Hall as [|p p' l l' [Hid Hdn] Hrest]; subst.
    apply NoDup_cons in Hnd as [Hk Hnd]. apply Forall_cons in Hok as [[Hv Hd] Hok].
    destruct (IH _ Hrest (conj Hnd Hok)) as [Hnd' Hok']. cbn in *.
    assert (Hkeys : map fst (combine (map fst m) l') = map fst m).
    { clear -Hrest. revert l' Hrest. induction m as [|[k v] m IH]; intros l' Hrest.
      - reflexivity.
      - cbn in *. inversion Hrest; subst. cbn. f_equal. apply IH. assumption. }
    split.
    + cbn. apply NoDup_cons. split; [rewrite Hkeys; exact Hk|exact Hnd'].
    + constructor; [cbn; split; congruence|exact Hok'].
Qed.
End UiFacts.

(** X15: a press files a new pointer object under the id of the event:
    it is down, not moved, sits at the normalised position of the press
    and takes a fresh random colour (three calls of [Math.random]), so the
    press by itself splats nothing.  The first move of that pointer then
    marks it moved, with the press position as previous position and the
    difference of the two normalised positions as delta; it replaces the
    object under the same id, and no other entry of the Map changes. *)
Theorem press_then_move {F : Type} `{Scalar F}
    (press move : PointerEvent F) (rect1 rect2 : DOMRect F)
    (pointers : list (Z * Pointer F)) (e : Env F) :
  button press = None \/ button press = Some 0 ->
  pointerId move = pointerId press ->
  let id := pointerId press in
  let a := getNormalizedPointer press rect1 in
  let b := getNormalizedPointer move rect2 in
  exists c e' pressed,
    randomColor e = Ok (c, e') /\
    onPointerDown press rect1 pointers e = Ok (Map_set id pressed pointers, e') /\
    (pid pressed = id /\ down pressed = true /\ moved pressed = false /\
     position pressed = a /\ color pressed = c) /\
    splatted pressed = false /\
    onPointerMove move rect2 (Map_set id pressed pointers) =
    Map_set id
      (MkPointer id true true b a (V2 (vx b - vx a)%fl (vy b - vy a)%fl) c)
      pointers.
Proof.
  intros Hb Hid id a b.
  destruct (onPointerDown_run press rect1 pointers e Hb) as (c & e' & Hc & Hrun).
  exists c, e'. eexists. split; [exact Hc|]. split; [exact Hrun|].
  split; [repeat split|]. split; [reflexivity|].
  unfold onPointerMove. rewrite Hid. fold id. rewrite Map_get_set.
  unfold updatePointerCoordinates. cbn. rewrite Map_set_set. reflexivity.
Qed.

Lemma press_then_move_witness :
  exists c e' pressed,
    randomColor sample_env = Ok (c, e') /\
    onPointerDown sample_press sample_rect sample_pointers sample_env
    = Ok (Map_set 7 pressed sample_pointers, e') /\
    splatted pressed = false /\
    onPointerMove sample_move sample_rect (Map_set 7 pressed sample_pointers) =
    Map_set 7
      (MkPointer 7 true true (getNormalizedPointer sample_move sample_rect)
         (getNormalizedPointer sample_press sample_rect)
         (V2 (vx (getNormalizedPointer sample_move sample_rect)
              - vx (getNormalizedPointer sample_press sample_rect))%R
             (vy (getNormalizedPointer sample_move sample_rect)
              - vy (getNormalizedPointer sample_press sample_rect))%R) c)
      sample_pointers.
Proof.
  destruct (press_then_move sample_press sample_move sample_rect sample_rect
              sample_pointers sample_env (or_intror eq_refl) eq_refl)
    as (c & e' & pressed & Hc & Hrun & _ & Hs & Hmove).
  exists c, e', pressed. repeat split; assumption.
Defined.

(** X16: the pointer handlers and the frame keep the Map of pointers in
    order: the ids are pairwise distinct, and every pointer object is
    filed under its own id and is down.  A pointer that goes up leaves the
    Map.  So every pointer object that [frame] hands to [step] is down:
    releasing a pointer can never splat. *)
Theorem pointers_ok_kept {F : Type} `{Scalar F} (pointers : list (Z * Pointer F)) :
  pointers_ok pointers ->
  (forall event rect e pointers' e',
      onPointerDown event rect pointers e = Ok (pointers', e') ->
      pointers_ok pointers') /\
  (forall event rect, pointers_ok (onPointerMove event rect pointers)) /\
  (forall event,
      pointers_ok (onPointerUp event pointers) /\
      Map_get (pointerId event) (onPointerUp event pointers) = None) /\
  (forall now this last e app' e',
      frame now (MkApp this pointers last) e = Ok (app', e') ->
      pointers_ok (ui_pointers app') /\
      Forall (fun p => down p = true) (getPointers pointers)).
Proof.
  intros Hok. split; [|split; [|split]].
  - intros event rect e pointers' e'. unfold onPointerDown.
    destruct (negb _).
    + unfold ret. intros [= <- <-]. exact Hok.
    + intros Hr. bind_inv_as Hr p e1 Hp. ret_inv Hr.
      destruct (createPointer_run (pointerId event) e) as (c & e2 & _ & Hp').
      rewrite Hp' in Hp. revert Hp. intros [= <- <-].
      apply pointers_ok_set; [reflexivity|reflexivity|exact Hok].
  - intros event rect. unfold onPointerMove.
    destruct (Map_get (pointerId event) pointers) as [p|] eqn:Hg; [|exact Hok].
    destruct (Map_get_Forall _ _ _ _ (proj2 Hok) Hg) as [Hid Hdn]. cbn in Hid, Hdn.
    apply pointers_ok_set; [exact Hid|exact Hdn|exact Hok].
  - intros event. unfold onPointerUp.
    destruct (Map_get (pointerId event) pointers) as [p|] eqn:Hg.
    + apply pointers_ok_delete. exact Hok.
    + split; [exact Hok|exact Hg].
  - intros now this last e app' e' Hr. unfold frame in Hr. cbn in Hr.
    bind_inv_as Hr r e1 Hstep. destruct r as [ps' s']. cbn in Hr.
    bind_inv_as Hr u e2 Hrender. ret_inv Hr. cbn. split.
    + apply pointers_ok_combine; [|exact Hok].
      eapply step_pointers_after. exact Hstep.
    + unfold getPointers. apply Forall_map.
      eapply Forall_impl; [exact (proj2 Hok)|]. intros entry [_ Hdn]. exact Hdn.
Qed.

Lemma pointers_ok_kept_witness :
  pointers_ok (onPointerMove sample_move sample_rect sample_pointers) /\
  Map_get 1 (onPointerUp (MkPointerEvent None 1 0%R 0%R) sample_pointers) = None.
Proof.
  assert (Hok : pointers_ok sample_pointers).
  { split; [apply NoDup_singleton|].
    constructor; [split; reflexivity|constructor]. }
  destruct (pointers_ok_kept sample_pointers Hok) as (_ & Hmove & Hup & _).
  split; [apply Hmove|apply (Hup (MkPointerEvent None 1 0%R 0%R))].
Defined.

(** ** Over the real numbers *)

Lemma lit_R_zero : lit (F := R) 0.0 = 0%R.
Proof. simpl. unfold Q2R. simpl. lra. Qed.

Lemma clamp_unit_R (x : R) :
  (0 <= clamp x (lit 0.0) (lit 1.0) <= 1)%R /\
  ((0 <= x <= 1)%R -> clamp x (lit 0.0) (lit 1.0) = x).
Proof.
  unfold clamp. rewrite lit_R_zero, lit_R_one. cbn.
  unfold Rmax, Rmin. destruct (Rle_dec 1 x); destruct (Rle_dec 0 _); split; lra.
Qed.

(** X17: over the real numbers [getNormalizedPointer] maps the bounding
    rectangle of the canvas onto the unit square with the y axis pointing
    up: an event inside the rectangle goes to
    ((clientX - left) / width, 1 - (clientY - top) / height), and every
    event, inside or not, goes to a point of the unit square. *)
Theorem getNormalizedPointer_unit_square (event : PointerEvent R) (rect : DOMRect R) :
  (0 < rect_width rect)%R ->
  (0 < rect_height rect)%R ->
  let p := getNormalizedPointer event rect in
  ((0 <= vx p <= 1)%R /\ (0 <= vy p <= 1)%R) /\
  ((rect_left rect <= clientX event <= rect_left rect + rect_width rect)%R ->
   (rect_top rect <= clientY event <= rect_top rect + rect_height rect)%R ->
   vx p = ((clientX event - rect_left rect) / rect_width rect)%R /\
   vy p = (1 - (clientY event - rect_top rect) / rect_height rect)%R).
Proof.
  intros Hw Hh p. unfold p, getNormalizedPointer. cbn [vx vy]. split.
  - split; apply clamp_unit_R.
  - intros Hx Hy. split.
    + apply clamp_unit_R. cbn. split.
      * apply Rmult_le_pos; [lra|]. apply Rlt_le, Rinv_0_lt_compat. exact Hw.
      * apply (Rmult_le_reg_r (rect_width rect)); [exact Hw|].
        unfold Rdiv. rewrite Rmult_assoc, Rinv_l by lra. lra.
    + rewrite lit_R_one. cbn.
      assert (Hq : (0 <= (clientY event - rect_top rect) / rect_height rect <= 1)%R).
      { split.
        - apply Rmult_le_pos; [lra|]. apply Rlt_le, Rinv_0_lt_compat. exact Hh.
        - apply (Rmult_le_reg_r (rect_height rect)); [exact Hh|].
          unfold Rdiv. rewrite Rmult_assoc, Rinv_l by lra. lra. }
      pose proof (clamp_unit_R (1 - (clientY event - rect_top rect) / rect_height rect))
        as [_ Hc].
      rewrite lit_R_one in Hc. cbn in Hc. apply Hc. lra.
Qed.

Lemma getNormalizedPointer_unit_square_witness :
  getNormalizedPointer sample_move sample_rect = V2 (3 / 4)%R (1 / 2)%R.
Proof.
  destruct (getNormalizedPointer_unit_square sample_move sample_rect
              ltac:(cbn; lra) ltac:(cbn; lra)) as [_ Hin].
  destruct Hin as [Hx Hy]; [cbn; lra|cbn; lra|].
  destruct (getNormalizedPointer sample_move sample_rect) as [x y].
  cbn in Hx, Hy. subst. f_equal; lra.
Defined.

Lemma frac_Int_part (x : R) : (0 <= x - IZR (Int_part x) < 1)%R.
Proof. destruct (base_Int_part x). lra. Qed.

Lemma mix_within (lo hi a b t : R) :
  (lo <= a <= hi)%R -> (lo <= b <= hi)%R -> (0 <= t <= 1)%R ->
  (lo <= GlslTex.mix a b t <= hi)%R.
Proof.
  intros Ha Hb Ht. unfold GlslTex.mix. rewrite lit_R_1. cbn. split; nra.
Qed.

Lemma mix4_within (lo hi : R) (a b : vec4 R) (t : R) :
  channels_within lo hi a -> channels_within lo hi b -> (0 <= t <= 1)%R ->
  channels_within lo hi (GlslTex.mix4 a b t).
Proof.
  intros (? & ? & ? & ?) (? & ? & ? & ?) Ht.
  unfold GlslTex.mix4, channels_within. cbn [cx cy cz cw].
  split; [|split; [|split]]; apply mix_within; assumption.
Qed.

(* a lookup in an RGBA texture stays within the range of its texels, for
   both filters and every coordinate *)
Lemma texture_within (t : texture_object R) (uv : vec2 R) (lo hi : R) :
  tex_format t = RGBA16F ->
  (forall i j, channels_within lo hi (tex_data t i j)) ->
  channels_within lo hi (GlslTex.texture (Some t) uv).
Proof.
  intros Hf Hall. unfold GlslTex.texture. rewrite Hf.
  destruct (tex_filtering t); cbn [GlslTex.expand].
  - apply Hall.
  - cbn [ffloor fsub fmul of_Z Scalar_R].
    repeat apply mix4_within; try apply Hall;
      match goal with
      | |- (0 <= ?x - IZR (Int_part ?x) <= 1)%R =>
          pose proof (frac_Int_part x); lra
      end.
Qed.

(** X18: dye advection creates no new extreme value, over the real
    numbers.  If every channel of every texel of [density.read] lies in
    [lo, hi] and [densityDissipation] is not negative, then every channel
    of every texel that [_advectDye] draws lies in
    [lo * densityDissipation, hi * densityDissipation], whatever the
    velocity field, the time step and the filter are. *)
Theorem advectDye_range
    (deltaTime : R) (this : FluidSimulation R) (v d : DoubleFBO R)
    (source : texture_object R) (lo hi : R) (e : Env R) (q : handle) :
  velocity (framebuffers this) = Some v ->
  density (framebuffers this) = Some d ->
  quadVAO e = Some q ->
  attached e (write d) ->
  textures e !! texture (read d) = Some source ->
  tex_format source = RGBA16F ->
  (forall i j, channels_within lo hi (tex_data source i j)) ->
  (0 <= densityDissipation (config this))%R ->
  exists e',
    _advectDye deltaTime this e = Ok (swap_density this, e') /\
    forall i j,
    exists c,
      texel_of e' (texture (write d)) i j = Some c /\
      channels_within (lo * densityDissipation (config this))
        (hi * densityDissipation (config this)) c.
Proof.
  intros Hv Hd Hq Hatt Hsrc Hfmt Hall Hdis.
  eexists. split; [exact (_advectDye_run deltaTime this v d e q Hv Hd Hq)|].
  intros i j. eexists. split; [apply texel_of_draw_to; exact Hatt|].
  cbn [run_program]. unfold advectionShader. rewrite Hsrc.
  set (coord := Glsl.clamp2 _ _ _).
  destruct (texture_within source coord lo hi Hfmt Hall) as (Hx & Hy & Hz & Hw).
  unfold GlslTex.store_texel, Glsl.v4scale, channels_within.
  cbn [cx cy cz cw quantize fmul Scalar_R].
  split; [|split; [|split]]; split; nra.
Qed.

Lemma advectDye_range_witness :
  exists e',
    _advectDye (lit 0.016) sample_sim sample_env = Ok (swap_density sample_sim, e') /\
    exists c,
      texel_of e' 8%nat 0 0 = Some c /\
      channels_within (0 * densityDissipation (config sample_sim))
        (0 * densityDissipation (config sample_sim)) c.
Proof.
  destruct (advectDye_range (lit 0.016) sample_sim
              (MkDoubleFBO (sample_fbo 2%nat 2 2 RG16F RG) (sample_fbo 4%nat 2 2 RG16F RG))
              (MkDoubleFBO (sample_fbo 6%nat 2 2 RGBA16F RGBA)
                 (sample_fbo 8%nat 2 2 RGBA16F RGBA))
              (TextureObject 2 2 RGBA16F LINEAR blank) 0%R 0%R sample_env 0%nat
              eq_refl eq_refl eq_refl)
    as (e' & Hrun & Htex).
  - split; [reflexivity|eexists; reflexivity].
  - reflexivity.
  - reflexivity.
  - intros i j. unfold blank, channels_within. cbn [tex_data cx cy cz cw].
    rewrite lit_R_0. lra.
  - cbn. unfold Q2R. cbn. lra.
  - exists e'. split; [exact Hrun|]. apply (Htex 0 0).
Defined.

Lemma lit_R_colour :
  lit (F := R) 0.6 = (3 / 5)%R /\ lit (F := R) 0.4 = (2 / 5)%R /\
  lit (F := R) 6.0 = 6%R.
Proof. cbn. unfold Q2R. cbn. repeat split; lra. Qed.

(* the largest channel of the colour is v and the smallest v * (1 - s) *)
Lemma hsvToRgb_extremes (h s v : R) :
  (0 <= s <= 1)%R -> (0 <= v)%R ->
  let c := hsvToRgb h s v in
  Rmax (Rmax (fst (fst c)) (snd (fst c))) (snd c) = v /\
  Rmin (Rmin (fst (fst c)) (snd (fst c))) (snd c) = (v * (1 - s))%R.
Proof.
  intros Hs Hv. unfold hsvToRgb. rewrite lit_R_one.
  cbn [ffloor fsub fmul of_Z Scalar_R].
  set (i := Int_part _).
  pose proof (frac_Int_part (h * lit 6.0)) as Hf. fold i in Hf.
  set (f := (h * lit 6.0 - IZR i)%R) in *.
  assert (Hvs : (0 <= v * s)%R) by nra.
  assert (Hfvs : (0 <= f * (v * s) <= v * s)%R) by (split; nra).
  assert (Hq : (v * (1 - s) <= v * (1 - f * s) <= v)%R) by (split; nra).
  assert (Ht : (v * (1 - s) <= v * (1 - (1 - f) * s) <= v)%R) by (split; nra).
  assert (Hp : (v * (1 - s) <= v)%R) by nra.
  clear Hvs Hfvs.
  generalize dependent (v * (1 - s))%R. intros p Hq Ht Hp.
  generalize dependent (v * (1 - f * s))%R. intros q Hq.
  generalize dependent (v * (1 - (1 - f) * s))%R. intros t Ht.
  destruct (Z.rem i 6) as [|k|k]; cbn [fst snd];
    repeat match goal with
           | |- context [match ?x with _ => _ end] => destruct x; cbn [fst snd]
           end;
    unfold Rmax, Rmin;
    repeat match goal with
           | |- context [Rle_dec ?a ?b] => destruct (Rle_dec a b)
           | Hx : context [Rle_dec ?a ?b] |- _ => destruct (Rle_dec a b)
           end; split; lra.
Qed.

(** X19: the colours of [randomColor] are bright and saturated, over the
    real numbers.  When [Math.random] returns numbers of [0, 1), the call
    takes three of them, the largest channel of the colour lies in
    [0.5, 1), and the smallest is positive and at most 0.4 times the
    largest. *)
Theorem randomColor_bright (e : Env R) :
  (forall n, (0 <= random_source e n < 1)%R) ->
  exists c e',
    randomColor e = Ok (c, e') /\
    random_count e' = (3 + random_count e)%nat /\
    let hi := Rmax (Rmax (col_r c) (col_g c)) (col_b c) in
    let lo := Rmin (Rmin (col_r c) (col_g c)) (col_b c) in
    (1 / 2 <= hi < 1)%R /\ (0 < lo <= 2 / 5 * hi)%R.
Proof.
  intros Hrnd. unfold randomColor, Math_random, bind, ret. cbn.
  eexists _, _. split; [reflexivity|]. split; [reflexivity|].
  set (h := random_source e (random_count e)).
  pose proof (Hrnd (S (random_count e))) as Hs0.
  pose proof (Hrnd (S (S (random_count e)))) as Hv0.
  set (s0 := random_source e (S (random_count e))) in *.
  set (v0 := random_source e (S (S (random_count e)))) in *.
  destruct lit_R_colour as (H06 & H04 & _).
  change (Q2R 0.6) with (lit (F := R) 0.6). change (Q2R 0.4) with (lit (F := R) 0.4).
  change (Q2R 0.5) with (lit (F := R) 0.5).
  rewrite H06, H04, lit_R_half.
  destruct (hsvToRgb_extremes h (3 / 5 + s0 * (2 / 5)) (1 / 2 + v0 * (1 / 2)))
    as [Hmax Hmin]; [lra|lra|].
  cbn zeta in Hmax, Hmin. cbn [col_r col_g col_b].
  rewrite Hmax, Hmin. split; [lra|]. split; nra.
Qed.

Lemma randomColor_bright_witness :
  exists c e',
    randomColor sample_env = Ok (c, e') /\
    (1 / 2 <= Rmax (Rmax (col_r c) (col_g c)) (col_b c) < 1)%R.
Proof.
  destruct (randomColor_bright sample_env) as (c & e' & Hrun & _ & Hhi & _).
  - intros n. cbn. lra.
  - exists c, e'. split; [exact Hrun|exact Hhi].
Defined.

Lemma tone_range (c exposure : R) :
  (0 <= c)%R -> (0 < exposure)%R -> (0 <= 1 - exp (- c * exposure) < 1)%R.
Proof.
  intros Hc He. pose proof (exp_pos (- c * exposure)) as Hpos.
  assert (Hle : (exp (- c * exposure) <= 1)%R).
  { rewrite <- exp_0. destruct (Req_dec (- c * exposure) 0) as [->|Hne].
    - lra.
    - apply Rlt_le, exp_increasing. nra. }
  lra.
Qed.

Lemma R_pow_range (x y : R) :
  (0 <= x < 1)%R -> (0 < y)%R -> (0 <= R_pow x y < 1)%R.
Proof.
  intros Hx Hy. unfold R_pow. destruct (Rle_dec x 0); [lra|].
  unfold Rpower. pose proof (exp_pos (y * ln x)) as Hpos.
  assert (Hln : (ln x < 0)%R) by (rewrite <- ln_1; apply ln_increasing; lra).
  assert (Hlt : (exp (y * ln x) < 1)%R).
  { rewrite <- exp_0. apply exp_increasing. nra. }
  lra.
Qed.

(** X20: the display pass never leaves the displayable range, over the
    real numbers.  When the texels of the dye and of the bloom texture are
    not negative, the bloom intensity is not negative and exposure and
    gamma are positive, every colour channel that [displayShader] outputs
    lies in [0, 1), and alpha is 1. *)
Theorem displayShader_range
    (dye bloom : texture_object R) (uEnableBloom : bool)
    (uBloomIntensity uGamma uExposure : R) (vUv : vec2 R) (top : R) :
  tex_format dye = RGBA16F ->
  tex_format bloom = RGBA16F ->
  (forall i j, channels_within 0 top (tex_data dye i j)) ->
  (forall i j, channels_within 0 top (tex_data bloom i j)) ->
  (0 <= uBloomIntensity)%R ->
  (0 < uGamma)%R ->
  (0 < uExposure)%R ->
  let c := displayShader (Some dye) (Some bloom) uEnableBloom uBloomIntensity
             uGamma uExposure vUv in
  (0 <= cx c < 1)%R /\ (0 <= cy c < 1)%R /\ (0 <= cz c < 1)%R /\ cw c = 1%R.
Proof.
  intros Hfd Hfb Hd Hb Hi Hg He c.
  destruct (texture_within dye vUv 0 top Hfd Hd) as (Hdx & Hdy & Hdz & _).
  destruct (texture_within bloom vUv 0 top Hfb Hb) as (Hbx & Hby & Hbz & _).
  assert (Hy : (0 < 1 / uGamma)%R) by (apply Rdiv_lt_0_compat; lra).
  unfold c, displayShader, toneMap, Glsl.vec4_of3, Glsl.v3map, Glsl.rgb.
  rewrite lit_R_1.
  destruct uEnableBloom; cbn [cx cy cz cw v3r v3g v3b Glsl.v3add Glsl.v3scale
                                fpow fsub fmul fadd fneg fexp fdiv Scalar_R];
    (split; [|split; [|split; [|reflexivity]]]);
    apply R_pow_range; try exact Hy; apply tone_range; try exact He; nra.
Qed.

Lemma displayShader_range_witness :
  let c := displayShader (Some (TextureObject 2 2 RGBA16F LINEAR blank))
             (Some (TextureObject 3 3 RGBA16F LINEAR blank)) true
             (1 / 2)%R 2%R (1 / 4)%R (V2 (1 / 2)%R (1 / 2)%R) in
  (0 <= cx c < 1)%R /\ (0 <= cy c < 1)%R /\ (0 <= cz c < 1)%R /\ cw c = 1%R.
Proof.
  apply (displayShader_range _ _ true (1 / 2)%R 2%R (1 / 4)%R _ 0%R);
    try reflexivity; try lra;
    intros i j; unfold blank, channels_within; cbn [tex_data cx cy cz cw];
    rewrite lit_R_0; lra.
Defined.

(** ** The context a tick leaves *)

Ltac keep_quad Hq :=
  repeat first [ rewrite quadVAO_jacobi_run | rewrite quadVAO_draw_to
               | progress unfold decay_pass ];
  exact Hq.

Section TickEnvFacts.
Context {F : Type} `{Scalar F}.

Lemma tick_chain_env (dt : F) (pointers : list (Pointer F)) (s : FluidSimulation F)
    v d p dv c e q :
  velocity (framebuffers s) = Some v ->
  density (framebuffers s) = Some d ->
  pressure (framebuffers s) = Some p ->
  divergence (framebuffers s) = Some dv ->
  curl (framebuffers s) = Some c ->
  quadVAO e = Some q ->
  exists s',
    (this <- _advectVelocity dt s ;;
     this <- _applyVorticity dt this ;;
     this <- _computeDivergence this ;;
     this <- _solvePressure this ;;
     this <- _subtractPressureGradient this ;;
     this <- _advectDye dt this ;;
     ret (pointers, this))%gl e
    = Ok ((pointers, s'), tick_env dt (config s) v d p dv c e).
Proof.
  intros Hv Hd Hp Hdv Hc Hq.
  destruct s as [cfg [vo do po dvo co bl] ss cs at_ ct lc]. simpl in *. subst.
  erewrite bind_run by (eapply _advectVelocity_run; [reflexivity|exact Hq]).
  erewrite bind_run
    by (eapply _applyVorticity_run; [reflexivity|reflexivity|keep_quad Hq]).
  erewrite bind_run
    by (eapply _computeDivergence_run; [reflexivity|reflexivity|keep_quad Hq]).
  erewrite bind_run
    by (eapply _solvePressure_run; [reflexivity|reflexivity|keep_quad Hq]).
  erewrite bind_run
    by (eapply _subtractPressureGradient_run; [reflexivity|reflexivity|keep_quad Hq]).
  erewrite bind_run
    by (eapply _advectDye_run; [reflexivity|reflexivity|keep_quad Hq]).
  unfold ret. eexists. unfold tick_env, tick_before_dye.
  destruct v, d, p. reflexivity.
Qed.

Lemma step_idle_env (deltaTime : F) (pointers : list (Pointer F))
    (this : FluidSimulation F) v d p dv c e q :
  velocity (framebuffers this) = Some v ->
  density (framebuffers this) = Some d ->
  pressure (framebuffers this) = Some p ->
  divergence (framebuffers this) = Some dv ->
  curl (framebuffers this) = Some c ->
  quadVAO e = Some q ->
  paused (config this) = false ->
  Forall (fun p => splatted p = false) pointers ->
  exists this',
    step deltaTime pointers this e =
    Ok ((pointers, this'),
        tick_env (fmin deltaTime (lit 0.016)) (config this) v d p dv c e).
Proof.
  intros Hv Hd Hpr Hdv Hcu Hq Hp Hidle. unfold step. rewrite Hp.
  set (rc := cycleColors (config this) && _).
  set (s0 := if rc then _ else _).
  rewrite (bind_run _ _ _ _ _ (applyPointers_idle pointers rc s0 e Hidle)).
  cbn [fst snd].
  assert (Hs0 : framebuffers s0 = framebuffers this /\ config s0 = config this)
    by (unfold s0; destruct rc; repeat split).
  destruct Hs0 as (Hfb & Hc0).
  destruct (tick_chain_env (fmin deltaTime (lit 0.016)) pointers s0 v d p dv c e q)
    as (s' & Hrun); try (rewrite Hfb; assumption); try assumption.
  exists s'. rewrite Hrun, Hc0. reflexivity.
Qed.
End TickEnvFacts.

(** ** A fluid at rest *)

Lemma mix_zero (t : R) : GlslTex.mix 0%R 0%R t = 0%R.
Proof. unfold GlslTex.mix. cbn. ring. Qed.

(* a lookup in a texture whose texels are 0 in the first two channels *)
Lemma still_lookup (e : Env R) (name : handle) (uv : vec2 R) :
  still e name ->
  cx (GlslTex.texture (textures e !! name) uv) = 0%R /\
  cy (GlslTex.texture (textures e !! name) uv) = 0%R.
Proof.
  intros (o & -> & Hz). unfold GlslTex.texture.
  assert (Ht : forall i j, cx (GlslTex.texel o i j) = 0%R /\
                           cy (GlslTex.texel o i j) = 0%R)
    by (intros i j; apply Hz).
  destruct (tex_filtering o).
  - destruct (tex_format o); cbn [GlslTex.expand cx cy];
      rewrite ?lit_R_0; split; try reflexivity; apply Ht.
  - set (a := (_ - of_Z (ffloor _))%fl). set (b := (_ - of_Z (ffloor _))%fl).
    unfold GlslTex.mix4.
    destruct (tex_format o); cbn [GlslTex.expand cx cy];
      rewrite ?lit_R_0; split; try reflexivity;
      repeat match goal with
             | |- context [cx (GlslTex.texel o ?i ?j)] =>
                 rewrite (proj1 (Ht i j))
             | |- context [cy (GlslTex.texel o ?i ?j)] =>
                 rewrite (proj2 (Ht i j))
             end;
      rewrite !mix_zero; reflexivity.
Qed.

Ltac still_lookups :=
  repeat match goal with
         | Hs : still ?e ?n |- context [cx (GlslTex.texture (textures ?e !! ?n) ?uv)] =>
             rewrite (proj1 (still_lookup e n uv Hs))
         | Hs : still ?e ?n |- context [cy (GlslTex.texture (textures ?e !! ?n) ?uv)] =>
             rewrite (proj2 (still_lookup e n uv Hs))
         end.

Ltac quiet_tac :=
  intros uv; cbn [run_program];
  unfold advectionShader, curlShader, vorticityShader, divergenceShader,
    clearShader, pressureShader, gradientSubtractShader,
    Glsl.v4scale, Glsl.vec4_of2, Glsl.v2add, Glsl.v2sub, Glsl.v2scale, Glsl.xy;
  cbn [cx cy vx vy]; still_lookups; rewrite ?lit_R_0;
  cbn [fadd fsub fmul fneg Scalar_R]; split; ring.

Section Rest.
Variable e : Env R.

Lemma quiet_advection v s ts dis dt :
  still e s -> quiet e (DrawAdvection v s ts dis dt).
Proof. intros Hs. quiet_tac. Qed.

Lemma quiet_curl v ts : still e v -> quiet e (DrawCurl v ts).
Proof. intros Hv. quiet_tac. Qed.

Lemma quiet_vorticity v c ts str dt :
  still e v -> still e c -> quiet e (DrawVorticity v c ts str dt).
Proof. intros Hv Hc. quiet_tac. Qed.

Lemma quiet_divergence v ts : still e v -> quiet e (DrawDivergence v ts).
Proof. intros Hv. quiet_tac. Qed.

Lemma quiet_clear p decay : still e p -> quiet e (DrawClear p decay).
Proof. intros Hp. quiet_tac. Qed.

Lemma quiet_pressure p dv ts :
  still e p -> still e dv -> quiet e (DrawPressure p dv ts).
Proof. intros Hp Hdv. quiet_tac. Qed.

Lemma quiet_gradient p v ts :
  still e p -> still e v -> quiet e (DrawGradient p v ts).
Proof. intros Hp Hv. quiet_tac. Qed.

(* a quiet pass leaves every still texture still, its own target too *)
Lemma still_draw_to (t : FBO R) (d : draw_call R) (n : handle) :
  quiet e d -> still e n -> still (draw_to t d e) n.
Proof.
  intros Hq (o & Ho & Hz). unfold draw_to, still.
  destruct (fbos e !! fbo t) as [name|]; cbn; [|exists o; auto].
  destruct (decide (name = n)) as [->|Hne].
  - rewrite lookup_alter_eq, Ho. cbn. eexists. split; [reflexivity|].
    intros i j. cbn. apply Hq.
  - rewrite lookup_alter_ne by exact Hne. exists o. auto.
Qed.

(* and it leaves alone every texture that is not the attachment of its
   target *)
Lemma other_draw_to (t : FBO R) (d : draw_call R) (n : handle) :
  fbos e !! fbo t = Some (texture t) -> texture t <> n ->
  textures (draw_to t d e) !! n = textures e !! n.
Proof.
  intros Hf Hne. apply (textures_draw_to_other t d e (texture t) n Hf). congruence.
Qed.
End Rest.

Lemma clamp_index_inside (n i : Z) : 0 <= i < n -> clamp_index n i = i.
Proof. unfold clamp_index. lia. Qed.

Lemma mix4_first (a b : vec4 R) : GlslTex.mix4 a b 0%R = a.
Proof.
  unfold GlslTex.mix4, GlslTex.mix. rewrite lit_R_1. destruct a. cbn.
  f_equal; ring.
Qed.

Lemma centre_coordinate (w i : Z) :
  0 <= i < w ->
  (((IZR i + lit 0.5) / IZR w) * IZR w = IZR i + 1 / 2)%R /\
  (0 <= (IZR i + lit 0.5) / IZR w <= 1)%R.
Proof.
  intros Hi. rewrite lit_R_half.
  assert (Hw : (0 < IZR w)%R) by (apply (IZR_lt 0); lia).
  assert (Hi0 : (0 <= IZR i)%R) by (apply (IZR_le 0); lia).
  assert (Hi1 : (IZR i + 1 <= IZR w)%R) by (rewrite <- plus_IZR; apply IZR_le; lia).
  split; [field; lra|]. split.
  - apply Rmult_le_pos; [lra|]. apply Rlt_le, Rinv_0_lt_compat. exact Hw.
  - apply (Rmult_le_reg_r (IZR w)); [exact Hw|].
    unfold Rdiv. rewrite Rmult_assoc, Rinv_l by lra. lra.
Qed.

(* a lookup at the centre of a texel of the texture returns that texel,
   with either filter *)
Lemma texture_centre_R (t : texture_object R) (i j : Z) :
  0 <= i < tex_width t -> 0 <= j < tex_height t ->
  GlslTex.texture (Some t) (GlslTex.frag_uv (tex_width t) (tex_height t) i j)
  = GlslTex.expand (tex_format t) (tex_data t i j).
Proof.
  intros Hi Hj.
  destruct (centre_coordinate _ _ Hi) as [Hx _].
  destruct (centre_coordinate _ _ Hj) as [Hy _].
  destruct (tex_filtering t) eqn:Hf.
  - rewrite (texture_nearest_R t _ i j Hf).
    + unfold GlslTex.texel. rewrite !clamp_index_inside by assumption. reflexivity.
    + cbn [GlslTex.frag_uv vx of_Z fadd fdiv Scalar_R]. rewrite Hx. lra.
    + cbn [GlslTex.frag_uv vy of_Z fadd fdiv Scalar_R]. rewrite Hy. lra.
  - unfold GlslTex.texture. rewrite Hf.
    cbn [GlslTex.frag_uv vx vy of_Z fadd fsub fmul fdiv ffloor Scalar_R].
    rewrite Hx, Hy.
    replace (IZR i + 1 / 2 - lit 0.5)%R with (IZR i) by (rewrite lit_R_half; lra).
    replace (IZR j + 1 / 2 - lit 0.5)%R with (IZR j) by (rewrite lit_R_half; lra).
    rewrite <- (Int_part_spec (IZR i) i) by lra.
    rewrite <- (Int_part_spec (IZR j) j) by lra.
    rewrite !Rminus_diag, !mix4_first.
    unfold GlslTex.texel. rewrite !clamp_index_inside by assumption. reflexivity.
Qed.

Lemma iter_swap_cases {F : Type} (n : nat) (p : DoubleFBO F) :
  Nat.iter n swap p = p \/ Nat.iter n swap p = swap p.
Proof.
  induction n as [|n [IH|IH]].
  - left. reflexivity.
  - right. change (Nat.iter (S n) swap p) with (swap (Nat.iter n swap p)).
    rewrite IH. reflexivity.
  - left. change (Nat.iter (S n) swap p) with (swap (Nat.iter n swap p)).
    rewrite IH. apply swap_involutive.
Qed.

Lemma attached_jacobi_run {F : Type} `{Scalar F}
    (n : nat) (p : DoubleFBO F) (dv t : FBO F) (e : Env F) :
  attached e t -> attached (jacobi_run n p dv e) t.
Proof.
  revert p e. induction n as [|n IH]; intros p e Ha; [exact Ha|].
  cbn [jacobi_run]. apply IH. unfold jacobi_pass. apply attached_draw_to. exact Ha.
Qed.

Section RestTick.
Variables (v d p : DoubleFBO R) (dv c : FBO R) (e : Env R).
Let six : list (FBO R) := [read v; write v; read p; write p; dv; c].
Hypothesis wired :
  Forall (fun t => fbos e !! fbo t = Some (texture t) /\
                   texture t <> texture (read d)) six.

(* what the passes before the dye advection keep *)
Let kept (ek : Env R) : Prop :=
  Forall (fun t => still ek (texture t)) six /\
  textures ek !! texture (read d) = textures e !! texture (read d) /\
  fbos ek = fbos e.

Lemma kept_pass (t : FBO R) (dc : draw_call R) (ek : Env R) :
  kept ek -> In t six -> quiet ek dc -> kept (draw_to t dc ek).
Proof.
  intros (Hs & Hd & Hf) Hin Hq. split; [|split].
  - eapply Forall_impl; [exact Hs|]. intros u Hu. apply still_draw_to; assumption.
  - rewrite <- Hd. rewrite List.Forall_forall in wired.
    destruct (wired t Hin) as [Hft Hne].
    apply other_draw_to; [rewrite Hf; exact Hft|exact Hne].
  - rewrite fbos_draw_to. exact Hf.
Qed.

Lemma kept_still (ek : Env R) (t : FBO R) :
  kept ek -> In t six -> still ek (texture t).
Proof. intros (Hs & _) Hin. rewrite List.Forall_forall in Hs. auto. Qed.

Lemma kept_jacobi (n : nat) (p' : DoubleFBO R) (ek : Env R) :
  p' = p \/ p' = swap p -> kept ek -> kept (jacobi_run n p' dv ek).
Proof.
  revert p' ek. induction n as [|n IH]; intros p' ek Hp Hk; [exact Hk|].
  cbn [jacobi_run]. apply IH.
  - destruct Hp as [-> | ->]; [right; reflexivity|left; apply swap_involutive].
  - unfold jacobi_pass. apply kept_pass; [exact Hk| |].
    + destruct Hp as [-> | ->]; unfold six; cbn; auto 10.
    + apply quiet_pressure; apply kept_still; try exact Hk;
        destruct Hp as [-> | ->]; unfold six; cbn; auto 10.
Qed.

Lemma kept_before_dye (dt : R) (cfg : Config R) :
  Forall (fun t => still e (texture t)) six ->
  kept (tick_before_dye dt cfg v p dv c e).
Proof.
  intros Hs.
  assert (H0 : kept e) by (split; [exact Hs|split; reflexivity]).
  unfold tick_before_dye.
  assert (H1 : kept (draw_to (write v)
                  (DrawAdvection (texture (read v)) (texture (read v))
                     (texelSize (read v)) (velocityDissipation cfg) dt) e)).
  { apply kept_pass; [exact H0|unfold six; cbn; auto 10|].
    apply quiet_advection. apply (kept_still e (read v) H0). unfold six; cbn; auto. }
  set (e1 := draw_to (write v) _ e) in *.
  assert (H2 : kept (draw_to c (DrawCurl (texture (write v)) (texelSize (write v))) e1)).
  { apply kept_pass; [exact H1|unfold six; cbn; auto 10|].
    apply quiet_curl. apply (kept_still e1 (write v) H1). unfold six; cbn; auto. }
  set (e2 := draw_to c _ e1) in *.
  assert (H3 : kept (draw_to (read v)
                  (DrawVorticity (texture (write v)) (texture c) (texelSize (write v))
                     (curlStrength cfg) dt) e2)).
  { apply kept_pass; [exact H2|unfold six; cbn; auto 10|].
    apply quiet_vorticity.
    - apply (kept_still e2 (write v) H2). unfold six; cbn; auto.
    - apply (kept_still e2 c H2). unfold six; cbn; auto 10. }
  set (e3 := draw_to (read v) _ e2) in *.
  assert (H4 : kept (draw_to dv (DrawDivergence (texture (read v)) (texelSize (read v))) e3)).
  { apply kept_pass; [exact H3|unfold six; cbn; auto 10|].
    apply quiet_divergence. apply (kept_still e3 (read v) H3). unfold six; cbn; auto. }
  set (e4 := draw_to dv _ e3) in *.
  assert (H5 : kept (jacobi_run (Z.to_nat (pressureIterations cfg)) (swap p) dv
                  (decay_pass p (pressureDecay cfg) e4))).
  { apply kept_jacobi; [right; reflexivity|]. unfold decay_pass.
    apply kept_pass; [exact H4|unfold six; cbn; auto 10|].
    apply quiet_clear. apply (kept_still e4 (read p) H4). unfold six; cbn; auto 10. }
  set (e5 := jacobi_run _ _ _ _) in *.
  apply kept_pass; [exact H5|unfold six; cbn; auto 10|].
  apply quiet_gradient.
  - destruct (iter_swap_cases (S (Z.to_nat (pressureIterations cfg))) p) as [-> | ->];
      [apply (kept_still e5 (read p) H5)|apply (kept_still e5 (write p) H5)];
      unfold six; cbn; auto 10.
  - apply (kept_still e5 (read v) H5). unfold six; cbn; auto.
Qed.

(* the dye after the tick: each texel times the dissipation *)
Lemma rest_dye (dt : R) (cfg : Config R) (dye : texture_object R) :
  Forall (fun t => still e (texture t)) six ->
  attached e (write d) ->
  Forall (fun t => texture t <> texture (write d)) six ->
  textures e !! texture (read d) = Some dye ->
  tex_width dye = width (write d) -> tex_height dye = height (write d) ->
  let e' := tick_env dt cfg v d p dv c e in
  Forall (fun t => still e' (texture t)) six /\
  forall i j,
    0 <= i < width (write d) -> 0 <= j < height (write d) ->
    texel_of e' (texture (write d)) i j =
    Some (Glsl.v4scale (GlslTex.expand (tex_format dye) (tex_data dye i j))
            (densityDissipation cfg)).
Proof.
  intros Hs Hatt Hne Hdye Hw Hh e'.
  pose proof (kept_before_dye dt cfg Hs) as Hk.
  set (e6 := tick_before_dye dt cfg v p dv c e) in *.
  destruct Hk as (Hs6 & Hd6 & Hf6).
  assert (Hatt6 : attached e6 (write d)).
  { unfold e6, tick_before_dye. apply attached_draw_to. apply attached_jacobi_run.
    unfold decay_pass. repeat apply attached_draw_to. exact Hatt. }
  split.
  - unfold e', tick_env. fold e6.
    rewrite List.Forall_forall in Hs6, Hne |- *. intros t Ht.
    destruct (Hs6 t Ht) as (o & Ho & Hz). exists o. split; [|exact Hz].
    rewrite <- Ho. apply other_draw_to; [apply Hatt6|].
    intros Heq. apply (Hne t Ht). symmetry. exact Heq.
  - intros i j Hi Hj. unfold e', tick_env. fold e6.
    rewrite (texel_of_draw_to (write d) _ e6 i j Hatt6).
    f_equal. cbn [run_program]. unfold advectionShader.
    assert (Hv : still e6 (texture (write v))).
    { rewrite List.Forall_forall in Hs6. apply Hs6. unfold six; cbn; auto. }
    set (uv := GlslTex.frag_uv (width (write d)) (height (write d)) i j).
    destruct (still_lookup e6 (texture (write v)) uv Hv) as [Hvx Hvy].
    unfold Glsl.xy, Glsl.v2mul, Glsl.v2scale_l, Glsl.v2sub, Glsl.clamp2.
    cbn [vx vy]. rewrite Hvx, Hvy.
    destruct (centre_coordinate _ _ Hi) as [_ Hcx].
    destruct (centre_coordinate _ _ Hj) as [_ Hcy].
    assert (Hclamp : forall x, (0 <= x <= 1)%R -> Glsl.clamp x (lit 0) (lit 1) = x).
    { intros x Hx. unfold Glsl.clamp. rewrite lit_R_0, lit_R_1. cbn.
      unfold Rmin, Rmax. destruct (Rle_dec x 0); destruct (Rle_dec _ 1); lra. }
    replace (Glsl.clamp (vx uv - dt * 0%R * vx (texelSize (read d)))%fl (lit 0) (lit 1))
      with (vx uv)
      by (cbn [fsub fmul Scalar_R]; rewrite Rmult_0_r, Rmult_0_l, Rminus_0_r;
          symmetry; apply Hclamp; exact Hcx).
    replace (Glsl.clamp (vy uv - dt * 0%R * vy (texelSize (read d)))%fl (lit 0) (lit 1))
      with (vy uv)
      by (cbn [fsub fmul Scalar_R]; rewrite Rmult_0_r, Rmult_0_l, Rminus_0_r;
          symmetry; apply Hclamp; exact Hcy).
    rewrite Hd6, Hdye. unfold uv. rewrite <- Hw, <- Hh.
    change (V2 (vx (GlslTex.frag_uv (tex_width dye) (tex_height dye) i j))
               (vy (GlslTex.frag_uv (tex_width dye) (tex_height dye) i j)))
      with (GlslTex.frag_uv (F := R) (tex_width dye) (tex_height dye) i j).
    rewrite texture_centre_R by (rewrite ?Hw, ?Hh; assumption).
    unfold GlslTex.store_texel. cbn [quantize Scalar_R].
    destruct (Glsl.v4scale _ _). reflexivity.
Qed.
End RestTick.

(** X21: a fluid at rest stays at rest, over the real numbers.  On a
    simulation in use whose velocity, pressure, divergence and curl
    textures are 0 in their first two channels, a tick with no impulse to
    splat leaves them so, and all it does to the dye is to multiply every
    texel by [densityDissipation]: the texel (i, j) drawn into
    [density.write], which the tick then swaps to the front, is the texel
    (i, j) of [density.read] times [densityDissipation]. *)
Theorem rest_is_kept
    (e0 : Env R) (deltaTime : R) (pointers : list (Pointer R))
    (this : FluidSimulation R) (v d p : DoubleFBO R) (dv c : FBO R)
    (dye : texture_object R) (e : Env R) (q : handle) :
  fresh_above e0 ->
  in_use e0 this e ->
  velocity (framebuffers this) = Some v ->
  density (framebuffers this) = Some d ->
  pressure (framebuffers this) = Some p ->
  divergence (framebuffers this) = Some dv ->
  curl (framebuffers this) = Some c ->
  quadVAO e = Some q ->
  paused (config this) = false ->
  Forall (fun p => splatted p = false) pointers ->
  Forall (fun t => still e (texture t)) [read v; write v; read p; write p; dv; c] ->
  textures e !! texture (read d) = Some dye ->
  exists this' e',
    step deltaTime pointers this e = Ok ((pointers, this'), e') /\
    Forall (fun t => still e' (texture t))
      [read v; write v; read p; write p; dv; c] /\
    forall i j,
      0 <= i < size_width (simSize this) -> 0 <= j < size_height (simSize this) ->
      texel_of e' (texture (write d)) i j =
      Some (Glsl.v4scale (tex_data dye i j) (densityDissipation (config this))).
Proof.
  intros Hfresh Hu Hv Hd Hp Hdv Hc Hq Hpaused Hidle Hstill Hdye.
  destruct (in_use_kept e0 this e Hfresh Hu) as [_ Ho].
  destruct (reachable_sized this e (in_use_reachable e0 this e Hu))
    as (_ & _ & Hsd & _).
  rewrite Hd in Hsd. destruct Hsd as [(Hrw & Hrh & Hrf & _) (Hww & Hwh & _)].
  unfold targets in Ho. rewrite Hv, Hd, Hp, Hdv, Hc in Ho.
  cbn [double_targets single_targets app] in Ho.
  destruct Ho as (Hnd & _ & Hb & _). cbn [map] in Hnd.
  apply Forall_cons in Hb as [Brv Hb]. apply Forall_cons in Hb as [Bwv Hb].
  apply Forall_cons in Hb as [Brd Hb]. apply Forall_cons in Hb as [Bwd Hb].
  apply Forall_cons in Hb as [Brp Hb]. apply Forall_cons in Hb as [Bwp Hb].
  apply Forall_cons in Hb as [Bdv Hb]. apply Forall_cons in Hb as [Bc _].
  destruct Brd as (_ & o & Ho & Htw & Hth & Htf).
  rewrite Hdye in Ho. revert Ho. intros [= <-].
  destruct (step_idle_env deltaTime pointers this v d p dv c e q
              Hv Hd Hp Hdv Hc Hq Hpaused Hidle) as (this' & Hrun).
  exists this'. eexists. split; [exact Hrun|].
  destruct (rest_dye v d p dv c e) with (dt := Rmin deltaTime (lit 0.016))
    (cfg := config this) (dye := dye) as [Hs' Hdye'].
  - repeat (apply Forall_cons; split); try apply Forall_nil_2;
      (split; [first [apply Brv|apply Bwv|apply Brp|apply Bwp|apply Bdv|apply Bc]|]).
    + apart Hnd 0%nat 2%nat.
    + apart Hnd 1%nat 2%nat.
    + apart Hnd 4%nat 2%nat.
    + apart Hnd 5%nat 2%nat.
    + apart Hnd 6%nat 2%nat.
    + apart Hnd 7%nat 2%nat.
  - exact Hstill.
  - destruct Bwd as (Hf & o & Ho & _). split; [exact Hf|eauto].
  - repeat (apply Forall_cons; split); try apply Forall_nil_2.
    + apart Hnd 0%nat 3%nat.
    + apart Hnd 1%nat 3%nat.
    + apart Hnd 4%nat 3%nat.
    + apart Hnd 5%nat 3%nat.
    + apart Hnd 6%nat 3%nat.
    + apart Hnd 7%nat 3%nat.
  - exact Hdye.
  - congruence.
  - congruence.
  - split; [exact Hs'|]. intros i j Hi Hj.
    rewrite Hdye' by (rewrite ?Hww, ?Hwh; assumption).
    rewrite Htf, Hrf. reflexivity.
Qed.

Lemma sample_still (n : handle) :
  In n [2; 4; 10; 12; 14; 16]%nat -> still sample_env n.
Proof.
  intros Hin. cbn in Hin.
  repeat (destruct Hin as [<-|Hin]; [eexists; split; [reflexivity|];
    intros i j; unfold blank; cbn [tex_data cx cy]; rewrite lit_R_0; auto|]).
  contradiction.
Qed.

Lemma rest_is_kept_witness :
  exists this' e',
    step (lit 0.016) [still_pointer] sample_sim sample_env
    = Ok (([still_pointer], this'), e') /\
    still e' 2%nat /\
    texel_of e' 8%nat 1 1 =
    Some (Glsl.v4scale (blank 1 1) (densityDissipation (config sample_sim))).
Proof.
  assert (Hidle : Forall (fun p : Pointer R => splatted p = false) [still_pointer]).
  { constructor; [|constructor]. unfold splatted. simpl.
    rewrite (R_eqb_true 0 (Q2R 0)); [reflexivity|].
    change (Q2R 0) with (lit (F := R) 0). rewrite lit_R_0. reflexivity. }
  destruct (rest_is_kept sample_env0 (lit 0.016) [still_pointer] sample_sim
              (MkDoubleFBO (sample_fbo 2%nat 2 2 RG16F RG) (sample_fbo 4%nat 2 2 RG16F RG))
              (MkDoubleFBO (sample_fbo 6%nat 2 2 RGBA16F RGBA)
                 (sample_fbo 8%nat 2 2 RGBA16F RGBA))
              (MkDoubleFBO (sample_fbo 10%nat 2 2 R16F RED)
                 (sample_fbo 12%nat 2 2 R16F RED))
              (sample_fbo 14%nat 2 2 R16F RED) (sample_fbo 16%nat 2 2 R16F RED)
              (TextureObject 2 2 RGBA16F LINEAR blank) sample_env 0%nat
              sample_env0_fresh sample_in_use eq_refl eq_refl eq_refl eq_refl eq_refl
              eq_refl eq_refl Hidle)
    as (this' & e' & Hrun & Hs & Htex).
  - repeat (apply Forall_cons; split); try apply Forall_nil_2;
      apply sample_still; cbn; auto 10.
  - reflexivity.
  - exists this', e'. split; [exact Hrun|]. split.
    + apply Forall_cons in Hs as [Hs _]. exact Hs.
    + apply (Htex 1 1); cbn; lia.
Defined.

(** ** A resize that changes the grid clears it *)

Section ResizeClears.
Context {F : Type} `{Scalar F}.
Variable e0 : Env F.

Lemma owns_head_apart (t u : FBO F) (T : list (FBO F)) (e : Env F) :
  owns e0 (t :: T) e -> In u T -> texture u <> texture t.
Proof.
  intros (Hnd & _) Hin Heq. cbn [map] in Hnd. apply NoDup_cons in Hnd as [Hn _].
  apply Hn. rewrite list_elem_of_In, <- Heq. apply in_map. exact Hin.
Qed.

Lemma blank_kept_resizeFBO (t u : FBO F) (T : list (FBO F)) w h (e : Env F) t' e' :
  owns e0 (t :: T) e -> In u T -> blank_at e u ->
  resizeFBO t w h e = Ok (t', e') -> blank_at e' u.
Proof.
  intros Ho Hin [fl Hu] Hr. pose proof (owns_head_apart _ _ _ _ Ho Hin) as Hne.
  apply resizeFBO_inv in Hr as (_ & _ & _ & _ & [(_ & _ & _ & ->)|(_ & _ & _ & Htx)]).
  - exists fl. exact Hu.
  - exists fl. rewrite Htx, lookup_alter_ne by congruence. exact Hu.
Qed.

Lemma blank_new_resizeFBO (t : FBO F) (T : list (FBO F)) w h (e : Env F) t' e' :
  owns e0 (t :: T) e -> ~ (width t = w /\ height t = h) ->
  resizeFBO t w h e = Ok (t', e') -> blank_at e' t'.
Proof.
  intros Ho Hsz Hr.
  apply resizeFBO_inv in Hr as (_ & _ & Htn & _ & [(Hw & Hh & _)|(Hw & Hh & Hf & Htx)]).
  - exfalso. apply Hsz. split; assumption.
  - destruct Ho as (_ & _ & Hb & _). apply Forall_cons in Hb as [(_ & o & Ho & _) _].
    exists (tex_filtering o).
    rewrite Htx, Htn, lookup_alter_eq, Ho, Hw, Hh, Hf. reflexivity.
Qed.

Lemma blank_kept_createFBO (u : FBO F) (T : list (FBO F)) w h ifmt fmt ty fl
    (e : Env F) t e' :
  owns e0 T e -> In u T -> blank_at e u ->
  createFBO w h ifmt fmt ty fl e = Ok (t, e') -> blank_at e' u.
Proof.
  intros (_ & _ & _ & Hn & _) Hin [fl' Hu] Hr.
  apply createFBO_inv in Hr as (_ & _ & Htx & _).
  rewrite List.Forall_forall in Hn. destruct (Hn u Hin) as [Hlt _].
  exists fl'. rewrite Htx, lookup_insert_ne by lia. exact Hu.
Qed.

Lemma blank_new_createFBO w h ifmt fmt ty fl (e : Env F) t e' :
  createFBO w h ifmt fmt ty fl e = Ok (t, e') -> blank_at e' t.
Proof.
  intros Hr. apply createFBO_inv in Hr as (-> & _ & Htx & _).
  exists fl. rewrite Htx. cbn. rewrite lookup_insert_eq. reflexivity.
Qed.

Lemma blank_kept_deleteFBO (t u : FBO F) (T : list (FBO F)) (e : Env F) e' :
  owns e0 (t :: T) e -> In u T -> blank_at e u ->
  deleteFBO (Some t) e = Ok (tt, e') -> blank_at e' u.
Proof.
  intros Ho Hin [fl Hu] Hr. pose proof (owns_head_apart _ _ _ _ Ho Hin) as Hne.
  apply deleteFBO_inv in Hr as (_ & Htx & _).
  exists fl. rewrite Htx, lookup_delete_ne by congruence. exact Hu.
Qed.

(* the targets [P] that are already cleared stay so while a field is
   resized, and the field comes out cleared when its size changes *)
Lemma blank_resizeDouble (o : option (DoubleFBO F)) (R P : list (FBO F))
    w h ifmt fmt fl (e : Env F) d e' :
  owns e0 (double_targets o ++ R) e ->
  (forall u, In u P -> In u R) ->
  Forall (blank_at e) P ->
  Forall (fun t => ~ (width t = w /\ height t = h)) (double_targets o) ->
  resizeDouble o w h ifmt fmt fl e = Ok (d, e') ->
  Forall (blank_at e') (P ++ double_targets (Some d)).
Proof.
  intros Ho Hsub Hbl Hsz Hr. rewrite List.Forall_forall in Hbl.
  destruct o as [v|]; cbn [double_targets resizeDouble] in *.
  - bind_inv_as Hr r e1 H1. bind_inv_as Hr wr e2 H2. ret_inv Hr. cbn [app] in Ho.
    apply Forall_cons in Hsz as [Hsr Hsz]. apply Forall_cons in Hsz as [Hsw _].
    pose proof (owns_resizeFBO e0 _ _ _ _ _ _ _ Ho H1) as Ho1.
    apply (owns_perm _ _ _ _ (perm_swap _ _ _)) in Ho1.
    apply Forall_app. split.
    + apply List.Forall_forall. intros u Hu.
      eapply blank_kept_resizeFBO; [exact Ho1|right; apply Hsub; exact Hu| |exact H2].
      eapply blank_kept_resizeFBO; [exact Ho|right; apply Hsub; exact Hu| |exact H1].
      apply Hbl. exact Hu.
    + cbn. constructor; [|constructor; [|constructor]].
      * eapply blank_kept_resizeFBO; [exact Ho1|left; reflexivity| |exact H2].
        eapply blank_new_resizeFBO; [exact Ho|exact Hsr|exact H1].
      * eapply blank_new_resizeFBO; [exact Ho1|exact Hsw|exact H2].
  - unfold createDoubleFBO in Hr.
    bind_inv_as Hr r e1 H1. bind_inv_as Hr wr e2 H2. ret_inv Hr. cbn [app] in Ho.
    pose proof (owns_createFBO e0 _ _ _ _ _ _ _ _ _ _ Ho H1) as Ho1.
    apply Forall_app. split.
    + apply List.Forall_forall. intros u Hu.
      eapply blank_kept_createFBO; [exact Ho1|right; apply Hsub; exact Hu| |exact H2].
      eapply blank_kept_createFBO; [exact Ho|apply Hsub; exact Hu| |exact H1].
      apply Hbl. exact Hu.
    + cbn. constructor; [|constructor; [|constructor]].
      * eapply blank_kept_createFBO; [exact Ho1|left; reflexivity| |exact H2].
        eapply blank_new_createFBO. exact H1.
      * eapply blank_new_createFBO. exact H2.
Qed.

Lemma blank_resizeSingle (o : option (FBO F)) (R P : list (FBO F))
    w h (e : Env F) t e' :
  owns e0 (single_targets o ++ R) e ->
  (forall u, In u P -> In u R) ->
  Forall (blank_at e) P ->
  Forall (fun t => ~ (width t = w /\ height t = h)) (single_targets o) ->
  resizeSingle o w h e = Ok (t, e') ->
  Forall (blank_at e') (P ++ single_targets (Some t)).
Proof.
  intros Ho Hsub Hbl Hsz Hr. rewrite List.Forall_forall in Hbl.
  destruct o as [v|]; cbn [single_targets resizeSingle] in *; cbn [app] in Ho.
  - apply Forall_cons in Hsz as [Hsv _].
    apply Forall_app. split.
    + apply List.Forall_forall. intros u Hu.
      eapply blank_kept_resizeFBO; [exact Ho|apply Hsub; exact Hu| |exact Hr].
      apply Hbl. exact Hu.
    + constructor; [|constructor].
      eapply blank_new_resizeFBO; [exact Ho|exact Hsv|exact Hr].
  - apply Forall_app. split.
    + apply List.Forall_forall. intros u Hu.
      eapply blank_kept_createFBO; [exact Ho|apply Hsub; exact Hu| |exact Hr].
      apply Hbl. exact Hu.
    + constructor; [|constructor]. eapply blank_new_createFBO. exact Hr.
Qed.

Lemma blank_deleteLevels (L : list (BloomLevel F)) (R : list (FBO F)) (e : Env F) e' :
  fresh_above e0 ->
  owns e0 (flat_map level_targets L ++ R) e ->
  Forall (blank_at e) R ->
  deleteLevels L e = Ok (tt, e') ->
  Forall (blank_at e') R.
Proof.
  intros Hfresh. revert e. induction L as [|level L IH]; intros e Ho Hbl Hr.
  - cbn in Hr. unfold ret in Hr. revert Hr. intros [= <-]. exact Hbl.
  - cbn [deleteLevels] in Hr. cbn in Ho.
    bind_inv_as Hr u1 e1 H1. bind_inv_as Hr u2 e2 H2. destruct u1, u2.
    pose proof (owns_deleteFBO e0 _ _ _ _ Hfresh Ho H1) as Ho1.
    pose proof (owns_deleteFBO e0 _ _ _ _ Hfresh Ho1 H2) as Ho2.
    apply (IH e2 Ho2); [|exact Hr].
    rewrite List.Forall_forall in Hbl |- *. intros u Hu.
    eapply blank_kept_deleteFBO;
      [exact Ho1|apply in_or_app; right; exact Hu| |exact H2].
    eapply blank_kept_deleteFBO;
      [exact Ho|right; apply in_or_app; right; exact Hu| |exact H1].
    apply Hbl. exact Hu.
Qed.

Lemma blank_bloomLevelsLoop (n : nat) w h (acc : list (BloomLevel F))
    (R : list (FBO F)) (e : Env F) chain e' :
  owns e0 (flat_map level_targets acc ++ R) e ->
  Forall (blank_at e) (flat_map level_targets acc ++ R) ->
  bloomLevelsLoop n w h acc e = Ok (chain, e') ->
  Forall (blank_at e') (flat_map level_targets chain ++ R).
Proof.
  revert w h acc e. induction n as [|n IH]; intros w h acc e Ho Hbl Hr.
  - cbn in Hr. ret_inv Hr. exact Hbl.
  - cbn [bloomLevelsLoop] in Hr.
    bind_inv_as Hr b e1 H1. bind_inv_as Hr t e2 H2.
    pose proof (owns_createFBO e0 _ _ _ _ _ _ _ _ _ _ Ho H1) as Ho1.
    pose proof (owns_createFBO e0 _ _ _ _ _ _ _ _ _ _ Ho1 H2) as Ho2.
    assert (Hperm : Permutation (t :: b :: flat_map level_targets acc ++ R)
                      (flat_map level_targets (acc ++ [MkBloomLevel b t]) ++ R)).
    { rewrite flat_map_app. cbn. rewrite <- app_assoc. cbn.
      etransitivity; [apply perm_swap|].
      apply (Permutation_app_swap_app [b; t]). }
    assert (Hbl2 : Forall (blank_at e2)
                     (flat_map level_targets (acc ++ [MkBloomLevel b t]) ++ R)).
    { eapply Permutation_Forall; [exact Hperm|].
      constructor; [eapply blank_new_createFBO; exact H2|].
      constructor.
      - eapply blank_kept_createFBO; [exact Ho1|left; reflexivity| |exact H2].
        eapply blank_new_createFBO. exact H1.
      - rewrite List.Forall_forall in Hbl |- *. intros u Hu.
        eapply blank_kept_createFBO; [exact Ho1|right; exact Hu| |exact H2].
        eapply blank_kept_createFBO; [exact Ho|exact Hu| |exact H1].
        apply Hbl. exact Hu. }
    pose proof (owns_perm _ _ _ _ Hperm Ho2) as Ho3.
    destruct (_ || _).
    + ret_inv Hr. exact Hbl2.
    + exact (IH _ _ _ _ Ho3 Hbl2 Hr).
Qed.
End ResizeClears.

Section ResizeClearsAll.
Context {F : Type} `{Scalar F}.

Lemma double_sized_differs (s : Size) ifmt (o : option (DoubleFBO F)) w h :
  double_sized s ifmt o ->
  ~ (size_width s = w /\ size_height s = h) ->
  Forall (fun t => ~ (width t = w /\ height t = h)) (double_targets o).
Proof.
  destruct o as [d|]; cbn; [|constructor].
  intros [(Hrw & Hrh & _) (Hww & Hwh & _)] Hne.
  constructor; [|constructor; [|constructor]]; intros [Hw Hh]; apply Hne;
    split; congruence.
Qed.

Lemma single_sized_differs (s : Size) ifmt (o : option (FBO F)) w h :
  single_sized s ifmt o ->
  ~ (size_width s = w /\ size_height s = h) ->
  Forall (fun t => ~ (width t = w /\ height t = h)) (single_targets o).
Proof.
  destruct o as [t|]; cbn; [|constructor].
  intros (Hw' & Hh' & _) Hne.
  constructor; [|constructor]. intros [Hw Hh]. apply Hne. split; congruence.
Qed.

Ltac in_tail :=
  let u := fresh "u" in
  let Hu := fresh "Hu" in
  intros u Hu; rewrite ?in_app_iff in Hu; rewrite ?in_app_iff; tauto.

Lemma resize_blank (e0 : Env F) width height (this : FluidSimulation F) e this' e' :
  fresh_above e0 ->
  owns e0 (targets this) e ->
  fields_sized this ->
  resize width height this e = Ok (this', e') ->
  simSize this' <> simSize this ->
  Forall (blank_at e') (targets this').
Proof.
  intros Hfresh Ho (Hsv & Hsd & Hsp & Hsdv & Hsc). unfold resize.
  cbn [config with_canvasSize simSize framebuffers with_simSize].
  destruct (andb _ _) eqn:Htest.
  - unfold ret. intros [= <- <-] Hne. exfalso. apply Hne. reflexivity.
  - intros Hr _.
    assert (Hdiff : ~ (size_width (simSize this) =
                         ensureDimension
                           (inject_Z width / inject_Z (texelDownsample (config this)))
                       /\ size_height (simSize this) =
                          ensureDimension
                            (inject_Z height / inject_Z (texelDownsample (config this))))).
    { intros [Hw Hh]. rewrite Hw, Hh, !Z.eqb_refl in Htest. discriminate. }
    bind_inv_as Hr v e1 H1. bind_inv_as Hr d e2 H2. bind_inv_as Hr p e3 H3.
    bind_inv_as Hr dv e4 H4. bind_inv_as Hr c e5 H5.
    cbn in H1, H2, H3, H4, H5.
    unfold _setupBloomBuffers in Hr. cbn in Hr.
    bind_inv_as Hr u e6 H6. destruct u. bind_inv_as Hr chain e7 H7. ret_inv Hr.
    unfold targets in *. cbn.
    cbn [framebuffers velocity density pressure divergence curl bloom].
    set (V := double_targets (Some v)). set (D := double_targets (Some d)).
    set (P := double_targets (Some p)). set (DV := single_targets (Some dv)).
    set (C := single_targets (Some c)).
    assert (Hb1 : Forall (blank_at e1) ([] ++ V)).
    { eapply (blank_resizeDouble e0); [exact Ho|intros u []|constructor| |exact H1].
      exact (double_sized_differs _ _ _ _ _ Hsv Hdiff). }
    pose proof (owns_resizeDouble _ _ _ _ _ _ _ _ _ _ _ Ho H1) as Ho1.
    apply (owns_perm _ _ _ _ (Permutation_app_comm _ _)) in Ho1.
    rewrite <- !app_assoc in Ho1. cbn [app] in Hb1. fold V in Ho1.
    assert (Hb2 : Forall (blank_at e2) (V ++ D)).
    { eapply (blank_resizeDouble e0); [exact Ho1|in_tail|exact Hb1| |exact H2].
      exact (double_sized_differs _ _ _ _ _ Hsd Hdiff). }
    pose proof (owns_resizeDouble _ _ _ _ _ _ _ _ _ _ _ Ho1 H2) as Ho2.
    apply (owns_perm _ _ _ _ (Permutation_app_comm _ _)) in Ho2.
    rewrite <- !app_assoc in Ho2. fold D in Ho2.
    assert (Hb3 : Forall (blank_at e3) ((V ++ D) ++ P)).
    { eapply (blank_resizeDouble e0); [exact Ho2|in_tail|exact Hb2| |exact H3].
      exact (double_sized_differs _ _ _ _ _ Hsp Hdiff). }
    pose proof (owns_resizeDouble _ _ _ _ _ _ _ _ _ _ _ Ho2 H3) as Ho3.
    apply (owns_perm _ _ _ _ (Permutation_app_comm _ _)) in Ho3.
    rewrite <- !app_assoc in Ho3. fold P in Ho3.
    assert (Hb4 : Forall (blank_at e4) (((V ++ D) ++ P) ++ DV)).
    { eapply (blank_resizeSingle e0); [exact Ho3|in_tail|exact Hb3| |exact H4].
      exact (single_sized_differs _ _ _ _ _ Hsdv Hdiff). }
    pose proof (owns_resizeSingle _ _ _ _ _ _ _ _ Ho3 H4) as Ho4.
    apply (owns_perm _ _ _ _ (Permutation_app_comm _ _)) in Ho4.
    rewrite <- !app_assoc in Ho4. fold DV in Ho4.
    assert (Hb5 : Forall (blank_at e5) ((((V ++ D) ++ P) ++ DV) ++ C)).
    { eapply (blank_resizeSingle e0); [exact Ho4|in_tail|exact Hb4| |exact H5].
      exact (single_sized_differs _ _ _ _ _ Hsc Hdiff). }
    pose proof (owns_resizeSingle _ _ _ _ _ _ _ _ Ho4 H5) as Ho5.
    apply (owns_perm _ _ _ _ (Permutation_app_comm _ _)) in Ho5.
    rewrite <- !app_assoc in Ho5. fold C in Ho5. rewrite <- !app_assoc in Hb5.
    pose proof (blank_deleteLevels e0 _ _ _ _ Hfresh Ho5 Hb5 H6) as Hb6.
    pose proof (owns_deleteLevels _ _ _ _ _ Hfresh Ho5 H6) as Ho6.
    pose proof (blank_bloomLevelsLoop e0 _ _ _ [] _ _ _ _ Ho6 Hb6 H7) as Hb7.
    change (Forall (blank_at e7)
              (V ++ D ++ P ++ DV ++ C ++ flat_map level_targets chain)).
    replace (V ++ D ++ P ++ DV ++ C ++ flat_map level_targets chain)
      with ((V ++ D ++ P ++ DV ++ C) ++ flat_map level_targets chain)
      by (rewrite <- !app_assoc; reflexivity).
    eapply Permutation_Forall; [apply Permutation_app_comm|exact Hb7].
Qed.
End ResizeClearsAll.

(** X22: a resize that changes the simulation size discards the fluid.
    On a simulation in use, when [resize] returns with another [simSize],
    every render target of the object, the five fields and the new bloom
    chain, has a texture that is all zero, at the size and in the format
    the object records. *)
Theorem resize_clears {F : Type} `{Scalar F}
    (e0 : Env F) (width height : Z) (this this' : FluidSimulation F) (e e' : Env F) :
  fresh_above e0 ->
  in_use e0 this e ->
  resize width height this e = Ok (this', e') ->
  simSize this' <> simSize this ->
  Forall (blank_at e') (targets this').
Proof.
  intros Hfresh Hu Hr Hne.
  destruct (in_use_kept e0 this e Hfresh Hu) as [_ Ho].
  destruct (reachable_sized this e (in_use_reachable e0 this e Hu)) as [_ Hs].
  exact (resize_blank e0 width height this e this' e' Hfresh Ho Hs Hr Hne).
Qed.

Lemma resize_clears_witness :
  exists this' e',
    resize 12 12 sample_sim sample_env = Ok (this', e') /\
    simSize this' = MkSize 4 4 /\
    Forall (blank_at e') (targets this').
Proof.
  destruct (resize_run 12 12 sample_sim sample_env) as (this' & e' & Hr & _).
  { intros ifmt w h. reflexivity. }
  destruct (resize_shape 12 12 sample_sim this' sample_env e' Hr) as (_ & _ & Hs).
  assert (Hs' : simSize this' = MkSize 4 4) by (rewrite Hs; vm_compute; reflexivity).
  exists this', e'. split; [exact Hr|]. split; [exact Hs'|].
  apply (resize_clears sample_env0 12 12 sample_sim this' sample_env e'
           sample_env0_fresh sample_in_use Hr).
  rewrite Hs'. discriminate.
Defined.

Lemma render_keeps_quad {F : Type} `{Scalar F}
    (this : FluidSimulation F) (d : DoubleFBO F) (e : Env F) (q : handle) :
  density (framebuffers this) = Some d ->
  quadVAO e = Some q ->
  exists e', render this e = Ok (tt, e') /\ quadVAO e' = Some q.
Proof.
  intros Hd Hq. unfold render.
  destruct (andb _ _).
  - destruct (_runBloom_run this d e q Hd Hq) as (e1 & Hrun & Hq1).
    erewrite bind_run by (rewrite (bind_run _ _ _ _ _ Hrun); reflexivity).
    rewrite Hd. cbn [deref]. rewrite (bind_run _ _ e1 e1 d eq_refl).
    rewrite (blit_run _ _ _ q Hq1). eexists. split; [reflexivity|exact Hq1].
  - rewrite (bind_run _ _ e e None eq_refl).
    rewrite Hd. cbn [deref]. rewrite (bind_run _ _ e e d eq_refl).
    rewrite (blit_run _ _ _ q Hq). eexists. split; [reflexivity|exact Hq].
Qed.

(** X23: the render loop keeps going.  On a simulation in use with the
    full-screen quad set, [frame] never throws, whatever the clock reads
    and whatever the pointers are; afterwards the simulation is still in
    use, the quad is still set, [lastTime] is the time of this frame and
    the Map of pointers has the same ids in the same order.  So a next
    frame runs as well. *)
Theorem frame_never_throws {F : Type} `{Scalar F}
    (e0 : Env F) (now : F) (app : App F) (e : Env F) (q : handle) :
  in_use e0 (simulation app) e ->
  quadVAO e = Some q ->
  exists app' e',
    frame now app e = Ok (app', e') /\
    in_use e0 (simulation app') e' /\
    quadVAO e' = Some q /\
    lastTime app' = now /\
    map fst (ui_pointers app') = map fst (ui_pointers app).
Proof.
  intros Hu Hq. unfold frame.
  pose proof (proj1 (reachable_sized _ _ (in_use_reachable _ _ _ Hu))) as Ha.
  set (delta := fmax _ _).
  destruct (step_total delta (getPointers (ui_pointers app)) (simulation app) e q Ha Hq)
    as (ps' & s' & e1 & Hstep & Ha' & Hq1).
  rewrite (bind_run _ _ _ _ _ Hstep). cbn [fst snd].
  destruct Ha' as (_ & [d Hd] & _).
  destruct (render_keeps_quad s' d e1 q Hd Hq1) as (e2 & Hrender & Hq2).
  rewrite (bind_run _ _ _ _ _ Hrender).
  eexists _, e2. split; [reflexivity|]. cbn.
  split; [|split; [exact Hq2|split; [reflexivity|]]].
  - eapply use_render; [|exact Hrender]. eapply use_step; [exact Hu|exact Hstep].
  - pose proof (step_pointers_after _ _ _ _ _ _ _ Hstep) as Hall.
    unfold getPointers in Hall. clear -Hall.
    revert ps' Hall. induction (ui_pointers app) as [|[k v] m IH]; intros ps' Hall.
    + reflexivity.
    + cbn in *. inversion Hall; subst. cbn. f_equal. apply IH. assumption.
Qed.

Lemma frame_never_throws_witness :
  exists app' e',
    frame 16%R (MkApp sample_sim sample_pointers 0%R) sample_env = Ok (app', e') /\
    in_use sample_env0 (simulation app') e' /\
    quadVAO e' = Some 0%nat.
Proof.
  destruct (frame_never_throws sample_env0 16%R (MkApp sample_sim sample_pointers 0%R)
              sample_env 0%nat sample_in_use eq_refl)
    as (app' & e' & Hrun & Hu & Hq & _).
  exists app', e'. split; [exact Hrun|]. split; [exact Hu|exact Hq].
Defined.

(** ** The bloom chain after a resize *)

Section BloomSquare.
Context {F : Type} `{Scalar F}.

Lemma bloomLevelsLoop_inv (n : nat) (w h : Z) (acc : list (BloomLevel F))
    (e : Env F) chain e' :
  bloomLevelsLoop n w h acc e = Ok (chain, e') ->
  exists new,
    chain = acc ++ new /\
    map level_size new = bloom_sizes n w h /\
    map temp_size new = bloom_sizes n w h.
Proof.
  revert w h acc e. induction n as [|n IH]; intros w h acc e Hr.
  - cbn in Hr. ret_inv Hr. exists []. rewrite app_nil_r. auto.
  - cbn [bloomLevelsLoop bloom_sizes] in *.
    bind_inv_as Hr b e1 H1. bind_inv_as Hr t e2 H2.
    apply createFBO_ok in H1 as (_ & _ & Hbw & Hbh & _).
    apply createFBO_ok in H2 as (_ & _ & Htw & Hth & _).
    destruct (_ || _).
    + ret_inv Hr. exists [MkBloomLevel b t]. unfold level_size, temp_size. cbn.
      rewrite Hbw, Hbh, Htw, Hth. auto.
    + destruct (IH _ _ _ _ Hr) as (new & -> & Hsz & Htsz).
      exists (MkBloomLevel b t :: new). rewrite <- app_assoc. cbn [map app].
      rewrite Hsz, Htsz. unfold level_size, temp_size. cbn [buffer temp].
      rewrite Hbw, Hbh, Htw, Hth. auto.
Qed.

Lemma bloom_sizes_square (n : nat) (w : Z) :
  Forall (fun size => fst size = snd size) (bloom_sizes n w w).
Proof.
  revert w. induction n as [|n IH]; intros w; cbn [bloom_sizes].
  - constructor.
  - constructor; [reflexivity|]. destruct (_ || _); [constructor|apply IH].
Qed.
End BloomSquare.

(** X24: [resize] sizes the bloom chain from the width of the canvas
    alone.  When it returns with another simulation size, the chain is not
    empty, its first level is max(2, floor(width / 2)) wide, and every
    level is square, its temp target as large as its buffer, whatever the
    height of the canvas is. *)
Theorem resize_bloom_square {F : Type} `{Scalar F}
    (width' height' : Z) (this this' : FluidSimulation F) (e e' : Env F) :
  resize width' height' this e = Ok (this', e') ->
  simSize this' <> simSize this ->
  (exists first rest,
      bloom (framebuffers this') = first :: rest /\
      width (buffer first) = ensureDimension (inject_Z width' / 2)) /\
  Forall (fun level =>
            height (buffer level) = width (buffer level) /\
            width (temp level) = width (buffer level) /\
            height (temp level) = width (buffer level))
    (bloom (framebuffers this')).
Proof.
  unfold resize. cbn [config with_canvasSize simSize framebuffers with_simSize].
  destruct (andb _ _).
  - unfold ret. intros [= <- <-] Hne. exfalso. apply Hne. reflexivity.
  - intros Hr _. do 5 bind_inv Hr.
    unfold _setupBloomBuffers in Hr. bind_inv Hr. bind_inv_as Hr chain e7 H7.
    ret_inv Hr. cbn [framebuffers with_framebuffers with_bloom bloom].
    apply bloomLevelsLoop_inv in H7 as (new & -> & Hsz & Htsz). cbn [app].
    set (n := Z.to_nat _) in *.
    assert (Hn : exists k, n = S k).
    { destruct n eqn:Hn; [|eauto]. exfalso. unfold n in Hn. lia. }
    destruct Hn as [k Hk]. split.
    + rewrite Hk in Hsz. cbn [bloom_sizes] in Hsz.
      destruct new as [|first rest]; [discriminate|].
      exists first, rest. split; [reflexivity|].
      cbn [map] in Hsz. revert Hsz. unfold level_size. intros [= Hw _ _]. exact Hw.
    + pose proof (bloom_sizes_square n (ensureDimension (inject_Z width' / 2))) as Hsq.
      rewrite <- Hsz in Hsq. clear Hk.
      assert (Ht : map temp_size new = map level_size new) by congruence.
      clear Hsz Htsz. induction new as [|level new IH]; constructor.
      * cbn [map] in Hsq, Ht. apply Forall_cons in Hsq as [Hl _].
        revert Ht. unfold temp_size, level_size in *. cbn in Hl.
        intros [= Htw Hth _]. repeat split; congruence.
      * apply IH; [cbn [map] in Hsq; apply Forall_cons in Hsq as [_ Hsq]; exact Hsq|].
        cbn [map] in Ht. revert Ht. intros [= _ _ Ht]. exact Ht.
Qed.

Lemma resize_bloom_square_witness :
  exists this' e' first rest,
    resize 12 40 sample_sim sample_env = Ok (this', e') /\
    bloom (framebuffers this') = first :: rest /\
    width (buffer first) = 6 /\ height (buffer first) = 6.
Proof.
  destruct (resize_run 12 40 sample_sim sample_env) as (this' & e' & Hr & _).
  { intros ifmt w h. reflexivity. }
  destruct (resize_shape 12 40 sample_sim this' sample_env e' Hr) as (_ & _ & Hs).
  assert (Hs' : simSize this' = MkSize 4 13) by (rewrite Hs; vm_compute; reflexivity).
  destruct (resize_bloom_square 12 40 sample_sim this' sample_env e' Hr)
    as [(first & rest & Hb & Hw) Hall].
  { rewrite Hs'. discriminate. }
  exists this', e', first, rest. split; [exact Hr|]. split; [exact Hb|].
  rewrite Hb in Hall. apply Forall_cons in Hall as [(Hh & _) _].
  split; [|rewrite Hh]; rewrite Hw; vm_compute; reflexivity.
Defined.

(** ** Timers *)

Section Timers.
Context {F : Type} `{Scalar F}.

(* what the impulses and the passes of a tick leave alone *)
Lemma tick_keeps_timers dt rc (pointers : list (Pointer F)) (s0 : FluidSimulation F)
    e pointers' this' e' :
  (r <- applyPointers pointers rc s0 ;;
   this <- _advectVelocity dt (snd r) ;;
   this <- _applyVorticity dt this ;;
   this <- _computeDivergence this ;;
   this <- _solvePressure this ;;
   this <- _subtractPressureGradient this ;;
   this <- _advectDye dt this ;;
   ret (fst r, this))%gl e = Ok ((pointers', this'), e') ->
  autoTimer this' = autoTimer s0 /\
  colorCycleTimer this' = colorCycleTimer s0 /\
  config this' = config s0 /\
  simSize this' = simSize s0 /\
  Forall2 (pointer_after rc) pointers pointers'.
Proof.
  intros Hr.
  set (P := fun s : FluidSimulation F =>
              autoTimer s = autoTimer s0 /\ colorCycleTimer s = colorCycleTimer s0 /\
              config s = config s0 /\ simSize s = simSize s0).
  assert (HP0 : P s0) by (repeat split).
  assert (Hsv : forall s, P s -> P (swap_velocity s)) by (intros s Hs; exact Hs).
  assert (Hsd : forall s, P s -> P (swap_density s)) by (intros s Hs; exact Hs).
  assert (Hsp : forall s, P s -> P (swap_pressure s)) by (intros s Hs; exact Hs).
  assert (Hlc : forall s c, P s -> P (with_lastPointerColor s c))
    by (intros s c Hs; exact Hs).
  bind_inv_as Hr r1 e1 H1. destruct r1 as [ps1 s1]. cbn [fst snd] in Hr.
  bind_inv_as Hr s2 e2 H2. bind_inv_as Hr s3 e3 H3. bind_inv_as Hr s4 e4 H4.
  bind_inv_as Hr s5 e5 H5. bind_inv_as Hr s6 e6 H6. bind_inv_as Hr s7 e7 H7.
  unfold ret in Hr. revert Hr. intros [= <- <- <-].
  pose proof (applyPointers_keeps P Hsv Hsd Hlc _ _ _ _ _ _ _ HP0 H1) as P1.
  pose proof (_advectVelocity_keeps P Hsv _ _ _ _ _ P1 H2) as P2.
  pose proof (_applyVorticity_keeps P Hsv _ _ _ _ _ P2 H3) as P3.
  pose proof (_computeDivergence_keeps P _ _ _ _ P3 H4) as P4.
  pose proof (_solvePressure_keeps P Hsp _ _ _ _ P4 H5) as P5.
  pose proof (_subtractPressureGradient_keeps P Hsv _ _ _ _ P5 H6) as P6.
  pose proof (_advectDye_keeps P Hsd _ _ _ _ _ P6 H7) as (Ha & Hc & Hcfg & Hss).
  repeat split; try assumption.
  eapply applyPointers_pointers. exact H1.
Qed.
End Timers.

(** X25: the timers of a tick.  A tick that is not paused adds the time
    step it was given, uncapped, to [autoTimer].  Colour cycling fires
    when [cycleColors] is set and [colorCycleTimer] plus the time step
    exceeds [colorCycleSpeed]; then [colorCycleTimer] is 0 after the tick,
    and otherwise it has grown by the time step.  The pointer objects are
    updated with that very flag: unless cycling fires, every pointer keeps
    its colour.  Configuration and simulation size are as before. *)
Theorem step_colour_cycle {F : Type} `{Scalar F}
    (deltaTime : F) (pointers pointers' : list (Pointer F))
    (this this' : FluidSimulation F) (e e' : Env F) :
  paused (config this) = false ->
  step deltaTime pointers this e = Ok ((pointers', this'), e') ->
  let fires :=
    cycleColors (config this)
    && (colorCycleTimer this + deltaTime >? colorCycleSpeed (config this))%fl in
  autoTimer this' = (autoTimer this + deltaTime)%fl /\
  colorCycleTimer this' =
    (if fires then lit 0 else (colorCycleTimer this + deltaTime)%fl) /\
  config this' = config this /\
  simSize this' = simSize this /\
  Forall2 (pointer_after fires) pointers pointers'.
Proof.
  intros Hp Hr fires. unfold step in Hr. rewrite Hp in Hr.
  change (cycleColors (config this)
          && (colorCycleTimer
                (with_colorCycleTimer
                   (with_autoTimer this (autoTimer this + deltaTime)%fl)
                   (colorCycleTimer
                      (with_autoTimer this (autoTimer this + deltaTime)%fl)
                    + deltaTime)%fl)
              >? colorCycleSpeed (config this))%fl) with fires in Hr.
  apply tick_keeps_timers in Hr as (Ha & Hc & Hcfg & Hss & Hps).
  rewrite Ha, Hc, Hcfg, Hss. destruct fires; repeat split; assumption.
Qed.

Lemma step_colour_cycle_witness :
  exists pointers' this' e',
    step (lit 0.016) [sample_pointer; still_pointer] sample_sim sample_env
    = Ok ((pointers', this'), e') /\
    autoTimer this' = (autoTimer sample_sim + lit 0.016)%R /\
    config this' = config sample_sim.
Proof.
  destruct (step_total (lit 0.016) [sample_pointer; still_pointer] sample_sim
              sample_env 0%nat sample_allocated eq_refl)
    as (ps' & this' & e' & Hrun & _ & _).
  destruct (step_colour_cycle (lit 0.016) [sample_pointer; still_pointer] ps'
              sample_sim this' sample_env e' eq_refl Hrun)
    as (Ha & _ & Hcfg & _).
  exists ps', this', e'. split; [exact Hrun|]. split; [exact Ha|exact Hcfg].
Defined.
